(* ===== verification/_CoqProject ===== *)
-Q . S2P
Prelude.v
Util.v
Fmt.v
Path.v
FsTypes.v
Fs.v
Registry.v
RamFs.v
DevFs.v
DirCache.v
Vfs.v
VfsFrame.v
VfsInv.v
VfsLookup.v
VfsWalk.v
VfsResolve.v
VfsCreate.v
VfsDirs.v
VfsMount.v
VfsFiles.v
VfsIo.v
VfsReadDir.v
VfsPrune.v
VfsReach.v
VfsCalls.v
VfsProps.v
NodeIds.v
Parser.v
Vga.v
VgaText.v
Memory.v
Executor.v
Keyboard.v
Interrupts.v
Block.v
Shell.v
ShellFs.v
ShellScreen.v
ShellText.v
ShellRef.v
ShellEdit.v
ShellCmds.v
ShellExec.v
ShellProps.v
Panic.v
Kernel.v
System.v
