(* ===== verification/Prelude.v ===== *)
(** * RiptideOS kernel: a verification development

    RiptideOS is a small x86-64 kernel in Rust ([src/kernel/src]).  At boot
    [kernel_main] loads the descriptor tables, maps a heap, registers the drivers
    and mounts a RAM file system at [/] and a device file system at [/dev]; then a
    cooperative executor runs one task, a shell that reads scancodes from the
    keyboard interrupt, edits a line on the VGA text screen and runs commands
    against the virtual file system.  This development models that program, from
    [kernel_main] to the commands of the shell, and proves what makes each part
    correct.

    ** The parts and their files

    - [Prelude], [Util], [Fmt]: outcomes and the state monad, ordered maps, the
      lemmas they share; [util/sync_cell.rs], [util/defer.rs]; the formatting and
      UTF-8 functions of the language's library that the shell uses.
    - File subsystem.  [Path]: [fs/path.rs].  [FsTypes], [Fs]: the objects, node
      and file methods and traits of [fs/mod.rs], and reference counting.
      [Registry]: [fs/registry.rs], [device/char.rs] and the character devices.
      [RamFs], [DevFs]: [drivers/fs/ram.rs], [drivers/fs/dev.rs].  [DirCache] and
      [Vfs]: [fs/vfs.rs], one definition per method of [VirtualFileSystem].
      Proofs: [VfsFrame] (frame facts), [VfsInv] (the invariant), [VfsLookup],
      [VfsWalk] (the name space as a reference), [VfsResolve], [VfsCreate],
      [VfsDirs], [VfsMount], [VfsFiles], [VfsIo], [VfsReadDir], [VfsPrune],
      [VfsReach] (reachable states), [VfsCalls] (the interface [FsCall] that
      clients rely on), [VfsProps] (the theorems) and [NodeIds] (node identity).
    - Screen.  [Vga]: [vga.rs].  [VgaText]: printing as text on a
      terminal, and the bottom row.
    - Input.  [Parser]: [shell/parser.rs].  [Executor]: [task/mod.rs] and
      [task/executor.rs].  [Keyboard]: [shell/keyboard.rs], the interrupts and
      [sleep_if_idle], one access to shared state per step.
    - Machine.  [Memory]: [memory.rs], [allocator.rs].  [Interrupts]:
      [interrupts.rs], [gdt.rs].  [Block]: [device/block.rs], [drivers/block].
      [Panic]: [panic.rs].  [Kernel]: [main.rs].
    - Shell.  [Shell]: [shell/mod.rs].  [ShellFs] (the commands keep the
      invariants), [ShellScreen] (what they leave on the screen), [ShellText] (what
      code prints, as text, with the interrupts in between), [ShellRef] (a
      reference for command lines), [ShellEdit] (the line editor), [ShellCmds]
      ([touch], [cat], [ls], [mkdir] implement it), [ShellExec] (every command
      line does), [ShellProps] (Enter and whole sessions).
    - [System]: interrupts, executor and shell composed; the shell of [Shell] is the
      handler that [Keyboard] leaves open.

    A struct is a [Record] with the same fields, an enum an [Inductive] with the
    same constructors, a function or method a [Definition] in the monad [M S E],
    which passes the state, returns the error of a [Result] and ends in a [Panic]
    where the code panics.

    ** How the code is read

    - Shared objects.  [Arc]s of nodes, entries and file systems are locations in
      the maps of [kernel] ([FsTypes]).  An entry lives as long as a strong
      reference to it: a child's parent pointer, a mount, or a local variable; the
      locals are the list [held], and leaving a scope drops them and collects what
      is no longer reachable ([Fs.gc]).  The directory cache holds weak
      references.
    - Integers are [Z].  The dev profile checks overflow, so [+] and [-] panic
      with [ArithOverflow]; [AtomicU64::fetch_add] wraps, and theorems about calls
      that take a new identifier assume that the counter has not wrapped
      ([no_wrap] of the state after the call).
    - Maps are [gmap]s; a [BTreeMap] is iterated in the order of its keys.  Strings
      are byte strings, a [char] is its scalar value.
    - Locks of the file subsystem are not modelled: one task uses it and no
      interrupt handler does.  The screen is also written by handlers; its
      functions run with interrupts disabled, so the shell's model lets any
      interrupt output come before each of them ([Shell.world]), and [kernel_main]
      takes interrupts between its steps once they are enabled ([Kernel]).  In
      [Keyboard] an interrupt can come between any two accesses.
    - Fuel.  [ancestors] and [rpath] follow parent pointers, which go to smaller
      locations, with the location as fuel ([rpath_fuel_enough]); [collect] takes
      a token per step, with the length plus one ([collect_tokens]);
      [from_utf8_lossy] takes a byte at least per step, with the length
      ([lossy_fuel]).

    Code outside the repository is an interface, a type class of operations with a
    class of the documented laws the theorems use, and an instance that shows they
    can hold: [ArrayQueue], [AtomicWaker], [MemoryMap], [PhysFrames], [Paging],
    [Mapper], [PageTables], [Tables], [Pics], [HeaplessString], [Deque],
    [KeyDecoder], and [Fmt.Unicode] for the escapes of characters outside ASCII.

    ** What the theorems show

    - File subsystem ([VfsProps]): every reachable state satisfies the invariant;
      resolution, opening, creation, mounting, listing and pruning agree with a
      reference semantics in which the name space is a function from paths, cached
      or not; two paths lead to one node exactly if they name one place, and then to
      one entry; reading and writing agree with byte lists; equality of nodes is
      identity; a call panics only for a cause that its arguments and the state
      show, and never at an assertion of the directory cache.
    - Screen ([Vga], [Panic]): printing never indexes out of range and the screen
      is a window on an unbounded terminal; the report of a panic does not panic, is
      what the screen shows, and ends with interrupts disabled.
    - Input ([Keyboard], [Executor], [Parser]): no wake-up and no keystroke is lost,
      queued tasks are polled, the tokenizer equals a reference and its raw slices
      are in bounds.
    - Machine ([Memory], [Interrupts], [Kernel]): heap pages get frames of their
      own, the tables the kernel loads dispatch to its handlers, and [kernel_main]
      reaches the executor with every component in order and every interrupt
      acknowledged.
    - Shell ([ShellProps], [ShellCmds]): the editor is a list of characters and
      shows it; Enter does to the file subsystem and prints what the reference of the
      command line says, and returns to a prompt; whole sessions keep every
      invariant whatever interrupts print; [ls], [touch] and [cat] in detail.
    - The running system ([System]): under any interleaving of interrupts the input
      buffer is the line the handled scancodes make; without interrupts the system
      comes to rest, and then the line is that of every accepted scancode.

    ** Not modelled

    - Exhaustion of the 128 KiB heap, which aborts the kernel at an allocation: the
      linked-list allocator is a library and the models allocate without bound.
    - The [Future] that the compiler makes of [shell::run]: [Keyboard] has its
      suspension points, [Shell] what it does between them.
    - The memory behind the page tables, descriptor tables and I/O ports, beyond
      the sequence of writes to the cursor's ports.
    - The RAM disk ([drivers/block/ram.rs]), an empty struct.

    ** Plan

    Next: what [ls -l] prints, and the option scan of the commands against a
    reference. *)

From Stdlib Require Export ZArith Lia.
From Stdlib Require Import Init.Byte.
From stdpp Require Export base tactics option list strings gmap fin_maps sorting.
From Stdlib Require Ascii.
From Stdlib Require Strings.Byte.
Delimit Scope char_scope with char.
Export Ascii.AsciiSyntax.

(** ** Outcomes of Rust code

    A Rust function of type [Result<A, E>] either returns [Ok], returns [Err],
    or panics.  Kernel panics halt the machine ([panic-strategy = "abort"]), so
    a panic is a third, terminal outcome.  [PanicKind] records which construct
    of the source raised it. *)

Inductive PanicKind :=
  | Todo              (* [todo!()] *)
  | Unreachable       (* [unreachable!()] *)
  | AssertFailed      (* [assert!], [assert_eq!], [assert_ne!] *)
  | CacheAssert       (* the assertions of [DirectoryCache::insert] *)
  | UnwrapNone        (* [Option::unwrap] / [expect] on [None] *)
  | UnwrapErr         (* [Result::unwrap] / [expect] on [Err] *)
  | ExplicitPanic     (* [panic!] *)
  | ArithOverflow     (* overflow of [+], [-] under overflow checks *)
  | OutOfBounds       (* slice or array index out of range *)
  | DanglingPtr.      (* use of a freed object: ruled out by the borrow checker *)

Inductive outcome (E A : Type) :=
  | Ok (a : A)
  | Err (e : E)
  | Panic (p : PanicKind).
Arguments Ok {E A} a.
Arguments Err {E A} e.
Arguments Panic {E A} p.

#[export] Instance PanicKind_eq_dec : EqDecision PanicKind.
Proof. solve_decision. Defined.

(** ** The state and error monad

    Stateful kernel code is a function from the state to an outcome and the
    state afterwards.  The state survives an [Err], as it does in Rust. *)

Definition M (S E A : Type) : Type := S → outcome E A * S.

#[export] Instance M_ret S E : MRet (M S E) := λ A a s, (Ok a, s).
#[export] Instance M_bind S E : MBind (M S E) := λ A B k m s,
  match m s with
  | (Ok a, s') => k a s'
  | (Err e, s') => (Err e, s')
  | (Panic p, s') => (Panic p, s')
  end.

Definition gets {S E A} (f : S → A) : M S E A := λ s, (Ok (f s), s).
Definition modify {S E} (f : S → S) : M S E unit := λ s, (Ok tt, f s).
Definition fail {S E A} (e : E) : M S E A := λ s, (Err e, s).
Definition panic {S E A} (p : PanicKind) : M S E A := λ s, (Panic p, s).
Definition assert_or {S E} (p : PanicKind) (b : bool) : M S E unit := if b then mret tt else panic p.
Definition assert {S E} (b : bool) : M S E unit := assert_or AssertFailed b.
(** [Option::unwrap]/[expect]. *)
Definition unwrap {S E A} (p : PanicKind) (o : option A) : M S E A :=
  match o with Some a => mret a | None => panic p end.
(** [Option::ok_or(e)?]. *)
Definition ok_or {S E A} (e : E) (o : option A) : M S E A :=
  match o with Some a => mret a | None => fail e end.
(** [Result::unwrap]/[expect] in a function that cannot return [Err]:
    an error becomes a panic. *)
Definition expect {S E E' A} (m : M S E A) : M S E' A := λ s,
  match m s with
  | (Ok a, s') => (Ok a, s')
  | (Err _, s') => (Panic UnwrapErr, s')
  | (Panic p, s') => (Panic p, s')
  end.

Definition is_ok {E A} (r : outcome E A) : bool :=
  match r with Ok _ => true | _ => false end.
Definition is_panic {E A} (r : outcome E A) : bool :=
  match r with Panic _ => true | _ => false end.

(** ** Machine integers

    A [usize]/[u64] is a [Z] in [0, 2^64).  The kernel is built with the dev
    profile, whose overflow checks turn an overflowing [+] or [-] into a panic;
    [AtomicU64::fetch_add] wraps instead. *)

Definition u64_max : Z := 18446744073709551615.
Definition two64 : Z := 18446744073709551616.
Definition wrap64 (z : Z) : Z := z mod two64.
Definition checked_add {S E} (a b : Z) : M S E Z :=
  if decide (a + b ≤ u64_max)%Z then mret (a + b)%Z else panic ArithOverflow.
Definition checked_sub {S E} (a b : Z) : M S E Z :=
  if decide (b ≤ a)%Z then mret (a - b)%Z else panic ArithOverflow.

(** ** Ordered maps

    A [BTreeMap] is a [gmap]; its iterators visit the keys in increasing
    order. *)

Definition key_le {K A} (R : relation K) : relation (K * A) := λ x y, R x.1 y.1.
#[export] Instance key_le_dec {K A} (R : relation K) `{!RelDecision R} :
  RelDecision (key_le (A:=A) R).
Proof. intros x y. unfold key_le. apply _. Defined.

Definition btree_iter {K A} `{Countable K} (R : relation K) `{!RelDecision R}
    (m : gmap K A) : list (K * A) :=
  merge_sort (key_le R) (map_to_list m).
Definition btree_values {K A} `{Countable K} (R : relation K) `{!RelDecision R}
    (m : gmap K A) : list A := (btree_iter R m).*2.

(** ** Strings

    A [&str] is the string of its UTF-8 bytes. *)

Definition is_ascii_char (c : Ascii.ascii) : bool := Nat.ltb (Ascii.nat_of_ascii c) 128.
Fixpoint is_ascii (s : string) : bool :=
  match s with
  | EmptyString => true
  | String c s' => is_ascii_char c && is_ascii s'
  end.
Definition str_len (s : string) : Z := Z.of_nat (String.length s).

#[export] Instance byte_eq_dec : EqDecision byte := Byte.byte_eq_dec.

(** ** Lemmas on the monad *)

Lemma mbind_ok {S E A B} (k : A → M S E B) (m : M S E A) s r s' :
  (m ≫= k) s = (r, s') ↔
  (∃ a s1, m s = (Ok a, s1) ∧ k a s1 = (r, s')) ∨
  (∃ e, m s = (Err e, s') ∧ r = Err e) ∨
  (∃ p, m s = (Panic p, s') ∧ r = Panic p).
Proof.
  unfold mbind, M_bind. destruct (m s) as [[a|e|p] s1]; split.
  - intros Hk. left. eauto.
  - intros [(a' & s2 & ? & ?)|[(? & ? & ?)|(? & ? & ?)]]; simplify_eq; done.
  - intros [= <- <-]. right; left. eauto.
  - intros [(a' & s2 & ? & ?)|[(? & ? & ?)|(? & ? & ?)]]; simplify_eq; done.
  - intros [= <- <-]. right; right. eauto.
  - intros [(a' & s2 & ? & ?)|[(? & ? & ?)|(? & ? & ?)]]; simplify_eq; done.
Qed.

Lemma mbind_run {S E A B} (k : A → M S E B) (m : M S E A) s a s1 :
  m s = (Ok a, s1) → (m ≫= k) s = k a s1.
Proof. unfold mbind, M_bind. by intros ->. Qed.

Lemma mbind_gets {S E A B} (k : A → M S E B) (f : S → A) s : (gets f ≫= k) s = k (f s) s.
Proof. done. Qed.
Lemma mbind_modify {S E B} (k : unit → M S E B) (f : S → S) s : (modify f ≫= k) s = k tt (f s).
Proof. done. Qed.
Lemma mbind_ret {S E A B} (k : A → M S E B) a s : (mret a ≫= k) s = k a s.
Proof. done. Qed.

Lemma mbind_Ok_inv {S E A B} (k : A → M S E B) (m : M S E A) s b s' :
  (m ≫= k) s = (Ok b, s') → ∃ a s1, m s = (Ok a, s1) ∧ k a s1 = (Ok b, s').
Proof. by intros [?|[(? & ? & ?)|(? & ? & ?)]]%mbind_ok. Qed.

(** ** Lemmas on ordered maps *)

Section btree.
Context {K A : Type} `{Countable K} (R : relation K) `{!RelDecision R}.
Implicit Types m : gmap K A.

Lemma elem_of_btree_iter m k x : (k, x) ∈ btree_iter R m ↔ m !! k = Some x.
Proof. unfold btree_iter. by rewrite merge_sort_Permutation, elem_of_map_to_list. Qed.

Lemma elem_of_btree_values m x : x ∈ btree_values R m ↔ ∃ k, m !! k = Some x.
Proof.
  unfold btree_values. rewrite list_elem_of_fmap. split.
  - intros ([k y] & -> & Hin%elem_of_btree_iter). eauto.
  - intros [k Hk]. exists (k, x). by rewrite elem_of_btree_iter.
Qed.

Lemma btree_iter_sorted `{!Transitive R, !Total R} m :
  StronglySorted R (btree_iter R m).*1.
Proof.
  unfold btree_iter.
  assert (StronglySorted (key_le R) (merge_sort (key_le R) (map_to_list m))) as Hs.
  { assert (Transitive (key_le (A:=A) R)) by (intros [x ?] [y ?] [z ?]; unfold key_le; simpl; apply (transitivity (R:=R))).
    assert (Total (key_le (A:=A) R)) by (intros [x ?] [y ?]; apply (total R)).
    apply (StronglySorted_merge_sort (key_le R)). }
  induction Hs as [|x l Hs IH Hall]; constructor; [done|].
  apply Forall_fmap. exact Hall.
Qed.

Lemma btree_iter_nodup m : NoDup (btree_iter R m).*1.
Proof. unfold btree_iter. rewrite merge_sort_Permutation. apply NoDup_fst_map_to_list. Qed.

Lemma btree_iter_length m : length (btree_iter R m) = size m.
Proof. unfold btree_iter. by rewrite merge_sort_Permutation, length_map_to_list. Qed.
End btree.

Lemma alter_as_insert {K A} `{Countable K} (f : A → A) (m : gmap K A) i x :
  m !! i = Some x → alter f i m = <[i := f x]> m.
Proof.
  intros Hx. apply map_eq. intros j. rewrite lookup_alter, lookup_insert.
  case_decide; [|done]. by rewrite Hx.
Qed.

Lemma list_alter_as_insert {A} (f : A → A) (l : list A) i x :
  l !! i = Some x → alter f i l = <[i := f x]> l.
Proof.
  revert i. induction l as [|y l IH]; intros [|i] Hx; simplify_eq/=; [done|]. f_equal. by apply IH.
Qed.

(** ** Automation *)

Create HintDb riptide.

(** Unfolds the monad in a hypothesis about a run. *)
Ltac munfold H :=
  unfold unwrap, ok_or, assert, mbind, M_bind, mret, M_ret, gets, modify, fail, panic in H;
  cbn beta iota zeta in H.

(** [minv H as a s H1] splits [H : (m ≫= f) s0 = (r, s')] by the outcome of [m];
    the failing outcomes are left as second and third goal. *)
Tactic Notation "minv" hyp(H) "as" ident(a) ident(s) ident(H1) :=
  apply mbind_ok in H as [(a & s & H1 & H)|[(a & H1 & H)|(a & H1 & H)]].
