(* ===== verification/Util.v ===== *)
(** * Utilities: [util/sync_cell.rs] and [util/defer.rs]

    [SynCell<T>] is a cell updated through a shared reference; its methods are
    state transformers on the contents.  [defer_handle!] attaches a cleanup
    block to a scope that runs when the scope is left, unless the handle was
    cancelled. *)

From S2P Require Import Prelude.

Module SynCell.
Record t (T : Type) := { inner : T }.
Arguments inner {T} _.

Definition new {T} (value : T) : t T := {| inner := value |}.
Definition set {T} (value : T) (_ : t T) : t T := {| inner := value |}.
(** [update]: [f] gets a mutable reference to the contents. *)
Definition update {T R} (f : T → R * T) (c : t T) : R * t T :=
  let '(r, v) := f (inner c) in (r, {| inner := v |}).
Definition cloned {T} (c : t T) : T := inner c.
Definition get {T} (c : t T) : T := inner c.
(** [replace]: the contents become [f] of the contents, the previous value is
    returned.  [f] may panic. *)
Definition replace {S E T} (f : T → M S E T) (c : t T) : M S E (T * t T) :=
  let prev := inner c in
  v ← f (inner c);
  mret (prev, {| inner := v |}).
End SynCell.

(** ** [DeferHandle]

    The guarded scope runs over the state extended with the handle's flag. *)

Module Defer.
Section defer.
Context {S E : Type}.

Definition new : bool := false.
Definition cancel : M (S * bool) E unit := modify (λ s, (s.1, true)).
Definition is_canceled (h : bool) : bool := h.

(** Code of the scope that does not touch the handle. *)
Definition lift {A} (m : M S E A) : M (S * bool) E A := λ s,
  let '(r, s') := m s.1 in (r, (s', s.2)).

(** [defer_handle!(b)] followed by [body], the rest of the scope.  The guard is
    dropped on a normal and on an early return; a panic aborts the kernel
    without unwinding, so the block does not run then. *)
Definition defer_handle {A} (b : M S E unit) (body : M (S * bool) E A) : M S E A := λ s,
  match body (s, new) with
  | (Panic p, (s', _)) => (Panic p, s')
  | (r, (s', h)) =>
      if is_canceled h then (r, s')
      else match b s' with
           | (Panic p, s'') => (Panic p, s'')
           | (_, s'') => (r, s'')
           end
  end.
End defer.
End Defer.

(** A scope that cancels its handle at the end runs the block exactly when the
    scope fails. *)
Lemma defer_handle_cancel_last {S E A B} (b : M S E unit) (m : M S E A) (k : A → M S E B) s :
  Defer.defer_handle b
    (a ← Defer.lift m; r ← Defer.lift (k a); _ ← Defer.cancel; mret r) s =
  match (m ≫= k) s with
  | (Err e, s') => match b s' with
                   | (Panic p, s'') => (Panic p, s'')
                   | (_, s'') => (Err e, s'')
                   end
  | r => r
  end.
Proof.
  unfold Defer.defer_handle, Defer.lift, Defer.cancel, mbind, M_bind, modify, mret, M_ret.
  simpl. destruct (m s) as [[a|e|p] s1]; simpl; [|done..].
  by destruct (k a s1) as [[r|e|p] s2].
Qed.

Lemma SynCell_replace_spec {S E T} (f : T → M S E T) v v' c s s' :
  SynCell.get c = v → f v s = (Ok v', s') →
  SynCell.replace f c s = (Ok (v, SynCell.new v'), s').
Proof.
  intros <- Hf. unfold SynCell.replace, mbind, M_bind, mret, M_ret, SynCell.get in *.
  by rewrite Hf.
Qed.
