(* ===== verification/Fmt.v ===== *)
(** * Text: the parts of [core] and [alloc] the shell formats with

    UTF-8 encoding of a [char], [String::from_utf8_lossy], [Debug] for [str] and
    for a list of them, decimal numbers and padding.  A [char] is its scalar
    value, a [str] the string of its UTF-8 bytes.  [Debug] of a character outside
    ASCII consults Unicode tables; it is an interface. *)

From Stdlib Require Import Init.Byte.
From stdpp Require Import pretty.
From S2P Require Import Prelude.

Module Fmt.

(** ** Bytes *)

Definition byte_Z (b : byte) : Z := Z.of_N (Byte.to_N b).
(** The byte of a value below 256. *)
Definition byte_of (z : Z) : byte := default x00 (Byte.of_N (Z.to_N z)).
Definition str (bs : list byte) : string := String.string_of_list_byte bs.
Definition bytes_of (s : string) : list byte := String.list_byte_of_string s.

(** ** [char::encode_utf8] *)

Definition encode_utf8 (c : Z) : list byte :=
  if decide (c < 0x80)%Z then [byte_of c]
  else if decide (c < 0x800)%Z then
    [byte_of (0xC0 + c / 64); byte_of (0x80 + c mod 64)]
  else if decide (c < 0x10000)%Z then
    [byte_of (0xE0 + c / 4096); byte_of (0x80 + c / 64 mod 64); byte_of (0x80 + c mod 64)]
  else
    [byte_of (0xF0 + c / 262144); byte_of (0x80 + c / 4096 mod 64); byte_of (0x80 + c / 64 mod 64);
     byte_of (0x80 + c mod 64)].
Definition len_utf8 (c : Z) : nat := length (encode_utf8 c).
Definition utf8 (cs : list Z) : list byte := cs ≫= encode_utf8.

(** The values of type [char]. *)
Definition is_char (c : Z) : Prop := (0 ≤ c < 0xD800 ∨ 0xE000 ≤ c < 0x110000)%Z.

(** ** [String::from_utf8_lossy] *)

(** The length a leading byte announces; 0 if it cannot lead. *)
Definition sequence_length (b : Z) : nat :=
  if decide (b < 0x80)%Z then 1
  else if decide (b < 0xC2)%Z then 0
  else if decide (b < 0xE0)%Z then 2
  else if decide (b < 0xF0)%Z then 3
  else if decide (b < 0xF5)%Z then 4
  else 0.
Definition is_continuation (b : Z) : bool := bool_decide (0x80 ≤ b ≤ 0xBF)%Z.
(** The second byte of a sequence: no overlong form, no surrogate, nothing past
    [char::MAX]. *)
Definition second_byte_ok (b0 b1 : Z) : bool :=
  if decide (b0 = 0xE0)%Z then bool_decide (0xA0 ≤ b1 ≤ 0xBF)%Z
  else if decide (b0 = 0xED)%Z then bool_decide (0x80 ≤ b1 ≤ 0x9F)%Z
  else if decide (b0 = 0xF0)%Z then bool_decide (0x90 ≤ b1 ≤ 0xBF)%Z
  else if decide (b0 = 0xF4)%Z then bool_decide (0x80 ≤ b1 ≤ 0x8F)%Z
  else is_continuation b1.

(** The next chunk: whether it is a character, and its length; an ill-formed chunk
    is as long as it could be the start of a character. *)
Definition next_chunk (bs : list Z) : bool * nat :=
  match bs with
  | [] => (false, 0)
  | b0 :: bs1 =>
      let n := sequence_length b0 in
      if decide (n = 0) then (false, 1)
      else if decide (n = 1) then (true, 1)
      else match bs1 with
      | [] => (false, 1)
      | b1 :: bs2 =>
          if negb (second_byte_ok b0 b1) then (false, 1)
          else if decide (n = 2) then (true, 2)
          else match bs2 with
          | [] => (false, 2)
          | b2 :: bs3 =>
              if negb (is_continuation b2) then (false, 2)
              else if decide (n = 3) then (true, 3)
              else match bs3 with
              | [] => (false, 3)
              | b3 :: _ => if is_continuation b3 then (true, 4) else (false, 3)
              end
          end
      end
  end.

(** U+FFFD *)
Definition REPLACEMENT : list byte := [xef; xbf; xbd].

Fixpoint lossy (fuel : nat) (bs : list byte) : list byte :=
  match fuel, bs with
  | S fuel', _ :: _ =>
      let '(valid, n) := next_chunk (byte_Z <$> bs) in
      (if valid : bool then take n bs else REPLACEMENT) ++ lossy fuel' (drop n bs)
  | _, _ => []
  end.
Definition from_utf8_lossy (bs : list byte) : list byte := lossy (length bs) bs.

(** ** [Debug for str] *)

(** [char::escape_debug] of a character outside ASCII. *)
Class Unicode := { escape_unicode : Z → string }.

Definition hex_digit (z : Z) : string :=
  str [byte_of (if decide (z < 10)%Z then 48 + z else 87 + z)%Z].
(** [\u{..}] of an ASCII control character. *)
Definition escape_control (c : Z) : string :=
  "\u{" +:+ (if decide (c < 16)%Z then "" else hex_digit (c / 16)) +:+ hex_digit (c mod 16) +:+ "}".

Section debug.
Context `{!Unicode}.

Definition quote_char : string := str [x22].
Definition escape_debug (c : Z) : string :=
  if decide (c = 0)%Z then "\0"
  else if decide (c = 9)%Z then "\t"
  else if decide (c = 10)%Z then "\n"
  else if decide (c = 13)%Z then "\r"
  else if decide (c = 34)%Z then "\" +:+ quote_char
  else if decide (c = 92)%Z then "\\"
  else if decide (32 ≤ c < 127)%Z then str [byte_of c]
  else if decide (c < 128)%Z then escape_control c
  else escape_unicode c.
Definition debug_str (cs : list Z) : string :=
  quote_char +:+ foldr (λ c s, escape_debug c +:+ s) "" cs +:+ quote_char.
(** The characters of an ASCII string are its bytes. *)
Definition ascii_chars (s : string) : list Z := byte_Z <$> bytes_of s.

Fixpoint join (sep : string) (l : list string) : string :=
  match l with
  | [] => ""
  | [x] => x
  | x :: l' => x +:+ sep +:+ join sep l'
  end.
(** [Debug] of a [VecDeque] of ASCII strings. *)
Definition debug_list (l : list string) : string :=
  "[" +:+ join ", " ((λ s, debug_str (ascii_chars s)) <$> l) +:+ "]".
End debug.

(** ** Numbers *)

Definition display_u64 (z : Z) : string := pretty (Z.to_N z).
(** [{:>width}] *)
Definition pad_left (width : nat) (s : string) : string :=
  str (replicate (width - String.length s) x20) +:+ s.

(** ** Lemmas *)

Lemma byte_Z_of z : (0 ≤ z < 256)%Z → byte_Z (byte_of z) = z.
Proof.
  intros Hz. unfold byte_of, byte_Z. destruct (Byte.of_N (Z.to_N z)) as [b|] eqn:Hb; simpl.
  - apply Byte.to_of_N in Hb. rewrite Hb. lia.
  - apply Byte.of_N_None_iff in Hb. lia.
Qed.
Lemma byte_of_Z b : byte_of (byte_Z b) = b.
Proof. unfold byte_of, byte_Z. by rewrite N2Z.id, Byte.of_to_N. Qed.
Lemma byte_Z_range b : (0 ≤ byte_Z b < 256)%Z.
Proof. unfold byte_Z. pose proof (Byte.to_N_bounded b). lia. Qed.

Lemma bytes_of_str bs : bytes_of (str bs) = bs.
Proof. apply String.list_byte_of_string_of_list_byte. Qed.
Lemma str_bytes_of s : str (bytes_of s) = s.
Proof. apply String.string_of_list_byte_of_string. Qed.
Lemma bytes_of_app s1 s2 : bytes_of (s1 +:+ s2) = bytes_of s1 ++ bytes_of s2.
Proof. unfold bytes_of, String.list_byte_of_string. induction s1 as [|c s1 IH]; simpl; [done|]. by f_equal. Qed.
Lemma length_bytes_of s : length (bytes_of s) = String.length s.
Proof. unfold bytes_of, String.list_byte_of_string. rewrite length_map. induction s; simpl; congruence. Qed.

Lemma encode_ascii c : (0 ≤ c < 0x80)%Z → encode_utf8 c = [byte_of c].
Proof. intros Hc. unfold encode_utf8. by rewrite decide_True by lia. Qed.
Lemma utf8_app l1 l2 : utf8 (l1 ++ l2) = utf8 l1 ++ utf8 l2.
Proof. apply bind_app. Qed.
Lemma utf8_ascii cs : Forall (λ c, 0 ≤ c < 0x80)%Z cs → utf8 cs = byte_of <$> cs.
Proof.
  induction 1 as [|c cs Hc _ IH]; [done|]. change (utf8 (c :: cs)) with (encode_utf8 c ++ utf8 cs).
  by rewrite IH, encode_ascii.
Qed.

#[local] Ltac Zify.zify_post_hook ::= Z.to_euclidean_division_equations.

Lemma sequence_length_spec b :
  sequence_length b =
    if decide (b < 0x80)%Z then 1 else if decide (0xC2 ≤ b < 0xE0)%Z then 2
    else if decide (0xE0 ≤ b < 0xF0)%Z then 3 else if decide (0xF0 ≤ b < 0xF5)%Z then 4 else 0.
Proof. unfold sequence_length. repeat case_decide; lia. Qed.
Lemma is_continuation_true b : (0x80 ≤ b ≤ 0xBF)%Z → is_continuation b = true.
Proof. apply bool_decide_eq_true_2. Qed.
(** A second byte that excludes overlong forms, surrogates and values past
    [char::MAX]. *)
Lemma second_byte_true b0 b1 : (0x80 ≤ b1 ≤ 0xBF)%Z → (b0 = 0xE0 → 0xA0 ≤ b1)%Z →
  (b0 = 0xED → b1 ≤ 0x9F)%Z → (b0 = 0xF0 → 0x90 ≤ b1)%Z → (b0 = 0xF4 → b1 ≤ 0x8F)%Z →
  second_byte_ok b0 b1 = true.
Proof.
  intros. unfold second_byte_ok. repeat case_decide; try (apply bool_decide_eq_true_2; lia).
Qed.

(** An encoded character is one well-formed chunk. *)
Lemma next_chunk_encode c rest : is_char c →
  next_chunk (byte_Z <$> encode_utf8 c ++ rest) = (true, length (encode_utf8 c)).
Proof.
  unfold is_char. intros Hc. unfold encode_utf8.
  repeat case_decide; simpl; rewrite !byte_Z_of by lia; rewrite sequence_length_spec; repeat case_decide;
    try lia; try done; rewrite second_byte_true by lia; simpl; [done|..];
    rewrite !is_continuation_true by lia; done.
Qed.

Lemma next_chunk_length b bs : 0 < (next_chunk (b :: bs)).2.
Proof. unfold next_chunk. repeat (case_match; simpl; try lia). Qed.
(** The length is enough fuel: every chunk takes a byte at least. *)
Lemma lossy_fuel fuel : ∀ bs, length bs ≤ fuel → lossy fuel bs = from_utf8_lossy bs.
Proof.
  unfold from_utf8_lossy. induction (lt_wf fuel) as [fuel _ IH]. intros [|b bs] Hf; [by destruct fuel|].
  destruct fuel as [|fuel]; [simpl in Hf; lia|]. cbn [lossy length]. simpl in Hf.
  pose proof (next_chunk_length (byte_Z b) (byte_Z <$> bs)) as Hn. change (byte_Z b :: (byte_Z <$> bs)) with (byte_Z <$> (b :: bs)) in Hn.
  destruct (next_chunk (byte_Z <$> (b :: bs))) as [valid n]. simpl in Hn. f_equal.
  assert (Hl : length (drop n (b :: bs)) ≤ length bs) by (rewrite length_drop; simpl; lia).
  by rewrite (IH fuel), (IH (length bs)) by lia.
Qed.

Lemma length_encode c : 0 < length (encode_utf8 c).
Proof. unfold encode_utf8. repeat case_decide; simpl; lia. Qed.

Lemma lossy_utf8 cs : Forall is_char cs → ∀ fuel, length (utf8 cs) ≤ fuel → lossy fuel (utf8 cs) = utf8 cs.
Proof.
  induction 1 as [|c cs Hc _ IH]; intros fuel Hf; [by destruct fuel|].
  change (utf8 (c :: cs)) with (encode_utf8 c ++ utf8 cs) in *. rewrite length_app in Hf.
  pose proof (length_encode c). destruct fuel as [|fuel]; [lia|]. cbn [lossy].
  destruct (encode_utf8 c ++ utf8 cs) as [|b bs] eqn:He; [by destruct (encode_utf8 c)|].
  rewrite <- He, next_chunk_encode by done. simpl.
  rewrite take_app_length, drop_app_length. f_equal. apply IH. lia.
Qed.

(** Decoding is the inverse of encoding: [from_utf8_lossy] leaves the bytes of a
    string of characters as they are. *)
Lemma from_utf8_lossy_utf8 cs : Forall is_char cs → from_utf8_lossy (utf8 cs) = utf8 cs.
Proof. intros Hc. by apply lossy_utf8. Qed.
End Fmt.
