(* ===== verification/Path.v ===== *)
(** * [fs/path.rs]: parsing paths

    [Path::from_str] splits an ASCII string at every slash; a leading slash
    becomes a first segment ["/"].  The theorems relate it to printing: parsing
    loses no information, and every well-formed segment list is parsed back
    from its printed form. *)

From S2P Require Import Prelude.

Module Path.

Definition MAX_PATH_LENGTH : Z := 4096.

Record t := { segments : list string }.

Inductive PathParseError := Empty | MaxLengthExceeded.

Definition slash : Ascii.ascii := "/"%char.

(** [Path::is_absolute]; [None] is the panic of [first().unwrap()]. *)
Definition is_absolute (p : t) : option bool :=
  match segments p with
  | [] => None
  | s :: _ => Some (bool_decide (s = "/"))
  end.

(** [str::split("/")] *)
Fixpoint split_slash (s : string) : list string :=
  match s with
  | EmptyString => [""]
  | String c s' =>
      if decide (c = slash) then "" :: split_slash s'
      else match split_slash s' with
           | w :: ws => String c w :: ws
           | [] => [String c ""]
           end
  end.

(** [s.starts_with("/")] and [&s[1..]] *)
Definition strip_slash (s : string) : option string :=
  match s with
  | String c s' => if decide (c = slash) then Some s' else None
  | EmptyString => None
  end.

Definition from_str (s : string) : outcome PathParseError t :=
  if negb (is_ascii s) then Panic Todo
  else if decide (s = "") then Err Empty
  else if decide (MAX_PATH_LENGTH < str_len s)%Z then Err MaxLengthExceeded
  else
    let '(segments, s) := match strip_slash s with
                          | Some s' => (["/"], s')
                          | None => ([], s)
                          end in
    Ok {| segments := segments ++ if decide (s = "") then [] else split_slash s |}.

(** ** Printing *)

Fixpoint join_slash (l : list string) : string :=
  match l with
  | [] => ""
  | [w] => w
  | w :: ws => String.app w (String slash (join_slash ws))
  end.

Definition print (p : t) : string :=
  match segments p with
  | "/" :: rest => String slash (join_slash rest)
  | segs => join_slash segs
  end.

(** A segment contains no slash. *)
Fixpoint slash_free (s : string) : bool :=
  match s with
  | EmptyString => true
  | String c s' => negb (bool_decide (c = slash)) && slash_free s'
  end.

(** The segment lists [from_str] can return. *)
Definition wf (p : t) : bool :=
  match segments p with
  | [] => false
  | "/" :: rest => forallb slash_free rest && negb (bool_decide (rest = [""]))
  | s :: rest => forallb slash_free (s :: rest) && negb (bool_decide (s = ""))
  end.

(** ** Lemmas on splitting and joining *)

Lemma split_slash_nonempty s : split_slash s ≠ [].
Proof. destruct s as [|c s]; simpl; [done|]. repeat case_match; done. Qed.

Lemma join_split s : join_slash (split_slash s) = s.
Proof.
  induction s as [|c s IH]; [done|]. simpl.
  pose proof (split_slash_nonempty s).
  case_decide as Hc; destruct (split_slash s) as [|w ws]; try done.
  - subst c. simpl in *. by rewrite IH.
  - destruct ws; simpl in *; by rewrite <- IH.
Qed.

Lemma split_slash_free s : forallb slash_free (split_slash s) = true.
Proof.
  induction s as [|c s IH]; [done|]. simpl.
  case_decide as Hc; [done|].
  destruct (split_slash s) as [|w ws]; simpl in *;
    rewrite bool_decide_eq_false_2 by done; done.
Qed.

Lemma split_free w : slash_free w = true → split_slash w = [w].
Proof.
  induction w as [|c w IH]; [done|]. simpl.
  intros [Hc Hw]%andb_prop. rewrite (IH Hw).
  case_decide; [|done]. subst. by rewrite bool_decide_eq_true_2 in Hc.
Qed.

Lemma split_app_slash w s :
  slash_free w = true →
  split_slash (String.app w (String slash s)) = w :: split_slash s.
Proof.
  induction w as [|c w IH]; simpl.
  - done.
  - intros [Hc Hw]%andb_prop.
    change (String.app (String c w) (String slash s))
      with (String c (String.app w (String slash s))).
    simpl. rewrite (IH Hw). case_decide; [|done].
    subst. by rewrite bool_decide_eq_true_2 in Hc.
Qed.

Lemma split_join l :
  l ≠ [] → forallb slash_free l = true → split_slash (join_slash l) = l.
Proof.
  induction l as [|w l IH]; [done|]. intros _ [Hw Hl]%andb_prop.
  destruct l as [|w' l]; [by apply split_free|].
  change (join_slash (w :: w' :: l)) with (String.app w (String slash (join_slash (w' :: l)))).
  rewrite split_app_slash by done. by rewrite IH.
Qed.

Lemma join_slash_empty l : l ≠ [] → join_slash l = "" → l = [""].
Proof.
  destruct l as [|w [|w' l]]; simpl; [done|by intros _ ->|].
  intros _. by destruct w.
Qed.

Lemma strip_slash_free s : slash_free s = true → strip_slash s = None.
Proof.
  destruct s as [|c s]; [done|]; simpl. intros [Hc _]%andb_prop.
  case_decide; [|done]. subst. by rewrite bool_decide_eq_true_2 in Hc.
Qed.

Lemma strip_slash_Some s s' : strip_slash s = Some s' → s = String slash s'.
Proof. destruct s; simpl; [done|]. case_decide; naive_solver. Qed.

Lemma print_not_root s ss :
  s ≠ "/" → print {| segments := s :: ss |} = join_slash (s :: ss).
Proof. intros Hs. unfold print. simpl. repeat case_match; simplify_eq; done. Qed.

Lemma wf_not_root s ss : s ≠ "/" →
  wf {| segments := s :: ss |} = forallb slash_free (s :: ss) && negb (bool_decide (s = "")).
Proof. intros Hs. unfold wf. simpl. repeat case_match; simplify_eq; done. Qed.

Lemma slash_free_root s : slash_free s = true → s ≠ "/".
Proof. by intros ? ->. Qed.

(** [from_str] on inputs within its domain, without the error checks. *)
Lemma from_str_Ok s :
  is_ascii s = true → s ≠ "" → (str_len s ≤ MAX_PATH_LENGTH)%Z →
  from_str s = Ok {| segments :=
    match strip_slash s with
    | Some s' => "/" :: if decide (s' = "") then [] else split_slash s'
    | None => split_slash s
    end |}.
Proof.
  intros Ha Hne Hlen. unfold from_str. rewrite Ha. simpl.
  rewrite decide_False by done. rewrite decide_False by lia.
  destruct (strip_slash s); simpl; [done|]. by rewrite decide_False.
Qed.

Lemma from_str_inv s p : from_str s = Ok p →
  is_ascii s = true ∧ s ≠ "" ∧ (str_len s ≤ MAX_PATH_LENGTH)%Z.
Proof.
  unfold from_str. destruct (is_ascii s); simpl; [|done].
  repeat case_decide; try done. intros _. split_and!; [done..|lia].
Qed.

Lemma strip_slash_None s : strip_slash s = None → s ≠ "" →
  ∃ w ws, split_slash s = w :: ws ∧ w ≠ "".
Proof.
  destruct s as [|c s]; simpl; [done|]. case_decide; [done|]. intros _ _.
  destruct (split_slash s); eauto.
Qed.

(** C40: parsing a path loses nothing: printing the parsed segments gives back
    the string, and the segments are well formed (there is at least one, only
    the first can be the root, no other contains a slash). *)
Theorem from_str_print s p :
  from_str s = Ok p → print p = s ∧ wf p = true.
Proof.
  intros Hp. destruct (from_str_inv _ _ Hp) as (Ha & Hne & Hlen).
  rewrite from_str_Ok in Hp by done. simplify_eq.
  destruct (strip_slash s) as [s'|] eqn:Hs.
  - apply strip_slash_Some in Hs as ->. unfold print, wf; simpl.
    case_decide as Hs'; [by subst|].
    rewrite join_split, split_slash_free, bool_decide_eq_false_2; [done|].
    intros Heq. apply Hs'. by rewrite <- (join_split s'), Heq.
  - destruct (strip_slash_None _ Hs Hne) as (w & ws & Hsp & Hw).
    pose proof (split_slash_free s) as Hf. rewrite Hsp in Hf |- *.
    assert (w ≠ "/") by (apply andb_prop in Hf as [? _]; by apply slash_free_root).
    rewrite print_not_root, wf_not_root, Hf, bool_decide_eq_false_2 by done.
    by rewrite <- Hsp, join_split.
Qed.

(** every well-formed segment list whose printed form is ASCII and within
    the length limit is what [from_str] returns for that printed form, so
    distinct well-formed paths have distinct strings. *)
Theorem print_from_str p :
  wf p = true → is_ascii (print p) = true → (str_len (print p) ≤ MAX_PATH_LENGTH)%Z →
  from_str (print p) = Ok p.
Proof.
  intros Hwf Ha Hlen. destruct p as [[|s ss]]; [done|].
  destruct (decide (s = "/")) as [->|Hs].
  - unfold wf, print in *; simpl in *.
    apply andb_prop in Hwf as [Hf Hne%negb_true_iff%bool_decide_eq_false].
    rewrite from_str_Ok by done. simpl. case_decide as Hj.
    + destruct ss; [done|]. by apply join_slash_empty in Hj.
    + rewrite split_join; [done|by intros ->|done].
  - rewrite print_not_root in * by done. rewrite wf_not_root in Hwf by done.
    apply andb_prop in Hwf as [Hf Hne%negb_true_iff%bool_decide_eq_false].
    assert (Hnil : join_slash (s :: ss) ≠ "").
    { intros [= ->]%join_slash_empty; done. }
    assert (Hst : strip_slash (join_slash (s :: ss)) = None).
    { apply andb_prop in Hf as [Hf _]. destruct s as [|c s]; [done|].
      pose proof (strip_slash_free _ Hf) as Hc. simpl in Hc. destruct ss; simpl; by case_decide. }
    rewrite from_str_Ok, Hst, split_join; done.
Qed.

(** [is_absolute] never hits the panic of [first().unwrap()] on a parsed
    path, and answers whether the string starts with a slash. *)
Theorem is_absolute_spec s p :
  from_str s = Ok p → is_absolute p = Some (bool_decide (String.get 0 s = Some slash)).
Proof.
  intros Hp. destruct (from_str_inv _ _ Hp) as (Ha & Hne & Hlen).
  rewrite from_str_Ok in Hp by done. simplify_eq.
  destruct (strip_slash s) as [s'|] eqn:Hs; unfold is_absolute; simpl.
  - apply strip_slash_Some in Hs as ->. done.
  - destruct (strip_slash_None _ Hs Hne) as (w & ws & Hsp & Hw). rewrite Hsp.
    f_equal. apply bool_decide_ext. split.
    + intros ->. pose proof (split_slash_free s) as Hf. by rewrite Hsp in Hf.
    + destruct s as [|c s]; [done|]. simpl. intros [= ->]. simpl in Hs. done.
Qed.

(** ** Witnesses *)

Lemma from_str_print_witness :
  from_str "/dev//null" = Ok {| segments := ["/"; "dev"; ""; "null"] |} ∧
  print {| segments := ["/"; "dev"; ""; "null"] |} = "/dev//null".
Proof.
  split; [reflexivity|].
  apply (from_str_print "/dev//null" {| segments := ["/"; "dev"; ""; "null"] |}). reflexivity.
Defined.

Lemma print_from_str_witness :
  wf {| segments := ["home"; "user"; ""] |} = true ∧
  from_str "home/user/" = Ok {| segments := ["home"; "user"; ""] |}.
Proof.
  split; [reflexivity|].
  apply (print_from_str {| segments := ["home"; "user"; ""] |});
    [reflexivity|reflexivity|vm_compute; discriminate].
Defined.

Lemma is_absolute_spec_witness :
  is_absolute {| segments := ["/"; "dev"] |} = Some true.
Proof.
  apply (is_absolute_spec "/dev" {| segments := ["/"; "dev"] |}). reflexivity.
Defined.

End Path.
