(* ===== verification/FsTypes.v ===== *)
(** * Data model of the file subsystem

    The structs and enums of [fs/mod.rs], [fs/vfs.rs], [drivers/fs/*.rs] and
    [device/char.rs], and the state the kernel keeps for them: the two
    registries, the virtual file system, and the heap of shared objects.

    Shared objects ([Arc<FsNode>], [Arc<DirectoryEntry>], [Arc<dyn FileSystem>])
    live in heaps indexed by locations, so aliasing is explicit: two holders of
    the same [Arc] hold the same location.  Locations are never reused. *)

From Stdlib Require Import Init.Byte.
From S2P Require Import Prelude Util.

Abbreviation loc := nat.

(** ** [fs/vfs.rs]: errors *)

Inductive IoError :=
  | OperationNotSupported
  | EntryNotFound
  | AlreadyExists
  | NotADirectory
  | NotAFile
  | InvalidPath
  | InvalidFile
  | InvalidMode
  | FileSystemTypeNotFound
  | NoRootDirectory.

(** ** [fs/mod.rs]: nodes and open files *)

Module FsNodeKind.
Inductive t := Directory | File | CharDevice | BlockDevice.
#[export] Instance t_eq_dec : EqDecision t.
Proof. solve_decision. Defined.
End FsNodeKind.
Export (hints) FsNodeKind.

Module FileMode.
Inductive t := Read | Write | Append.
#[export] Instance t_eq_dec : EqDecision t.
Proof. solve_decision. Defined.
Definition is_mutating (m : t) : bool :=
  match m with
  | Read => false
  | Write | Append => true
  end.
End FileMode.
Export (hints) FileMode.

(** [MountFlags], a [bitflags] set over [u32]. *)
Definition MountFlags_READ : Z := 1.
Definition MountFlags_WRITE : Z := 2.

(** The implementors of [dyn CharDevice] and [dyn FileSystemType]. *)
Inductive CharDevice := NullDevice | ZeroDevice.
Inductive FileSystemType := RamFileSystemType | DevFileSystemType.

#[export] Instance CharDevice_eq_dec : EqDecision CharDevice.
Proof. solve_decision. Defined.
#[export] Instance FileSystemType_eq_dec : EqDecision FileSystemType.
Proof. solve_decision. Defined.
#[export] Instance IoError_eq_dec : EqDecision IoError.
Proof. solve_decision. Defined.

(** What the drivers store in [FsNode::private_data], a [Box<dyn Any>]. *)
Inductive PrivateData :=
  | RamFileNode (data : list byte)
  | RamDirectoryNode (children : gmap string loc)
  | CharDeviceNode (d : CharDevice).

Record FsNodeMetadata := {
  dirty : bool;
  link_count : Z;
  node_size : Z;
  accessed_at : Z;
  created_at : Z;
  modified_at : Z;
}.

(** [FsNode]; [structure_lock] guards no data and has no field here. *)
Record FsNode := {
  node_id : Z;
  node_mount_id : Z;
  node_kind : FsNodeKind.t;
  node_metadata : FsNodeMetadata;
  node_private_data : option PrivateData;
}.

Record File := {
  file_node : loc;
  file_mode : FileMode.t;
  file_position : Z;
  file_private_data : option PrivateData;
}.

(** ** File system instances *)

Record FileSystemMetadata := {
  fsm_device : option Z;
  fsm_mount_flags : Z;
  fsm_block_size : Z;
  fsm_max_file_size : Z;
  fsm_file_system_type : FileSystemType;
}.

(** [RamFileSystem] and [DevFileSystem] have the same three fields; the
    constructor is the [dyn FileSystem] vtable. *)
Record FileSystemInstance := {
  fsi_metadata : FileSystemMetadata;
  fsi_next_node_id : SynCell.t Z;
  fsi_root : loc;
}.
Inductive FileSystem :=
  | RamFileSystem (fs : FileSystemInstance)
  | DevFileSystem (fs : FileSystemInstance).

(** ** [fs/vfs.rs]: mounts and directory entries *)

Record VfsMount := {
  mount_id : Z;
  mount_root : loc;
  mount_file_system : loc;
}.

(** [de_children] holds weak references. *)
Record DirectoryEntry := {
  de_id : Z;
  de_name : string;
  de_node : loc;
  de_parent : option loc;
  de_children : gmap string loc;
}.

(** [DirectoryCacheKey]: parent id and child name. *)
Abbreviation DirectoryCacheKey := (Z * string)%type.

(** ** The state

    - [fs_registry], [char_registry]: the [lazy_static] registries;
    - [vfs_ready]: whether the [VFS] [OnceCell] has been initialised;
    - [files], [mount_table], [directory_cache]: [VirtualFileSystem];
    - [entry_count], [mount_count], [fd_count]: how often each [NEXT_ID] atomic
      has been incremented.  The atomics are 64 bits wide: the id handed out is
      the count modulo 2^64 (see [fetch_add]);
    - [nodes], [entries], [file_systems]: the heaps.  [entries] holds the
      directory entries whose strong count is positive;
    - [held]: the strong references to directory entries owned by local
      variables of running code. *)
Record kernel := Kernel {
  fs_registry : gmap string FileSystemType;
  char_registry : gmap string CharDevice;
  vfs_ready : bool;
  files : gmap Z File;
  mount_table : gmap Z VfsMount;
  directory_cache : gmap DirectoryCacheKey loc;
  entry_count : Z;
  mount_count : Z;
  fd_count : Z;
  nodes : gmap loc FsNode;
  entries : gmap loc DirectoryEntry;
  file_systems : gmap loc FileSystem;
  next_loc : loc;
  held : list loc;
}.

(** Code over the kernel state, with [IoError] as its error type. *)
Abbreviation KM := (M kernel IoError).

Definition upd_fs_registry (f : gmap string FileSystemType → gmap string FileSystemType)
    (k : kernel) : kernel :=
  Kernel (f (fs_registry k)) (char_registry k) (vfs_ready k) (files k) 
    (mount_table k) (directory_cache k) (entry_count k) (mount_count k) (fd_count k) 
    (nodes k) (entries k) (file_systems k) (next_loc k) (held k).
Definition upd_char_registry (f : gmap string CharDevice → gmap string CharDevice)
    (k : kernel) : kernel :=
  Kernel (fs_registry k) (f (char_registry k)) (vfs_ready k) (files k) 
    (mount_table k) (directory_cache k) (entry_count k) (mount_count k) (fd_count k) 
    (nodes k) (entries k) (file_systems k) (next_loc k) (held k).
Definition set_vfs_ready (x : bool) (k : kernel) : kernel :=
  Kernel (fs_registry k) (char_registry k) x (files k) (mount_table k) 
    (directory_cache k) (entry_count k) (mount_count k) (fd_count k) (nodes k) 
    (entries k) (file_systems k) (next_loc k) (held k).
Definition upd_files (f : gmap Z File → gmap Z File)
    (k : kernel) : kernel :=
  Kernel (fs_registry k) (char_registry k) (vfs_ready k) (f (files k)) 
    (mount_table k) (directory_cache k) (entry_count k) (mount_count k) (fd_count k) 
    (nodes k) (entries k) (file_systems k) (next_loc k) (held k).
Definition upd_mount_table (f : gmap Z VfsMount → gmap Z VfsMount)
    (k : kernel) : kernel :=
  Kernel (fs_registry k) (char_registry k) (vfs_ready k) (files k) 
    (f (mount_table k)) (directory_cache k) (entry_count k) (mount_count k) 
    (fd_count k) (nodes k) (entries k) (file_systems k) (next_loc k) (held k).
Definition upd_directory_cache (f : gmap DirectoryCacheKey loc → gmap DirectoryCacheKey loc)
    (k : kernel) : kernel :=
  Kernel (fs_registry k) (char_registry k) (vfs_ready k) (files k) (mount_table k) 
    (f (directory_cache k)) (entry_count k) (mount_count k) (fd_count k) (nodes k) 
    (entries k) (file_systems k) (next_loc k) (held k).
Definition set_entry_count (x : Z) (k : kernel) : kernel :=
  Kernel (fs_registry k) (char_registry k) (vfs_ready k) (files k) (mount_table k) 
    (directory_cache k) x (mount_count k) (fd_count k) (nodes k) (entries k) 
    (file_systems k) (next_loc k) (held k).
Definition set_mount_count (x : Z) (k : kernel) : kernel :=
  Kernel (fs_registry k) (char_registry k) (vfs_ready k) (files k) (mount_table k) 
    (directory_cache k) (entry_count k) x (fd_count k) (nodes k) (entries k) 
    (file_systems k) (next_loc k) (held k).
Definition set_fd_count (x : Z) (k : kernel) : kernel :=
  Kernel (fs_registry k) (char_registry k) (vfs_ready k) (files k) (mount_table k) 
    (directory_cache k) (entry_count k) (mount_count k) x (nodes k) (entries k) 
    (file_systems k) (next_loc k) (held k).
Definition upd_nodes (f : gmap loc FsNode → gmap loc FsNode)
    (k : kernel) : kernel :=
  Kernel (fs_registry k) (char_registry k) (vfs_ready k) (files k) (mount_table k) 
    (directory_cache k) (entry_count k) (mount_count k) (fd_count k) (f (nodes k)) 
    (entries k) (file_systems k) (next_loc k) (held k).
Definition upd_entries (f : gmap loc DirectoryEntry → gmap loc DirectoryEntry)
    (k : kernel) : kernel :=
  Kernel (fs_registry k) (char_registry k) (vfs_ready k) (files k) (mount_table k) 
    (directory_cache k) (entry_count k) (mount_count k) (fd_count k) (nodes k) 
    (f (entries k)) (file_systems k) (next_loc k) (held k).
Definition upd_file_systems (f : gmap loc FileSystem → gmap loc FileSystem)
    (k : kernel) : kernel :=
  Kernel (fs_registry k) (char_registry k) (vfs_ready k) (files k) (mount_table k) 
    (directory_cache k) (entry_count k) (mount_count k) (fd_count k) (nodes k) 
    (entries k) (f (file_systems k)) (next_loc k) (held k).
Definition set_next_loc (x : loc) (k : kernel) : kernel :=
  Kernel (fs_registry k) (char_registry k) (vfs_ready k) (files k) (mount_table k) 
    (directory_cache k) (entry_count k) (mount_count k) (fd_count k) (nodes k) 
    (entries k) (file_systems k) x (held k).
Definition set_held (x : list loc) (k : kernel) : kernel :=
  Kernel (fs_registry k) (char_registry k) (vfs_ready k) (files k) (mount_table k) 
    (directory_cache k) (entry_count k) (mount_count k) (fd_count k) (nodes k) 
    (entries k) (file_systems k) (next_loc k) x.

(** The state before any initialisation code has run: the [NEXT_ID] atomics of
    [MountId], [DirectoryEntryId] and [FileDescriptor] start at 0, 1 and 1. *)
Definition kernel_start : kernel := {|
  fs_registry := ∅; char_registry := ∅; vfs_ready := false;
  files := ∅; mount_table := ∅; directory_cache := ∅;
  entry_count := 1; mount_count := 0; fd_count := 1;
  nodes := ∅; entries := ∅; file_systems := ∅;
  next_loc := 0; held := [];
|}.
