(* ===== verification/Fs.v ===== *)
(** * [fs/mod.rs]: node and file methods, traits, and reference counting

    - access to the heaps of shared objects;
    - [Arc]/[Weak] for directory entries: which entries are alive, and what
      dropping a reference does;
    - the methods of [FsNode] and [File];
    - the traits [FileOperations] and [DirectoryOperations] as records of
      operations, with the default methods of the traits. *)

From Stdlib Require Import Init.Byte.
From S2P Require Import Prelude Util FsTypes.

(** ** Heap access *)

Definition get_node (l : loc) : KM FsNode :=
  o ← gets (λ k, nodes k !! l); unwrap DanglingPtr o.
Definition put_node (l : loc) (n : FsNode) : KM unit := modify (upd_nodes <[l := n]>).
Definition get_entry (l : loc) : KM DirectoryEntry :=
  o ← gets (λ k, entries k !! l); unwrap DanglingPtr o.
Definition get_fs (l : loc) : KM FileSystem :=
  o ← gets (λ k, file_systems k !! l); unwrap DanglingPtr o.

Definition fresh_loc : KM loc :=
  l ← gets next_loc; _ ← modify (set_next_loc (S l)); mret l.
(** [Arc::new] of a node. *)
Definition alloc_node (n : FsNode) : KM loc :=
  l ← fresh_loc; _ ← put_node l n; mret l.

(** ** [Arc] and [Weak] for directory entries

    A strong reference to an entry is held by a local variable ([held]), by a
    mount ([VfsMount::root]) or by the [parent] field of a live entry.  Parent
    links are acyclic, so an entry's strong count is positive exactly when it
    is reachable from a local or a mount through parent links; [gc] removes the
    other entries, which is what the recursive drops do. *)

Fixpoint ancestors (ents : gmap loc DirectoryEntry) (fuel : nat) (l : loc) : list loc :=
  l :: match fuel, ents !! l with
       | S fuel', Some de =>
           match de_parent de with
           | Some p => ancestors ents fuel' p
           | None => []
           end
       | _, _ => []
       end.

Definition mount_roots (k : kernel) : list loc :=
  (λ p : Z * VfsMount, mount_root p.2) <$> map_to_list (mount_table k).
Definition strong_roots (k : kernel) : list loc := held k ++ mount_roots k.
(** A location bounds the length of its parent chain: parents are allocated
    before their children. *)
Definition reachable (k : kernel) : list loc :=
  strong_roots k ≫= λ r, ancestors (entries k) r r.
Definition gc (k : kernel) : kernel :=
  let live := reachable k in
  upd_entries (filter (λ e : loc * DirectoryEntry, e.1 ∈ live)) k.

#[global] Arguments gc : simpl never.

(** [Arc::strong_count] / [Weak::strong_count]. *)
Definition count_loc (l : loc) (ls : list loc) : nat := length (filter (λ x, x = l) ls).
Definition child_count (k : kernel) (l : loc) : nat :=
  size (filter (λ e : loc * DirectoryEntry, de_parent e.2 = Some l) (entries k)).
Definition strong_count (k : kernel) (l : loc) : nat :=
  count_loc l (held k) + count_loc l (mount_roots k) + child_count k l.

Fixpoint remove_one (l : loc) (ls : list loc) : list loc :=
  match ls with
  | [] => []
  | x :: ls' => if decide (x = l) then ls' else x :: remove_one l ls'
  end.

Definition arc_clone (l : loc) : KM unit := modify (λ k, set_held (l :: held k) k).
Definition arc_drop (l : loc) : KM unit :=
  modify (λ k, gc (set_held (remove_one l (held k)) k)).
(** [Weak::upgrade]: a strong reference if the entry is alive. *)
Definition weak_upgrade (l : loc) : KM (option loc) :=
  o ← gets (λ k, entries k !! l);
  match o with
  | Some _ => _ ← arc_clone l; mret (Some l)
  | None => mret None
  end.

(** Locals are dropped when a function is left, by [return], by [?] or at its
    end; [keep] are the references moved into the result. *)
Definition scoped {A} (keep : A → list loc) (m : KM A) : KM A := λ k,
  match m k with
  | (Ok a, k') => (Ok a, gc (set_held (keep a ++ held k) k'))
  | (Err e, k') => (Err e, gc (set_held (held k) k'))
  | (Panic p, k') => (Panic p, k')
  end.

(** ** [AtomicU64::fetch_add(1)] on the id counters *)

Definition MountId_new : KM Z :=
  n ← gets mount_count; _ ← modify (set_mount_count (n + 1)%Z); mret (wrap64 n).
Definition DirectoryEntryId_NULL : Z := 0.
Definition DirectoryEntryId_new : KM Z :=
  n ← gets entry_count; _ ← modify (set_entry_count (n + 1)%Z); mret (wrap64 n).
Definition FileDescriptor_new : KM Z :=
  n ← gets fd_count; _ ← modify (set_fd_count (n + 1)%Z); mret (wrap64 n).

(** ** Methods of [FsNode] and [File] *)

(** [vfs::get] *)
Definition vfs_get : KM unit :=
  b ← gets vfs_ready; if b : bool then mret tt else panic UnwrapNone.
(** [VirtualFileSystem::get_mount] *)
Definition get_mount (id : Z) : KM (option VfsMount) := gets (λ k, mount_table k !! id).

(** [FsNode::data_as::<T>] for the three types the drivers store. *)
Definition data_as_RamFileNode (n : FsNode) : KM (list byte) :=
  match node_private_data n with
  | Some (RamFileNode data) => mret data
  | _ => panic UnwrapNone
  end.
Definition data_as_RamDirectoryNode (n : FsNode) : KM (gmap string loc) :=
  match node_private_data n with
  | Some (RamDirectoryNode children) => mret children
  | _ => panic UnwrapNone
  end.
Definition data_as_CharDevice (n : FsNode) : KM CharDevice :=
  match node_private_data n with
  | Some (CharDeviceNode d) => mret d
  | _ => panic UnwrapNone
  end.

(** [FsNode::file_system] *)
Definition node_file_system (n : FsNode) : KM loc :=
  _ ← vfs_get;
  o ← get_mount (node_mount_id n);
  m ← unwrap UnwrapNone o;
  mret (mount_file_system m).

Definition is_directory (n : FsNode) : bool := bool_decide (node_kind n = FsNodeKind.Directory).

(** [PartialEq for FsNode] *)
Definition FsNode_eq (a b : FsNode) : bool :=
  bool_decide (node_id a = node_id b) && bool_decide (node_mount_id a = node_mount_id b).

Definition set_link_count (c : Z) (n : FsNode) : FsNode :=
  let m := node_metadata n in
  {| node_id := node_id n; node_mount_id := node_mount_id n; node_kind := node_kind n;
     node_metadata := {| dirty := dirty m; link_count := c; node_size := node_size m;
       accessed_at := accessed_at m; created_at := created_at m;
       modified_at := modified_at m |};
     node_private_data := node_private_data n |}.
Definition increment_link_count (l : loc) : KM unit :=
  n ← get_node l;
  c ← checked_add (link_count (node_metadata n)) 1;
  put_node l (set_link_count c n).
Definition decrement_link_count (l : loc) : KM unit :=
  n ← get_node l;
  c ← checked_sub (link_count (node_metadata n)) 1;
  put_node l (set_link_count c n).

(** [File::new] and [File::new_with_data] *)
Definition File_new (node : loc) (mode : FileMode.t) : File :=
  {| file_node := node; file_mode := mode; file_position := 0; file_private_data := None |}.
Definition File_new_with_data (node : loc) (mode : FileMode.t) (data : PrivateData) : File :=
  {| file_node := node; file_mode := mode; file_position := 0; file_private_data := Some data |}.
(** [File::file_system] *)
Definition file_file_system (f : File) : KM loc :=
  _ ← vfs_get;
  n ← get_node (file_node f);
  o ← get_mount (node_mount_id n);
  m ← unwrap UnwrapNone o;
  mret (mount_file_system m).

(** ** [trait FileOperations] *)

Record FileOperations := {
  op_open : loc → FileMode.t → KM File;
  op_flush : File → KM unit;
  op_seek : File → Z → KM Z;
  (** [read] fills a prefix of the buffer and returns its length. *)
  op_read : File → Z → list byte → KM (Z * list byte);
  op_write : File → Z → list byte → KM Z;
}.

Definition FileOperations_default : FileOperations := {|
  op_open node mode := mret (File_new node mode);
  op_flush _ := mret tt;
  op_seek _ _ := fail OperationNotSupported;
  op_read _ _ _ := fail OperationNotSupported;
  op_write _ _ _ := fail OperationNotSupported;
|}.

(** ** [DirectoryIterationContext] ([fs/vfs.rs]) *)

Record DirectoryIterationEntry := {
  die_name : string;
  die_id : Z;
  die_kind : FsNodeKind.t;
}.
Abbreviation DirectoryIterationContext := (gmap string DirectoryIterationEntry).
Definition DirectoryIterationContext_new : DirectoryIterationContext := ∅.
Definition DirectoryIterationContext_insert (name : string) (id : Z) (kind : FsNodeKind.t)
    (ctx : DirectoryIterationContext) : DirectoryIterationContext :=
  <[name := {| die_name := name; die_id := id; die_kind := kind |}]> ctx.
(** [IntoIterator]: the values in the order of their names. *)
Definition DirectoryIterationContext_into_iter (ctx : DirectoryIterationContext)
    : list DirectoryIterationEntry := btree_values String.le ctx.
(** [From<&DirectoryEntry>] *)
Definition DirectoryIterationEntry_from (e : loc) : KM DirectoryIterationEntry :=
  de ← get_entry e;
  n ← get_node (de_node de);
  mret {| die_name := de_name de; die_id := node_id n; die_kind := node_kind n |}.

(** ** [trait DirectoryOperations] *)

Record DirectoryOperations := {
  op_create_file : loc → string → KM loc;
  op_create_directory : loc → string → KM loc;
  op_remove_file : loc → string → KM unit;
  op_remove_directory : loc → string → KM unit;
  op_lookup : loc → string → KM (option loc);
  op_read_directory : DirectoryIterationContext → loc → KM DirectoryIterationContext;
}.

(** The default method bodies. *)
Definition default_create_file (_ : loc) (_ : string) : KM loc := fail OperationNotSupported.
Definition default_create_directory (_ : loc) (_ : string) : KM loc := fail OperationNotSupported.
Definition default_remove_file (_ : loc) (_ : string) : KM unit := fail OperationNotSupported.
Definition default_remove_directory (_ : loc) (_ : string) : KM unit := fail OperationNotSupported.
