(* ===== verification/Registry.v ===== *)
(** * Registries: [fs/registry.rs], [device/char.rs] and the [init] functions of
    [drivers/fs/mod.rs] and [drivers/char/mod.rs]

    Both registries map the name in a driver's metadata to the driver and refuse
    a second driver of the same name.  The character devices themselves
    ([drivers/char/null.rs], [drivers/char/zero.rs]) are here too. *)

From Stdlib Require Import Init.Byte.
From S2P Require Import Prelude Util FsTypes Fs.

(** ** [FileSystemType::metadata] *)

Record FileSystemTypeMetadata := { fst_name : string; fst_magic : list byte }.
Definition fs_type_metadata (ty : FileSystemType) : FileSystemTypeMetadata :=
  match ty with
  | RamFileSystemType => {| fst_name := "ramfs"; fst_magic := [] |}
  | DevFileSystemType => {| fst_name := "devfs"; fst_magic := [] |}
  end.

(** ** [fs/registry.rs] *)

Module FileSystemRegistrationError.
Inductive t := NameConflict.
End FileSystemRegistrationError.

Definition register_file_system (fs : FileSystemType)
    : M kernel FileSystemRegistrationError.t unit :=
  registry ← gets fs_registry;
  let name := fst_name (fs_type_metadata fs) in
  if decide (is_Some (registry !! name)) then fail FileSystemRegistrationError.NameConflict
  else modify (upd_fs_registry <[name := fs]>).

Definition find_file_system_type {E} (name : string) : M kernel E (option FileSystemType) :=
  gets (λ k, fs_registry k !! name).

(** ** [device/char.rs] *)

Record CharacterDeviceMetadata := { cdm_name : string }.
Definition char_device_metadata (d : CharDevice) : CharacterDeviceMetadata :=
  match d with
  | NullDevice => {| cdm_name := "null" |}
  | ZeroDevice => {| cdm_name := "zero" |}
  end.

Module CharDeviceRegistrationError.
Inductive t := NameConflict.
End CharDeviceRegistrationError.

Definition register_char_device (c_dev : CharDevice)
    : M kernel CharDeviceRegistrationError.t unit :=
  registry ← gets char_registry;
  let name := cdm_name (char_device_metadata c_dev) in
  if decide (is_Some (registry !! name)) then fail CharDeviceRegistrationError.NameConflict
  else modify (upd_char_registry <[name := c_dev]>).

(** The devices in the order of their names. *)
Definition list_char_devices {E} : M kernel E (list CharDevice) :=
  gets (λ k, btree_values String.le (char_registry k)).

Definition get_char_device {E} (name : string) : M kernel E (option CharDevice) :=
  gets (λ k, char_registry k !! name).

(** ** [drivers/fs/mod.rs], [drivers/char/mod.rs] *)

Definition drivers_fs_init : M kernel FileSystemRegistrationError.t unit :=
  _ ← register_file_system RamFileSystemType;
  _ ← register_file_system DevFileSystemType;
  mret tt.

Definition drivers_char_init : M kernel CharDeviceRegistrationError.t unit :=
  _ ← register_char_device NullDevice;
  _ ← register_char_device ZeroDevice;
  mret tt.

(** ** [drivers/char/null.rs], [drivers/char/zero.rs]: [CharDevice::file_operations] *)

Definition null_write (_ : File) (_ : Z) (buffer : list byte) : KM Z :=
  mret (Z.of_nat (length buffer)).
Definition null_file_operations : FileOperations := {|
  op_open := op_open FileOperations_default;
  op_flush := op_flush FileOperations_default;
  op_seek := op_seek FileOperations_default;
  op_read := op_read FileOperations_default;
  op_write := null_write;
|}.

Definition zero_read (_ : File) (_ : Z) (buffer : list byte) : KM (Z * list byte) :=
  mret (Z.of_nat (length buffer), replicate (length buffer) x00).
Definition zero_file_operations : FileOperations := {|
  op_open := op_open FileOperations_default;
  op_flush := op_flush FileOperations_default;
  op_seek := op_seek FileOperations_default;
  op_read := zero_read;
  op_write := op_write FileOperations_default;
|}.

Definition char_device_file_operations (d : CharDevice) : FileOperations :=
  match d with
  | NullDevice => null_file_operations
  | ZeroDevice => zero_file_operations
  end.

(** ** Lemmas *)

Lemma register_file_system_spec fs k :
  let name := fst_name (fs_type_metadata fs) in
  register_file_system fs k =
  match fs_registry k !! name with
  | Some _ => (Err FileSystemRegistrationError.NameConflict, k)
  | None => (Ok tt, upd_fs_registry <[name := fs]> k)
  end.
Proof.
  unfold register_file_system, mbind, M_bind; simpl.
  case_decide as Hd.
  - by destruct Hd as [? ->].
  - apply eq_None_not_Some in Hd. by rewrite Hd.
Qed.

Lemma register_char_device_spec d k :
  let name := cdm_name (char_device_metadata d) in
  register_char_device d k =
  match char_registry k !! name with
  | Some _ => (Err CharDeviceRegistrationError.NameConflict, k)
  | None => (Ok tt, upd_char_registry <[name := d]> k)
  end.
Proof.
  unfold register_char_device, mbind, M_bind; simpl.
  case_decide as Hd.
  - by destruct Hd as [? ->].
  - apply eq_None_not_Some in Hd. by rewrite Hd.
Qed.
