(* ===== verification/RamFs.v ===== *)
(** * [drivers/fs/ram.rs]: the RAM file system

    Each operation is a definition over the kernel state; [self] is the location
    of the file system instance. *)

From Stdlib Require Import Init.Byte.
From S2P Require Import Prelude Util FsTypes Fs Registry.

Definition fs_instance (fs : FileSystem) : FileSystemInstance :=
  match fs with RamFileSystem i | DevFileSystem i => i end.
Definition set_next_node_id (c : SynCell.t Z) (fs : FileSystem) : FileSystem :=
  match fs with
  | RamFileSystem i => RamFileSystem {| fsi_metadata := fsi_metadata i;
      fsi_next_node_id := c; fsi_root := fsi_root i |}
  | DevFileSystem i => DevFileSystem {| fsi_metadata := fsi_metadata i;
      fsi_next_node_id := c; fsi_root := fsi_root i |}
  end.

(** The metadata every new node starts with. *)
Definition initial_metadata : FsNodeMetadata := {|
  dirty := false; link_count := 1; node_size := 0;
  accessed_at := 0; created_at := 0; modified_at := 0 |}.

(** ** [RamFileSystemType] *)

(** [RamFileSystemType::mount]: the instance and its root node. *)
Definition ram_mount (mount_id : Z) (source : string) (flags : Z) : KM loc :=
  _ ← assert (bool_decide (source = ""));
  root ← alloc_node {|
    node_id := 0; node_mount_id := mount_id; node_kind := FsNodeKind.Directory;
    node_metadata := initial_metadata;
    node_private_data := Some (RamDirectoryNode ∅) |};
  self ← fresh_loc;
  _ ← modify (upd_file_systems <[self := RamFileSystem {|
    fsi_metadata := {| fsm_device := None; fsm_mount_flags := flags; fsm_block_size := 512;
      fsm_max_file_size := u64_max; fsm_file_system_type := RamFileSystemType |};
    fsi_next_node_id := SynCell.new 1%Z;
    fsi_root := root |}]>);
  mret self.
Definition ram_unmount (_instance : loc) : KM unit := panic Todo.

(** ** [RamFileSystem] *)

(** [next_node_id], the same code in [ram.rs] and [dev.rs]. *)
Definition next_node_id (self : loc) : KM Z :=
  fs ← get_fs self;
  r ← SynCell.replace (λ id, checked_add id 1) (fsi_next_node_id (fs_instance fs));
  _ ← modify (upd_file_systems <[self := set_next_node_id r.2 fs]>);
  mret r.1.

(** [FileSystem::root_directory] *)
Definition root_directory (self : loc) : KM loc :=
  fs ← get_fs self; mret (fsi_root (fs_instance fs)).
(** [self.root.mount_id] *)
Definition root_mount_id (self : loc) : KM Z :=
  r ← root_directory self; n ← get_node r; mret (node_mount_id n).

(** [FsNodeOperations] *)
Definition ram_write_node (_node : FsNode) : M kernel unit unit := mret tt.
Definition ram_evict_node (_node : FsNode) : M kernel unit unit := mret tt.

(** ** [FileOperations for RamFileSystem] *)

Definition set_private_data (d : PrivateData) (n : FsNode) : FsNode :=
  {| node_id := node_id n; node_mount_id := node_mount_id n; node_kind := node_kind n;
     node_metadata := node_metadata n; node_private_data := Some d |}.

(** [dst[..n].copy_from_slice(&src[off..off + n])] *)
Definition read_at (data : list byte) (offset : Z) (buffer : list byte) : Z * list byte :=
  if decide (Z.of_nat (length data) < offset)%Z then (0%Z, buffer)
  else
    let bytes_remaining := (Z.of_nat (length data) - offset)%Z in
    let read_size := Z.min (Z.of_nat (length buffer)) bytes_remaining in
    let n := Z.to_nat read_size in
    (read_size, take n (drop (Z.to_nat offset) data) ++ drop n buffer).

Definition ram_read (file : File) (offset : Z) (buffer : list byte) : KM (Z * list byte) :=
  n ← get_node (file_node file);
  data ← data_as_RamFileNode n;
  mret (read_at data offset buffer).

(** [Vec::resize(n, 0)] for [n] at least the length. *)
Definition vec_resize (n : nat) (data : list byte) : list byte :=
  data ++ replicate (n - length data) x00.
(** [data[o..o + buffer.len()].copy_from_slice(buffer)] *)
Definition copy_at (data : list byte) (o : nat) (buffer : list byte) : list byte :=
  take o data ++ buffer ++ drop (o + length buffer) data.
Definition write_at (data : list byte) (offset : Z) (buffer : list byte) : list byte :=
  let min_new_len := (offset + Z.of_nat (length buffer))%Z in
  let data := if decide (Z.of_nat (length data) < min_new_len)%Z
              then vec_resize (Z.to_nat min_new_len) data else data in
  copy_at data (Z.to_nat offset) buffer.

Definition ram_write (file : File) (offset : Z) (buffer : list byte) : KM Z :=
  n ← get_node (file_node file);
  data ← data_as_RamFileNode n;
  _ ← checked_add offset (Z.of_nat (length buffer));
  _ ← put_node (file_node file) (set_private_data (RamFileNode (write_at data offset buffer)) n);
  mret (Z.of_nat (length buffer)).

Definition ram_file_operations (_self : loc) : FileOperations := {|
  op_open := op_open FileOperations_default;
  op_flush := op_flush FileOperations_default;
  op_seek := op_seek FileOperations_default;
  op_read := ram_read;
  op_write := ram_write;
|}.

(** ** [DirectoryOperations for RamFileSystem] *)

(** [entry.node], for [entry: &Arc<DirectoryEntry>] *)
Definition entry_node_loc (entry : loc) : KM loc := de ← get_entry entry; mret (de_node de).

(** [parent.node.data_as::<RamDirectoryNode>().children.write().insert(name, node)] *)
Definition ram_add_child (parent : loc) (name : string) (node : loc) : KM unit :=
  pl ← entry_node_loc parent;
  pn ← get_node pl;
  children ← data_as_RamDirectoryNode pn;
  put_node pl (set_private_data (RamDirectoryNode (<[name := node]> children)) pn).

Definition ram_create_file (self parent : loc) (name : string) : KM loc :=
  id ← next_node_id self;
  mid ← root_mount_id self;
  node ← alloc_node {|
    node_id := id; node_mount_id := mid; node_kind := FsNodeKind.File;
    node_metadata := initial_metadata; node_private_data := Some (RamFileNode []) |};
  _ ← ram_add_child parent name node;
  mret node.

Definition ram_create_directory (self parent : loc) (name : string) : KM loc :=
  id ← next_node_id self;
  mid ← root_mount_id self;
  node ← alloc_node {|
    node_id := id; node_mount_id := mid; node_kind := FsNodeKind.Directory;
    node_metadata := initial_metadata; node_private_data := Some (RamDirectoryNode ∅) |};
  _ ← ram_add_child parent name node;
  mret node.

Definition ram_remove_file (self parent : loc) (name : string) : KM unit :=
  pl ← entry_node_loc parent;
  pn ← get_node pl;
  children ← data_as_RamDirectoryNode pn;
  _ ← put_node pl (set_private_data (RamDirectoryNode (delete name children)) pn);
  match children !! name with
  | None => fail EntryNotFound
  | Some _ => mret tt
  end.

Definition ram_remove_directory (self parent : loc) (name : string) : KM unit :=
  pl ← entry_node_loc parent;
  pn ← get_node pl;
  children ← data_as_RamDirectoryNode pn;
  dir ← ok_or EntryNotFound (children !! name);
  dn ← get_node dir;
  _ ← assert (is_directory dn);
  dir_children ← data_as_RamDirectoryNode dn;
  _ ← assert (bool_decide (dir_children = ∅));
  panic Todo.

Definition ram_lookup (self parent : loc) (name : string) : KM (option loc) :=
  pl ← entry_node_loc parent;
  pn ← get_node pl;
  children ← data_as_RamDirectoryNode pn;
  mret (children !! name).

(** The children in the order of their names. *)
Fixpoint ram_list_children (children : list (string * loc)) (ctx : DirectoryIterationContext)
    : KM DirectoryIterationContext :=
  match children with
  | [] => mret ctx
  | (name, l) :: rest =>
      n ← get_node l;
      ram_list_children rest (DirectoryIterationContext_insert name (node_id n) (node_kind n) ctx)
  end.
Definition ram_read_directory (self : loc) (ctx : DirectoryIterationContext) (directory : loc)
    : KM DirectoryIterationContext :=
  pl ← entry_node_loc directory;
  pn ← get_node pl;
  children ← data_as_RamDirectoryNode pn;
  ram_list_children (btree_iter String.le children) ctx.

Definition ram_directory_operations (self : loc) : DirectoryOperations := {|
  op_create_file := ram_create_file self;
  op_create_directory := ram_create_directory self;
  op_remove_file := ram_remove_file self;
  op_remove_directory := ram_remove_directory self;
  op_lookup := ram_lookup self;
  op_read_directory := ram_read_directory self;
|}.

(** ** The contents of a RAM file

    [read_at] and [write_at] against a file as a function from positions to
    bytes. *)

Lemma write_at_length data offset buffer : (0 ≤ offset)%Z →
  Z.of_nat (length (write_at data offset buffer)) =
    Z.max (Z.of_nat (length data)) (offset + Z.of_nat (length buffer)).
Proof.
  intros Ho. unfold write_at, copy_at, vec_resize.
  case_decide; rewrite !length_app, length_take, length_drop, ?length_app, ?length_replicate; lia.
Qed.

(** Positions in a vector after [resize]: a hole reads as zero. *)
Lemma vec_resize_lookup n data i : i < n →
  vec_resize n data !! i = Some (default x00 (data !! i)).
Proof.
  intros Hi. unfold vec_resize. destruct (decide (i < length data)) as [Hl|Hl].
  - rewrite lookup_app_l by done. by destruct (lookup_lt_is_Some_2 _ _ Hl) as [b ->].
  - rewrite lookup_app_r, lookup_replicate_2, lookup_ge_None_2 by lia. done.
Qed.

Lemma copy_at_lookup data o buffer i : o + length buffer ≤ length data →
  copy_at data o buffer !! i =
    if decide (o ≤ i < o + length buffer) then buffer !! (i - o) else data !! i.
Proof.
  intros Hlen. unfold copy_at. case_decide as Hi.
  - rewrite lookup_app_r by (rewrite length_take; lia). rewrite length_take, Nat.min_l by lia.
    by rewrite lookup_app_l by lia.
  - destruct (decide (i < o)).
    + rewrite lookup_app_l by (rewrite length_take; lia). by rewrite lookup_take_lt.
    + rewrite lookup_app_r by (rewrite length_take; lia). rewrite length_take, Nat.min_l by lia.
      rewrite lookup_app_r by lia. rewrite lookup_drop. f_equal. lia.
Qed.

Lemma write_at_lookup data offset buffer i : (0 ≤ offset)%Z →
  let o := Z.to_nat offset in
  i < length (write_at data offset buffer) →
  write_at data offset buffer !! i = Some
    (if decide (o ≤ i < o + length buffer) then default x00 (buffer !! (i - o))
     else default x00 (data !! i)).
Proof.
  intros Ho o Hi. pose proof (write_at_length data offset buffer Ho) as Hlen.
  unfold write_at in *. fold o in Hlen, Hi |- *. assert (Heq : o = Z.to_nat offset) by done.
  clearbody o. case_decide as Hgrow.
  - assert (Hv : length (vec_resize (Z.to_nat (offset + Z.of_nat (length buffer))) data) =
      o + length buffer) by (unfold vec_resize; rewrite length_app, length_replicate; lia).
    rewrite copy_at_lookup by lia. case_decide as Hb.
    + by destruct (lookup_lt_is_Some_2 buffer (i - o)) as [b ->]; [lia|].
    + apply vec_resize_lookup. lia.
  - rewrite copy_at_lookup by lia. case_decide.
    + by destruct (lookup_lt_is_Some_2 buffer (i - o)) as [b ->]; [lia|].
    + by destruct (lookup_lt_is_Some_2 data i) as [b ->]; [lia|].
Qed.

(** [read_at] fills a prefix of the buffer with the bytes at the offset. *)
Lemma read_at_spec data offset buffer : (0 ≤ offset)%Z →
  let n := Z.to_nat (read_at data offset buffer).1 in
  n = Nat.min (length buffer) (length data - Z.to_nat offset) ∧
  (read_at data offset buffer).1 = Z.of_nat n ∧
  (read_at data offset buffer).2 = take n (drop (Z.to_nat offset) data) ++ drop n buffer.
Proof.
  intros Ho. unfold read_at. case_decide; simpl; [|split_and!; try done; lia].
  split_and!; [lia|done|]. by rewrite drop_0.
Qed.

Lemma read_at_length data offset buffer : (0 ≤ offset)%Z →
  length (read_at data offset buffer).2 = length buffer.
Proof.
  intros Ho. destruct (read_at_spec data offset buffer Ho) as (Hn & _ & ->).
  rewrite length_app, length_take, length_drop, length_drop. lia.
Qed.

(** Reading back what was written. *)
Lemma read_at_write_at data offset buffer out : (0 ≤ offset)%Z → length out = length buffer →
  read_at (write_at data offset buffer) offset out = (Z.of_nat (length buffer), buffer).
Proof.
  intros Ho Hout. destruct (read_at_spec (write_at data offset buffer) offset out Ho) as (Hn & H1 & H2).
  pose proof (write_at_length data offset buffer Ho) as Hlen.
  rewrite (surjective_pairing (read_at _ _ _)), H1, H2.
  assert (Z.to_nat (read_at (write_at data offset buffer) offset out).1 = length buffer) as -> by lia.
  f_equal. rewrite (drop_ge out), app_nil_r by lia. apply list_eq. intros i.
  destruct (decide (i < length buffer)).
  - rewrite lookup_take_lt, lookup_drop, (write_at_lookup data offset buffer) by lia.
    rewrite decide_True by lia. replace (Z.to_nat offset + i - Z.to_nat offset) with i by lia.
    by destruct (lookup_lt_is_Some_2 buffer i) as [b ->]; [lia|].
  - rewrite !lookup_ge_None_2; [done|lia|]. rewrite length_take. lia.
Qed.
