(* ===== verification/DevFs.v ===== *)
(** * [drivers/fs/dev.rs]: the device file system, and trait-object dispatch

    The device file system has one directory, whose entries are the registered
    character devices; looking up a device makes a new node each time.  The
    second half dispatches the methods of [dyn FileSystemType] and
    [dyn FileSystem] to the two drivers. *)

From Stdlib Require Import Init.Byte.
From S2P Require Import Prelude Util FsTypes Fs Registry RamFs.

(** ** [DevFileSystemType] *)

Definition dev_mount (mount_id : Z) (source : string) (flags : Z) : KM loc :=
  _ ← assert (bool_decide (source = ""));
  root ← alloc_node {|
    node_id := 0; node_mount_id := mount_id; node_kind := FsNodeKind.Directory;
    node_metadata := initial_metadata; node_private_data := None |};
  self ← fresh_loc;
  _ ← modify (upd_file_systems <[self := DevFileSystem {|
    fsi_metadata := {| fsm_device := None; fsm_mount_flags := flags; fsm_block_size := 512;
      fsm_max_file_size := u64_max; fsm_file_system_type := DevFileSystemType |};
    fsi_next_node_id := SynCell.new 1%Z;
    fsi_root := root |}]>);
  mret self.
Definition dev_unmount (_instance : loc) : KM unit := panic Todo.

(** [FsNodeOperations for DevFileSystem] *)
Definition dev_write_node (_node : FsNode) : M kernel unit unit := mret tt.
Definition dev_evict_node (_node : FsNode) : M kernel unit unit := mret tt.

(** ** [FileOperations for DevFileSystem] *)

Definition dev_read (file : File) (offset : Z) (buffer : list byte) : KM (Z * list byte) :=
  n ← get_node (file_node file);
  match node_kind n with
  | FsNodeKind.CharDevice =>
      c_dev ← data_as_CharDevice n;
      op_read (char_device_file_operations c_dev) file offset buffer
  | FsNodeKind.BlockDevice => panic Todo
  | _ => panic Unreachable
  end.

Definition dev_write (file : File) (offset : Z) (buffer : list byte) : KM Z :=
  n ← get_node (file_node file);
  match node_kind n with
  | FsNodeKind.CharDevice =>
      c_dev ← data_as_CharDevice n;
      op_write (char_device_file_operations c_dev) file offset buffer
  | FsNodeKind.BlockDevice => panic Todo
  | _ => panic Unreachable
  end.

Definition dev_file_operations (_self : loc) : FileOperations := {|
  op_open := op_open FileOperations_default;
  op_flush := op_flush FileOperations_default;
  op_seek := op_seek FileOperations_default;
  op_read := dev_read;
  op_write := dev_write;
|}.

(** ** [DirectoryOperations for DevFileSystem] *)

Definition dev_lookup (self _parent : loc) (name : string) : KM (option loc) :=
  od ← get_char_device name;
  match od with
  | None => mret None
  | Some d =>
      id ← next_node_id self;
      mid ← root_mount_id self;
      l ← alloc_node {|
        node_id := id; node_mount_id := mid; node_kind := FsNodeKind.CharDevice;
        node_metadata := initial_metadata; node_private_data := Some (CharDeviceNode d) |};
      mret (Some l)
  end.

Fixpoint dev_list_devices (self : loc) (devs : list CharDevice)
    (ctx : DirectoryIterationContext) : KM DirectoryIterationContext :=
  match devs with
  | [] => mret ctx
  | d :: rest =>
      id ← next_node_id self;
      dev_list_devices self rest
        (DirectoryIterationContext_insert (cdm_name (char_device_metadata d)) id
           FsNodeKind.CharDevice ctx)
  end.
Definition dev_read_directory (self : loc) (ctx : DirectoryIterationContext) (_entry : loc)
    : KM DirectoryIterationContext :=
  devs ← list_char_devices;
  dev_list_devices self devs ctx.

Definition dev_directory_operations (self : loc) : DirectoryOperations := {|
  op_create_file := default_create_file;
  op_create_directory := default_create_directory;
  op_remove_file := default_remove_file;
  op_remove_directory := default_remove_directory;
  op_lookup := dev_lookup self;
  op_read_directory := dev_read_directory self;
|}.

(** ** [dyn FileSystemType] and [dyn FileSystem] *)

Definition fs_type_mount (ty : FileSystemType) : Z → string → Z → KM loc :=
  match ty with
  | RamFileSystemType => ram_mount
  | DevFileSystemType => dev_mount
  end.

Definition file_operations (self : loc) : KM FileOperations :=
  fs ← get_fs self;
  mret match fs with
       | RamFileSystem _ => ram_file_operations self
       | DevFileSystem _ => dev_file_operations self
       end.
Definition directory_operations (self : loc) : KM DirectoryOperations :=
  fs ← get_fs self;
  mret match fs with
       | RamFileSystem _ => ram_directory_operations self
       | DevFileSystem _ => dev_directory_operations self
       end.
