(* ===== verification/DirCache.v ===== *)
(** * The directory cache of [fs/vfs.rs]

    [DirectoryCache] maps a parent's id and a child's name to a weak reference
    to the child's entry.  It is the only place entries are created. *)

From Stdlib Require Import Init.Byte.
From S2P Require Import Prelude Util FsTypes Fs.

(** [get_root] *)
Definition cache_get_root : KM (option loc) :=
  o ← gets (λ k, directory_cache k !! (DirectoryEntryId_NULL, "/"));
  match o with
  | Some w => weak_upgrade w
  | None => mret None
  end.

(** [lookup] *)
Definition cache_lookup (parent : loc) (name : string) : KM (option loc) :=
  p ← get_entry parent;
  o ← gets (λ k, directory_cache k !! (de_id p, name));
  match o with
  | Some w => weak_upgrade w
  | None => mret None
  end.

(** [lookup(parent, name).is_none()]: the upgraded reference is a temporary. *)
Definition cache_lookup_is_none (parent : loc) (name : string) : KM bool :=
  o ← cache_lookup parent name;
  match o with
  | Some e => _ ← arc_drop e; mret false
  | None => mret true
  end.

Definition set_children (c : gmap string loc) (de : DirectoryEntry) : DirectoryEntry :=
  {| de_id := de_id de; de_name := de_name de; de_node := de_node de;
     de_parent := de_parent de; de_children := c |}.

(** [insert], after its assertions: the entry is allocated, linked into the
    parent's [children] and entered into the table. *)
Definition cache_alloc (parent : option loc) (node : loc) (name : string) : KM loc :=
  id ← DirectoryEntryId_new;
  e ← fresh_loc;
  _ ← modify (upd_entries <[e := {| de_id := id; de_name := name; de_node := node;
                                    de_parent := parent; de_children := ∅ |}]>);
  _ ← arc_clone e;
  pid ← match parent with
        | Some p =>
            pe ← get_entry p;
            _ ← modify (upd_entries <[p := set_children (<[name := e]> (de_children pe)) pe]>);
            mret (de_id pe)
        | None => mret DirectoryEntryId_NULL
        end;
  _ ← modify (upd_directory_cache <[(pid, name) := e]>);
  mret e.

(** [insert]: the result is a strong reference. *)
Definition cache_insert (parent : option loc) (node : loc) (name : string) : KM loc :=
  _ ← assert_or CacheAssert (bool_decide (is_Some parent) || bool_decide (name = "/"));
  _ ← match parent with
      | Some p => b ← cache_lookup_is_none p name; assert_or CacheAssert b
      | None => mret tt
      end;
  cache_alloc parent node name.

(** [DirectoryEntry::prune_children] *)
Definition prune_children (e : loc) : KM unit :=
  de ← get_entry e;
  k ← gets id;
  let children := filter (λ c : string * loc, 0 < strong_count k c.2) (de_children de) in
  modify (upd_entries <[e := set_children children de]>).

(** The derived [Ord] of [DirectoryCacheKey]. *)
Definition cache_key_le : relation DirectoryCacheKey := λ a b,
  (a.1 < b.1)%Z ∨ (a.1 = b.1 ∧ String.le a.2 b.2).
#[export] Instance cache_key_le_dec : RelDecision cache_key_le.
Proof. intros a b. unfold cache_key_le. apply _. Defined.

(** [prune] *)
Fixpoint prune_entries (ws : list loc) : KM unit :=
  match ws with
  | [] => mret tt
  | w :: rest =>
      o ← weak_upgrade w;
      _ ← match o with
          | Some e => _ ← prune_children e; arc_drop e
          | None => mret tt
          end;
      prune_entries rest
  end.
Definition cache_prune : KM unit :=
  k ← gets id;
  _ ← modify (upd_directory_cache
        (filter (λ e : DirectoryCacheKey * loc, 0 < strong_count k e.2)));
  ws ← gets (λ k, btree_values cache_key_le (directory_cache k));
  prune_entries ws.
