(* ===== verification/Vfs.v ===== *)
(** * [fs/vfs.rs]: the operations of the virtual file system

    Every method of [VirtualFileSystem], in the order of the source.  Locks are
    not represented: the kernel runs these methods on one core, outside
    interrupt handlers, so they do not interleave. *)

From Stdlib Require Import Init.Byte.
From S2P Require Import Prelude Util FsTypes Fs Registry RamFs DevFs DirCache Path.

(** ** Path resolution *)

(** [Path::from_str(path).map_err(|_| IoError::InvalidPath)?] *)
Definition parse_path (path : string) : KM Path.t := λ k,
  match Path.from_str path with
  | Ok p => (Ok p, k)
  | Err _ => (Err InvalidPath, k)
  | Panic p => (Panic p, k)
  end.

(** [entry.node], dereferenced. *)
Definition entry_node (e : loc) : KM FsNode :=
  l ← entry_node_loc e; get_node l.

Definition get_cached_or_lookup (parent : loc) (name : string) : KM (option loc) :=
  c ← cache_lookup parent name;
  match c with
  | Some cached => mret (Some cached)
  | None =>
      pn ← entry_node parent;
      fs ← node_file_system pn;
      ops ← directory_operations fs;
      on ← op_lookup ops parent name;
      match on with
      | None => mret None
      | Some node => e ← cache_insert (Some parent) node name; mret (Some e)
      end
  end.

(** [PartialEq for DirectoryEntry] *)
Definition entry_eq (a b : loc) : KM bool :=
  ae ← get_entry a; be ← get_entry b; mret (bool_decide (de_id ae = de_id be)).

(** The scan of the mount table in [resolve_path]: the first mount whose root
    lies in [top] under [name]. *)
Fixpoint find_mount (mnts : list VfsMount) (top : loc) (name : string) : KM (option loc) :=
  match mnts with
  | [] => mret None
  | mnt :: rest =>
      r ← get_entry (mount_root mnt);
      b ← match de_parent r with Some p => entry_eq p top | None => mret false end;
      if b && bool_decide (de_name r = name)
      then _ ← arc_clone (mount_root mnt); mret (Some (mount_root mnt))
      else find_mount rest top name
  end.

(** The loop of [resolve_path]; the top of [stack] is its head. *)
Fixpoint resolve_segments (stack : list loc) (segs : list string) : KM (option loc) :=
  match segs with
  | [] => top ← unwrap UnwrapNone (head stack); mret (Some top)
  | segment :: rest =>
      top ← unwrap UnwrapNone (head stack);
      n ← entry_node top;
      if negb (is_directory n) then fail NotADirectory
      else if decide (segment = ".") then resolve_segments stack rest
      else if decide (segment = "..") then
        if decide (length stack = 1) then resolve_segments stack rest
        else _ ← arc_drop top; resolve_segments (tail stack) rest
      else
        mnts ← gets (λ k, btree_values Z.le (mount_table k));
        om ← find_mount mnts top segment;
        match om with
        | Some root => resolve_segments (root :: stack) rest
        | None =>
            oe ← get_cached_or_lookup top segment;
            match oe with
            | None => mret None
            | Some entry => resolve_segments (entry :: stack) rest
            end
        end
  end.

Definition resolve_path (path : string) : KM (option loc) :=
  scoped option_list (
    p ← parse_path path;
    abs ← unwrap UnwrapNone (Path.is_absolute p);
    if negb abs then panic Todo else
    o ← cache_get_root;
    root_directory ← ok_or NoRootDirectory o;
    _ ← arc_clone root_directory;
    resolve_segments [root_directory] (drop 1 (Path.segments p))).

(** The loop of [resolve_path_parent_directory]. *)
Fixpoint resolve_parent_segments (stack : list loc) (count i : nat) (segs : list string)
    : KM (loc * string) :=
  match segs with
  | [] => panic Unreachable
  | segment :: rest =>
      if decide (segment = ".") then panic Todo
      else if decide (segment = "..") then panic Todo
      else if decide (i ≠ count - 1) then
        top ← unwrap UnwrapNone (head stack);
        oe ← get_cached_or_lookup top segment;
        entry ← ok_or EntryNotFound oe;
        n ← entry_node entry;
        if negb (is_directory n) then fail NotADirectory
        else resolve_parent_segments (entry :: stack) count (S i) rest
      else
        top ← unwrap UnwrapNone (head stack);
        mret (top, segment)
  end.

Definition resolve_path_parent_directory (path : string) : KM (loc * string) :=
  scoped (λ r, [r.1]) (
    p ← parse_path path;
    abs ← unwrap UnwrapNone (Path.is_absolute p);
    if negb abs then panic Todo else
    o ← cache_get_root;
    root_directory ← ok_or NoRootDirectory o;
    _ ← arc_clone root_directory;
    let count := length (Path.segments p) - 1 in
    if decide (count = 0) then fail InvalidPath
    else resolve_parent_segments [root_directory] count 0 (drop 1 (Path.segments p))).

(** ** Mounting *)

(** The part of [mount] that makes the instance and its root entry. *)
Definition mount_instance (ty : FileSystemType) (source : string) (flags : Z)
    (parent : option loc) (name : string) : KM VfsMount :=
  id ← MountId_new;
  fs ← fs_type_mount ty id source flags;
  rd ← root_directory fs;
  root ← cache_insert parent rd name;
  mret {| mount_id := id; mount_root := root; mount_file_system := fs |}.

Definition mount (source target : string) (kind : option string) (flags : Z) : KM Z :=
  scoped (λ _, []) (
    fs_type ← match kind with
              | Some k => o ← find_file_system_type k;
                          ty ← ok_or FileSystemTypeNotFound o; mret (Some ty)
              | None => mret None
              end;
    ty ← unwrap Todo fs_type;
    let name := fst_name (fs_type_metadata ty) in
    if negb (bool_decide (name = "ramfs")) && negb (bool_decide (name = "devfs"))
    then panic Todo else
    m ← (if decide (target = "/") then
           r ← cache_get_root;
           match r with
           | Some _ => fail AlreadyExists
           | None => mount_instance ty source flags None "/"
           end
         else
           t ← resolve_path target;
           match t with
           | Some _ => panic Todo
           | None =>
               pn ← resolve_path_parent_directory target;
               mount_instance ty source flags (Some pn.1) pn.2
           end);
    _ ← modify (upd_mount_table <[mount_id m := m]>);
    mret (mount_id m)).

Definition create_root : KM loc :=
  scoped (λ r, [r]) (
    r ← cache_get_root;
    _ ← assert (bool_decide (r = None));
    id ← mount "" "/" (Some "ramfs") (Z.lor MountFlags_READ MountFlags_WRITE);
    o ← get_mount id;
    m ← unwrap UnwrapNone o;
    _ ← arc_clone (mount_root m);
    mret (mount_root m)).

(** ** Files *)

Definition get_file (fd : Z) : KM File :=
  o ← gets (λ k, files k !! fd); ok_or InvalidFile o.

Definition open (path : string) (mode : FileMode.t) : KM Z :=
  scoped (λ _, []) (
    file_entry ← (
      if FileMode.is_mutating mode then
        o ← resolve_path path;
        match o with
        | Some entry =>
            n ← entry_node entry;
            if is_directory n then fail NotAFile else mret entry
        | None =>
            pn ← resolve_path_parent_directory path;
            n ← entry_node pn.1;
            fs ← node_file_system n;
            ops ← directory_operations fs;
            node ← op_create_file ops pn.1 pn.2;
            cache_insert (Some pn.1) node pn.2
        end
      else o ← resolve_path path; ok_or EntryNotFound o);
    nl ← entry_node_loc file_entry;
    _ ← increment_link_count nl;
    Defer.defer_handle (decrement_link_count nl) (
      file ← Defer.lift (
        n ← get_node nl;
        fs ← node_file_system n;
        ops ← file_operations fs;
        op_open ops nl mode);
      fd ← Defer.lift (
        fd ← FileDescriptor_new;
        _ ← modify (upd_files <[fd := file]>);
        mret fd);
      _ ← Defer.cancel;
      mret fd)).

Definition close (fd : Z) : KM unit :=
  file ← get_file fd;
  fs ← file_file_system file;
  ops ← file_operations fs;
  _ ← op_flush ops file;
  _ ← modify (upd_files (delete fd));
  decrement_link_count (file_node file).

(** [*file.position.lock() = p], for the file open under [fd]. *)
Definition set_position (p : Z) (f : File) : File :=
  {| file_node := file_node f; file_mode := file_mode f; file_position := p;
     file_private_data := file_private_data f |}.
Definition store_position (fd p : Z) : KM unit :=
  modify (upd_files (alter (set_position p) fd)).

Definition read (fd : Z) (buffer : list byte) : KM (Z * list byte) :=
  file ← get_file fd;
  n ← get_node (file_node file);
  _ ← assert (bool_decide (node_kind n ≠ FsNodeKind.Directory));
  if decide (file_mode file ≠ FileMode.Read) then fail InvalidMode else
  fs ← file_file_system file;
  ops ← file_operations fs;
  r ← op_read ops file (file_position file) buffer;
  p ← checked_add (file_position file) r.1;
  _ ← store_position fd p;
  mret r.

Definition write (fd : Z) (buffer : list byte) : KM Z :=
  file ← get_file fd;
  n ← get_node (file_node file);
  _ ← assert (bool_decide (node_kind n ≠ FsNodeKind.Directory));
  if decide (file_mode file ≠ FileMode.Write) then fail InvalidMode else
  fs ← file_file_system file;
  ops ← file_operations fs;
  n ← op_write ops file (file_position file) buffer;
  p ← checked_add (file_position file) n;
  _ ← store_position fd p;
  mret n.

(** ** Directories *)

(** The mounts whose root lies in [directory] are added to the listing. *)
Fixpoint list_mounts (mnts : list VfsMount) (directory : loc) (ctx : DirectoryIterationContext)
    : KM DirectoryIterationContext :=
  match mnts with
  | [] => mret ctx
  | mnt :: rest =>
      r ← get_entry (mount_root mnt);
      match de_parent r with
      | None => list_mounts rest directory ctx
      | Some parent =>
          b ← entry_eq parent directory;
          if b : bool then
            n ← get_node (de_node r);
            list_mounts rest directory
              (DirectoryIterationContext_insert (de_name r) (node_id n) (node_kind n) ctx)
          else list_mounts rest directory ctx
      end
  end.

Definition read_directory (path : string) : KM DirectoryIterationContext :=
  scoped (λ _, []) (
    o ← resolve_path path;
    directory ← ok_or EntryNotFound o;
    n ← entry_node directory;
    if negb (is_directory n) then fail NotADirectory else
    fs ← node_file_system n;
    ops ← directory_operations fs;
    ctx ← op_read_directory ops DirectoryIterationContext_new directory;
    mnts ← gets (λ k, btree_values Z.le (mount_table k));
    list_mounts mnts directory ctx).

Definition create_directory (path : string) : KM loc :=
  scoped (λ e, [e]) (
    o ← resolve_path path;
    match o with
    | Some _ => fail AlreadyExists
    | None =>
        pn ← resolve_path_parent_directory path;
        n ← entry_node pn.1;
        fs ← node_file_system n;
        ops ← directory_operations fs;
        node ← op_create_directory ops pn.1 pn.2;
        cache_insert (Some pn.1) node pn.2
    end).

Definition stat (path : string) : KM loc :=
  o ← resolve_path path; ok_or EntryNotFound o.

Definition prune_directory_cache : KM unit := cache_prune.

(** ** [vfs::init] and [fs::init] *)

Definition bytes (s : string) : list byte := String.list_byte_of_string s.

Definition vfs_init : KM unit :=
  _ ← modify (set_vfs_ready true);
  root ← expect create_root;
  _ ← arc_drop root;
  _ ← expect (mount "" "/dev" (Some "devfs") (Z.lor MountFlags_READ MountFlags_WRITE));
  f ← expect (open "/test.txt" FileMode.Write);
  _ ← expect (write f (bytes "Hello, world!"));
  expect (close f).

Definition fs_init : KM unit :=
  _ ← expect drivers_fs_init;
  vfs_init.

(** The file subsystem's part of [kernel_main]. *)
Definition boot : KM unit :=
  _ ← expect drivers_char_init;
  fs_init.
