(* ===== verification/VfsFrame.v ===== *)
(** * What the operations leave alone

    Frame facts that need no invariant: [Respects R m] says every run of [m]
    relates the states before and after by [R].  For a preorder [R] it is closed
    under sequencing, so the facts follow from the structure of the code; the
    instances below let type class search find them. *)

From Stdlib Require Import Init.Byte.
From S2P Require Import Prelude Util FsTypes Fs Registry RamFs DevFs DirCache Path Vfs.

Class Respects {A} (R : relation kernel) (m : KM A) : Prop :=
  respects k r k' : m k = (r, k') → R k k'.

Section respects.
Context (R : relation kernel) `{!PreOrder R}.

#[global] Instance respects_ret {A} (a : A) : Respects R (mret a).
Proof. by intros k r k' [= <- <-]. Qed.
#[global] Instance respects_gets {A} (f : kernel → A) : Respects R (gets f).
Proof. by intros k r k' [= <- <-]. Qed.
#[global] Instance respects_fail {A} e : Respects R (fail (A:=A) e).
Proof. by intros k r k' [= <- <-]. Qed.
#[global] Instance respects_panic {A} p : Respects R (panic (A:=A) p).
Proof. by intros k r k' [= <- <-]. Qed.
#[global] Instance respects_bind {A B} (m : KM A) (f : A → KM B) :
  Respects R m → (∀ a, Respects R (f a)) → Respects R (m ≫= f).
Proof.
  intros Hm Hf k r k' [(a & s1 & H1 & H2)|[(e & H1 & _)|(p & H1 & _)]]%mbind_ok.
  - etrans; [by eapply Hm|by eapply Hf].
  - by eapply Hm.
  - by eapply Hm.
Qed.
Lemma respects_modify (f : kernel → kernel) : (∀ k, R k (f k)) → Respects R (modify f).
Proof. intros Hf k r k' [= <- <-]. apply Hf. Qed.
#[global] Instance respects_assert_or p b : Respects R (assert_or p b).
Proof. unfold assert_or. destruct b; apply _. Qed.
#[global] Instance respects_assert b : Respects R (assert b).
Proof. apply respects_assert_or. Qed.
#[global] Instance respects_unwrap {A} p (o : option A) : Respects R (unwrap p o).
Proof. unfold unwrap. destruct o; apply _. Qed.
#[global] Instance respects_ok_or {A} e (o : option A) : Respects R (ok_or e o).
Proof. unfold ok_or. destruct o; apply _. Qed.
#[global] Instance respects_checked_add a b : Respects R (checked_add a b).
Proof. unfold checked_add. case_decide; apply _. Qed.
#[global] Instance respects_checked_sub a b : Respects R (checked_sub a b).
Proof. unfold checked_sub. case_decide; apply _. Qed.
Lemma respects_scoped {A} keep (m : KM A) :
  (∀ k h, R k (gc (set_held h k))) → Respects R m → Respects R (scoped keep m).
Proof.
  intros Hgc Hm k r k'. unfold scoped. destruct (m k) as [o k1] eqn:Hk.
  apply Hm in Hk. destruct o; intros [= <- <-]; [etrans; [done|apply Hgc]..|done].
Qed.
Lemma respects_expect {A} (m : KM A) : Respects R m → Respects R (expect (E':=IoError) m).
Proof.
  intros Hm k r k'. unfold expect. destruct (m k) as [o k1] eqn:Hk.
  apply Hm in Hk. by destruct o; intros [= <- <-].
Qed.
Lemma respects_defer {A} (b : KM unit) (m : KM A) (f : A → KM Z) :
  Respects R b → Respects R m → (∀ a, Respects R (f a)) →
  Respects R (Defer.defer_handle b
    (a ← Defer.lift m; r ← Defer.lift (f a); _ ← Defer.cancel; mret r)).
Proof.
  intros Hb Hm Hf k r k'. rewrite defer_handle_cancel_last.
  destruct ((m ≫= f) k) as [o k1] eqn:Hk.
  assert (R k k1) by (by eapply (respects_bind m f)).
  destruct o; [by intros [= <- <-]| |by intros [= <- <-]].
  destruct (b k1) as [o2 k2] eqn:Hk2. apply Hb in Hk2.
  destruct o2; intros [= <- <-]; by etrans.
Qed.
End respects.

(** Case analysis on data inside the code. *)
#[export] Hint Extern 4 (Respects _ (match ?x with _ => _ end)) => destruct x : typeclass_instances.
#[export] Hint Extern 4 (Respects _ (let _ := _ in _)) => cbv zeta : typeclass_instances.

(** ** Heap reads *)

#[export] Instance get_node_respects R `{!PreOrder R} l : Respects R (get_node l).
Proof. unfold get_node. apply _. Qed.
#[export] Instance get_entry_respects R `{!PreOrder R} l : Respects R (get_entry l).
Proof. unfold get_entry. apply _. Qed.
#[export] Instance get_fs_respects R `{!PreOrder R} l : Respects R (get_fs l).
Proof. unfold get_fs. apply _. Qed.
#[export] Instance entry_node_loc_respects R `{!PreOrder R} l : Respects R (entry_node_loc l).
Proof. unfold entry_node_loc. apply _. Qed.
#[export] Instance entry_node_respects R `{!PreOrder R} l : Respects R (entry_node l).
Proof. unfold entry_node. apply _. Qed.
#[export] Instance entry_eq_respects R `{!PreOrder R} a b : Respects R (entry_eq a b).
Proof. unfold entry_eq. apply _. Qed.
#[export] Instance root_directory_respects R `{!PreOrder R} l : Respects R (root_directory l).
Proof. unfold root_directory. apply _. Qed.
#[export] Instance root_mount_id_respects R `{!PreOrder R} l : Respects R (root_mount_id l).
Proof. unfold root_mount_id. apply _. Qed.
#[export] Instance vfs_get_respects R `{!PreOrder R} : Respects R vfs_get.
Proof. unfold vfs_get. apply _. Qed.
#[export] Instance get_mount_respects R `{!PreOrder R} id : Respects R (get_mount id).
Proof. unfold get_mount. apply _. Qed.
#[export] Instance node_file_system_respects R `{!PreOrder R} n : Respects R (node_file_system n).
Proof. unfold node_file_system. apply _. Qed.
#[export] Instance file_file_system_respects R `{!PreOrder R} f : Respects R (file_file_system f).
Proof. unfold file_file_system. apply _. Qed.
#[export] Instance file_operations_respects R `{!PreOrder R} l : Respects R (file_operations l).
Proof. unfold file_operations. apply _. Qed.
#[export] Instance directory_operations_respects R `{!PreOrder R} l :
  Respects R (directory_operations l).
Proof. unfold directory_operations. apply _. Qed.
#[export] Instance data_as_file_respects R `{!PreOrder R} n : Respects R (data_as_RamFileNode n).
Proof. unfold data_as_RamFileNode. apply _. Qed.
#[export] Instance data_as_dir_respects R `{!PreOrder R} n :
  Respects R (data_as_RamDirectoryNode n).
Proof. unfold data_as_RamDirectoryNode. apply _. Qed.
#[export] Instance data_as_dev_respects R `{!PreOrder R} n : Respects R (data_as_CharDevice n).
Proof. unfold data_as_CharDevice. apply _. Qed.
#[export] Instance get_file_respects R `{!PreOrder R} fd : Respects R (get_file fd).
Proof. unfold get_file. apply _. Qed.
#[export] Instance parse_path_respects R `{!PreOrder R} p : Respects R (parse_path p).
Proof. intros k r k'. unfold parse_path. by destruct (Path.from_str p); intros [= <- <-]. Qed.

(** Code after a dispatch on the file system. *)
Lemma with_file_ops R `{!PreOrder R} {B} fs (f : FileOperations → KM B) :
  (∀ l, Respects R (f (ram_file_operations l))) → (∀ l, Respects R (f (dev_file_operations l))) →
  Respects R (ops ← file_operations fs; f ops).
Proof.
  intros Hram Hdev k r k' Hrun. minv Hrun as ops s1 Hops; [|by eapply file_operations_respects; [apply _|]..].
  unfold file_operations, get_fs in Hops. munfold Hops.
  destruct (file_systems k !! fs) as [[]|]; simplify_eq; [by eapply Hram|by eapply Hdev].
Qed.
Lemma with_directory_ops R `{!PreOrder R} {B} fs (f : DirectoryOperations → KM B) :
  (∀ l, Respects R (f (ram_directory_operations l))) → (∀ l, Respects R (f (dev_directory_operations l))) →
  Respects R (ops ← directory_operations fs; f ops).
Proof.
  intros Hram Hdev k r k' Hrun. minv Hrun as ops s1 Hops; [|by eapply directory_operations_respects; [apply _|]..].
  unfold directory_operations, get_fs in Hops. munfold Hops.
  destruct (file_systems k !! fs) as [[]|]; simplify_eq; [by eapply Hram|by eapply Hdev].
Qed.

(** ** Resolution only adds

    [ext k k']: what resolving a path may do to the state.  It may allocate
    device nodes and directory entries, drop unreferenced entries, and advance
    counters; nodes, mounts, open files and registries are untouched, and an
    entry that survives keeps everything but its [children] cache. *)

Definition fs_static (fs : FileSystem) : FileSystem := set_next_node_id (SynCell.new 0%Z) fs.
Definition entry_static (de : DirectoryEntry) : DirectoryEntry := set_children ∅ de.

(** The contents of a RAM file; other nodes have none. *)
Definition node_bytes (n : FsNode) : list byte :=
  match node_private_data n with
  | Some (RamFileNode d) => d
  | _ => []
  end.
(** The nodes the drivers make: one link, no contents. *)
Definition fresh_node (n : FsNode) : Prop :=
  node_metadata n = initial_metadata ∧ node_bytes n = [].

Record ext (k k' : kernel) : Prop := {
  ext_fs_registry : fs_registry k' = fs_registry k;
  ext_char_registry : char_registry k' = char_registry k;
  ext_ready : vfs_ready k' = vfs_ready k;
  ext_files : files k' = files k;
  ext_mounts : mount_table k' = mount_table k;
  ext_mount_count : mount_count k' = mount_count k;
  ext_fd_count : fd_count k' = fd_count k;
  ext_entry_count : (entry_count k ≤ entry_count k')%Z;
  ext_loc : next_loc k ≤ next_loc k';
  ext_nodes l : l < next_loc k → nodes k' !! l = nodes k !! l;
  ext_new_nodes l n : nodes k' !! l = Some n →
    nodes k !! l = Some n ∨ fresh_node n;
  ext_fs l : fs_static <$> file_systems k' !! l = fs_static <$> file_systems k !! l;
  ext_entries l de' : l < next_loc k → entries k' !! l = Some de' →
    ∃ de, entries k !! l = Some de ∧ entry_static de' = entry_static de;
}.

#[export] Instance ext_preorder : PreOrder ext.
Proof.
  split.
  - intros k. split; eauto; lia.
  - intros k1 k2 k3 H1 H2. destruct H1, H2.
    split; try congruence; try lia.
    + intros l Hl. rewrite <- ext_nodes0 by done. apply ext_nodes1. lia.
    + intros l n Hn. destruct (ext_new_nodes1 _ _ Hn); eauto.
    + intros l de Hl Hde. destruct (ext_entries1 l de) as (de1 & Hde1 & ?); [lia|done|].
      destruct (ext_entries0 l de1) as (de2 & ? & ?); [done..|]. exists de2. split; congruence.
Qed.

Ltac ext_trivial :=
  split; simpl; first [done | lia | by intros; left | eauto].

Lemma ext_set_held k h : ext k (set_held h k).
Proof. ext_trivial. Qed.
Lemma ext_gc k : ext k (gc k).
Proof.
  unfold gc. split; simpl; try done; [by intros; left|].
  intros l de Hl (Hde & _)%map_lookup_filter_Some. eauto.
Qed.
Lemma ext_gc_held k h : ext k (gc (set_held h k)).
Proof. etrans; [apply ext_set_held|apply ext_gc]. Qed.

#[export] Instance arc_clone_ext l : Respects ext (arc_clone l).
Proof. apply respects_modify. intros k. apply ext_set_held. Qed.
#[export] Instance arc_drop_ext l : Respects ext (arc_drop l).
Proof. apply respects_modify. intros k. apply ext_gc_held. Qed.
#[export] Instance weak_upgrade_ext l : Respects ext (weak_upgrade l).
Proof. unfold weak_upgrade. apply _. Qed.
#[export] Instance cache_get_root_ext : Respects ext cache_get_root.
Proof. unfold cache_get_root. apply _. Qed.
#[export] Instance cache_lookup_ext p n : Respects ext (cache_lookup p n).
Proof. unfold cache_lookup. apply _. Qed.
#[export] Instance cache_lookup_is_none_ext p n : Respects ext (cache_lookup_is_none p n).
Proof. unfold cache_lookup_is_none. apply _. Qed.
#[export] Instance DirectoryEntryId_new_ext : Respects ext DirectoryEntryId_new.
Proof. intros k r k' [= <- <-]. ext_trivial. Qed.

(** [next_node_id] changes the counter of one instance. *)
Lemma next_node_id_run self k r k' :
  next_node_id self k = (r, k') →
  (k' = k ∧ r ≠ Err OperationNotSupported ∧ is_ok r = false) ∨
  ∃ fs c, file_systems k !! self = Some fs ∧ r = Ok (SynCell.get (fsi_next_node_id (fs_instance fs))) ∧
    k' = upd_file_systems <[self := set_next_node_id c fs]> k.
Proof.
  unfold next_node_id, get_fs, SynCell.replace, checked_add, mbind, M_bind, gets, unwrap,
    modify, mret, M_ret, panic, SynCell.get.
  destruct (file_systems k !! self) as [fs|] eqn:Hfs; [|intros [= <- <-]; by left].
  case_decide; intros [= <- <-]; [right|by left]. eauto.
Qed.
Lemma fs_static_set c fs : fs_static (set_next_node_id c fs) = fs_static fs.
Proof. by destruct fs. Qed.

#[export] Instance next_node_id_ext self : Respects ext (next_node_id self).
Proof.
  intros k r k' [(-> & _)|(fs & c & Hfs & _ & ->)]%next_node_id_run; [done|].
  split; simpl; try done; [by intros; left| |by eauto].
  intros l. destruct (decide (l = self)) as [->|].
  - rewrite lookup_insert_eq, Hfs. simpl. by rewrite fs_static_set.
  - by rewrite lookup_insert_ne.
Qed.

Lemma alloc_node_run n k r k' : alloc_node n k = (r, k') →
  r = Ok (next_loc k) ∧
  k' = upd_nodes <[next_loc k := n]> (set_next_loc (S (next_loc k)) k).
Proof. by intros [= <- <-]. Qed.

Lemma alloc_node_ext n : fresh_node n → Respects ext (alloc_node n).
Proof.
  intros Hn k r k' [-> ->]%alloc_node_run. split; simpl; try done; try lia.
  - intros l Hl. by rewrite lookup_insert_ne by lia.
  - intros l n' [[<- <-]|[? ?]]%lookup_insert_Some; eauto.
  - eauto.
Qed.
#[export] Hint Extern 1 (Respects ext (alloc_node _)) => by apply alloc_node_ext : typeclass_instances.

(** ** Allocating a directory entry *)

Definition new_entry (parent : option loc) (node : loc) (name : string) (k : kernel) : DirectoryEntry :=
  {| de_id := wrap64 (entry_count k); de_name := name; de_node := node;
     de_parent := parent; de_children := ∅ |}.
Definition add_child (name : string) (e : loc) (pe : DirectoryEntry) : DirectoryEntry :=
  set_children (<[name := e]> (de_children pe)) pe.
(** The id used as the first half of a cache key. *)
Definition parent_id (ents : gmap loc DirectoryEntry) (parent : option loc) : Z :=
  match parent with
  | Some p => from_option de_id 0%Z (ents !! p)
  | None => 0
  end.
Definition insert_entries (parent : option loc) (e : loc) (de : DirectoryEntry)
    (ents : gmap loc DirectoryEntry) : gmap loc DirectoryEntry :=
  match parent with
  | Some p => alter (add_child (de_name de) e) p (<[e := de]> ents)
  | None => <[e := de]> ents
  end.
Definition insert_state (parent : option loc) (node : loc) (name : string) (k : kernel) : kernel :=
  let e := next_loc k in
  let ents := insert_entries parent e (new_entry parent node name k) (entries k) in
  set_entry_count (entry_count k + 1) (set_next_loc (S e) (set_held (e :: held k)
    (upd_entries (λ _, ents) (upd_directory_cache <[(parent_id ents parent, name) := e]> k)))).

Lemma cache_alloc_run parent node name k r k' :
  cache_alloc parent node name k = (r, k') →
  (r = Ok (next_loc k) ∧ k' = insert_state parent node name k) ∨
  (r = Panic DanglingPtr ∧ ext k k' ∧ ∃ p, parent = Some p ∧ entries k !! p = None).
Proof.
  intros Hrun. unfold cache_alloc in Hrun. munfold Hrun. simpl in Hrun.
  destruct parent as [p|]; simpl in Hrun; [|left; by simplify_eq].
  munfold Hrun. unfold get_entry in Hrun. munfold Hrun. simpl in Hrun.
  destruct (<[next_loc k := _]> (entries k) !! p) as [pe|] eqn:Hpe; simplify_eq/=.
  - left. split; [done|]. unfold insert_state, insert_entries. simpl.
    unfold new_entry at 2. simpl. unfold new_entry.
    rewrite (lookup_alter_eq _ _ p), Hpe. simpl. do 3 f_equal.
    unfold upd_entries at 1. simpl. f_equal.
    by rewrite (alter_as_insert _ _ _ _ Hpe).
  - right. split_and!; [done| |].
    + split; simpl; try done; try lia; [by intros; left|].
      intros l de Hl. rewrite lookup_insert_ne by lia. eauto.
    + apply lookup_insert_None in Hpe as [? _]. eauto.
Qed.

Lemma insert_entries_lookup parent e de ents l de' :
  l ≠ e → insert_entries parent e de ents !! l = Some de' →
  ∃ de0, ents !! l = Some de0 ∧ entry_static de' = entry_static de0 ∧
    (de' = de0 ∨ parent = Some l ∧ de' = add_child (de_name de) e de0).
Proof.
  intros Hl. unfold insert_entries. destruct parent as [p|].
  - rewrite lookup_alter. case_decide as Hp.
    + subst p. rewrite lookup_insert_ne by done. destruct (ents !! l) as [de0|]; [|done].
      intros [= <-]. eauto 10.
    + rewrite lookup_insert_ne by done. eauto.
  - rewrite lookup_insert_ne by done. eauto.
Qed.

Lemma insert_entries_live parent e de ents l :
  is_Some (insert_entries parent e de ents !! l) ↔ l = e ∨ is_Some (ents !! l).
Proof.
  unfold insert_entries. destruct parent as [p|];
    rewrite ?lookup_alter_is_Some, lookup_insert_is_Some'; split; intros [?|?]; auto.
Qed.

Lemma insert_entries_new parent e de ents :
  parent ≠ Some e → insert_entries parent e de ents !! e = Some de.
Proof.
  intros Hp. unfold insert_entries. destruct parent as [p|].
  - rewrite lookup_alter_ne by congruence. apply lookup_insert_eq.
  - apply lookup_insert_eq.
Qed.

Lemma insert_state_ext parent node name k : ext k (insert_state parent node name k).
Proof.
  split; simpl; try done; try lia; [by intros; left|].
  intros l de Hl Hde. apply insert_entries_lookup in Hde as (de0 & ? & ? & _); [eauto|lia].
Qed.

#[export] Instance cache_alloc_ext p n s : Respects ext (cache_alloc p n s).
Proof.
  intros k r k' [[_ ->]|(_ & ? & _)]%cache_alloc_run; [apply insert_state_ext|done].
Qed.
#[export] Instance cache_insert_ext p n s : Respects ext (cache_insert p n s).
Proof. unfold cache_insert. apply _. Qed.

(** ** Path resolution *)

#[export] Instance ram_lookup_respects R `{!PreOrder R} self p n : Respects R (ram_lookup self p n).
Proof. unfold ram_lookup. apply _. Qed.
#[export] Instance dev_lookup_ext self p n : Respects ext (dev_lookup self p n).
Proof. unfold dev_lookup, get_char_device. apply _. Qed.

Lemma op_lookup_ext fs p n : Respects ext (ops ← directory_operations fs; op_lookup ops p n).
Proof. apply (with_directory_ops ext); intros l; simpl; apply _. Qed.

#[export] Instance find_mount_ext mnts top n : Respects ext (find_mount mnts top n).
Proof. induction mnts; simpl; apply _. Qed.

#[export] Instance get_cached_or_lookup_ext p n : Respects ext (get_cached_or_lookup p n).
Proof.
  unfold get_cached_or_lookup. apply respects_bind; [apply _..|]. intros [e|]; [apply _|].
  do 2 (apply respects_bind; [apply _..|]; intros ?). apply (with_directory_ops ext); intros l; simpl; apply _.
Qed.

#[export] Instance resolve_segments_ext segs : ∀ stack, Respects ext (resolve_segments stack segs).
Proof. induction segs as [|s segs IH]; intros stack; simpl; apply _. Qed.
#[export] Instance resolve_parent_segments_ext segs :
  ∀ stack count i, Respects ext (resolve_parent_segments stack count i segs).
Proof. induction segs as [|s segs IH]; intros stack count i; simpl; apply _. Qed.

#[export] Instance resolve_path_ext path : Respects ext (resolve_path path).
Proof. apply respects_scoped; [apply _|intros; apply ext_gc_held|apply _]. Qed.
#[export] Instance resolve_path_parent_directory_ext path :
  Respects ext (resolve_path_parent_directory path).
Proof. apply respects_scoped; [apply _|intros; apply ext_gc_held|apply _]. Qed.
