(* ===== verification/VfsInv.v ===== *)
(** * The invariant of the virtual file system

    [inv] says that the shared structures of the file subsystem fit together:
    every node belongs to a mounted instance and has the shape its driver
    stores, the RAM file systems are forests, every live directory entry is the
    one the cache returns for its parent and name, and the cache is coherent,
    that is, an entry's node is the one the backing file system (or the mount
    table) has for it.  The first half defines it; the second half proves that
    the elementary state changes preserve it. *)

From Stdlib Require Import Init.Byte.
From S2P Require Import Prelude Util FsTypes Fs Registry RamFs DevFs DirCache Path Vfs VfsFrame.

(** ** Views: what a lookup in a backing file system gives

    A RAM node is identified by its location.  The device file system makes a
    new node at every lookup, so a device node is identified by its mount and
    the device behind it. *)

Inductive view :=
  | VNode (l : loc)
  | VDev (mount : Z) (d : CharDevice).

#[export] Instance view_eq_dec : EqDecision view.
Proof. solve_decision. Defined.

Definition node_view (k : kernel) (l : loc) : view :=
  match nodes k !! l with
  | Some n =>
      match node_private_data n with
      | Some (CharDeviceNode d) => VDev (node_mount_id n) d
      | _ => VNode l
      end
  | None => VNode l
  end.

(** The instance mounted under an id. *)
Definition mount_fs (k : kernel) (id : Z) : option FileSystem :=
  m ← mount_table k !! id; file_systems k !! mount_file_system m.

(** The child of a directory in its backing file system, mounts aside. *)
Definition view_child (k : kernel) (v : view) (name : string) : option view :=
  match v with
  | VDev _ _ => None
  | VNode l =>
      n ← nodes k !! l;
      fs ← mount_fs k (node_mount_id n);
      match fs with
      | RamFileSystem _ =>
          match node_private_data n with
          | Some (RamDirectoryNode ch) => VNode <$> ch !! name
          | _ => None
          end
      | DevFileSystem _ =>
          if is_directory n then VDev (node_mount_id n) <$> char_registry k !! name else None
      end
  end.

(** ** The invariant *)

(** No id counter has wrapped around. *)
Definition no_wrap (k : kernel) : Prop :=
  (entry_count k ≤ two64 ∧ mount_count k ≤ two64 ∧ fd_count k ≤ two64)%Z.

(** The shape of the nodes each driver makes. *)
Definition node_ok (fs : FileSystem) (n : FsNode) : Prop :=
  match fs, node_private_data n with
  | RamFileSystem _, Some (RamDirectoryNode _) => node_kind n = FsNodeKind.Directory
  | RamFileSystem _, Some (RamFileNode _) => node_kind n = FsNodeKind.File
  | DevFileSystem _, None => node_kind n = FsNodeKind.Directory
  | DevFileSystem _, Some (CharDeviceNode _) => node_kind n = FsNodeKind.CharDevice
  | _, _ => False
  end.

(** [ram_child k l name c]: the RAM directory at [l] maps [name] to [c]. *)
Definition ram_child (k : kernel) (l : loc) (name : string) (c : loc) : Prop :=
  ∃ n ch, nodes k !! l = Some n ∧ node_private_data n = Some (RamDirectoryNode ch) ∧
    ch !! name = Some c.

Definition is_dir_at (k : kernel) (l : loc) : Prop :=
  ∃ n, nodes k !! l = Some n ∧ node_kind n = FsNodeKind.Directory.

Definition entry_key (k : kernel) (de : DirectoryEntry) : DirectoryCacheKey :=
  (parent_id (entries k) (de_parent de), de_name de).

(** The directory entries and the cache. *)
Record dcache_ok (k : kernel) : Prop := {
  dc_entry e de : entries k !! e = Some de →
    e < next_loc k ∧ (1 ≤ de_id de < entry_count k)%Z ∧
    is_Some (nodes k !! de_node de) ∧ directory_cache k !! entry_key k de = Some e;
  dc_entry_inj e1 de1 e2 de2 : entries k !! e1 = Some de1 → entries k !! e2 = Some de2 →
    de_id de1 = de_id de2 → e1 = e2;
  dc_parent e de p : entries k !! e = Some de → de_parent de = Some p →
    p < e ∧ ∃ pe, entries k !! p = Some pe ∧ is_dir_at k (de_node pe);
  dc_cache key w : directory_cache k !! key = Some w →
    w < next_loc k ∧ ∀ de, entries k !! w = Some de → key = entry_key k de;
  dc_held h : h ∈ held k → is_Some (entries k !! h);
}.

Record inv (k : kernel) : Prop := {
  inv_ready : vfs_ready k = true;
  inv_no_wrap : no_wrap k;
  inv_counts : (1 ≤ entry_count k ∧ 0 ≤ mount_count k ∧ 1 ≤ fd_count k)%Z;
  (** nodes *)
  inv_node l n : nodes k !! l = Some n →
    l < next_loc k ∧ ∃ fs, mount_fs k (node_mount_id n) = Some fs ∧ node_ok fs n;
  inv_child l n ch name c : nodes k !! l = Some n →
    node_private_data n = Some (RamDirectoryNode ch) → ch !! name = Some c →
    l < c ∧ ∃ cn, nodes k !! c = Some cn ∧ node_mount_id cn = node_mount_id n;
  inv_child_inj l1 s1 l2 s2 c : ram_child k l1 s1 c → ram_child k l2 s2 c → l1 = l2 ∧ s1 = s2;
  inv_child_root l s c id fs : ram_child k l s c → mount_fs k id = Some fs →
    c ≠ fsi_root (fs_instance fs);
  (** mounts *)
  inv_mount id m : mount_table k !! id = Some m →
    mount_id m = id ∧ (0 ≤ id < mount_count k)%Z ∧
    ∃ fs de n, file_systems k !! mount_file_system m = Some fs ∧
      entries k !! mount_root m = Some de ∧ de_node de = fsi_root (fs_instance fs) ∧
      nodes k !! de_node de = Some n ∧ node_mount_id n = id ∧
      node_kind n = FsNodeKind.Directory;
  inv_fs l : is_Some (file_systems k !! l) → l < next_loc k;
  (** directory entries *)
  inv_dcache : dcache_ok k;
  inv_root e de : entries k !! e = Some de → de_parent de = None →
    de_name de = "/" ∧ e ∈ mount_roots k;
  inv_coherent e de p pe : entries k !! e = Some de → de_parent de = Some p →
    entries k !! p = Some pe → e ∉ mount_roots k →
    view_child k (VNode (de_node pe)) (de_name de) = Some (node_view k (de_node de));
  (** devices are registered under their own name *)
  inv_chars name d : char_registry k !! name = Some d →
    cdm_name (char_device_metadata d) = name;
}.

Lemma inv_entry k : inv k → ∀ e de, entries k !! e = Some de →
  e < next_loc k ∧ (1 ≤ de_id de < entry_count k)%Z ∧
  is_Some (nodes k !! de_node de) ∧ directory_cache k !! entry_key k de = Some e.
Proof. intros Hinv. apply dc_entry, Hinv. Qed.
Lemma inv_entry_inj k : inv k → ∀ e1 de1 e2 de2, entries k !! e1 = Some de1 →
  entries k !! e2 = Some de2 → de_id de1 = de_id de2 → e1 = e2.
Proof. intros Hinv. apply dc_entry_inj, Hinv. Qed.
Lemma inv_parent k : inv k → ∀ e de p, entries k !! e = Some de → de_parent de = Some p →
  p < e ∧ ∃ pe, entries k !! p = Some pe ∧ is_dir_at k (de_node pe).
Proof. intros Hinv. apply dc_parent, Hinv. Qed.
Lemma inv_cache k : inv k → ∀ key w, directory_cache k !! key = Some w →
  w < next_loc k ∧ ∀ de, entries k !! w = Some de → key = entry_key k de.
Proof. intros Hinv. apply dc_cache, Hinv. Qed.
Lemma inv_held k : inv k → ∀ h, h ∈ held k → is_Some (entries k !! h).
Proof. intros Hinv. apply dc_held, Hinv. Qed.

(** ** Consequences *)

Lemma elem_of_mount_roots k e :
  e ∈ mount_roots k ↔ ∃ id m, mount_table k !! id = Some m ∧ mount_root m = e.
Proof.
  unfold mount_roots. rewrite list_elem_of_fmap. split.
  - intros ([id m] & -> & Hm%elem_of_map_to_list). eauto.
  - intros (id & m & Hm & <-). exists (id, m). by rewrite elem_of_map_to_list.
Qed.

Lemma mount_root_live k e : inv k → e ∈ mount_roots k → is_Some (entries k !! e).
Proof.
  intros Hinv (id & m & Hm & <-)%elem_of_mount_roots.
  destruct (inv_mount _ Hinv _ _ Hm) as (_ & _ & fs & de & n & _ & Hde & _). eauto.
Qed.

(** A directory node's view is its location. *)
Lemma dir_node_view k l : inv k → is_dir_at k l → node_view k l = VNode l.
Proof.
  intros Hinv (n & Hn & Hk). unfold node_view. rewrite Hn.
  destruct (inv_node _ Hinv _ _ Hn) as (_ & fs & _ & Hok).
  unfold node_ok in Hok.
  destruct fs, (node_private_data n) as [[| |]|]; try done; congruence.
Qed.

Lemma mount_root_dir k e de : inv k → e ∈ mount_roots k → entries k !! e = Some de →
  is_dir_at k (de_node de).
Proof.
  intros Hinv (id & m & Hm & <-)%elem_of_mount_roots Hde.
  destruct (inv_mount _ Hinv _ _ Hm) as (_ & _ & fs & de' & n & _ & ? & _ & ? & _ & ?).
  simplify_eq. exists n. eauto.
Qed.

(** A child of a RAM directory is a RAM child; a device child is a device. *)
Lemma view_child_VNode k l name c :
  view_child k (VNode l) name = Some (VNode c) → ram_child k l name c.
Proof.
  simpl. intros (n & Hn & H)%bind_Some. apply bind_Some in H as (fs & Hfs & H).
  destruct fs.
  - destruct (node_private_data n) as [[|ch|]|] eqn:Hp; try done.
    apply fmap_Some in H as (c' & ? & [= ->]). exists n, ch. eauto.
  - case_match; [|done]. by apply fmap_Some in H as (d & _ & ?).
Qed.

Lemma child_unique k e1 de1 e2 de2 : inv k →
  entries k !! e1 = Some de1 → entries k !! e2 = Some de2 →
  de_parent de1 = de_parent de2 → de_name de1 = de_name de2 → e1 = e2.
Proof.
  intros Hinv H1 H2 Hp Hn.
  destruct (inv_entry _ Hinv _ _ H1) as (_ & _ & _ & Hc1).
  destruct (inv_entry _ Hinv _ _ H2) as (_ & _ & _ & Hc2).
  unfold entry_key in *. rewrite Hp, Hn in Hc1. congruence.
Qed.

Lemma mount_root_unique k e1 de1 e2 de2 : inv k →
  e1 ∈ mount_roots k → e2 ∈ mount_roots k →
  entries k !! e1 = Some de1 → entries k !! e2 = Some de2 →
  de_node de1 = de_node de2 → e1 = e2.
Proof.
  intros Hinv (i1 & m1 & Hm1 & <-)%elem_of_mount_roots (i2 & m2 & Hm2 & <-)%elem_of_mount_roots
    H1 H2 Heq.
  destruct (inv_mount _ Hinv _ _ Hm1) as (_ & _ & f1 & d1 & n1 & _ & ? & _ & Hn1 & Hi1 & _).
  destruct (inv_mount _ Hinv _ _ Hm2) as (_ & _ & f2 & d2 & n2 & _ & ? & _ & Hn2 & Hi2 & _).
  simplify_eq. rewrite Heq, Hn2 in Hn1. by simplify_eq.
Qed.

(** A directory has at most one live entry. *)
Lemma entry_node_inj k e1 : inv k → ∀ de1 e2 de2,
  entries k !! e1 = Some de1 → entries k !! e2 = Some de2 →
  de_node de1 = de_node de2 → is_dir_at k (de_node de1) → e1 = e2.
Proof.
  intros Hinv. induction (lt_wf e1) as [e1 _ IH]. intros de1 e2 de2 H1 H2 Heq Hdir.
  assert (Hchild : ∀ e de, entries k !! e = Some de → is_dir_at k (de_node de) →
    e ∉ mount_roots k → ∃ p pe, de_parent de = Some p ∧ p < e ∧ entries k !! p = Some pe ∧
      is_dir_at k (de_node pe) ∧ ram_child k (de_node pe) (de_name de) (de_node de)).
  { intros e de He Hd Hm. destruct (de_parent de) as [p|] eqn:Hp.
    - destruct (inv_parent _ Hinv _ _ _ He Hp) as (? & pe & Hpe & ?).
      exists p, pe. split_and!; [done..|]. apply view_child_VNode.
      rewrite (inv_coherent _ Hinv _ _ _ _ He Hp Hpe Hm). by rewrite dir_node_view.
    - destruct (inv_root _ Hinv _ _ He Hp). done. }
  assert (Hmixed : ∀ e de e' de', entries k !! e = Some de → entries k !! e' = Some de' →
    de_node de = de_node de' → is_dir_at k (de_node de') →
    e ∈ mount_roots k → e' ∈ mount_roots k).
  { intros e de e' de' He He' Hnn Hd Hm. destruct (decide (e' ∈ mount_roots k)) as [|Hn]; [done|].
    destruct (Hchild _ _ He' Hd Hn) as (p & pe & _ & _ & _ & _ & Hc).
    apply elem_of_mount_roots in Hm as (id & m & Hm & <-).
    destruct (inv_mount _ Hinv _ _ Hm) as (_ & _ & fs & d & n & Hfs & ? & Hroot & _).
    simplify_eq. destruct (inv_child_root _ Hinv _ _ _ id fs Hc); [|congruence].
    unfold mount_fs. by rewrite Hm. }
  destruct (decide (e1 ∈ mount_roots k)) as [Hm1|Hm1].
  - assert (e2 ∈ mount_roots k) by (eapply (Hmixed e1); [done..|by rewrite <- Heq|done]).
    by eapply mount_root_unique.
  - destruct (decide (e2 ∈ mount_roots k)) as [Hm2|Hm2].
    { destruct Hm1. by eapply (Hmixed e2). }
    destruct (Hchild _ _ H1 Hdir Hm1) as (p1 & pe1 & Hp1 & Hlt & Hpe1 & Hd1 & Hc1).
    destruct (Hchild _ _ H2 ltac:(by rewrite <- Heq) Hm2) as (p2 & pe2 & Hp2 & _ & Hpe2 & _ & Hc2).
    rewrite <- Heq in Hc2. destruct (inv_child_inj _ Hinv _ _ _ _ _ Hc1 Hc2) as [Hn Hs].
    assert (p1 = p2) as -> by eauto.
    eapply child_unique; [done..| |done]. congruence.
Qed.

(** ** Cache lookups *)

Lemma cache_lookup_run k p pe name r k' : dcache_ok k → entries k !! p = Some pe →
  cache_lookup p name k = (r, k') →
  (r = Ok None ∧ k' = k ∧
   ∀ e de, entries k !! e = Some de → de_parent de = Some p → de_name de ≠ name) ∨
  (∃ e de, r = Ok (Some e) ∧ k' = set_held (e :: held k) k ∧
   entries k !! e = Some de ∧ de_parent de = Some p ∧ de_name de = name).
Proof.
  intros Hok Hpe Hrun. unfold cache_lookup, get_entry, weak_upgrade, arc_clone in Hrun.
  munfold Hrun. rewrite Hpe in Hrun. cbn beta iota in Hrun.
  destruct (directory_cache k !! (de_id pe, name)) as [w|] eqn:Hc.
  - destruct (dc_cache _ Hok _ _ Hc) as [_ Hkey].
    destruct (entries k !! w) as [de|] eqn:Hw; rewrite ?Hw in Hrun; simplify_eq.
    + right. exists w, de. split_and!; [done..| |];
        specialize (Hkey _ eq_refl); unfold entry_key in Hkey; simplify_eq; [|done].
      destruct (de_parent de) as [p'|] eqn:Hp'; simpl in *.
      * destruct (dc_parent _ Hok _ _ _ Hw Hp') as (_ & pe' & Hpe' & _).
        rewrite Hpe' in *. simpl in *. f_equal. by eapply (dc_entry_inj _ Hok).
      * destruct (dc_entry _ Hok _ _ Hpe). lia.
    + left. split_and!; [done..|]. intros e de He Hp Hn.
      destruct (dc_entry _ Hok _ _ He) as (_ & _ & _ & Hce).
      unfold entry_key in Hce. rewrite Hp in Hce. simpl in Hce. rewrite Hpe in Hce.
      simpl in Hce. congruence.
  - simplify_eq. left. split_and!; [done..|]. intros e de He Hp Hn.
    destruct (dc_entry _ Hok _ _ He) as (_ & _ & _ & Hce).
    unfold entry_key in Hce. rewrite Hp in Hce. simpl in Hce. rewrite Hpe in Hce.
    simpl in Hce. congruence.
Qed.

(** ** Reference counting *)

(** Entries whose parents are live and allocated before them. *)
Definition parents_below (ents : gmap loc DirectoryEntry) : Prop :=
  ∀ e de p, ents !! e = Some de → de_parent de = Some p → p < e ∧ is_Some (ents !! p).

Lemma ancestors_self ents fuel l : l ∈ ancestors ents fuel l.
Proof. destruct fuel; simpl; left. Qed.

Lemma ancestors_parent ents fuel l : parents_below ents → l ≤ fuel →
  ∀ x de p, x ∈ ancestors ents fuel l → ents !! x = Some de → de_parent de = Some p →
  p ∈ ancestors ents fuel l.
Proof.
  intros Hpb. revert l. induction fuel as [|fuel IH]; intros l Hl x de p Hx Hde Hp.
  - simpl in Hx. assert (x = l) as -> by (by apply list_elem_of_singleton in Hx).
    destruct (Hpb _ _ _ Hde Hp). lia.
  - simpl in *. apply elem_of_cons in Hx as [->|Hx].
    + rewrite Hde, Hp. right. apply ancestors_self.
    + destruct (ents !! l) as [dl|] eqn:Hdl; [|by apply not_elem_of_nil in Hx].
      destruct (de_parent dl) as [q|] eqn:Hq; [|by apply not_elem_of_nil in Hx].
      right. destruct (Hpb _ _ _ Hdl Hq). eapply IH; eauto. lia.
Qed.

(** Everything in a chain but its end is the parent of a live entry of it. *)
Lemma ancestors_child ents fuel l x : x ∈ ancestors ents fuel l → x ≠ l →
  ∃ y dy, y ∈ ancestors ents fuel l ∧ ents !! y = Some dy ∧ de_parent dy = Some x.
Proof.
  revert l. induction fuel as [|fuel IH]; intros l Hx Hne; simpl in *.
  - by apply list_elem_of_singleton in Hx.
  - apply elem_of_cons in Hx as [->|Hx]; [done|].
    destruct (ents !! l) as [dl|] eqn:Hdl; [|by apply not_elem_of_nil in Hx].
    destruct (de_parent dl) as [q|] eqn:Hq; [|by apply not_elem_of_nil in Hx].
    destruct (decide (x = q)) as [->|Hxq].
    + exists l, dl. split_and!; [left|done..].
    + destruct (IH q Hx Hxq) as (y & dy & Hy & ? & ?). exists y, dy. split_and!; [by right|done..].
Qed.

Lemma inv_parents_below k : inv k → parents_below (entries k).
Proof.
  intros Hinv e de p He Hp. destruct (inv_parent _ Hinv _ _ _ He Hp) as (? & pe & ? & _). eauto.
Qed.

Lemma elem_of_reachable k x :
  x ∈ reachable k ↔ ∃ r, r ∈ strong_roots k ∧ x ∈ ancestors (entries k) r r.
Proof. unfold reachable. rewrite list_elem_of_bind. naive_solver. Qed.

Lemma reachable_root k r : r ∈ strong_roots k → r ∈ reachable k.
Proof. intros Hr. apply elem_of_reachable. eauto using ancestors_self. Qed.

Lemma reachable_parent k x de p : parents_below (entries k) →
  x ∈ reachable k → entries k !! x = Some de → de_parent de = Some p → p ∈ reachable k.
Proof.
  rewrite !elem_of_reachable. intros Hpb (r & Hr & Hx) Hde Hp.
  exists r. split; [done|]. by eapply ancestors_parent.
Qed.

Lemma gc_entries k l de :
  entries (gc k) !! l = Some de ↔ entries k !! l = Some de ∧ l ∈ reachable k.
Proof. unfold gc. simpl. apply map_lookup_filter_Some. Qed.

Lemma gc_parent_id k de p : inv k → entries (gc k) !! p = Some de →
  parent_id (entries (gc k)) (Some p) = parent_id (entries k) (Some p).
Proof. intros Hinv Hp. unfold parent_id. rewrite Hp. by apply gc_entries in Hp as [-> _]. Qed.

Lemma gc_entry_key k e de : inv k → entries (gc k) !! e = Some de →
  entry_key (gc k) de = entry_key k de.
Proof.
  intros Hinv He. unfold entry_key. f_equal. destruct (de_parent de) as [p|] eqn:Hp; [|done].
  apply gc_entries in He as [He Hr].
  destruct (inv_parent _ Hinv _ _ _ He Hp) as (_ & pe & Hpe & _).
  apply (gc_parent_id k pe); [done|]. apply gc_entries. split; [done|].
  eapply reachable_parent; eauto using inv_parents_below.
Qed.

Lemma dcache_ok_gc k : inv k → dcache_ok (gc k).
Proof.
  intros Hinv. assert (Hsub : ∀ l de, entries (gc k) !! l = Some de → entries k !! l = Some de)
    by (by intros l de [? _]%gc_entries).
  split.
  - intros e de He. rewrite (gc_entry_key _ _ _ Hinv He). by apply (inv_entry _ Hinv), Hsub.
  - intros e1 de1 e2 de2 H1 H2. by eapply inv_entry_inj; [|apply Hsub..].
  - intros e de p He Hp. destruct (inv_parent _ Hinv _ _ _ (Hsub _ _ He) Hp) as (? & pe & Hpe & ?).
    split; [done|]. exists pe. split; [|done]. apply gc_entries in He as [? ?].
    apply gc_entries. split; [done|]. eapply reachable_parent; eauto using inv_parents_below.
  - intros key w Hw. destruct (inv_cache _ Hinv _ _ Hw) as [? Hk]. split; [done|].
    intros de He. rewrite (gc_entry_key _ _ _ Hinv He). apply Hk, Hsub, He.
  - intros h Hh. destruct (inv_held _ Hinv _ Hh) as [de Hde]. exists de.
    apply gc_entries. split; [done|]. apply reachable_root, elem_of_app. by left.
Qed.

Lemma inv_gc k : inv k → inv (gc k).
Proof.
  intros Hinv. assert (Hsub : ∀ l de, entries (gc k) !! l = Some de → entries k !! l = Some de)
    by (by intros l de [? _]%gc_entries).
  split; try apply Hinv; [| by apply dcache_ok_gc | |].
  - intros id m Hm.
    destruct (inv_mount _ Hinv _ _ Hm) as (? & ? & fs & de & n & ? & Hde & ?).
    split; [done|]. split; [done|]. exists fs, de, n. split; [done|]. split; [|done].
    apply gc_entries. split; [done|]. apply reachable_root.
    apply elem_of_app. right. apply elem_of_mount_roots. eauto.
  - intros e de He Hp. by apply (inv_root _ Hinv _ _ (Hsub _ _ He)).
  - intros e de p pe He Hp Hpe Hm. by eapply (inv_coherent _ Hinv); eauto.
Qed.

(** Changing the local references. *)
Lemma inv_set_held k hs : inv k → (∀ h, h ∈ hs → is_Some (entries k !! h)) → inv (set_held hs k).
Proof. intros [] Hhs. split; try done. by destruct inv_dcache0; split. Qed.

Lemma inv_gc_held k hs : inv k → (∀ h, h ∈ hs → is_Some (entries k !! h)) →
  inv (gc (set_held hs k)).
Proof. intros. by apply inv_gc, inv_set_held. Qed.

Lemma count_loc_pos l ls : l ∈ ls → 0 < count_loc l ls.
Proof.
  intros Hl. unfold count_loc. assert (l ∈ filter (λ x, x = l) ls) as Hf
    by (by apply list_elem_of_filter).
  destruct (filter _ ls); [by apply not_elem_of_nil in Hf|simpl; lia].
Qed.

(** An entry is alive after [gc] only if something refers to it. *)
Lemma gc_live k l de : entries (gc k) !! l = Some de → 0 < strong_count (gc k) l.
Proof.
  intros [Hl (r & Hr & Hx)%elem_of_reachable]%gc_entries.
  unfold strong_count. destruct (decide (l = r)) as [->|Hne].
  - apply elem_of_app in Hr as [Hr|Hr].
    + pose proof (count_loc_pos _ _ Hr). change (held (gc k)) with (held k). lia.
    + pose proof (count_loc_pos _ _ Hr). change (mount_roots (gc k)) with (mount_roots k). lia.
  - destruct (ancestors_child _ _ _ _ Hx Hne) as (y & dy & Hy & Hdy & Hp).
    assert (0 < child_count (gc k) l); [|lia].
    unfold child_count. apply Nat.neq_0_lt_0. rewrite map_size_empty_iff.
    intros Hempty. assert (filter (λ e : loc * DirectoryEntry, de_parent e.2 = Some l)
      (entries (gc k)) !! y = Some dy) as Hy'.
    { apply map_lookup_filter_Some. split; [|done]. apply gc_entries.
      split; [done|]. apply elem_of_reachable. eauto. }
    by rewrite Hempty in Hy'.
Qed.

(** ** Inserting a directory entry *)

Lemma entry_static_eq a b : entry_static a = entry_static b →
  de_id a = de_id b ∧ de_name a = de_name b ∧ de_node a = de_node b ∧ de_parent a = de_parent b.
Proof. by intros [= -> -> -> ->]. Qed.

Section insert.
Context (k : kernel) (parent : option loc) (node : loc) (name : string).
Context (Hok : dcache_ok k).
Context (Hcount : (1 ≤ entry_count k < two64)%Z).
Context (Hnode : is_Some (nodes k !! node)).
Context (Hparent : ∀ p, parent = Some p → ∃ pe, entries k !! p = Some pe ∧ is_dir_at k (de_node pe)).
Context (Hfresh : ∀ e de, entries k !! e = Some de → de_parent de = parent → de_name de ≠ name).
Abbreviation k' := (insert_state parent node name k).

Lemma insert_fresh_None : entries k !! next_loc k = None.
Proof.
  destruct (entries k !! next_loc k) eqn:He; [|done].
  destruct (dc_entry _ Hok _ _ He). lia.
Qed.

Lemma insert_parent_ne : parent ≠ Some (next_loc k).
Proof. intros Hp. destruct (Hparent _ Hp) as (pe & Hpe & _). by rewrite insert_fresh_None in Hpe. Qed.

Lemma insert_lookup_new : entries k' !! next_loc k = Some (new_entry parent node name k).
Proof. apply insert_entries_new, insert_parent_ne. Qed.

Lemma insert_lookup_inv l de' : entries k' !! l = Some de' →
  (l = next_loc k ∧ de' = new_entry parent node name k) ∨
  (l ≠ next_loc k ∧ ∃ de, entries k !! l = Some de ∧ entry_static de' = entry_static de).
Proof.
  intros Hl. destruct (decide (l = next_loc k)) as [->|Hne].
  - rewrite insert_lookup_new in Hl. left. by simplify_eq.
  - right. split; [done|].
    apply insert_entries_lookup in Hl as (de & ? & ? & _); eauto.
Qed.

Lemma insert_lookup_old l de : entries k !! l = Some de →
  ∃ de', entries k' !! l = Some de' ∧ entry_static de' = entry_static de.
Proof.
  intros Hl. assert (is_Some (entries k' !! l)) as [de' Hl'] by (apply insert_entries_live; eauto).
  exists de'. split; [done|]. apply insert_lookup_inv in Hl' as [[-> _]|(_ & de0 & ? & ?)].
  - by rewrite insert_fresh_None in Hl.
  - congruence.
Qed.

Lemma insert_parent_id q : (∀ p, q = Some p → is_Some (entries k !! p)) →
  parent_id (entries k') q = parent_id (entries k) q.
Proof.
  intros Hq. destruct q as [p|]; [|done]. destruct (Hq p eq_refl) as [pe Hpe].
  destruct (insert_lookup_old _ _ Hpe) as (pe' & Hpe' & (Hid & _)%entry_static_eq).
  unfold parent_id. by rewrite Hpe, Hpe'.
Qed.

Lemma insert_parent_id_parent : parent_id (entries k') parent = parent_id (entries k) parent.
Proof. apply insert_parent_id. intros p Hp. destruct (Hparent p Hp) as (pe & -> & _). eauto. Qed.

Lemma insert_key_old e de de' : entries k !! e = Some de → entry_static de' = entry_static de →
  entry_key k' de' = entry_key k de.
Proof.
  intros He (_ & Hn & _ & Hp)%entry_static_eq. unfold entry_key. rewrite Hn, Hp. f_equal.
  apply insert_parent_id. intros p Hp'.
  destruct (dc_parent _ Hok _ _ _ He Hp') as (_ & pe & -> & _). eauto.
Qed.

Lemma insert_cache key : directory_cache k' !! key =
  if decide ((parent_id (entries k) parent, name) = key) then Some (next_loc k)
  else directory_cache k !! key.
Proof.
  simpl. rewrite <- insert_parent_id_parent. apply lookup_insert.
Qed.

Lemma insert_key_fresh e de : entries k !! e = Some de →
  (parent_id (entries k) parent, name) ≠ entry_key k de.
Proof.
  intros He Hkey. unfold entry_key in Hkey. simplify_eq. eapply Hfresh; [done| |done].
  destruct (de_parent de) as [q|] eqn:Hq, parent as [p|]; simpl in *.
  - destruct (Hparent p eq_refl) as (pe & Hpe & _).
    destruct (dc_parent _ Hok _ _ _ He Hq) as (_ & qe & Hqe & _).
    rewrite Hpe, Hqe in *. simpl in *. f_equal. by eapply dc_entry_inj.
  - destruct (dc_parent _ Hok _ _ _ He Hq) as (_ & qe & Hqe & _).
    rewrite Hqe in *. simpl in *. destruct (dc_entry _ Hok _ _ Hqe). lia.
  - destruct (Hparent p eq_refl) as (pe & Hpe & _).
    rewrite Hpe in *. simpl in *. destruct (dc_entry _ Hok _ _ Hpe). lia.
  - done.
Qed.

Lemma insert_new_id : de_id (new_entry parent node name k) = entry_count k.
Proof. simpl. unfold wrap64. apply Z.mod_small. lia. Qed.

Lemma dcache_ok_insert : dcache_ok k'.
Proof.
  split.
  - intros e de' He. destruct (insert_lookup_inv _ _ He) as [[-> ->]|(Hne & de & Hde & Hst)].
    + rewrite insert_new_id, insert_cache. unfold entry_key. simpl de_parent. simpl de_name.
      rewrite insert_parent_id_parent, decide_True by done. simpl. split_and!; [lia..|done|done].
    + rewrite insert_cache, (insert_key_old _ _ _ Hde Hst).
      rewrite decide_False by (by eapply insert_key_fresh).
      destruct (dc_entry _ Hok _ _ Hde) as (? & ? & ? & ?).
      apply entry_static_eq in Hst as (-> & _ & -> & _). simpl. split_and!; [lia..|done|done].
  - intros e1 de1 e2 de2 H1 H2 Hid.
    destruct (insert_lookup_inv _ _ H1) as [[-> ->]|(_ & d1 & Hd1 & (Hi1 & _)%entry_static_eq)],
      (insert_lookup_inv _ _ H2) as [[-> ->]|(_ & d2 & Hd2 & (Hi2 & _)%entry_static_eq)];
      rewrite ?insert_new_id in Hid; [done|..].
    + destruct (dc_entry _ Hok _ _ Hd2). lia.
    + destruct (dc_entry _ Hok _ _ Hd1). lia.
    + eapply (dc_entry_inj _ Hok); [done..|]. congruence.
  - intros e de p He Hp. destruct (insert_lookup_inv _ _ He) as [[-> ->]|(_ & d & Hd & Hst)].
    + simpl in Hp. destruct (Hparent _ Hp) as (pe & Hpe & ?).
      destruct (insert_lookup_old _ _ Hpe) as (pe' & Hpe' & (_ & _ & Hn & _)%entry_static_eq).
      split; [by destruct (dc_entry _ Hok _ _ Hpe)|]. exists pe'. by rewrite Hn.
    + apply entry_static_eq in Hst as (_ & _ & _ & Hpp). rewrite Hpp in Hp.
      destruct (dc_parent _ Hok _ _ _ Hd Hp) as (? & pe & Hpe & ?).
      destruct (insert_lookup_old _ _ Hpe) as (pe' & Hpe' & (_ & _ & Hn & _)%entry_static_eq).
      split; [done|]. exists pe'. by rewrite Hn.
  - intros key w. rewrite insert_cache. simpl next_loc. case_decide as Hkey.
    + intros [= <-]. split; [lia|]. intros de. rewrite insert_lookup_new. intros [= <-].
      rewrite <- Hkey. unfold entry_key. simpl de_parent. by rewrite insert_parent_id_parent.
    + intros Hw. destruct (dc_cache _ Hok _ _ Hw) as [? Hk]. split; [lia|].
      intros de' [[-> _]|(_ & de & Hde & Hst)]%insert_lookup_inv; [lia|].
      rewrite (insert_key_old _ _ _ Hde Hst). auto.
  - intros h Hh. simpl in Hh. apply elem_of_cons in Hh as [->|Hh].
    + rewrite insert_lookup_new. eauto.
    + destruct (dc_held _ Hok _ Hh) as [de Hde].
      destruct (insert_lookup_old _ _ Hde) as (de' & -> & _). eauto.
Qed.
End insert.

Lemma inv_insert_child k p pe node name :
  inv k → no_wrap (insert_state (Some p) node name k) →
  entries k !! p = Some pe → is_dir_at k (de_node pe) → is_Some (nodes k !! node) →
  (∀ e de, entries k !! e = Some de → de_parent de = Some p → de_name de ≠ name) →
  view_child k (VNode (de_node pe)) name = Some (node_view k node) →
  inv (insert_state (Some p) node name k).
Proof.
  intros Hinv Hwrap Hpe Hdir Hnode Hfresh Hview.
  assert (Hcount : (1 ≤ entry_count k < two64)%Z).
  { destruct (inv_counts _ Hinv). destruct Hwrap as [? _]. simpl in *. lia. }
  assert (Hparent : ∀ p', Some p = Some p' →
    ∃ pe, entries k !! p' = Some pe ∧ is_dir_at k (de_node pe)) by (intros p' [= <-]; eauto).
  pose proof (inv_dcache _ Hinv) as Hok.
  pose proof (insert_lookup_inv k (Some p) node name Hok Hparent) as Hlk.
  split; try apply Hinv.
  - done.
  - destruct (inv_counts _ Hinv). simpl. lia.
  - intros l n Hn. destruct (inv_node _ Hinv _ _ Hn). split; [simpl; lia|done].
  - intros id m Hm.
    destruct (inv_mount _ Hinv _ _ Hm) as (? & ? & fs & de & n & ? & Hde & Hr).
    destruct (insert_lookup_old k (Some p) node name Hok Hparent _ _ Hde)
      as (de' & Hde' & (_ & _ & Hn & _)%entry_static_eq).
    split; [done|]. split; [done|]. exists fs, de', n. rewrite Hn. done.
  - intros l Hl%(inv_fs _ Hinv). simpl. lia.
  - by apply dcache_ok_insert.
  - intros e de [[-> ->]|(_ & d & Hd & (_ & -> & _ & ->)%entry_static_eq)]%Hlk; [done|].
    by apply (inv_root _ Hinv).
  - intros e de q qe He Hq Hqe Hm.
    destruct (Hlk _ _ He) as [[-> ->]|(_ & d & Hd & (_ & Hn & Hl & Hp)%entry_static_eq)],
      (Hlk _ _ Hqe) as [[-> ->]|(_ & d' & Hd' & (_ & Hn' & Hl' & Hp')%entry_static_eq)].
    + simpl in Hq. simplify_eq. by rewrite (insert_fresh_None k Hok) in Hpe.
    + simpl in Hq. simplify_eq. rewrite Hl'. exact Hview.
    + rewrite Hp in Hq. destruct (inv_parent _ Hinv _ _ _ Hd Hq) as (_ & qe & Hqe' & _).
      by rewrite (insert_fresh_None k Hok) in Hqe'.
    + rewrite Hl', Hn, Hl. rewrite Hp in Hq. by eapply (inv_coherent _ Hinv).
Qed.

(** ** Node ids and device nodes *)

Lemma mount_fs_next_id k self fs c id : file_systems k !! self = Some fs →
  ∀ fs', mount_fs (upd_file_systems <[self := set_next_node_id c fs]> k) id = Some fs' →
  ∃ fs0, mount_fs k id = Some fs0 ∧ fs_static fs' = fs_static fs0.
Proof.
  unfold mount_fs. simpl. intros Hfs fs' (m & -> & H)%bind_Some. simpl.
  rewrite lookup_insert in H. case_decide; subst.
  - simplify_eq. exists fs. by rewrite fs_static_set.
  - eauto.
Qed.

Lemma mount_fs_next_id_fwd k self fs c id : file_systems k !! self = Some fs →
  ∀ fs0, mount_fs k id = Some fs0 →
  ∃ fs', mount_fs (upd_file_systems <[self := set_next_node_id c fs]> k) id = Some fs' ∧
    fs_static fs' = fs_static fs0.
Proof.
  unfold mount_fs. simpl. intros Hfs fs0 (m & -> & H)%bind_Some. simpl.
  rewrite lookup_insert. case_decide; subst; [|by eauto].
  simplify_eq. eexists. split; [done|]. by rewrite fs_static_set.
Qed.

Lemma fs_static_root a b : fs_static a = fs_static b →
  fsi_root (fs_instance a) = fsi_root (fs_instance b).
Proof. destruct a, b; by intros [=]. Qed.
Lemma fs_static_ok a b n : fs_static a = fs_static b → node_ok a n ↔ node_ok b n.
Proof. by destruct a, b. Qed.

Lemma view_child_mount_fs k k' v name :
  nodes k' = nodes k → char_registry k' = char_registry k →
  (∀ id, fs_static <$> mount_fs k' id = fs_static <$> mount_fs k id) →
  view_child k' v name = view_child k v name.
Proof.
  intros Hn Hc Hfs. destruct v as [l|]; [|done]. simpl. rewrite Hn, Hc.
  destruct (nodes k !! l) as [n|]; [|done]. simpl. specialize (Hfs (node_mount_id n)).
  destruct (mount_fs k' _) as [[]|], (mount_fs k _) as [[]|]; simplify_eq/=; done.
Qed.

Lemma inv_next_node_id k self fs c : inv k → file_systems k !! self = Some fs →
  inv (upd_file_systems <[self := set_next_node_id c fs]> k).
Proof.
  intros Hinv Hfs. pose proof (mount_fs_next_id k self fs c) as Hbwd.
  pose proof (mount_fs_next_id_fwd k self fs c) as Hfwd.
  split; try apply Hinv.
  - intros l n Hn. destruct (inv_node _ Hinv _ _ Hn) as (? & fs0 & Hm & Hok). split; [done|].
    destruct (Hfwd _ Hfs _ Hm) as (fs' & ? & Hst). exists fs'. split; [done|].
    by eapply fs_static_ok.
  - intros l s ch id fs' Hch Hm. destruct (Hbwd _ Hfs _ Hm) as (fs0 & Hm0 & Hst).
    rewrite (fs_static_root _ _ Hst). by eapply (inv_child_root _ Hinv).
  - intros id m Hm.
    destruct (inv_mount _ Hinv _ _ Hm) as (? & ? & fs0 & de & n & Hfs0 & ? & Hroot & ?).
    split; [done|]. split; [done|]. simpl.
    rewrite lookup_insert. case_decide; [|by exists fs0, de, n].
    subst. assert (fs0 = fs) as -> by congruence.
    exists (set_next_node_id c fs), de, n. split; [done|]. split; [done|]. split; [|done].
    rewrite Hroot. apply fs_static_root. by rewrite fs_static_set.
  - intros l. simpl. rewrite lookup_insert_is_Some'. intros [->|?]; apply (inv_fs _ Hinv); eauto.
  - by destruct (inv_dcache _ Hinv); split.
  - intros e de p pe He Hp Hpe Hm.
    rewrite (view_child_mount_fs k); [by eapply (inv_coherent _ Hinv)|done..|].
    intros id. destruct (mount_fs k id) as [fs0|] eqn:Hid.
    + destruct (Hfwd _ Hfs _ Hid) as (fs' & -> & Hst). simpl. by rewrite Hst.
    + destruct (mount_fs (upd_file_systems _ k) id) as [fs'|] eqn:Hid'; [|done].
      destruct (Hbwd _ Hfs _ Hid') as (? & ? & _). congruence.
Qed.

(** ** Allocating a node *)

Definition alloc_state (n : FsNode) (k : kernel) : kernel :=
  upd_nodes <[next_loc k := n]> (set_next_loc (S (next_loc k)) k).

Lemma fresh_node_None k : inv k → nodes k !! next_loc k = None.
Proof.
  intros Hinv. destruct (nodes k !! next_loc k) eqn:Hn; [|done].
  destruct (inv_node _ Hinv _ _ Hn). lia.
Qed.

Lemma alloc_lookup n k l : l ≠ next_loc k → nodes (alloc_state n k) !! l = nodes k !! l.
Proof. intros Hl. simpl. by rewrite lookup_insert_ne. Qed.

Lemma alloc_lookup_old n k l x : inv k → nodes k !! l = Some x →
  nodes (alloc_state n k) !! l = Some x.
Proof.
  intros Hinv Hl. rewrite alloc_lookup; [done|]. intros ->.
  by rewrite fresh_node_None in Hl.
Qed.

Lemma alloc_node_view n k l : inv k → is_Some (nodes k !! l) →
  node_view (alloc_state n k) l = node_view k l.
Proof.
  intros Hinv [x Hx]. unfold node_view. by rewrite (alloc_lookup_old _ _ _ _ Hinv Hx), Hx.
Qed.

Lemma alloc_view_child n k l name : inv k → is_Some (nodes k !! l) →
  view_child (alloc_state n k) (VNode l) name = view_child k (VNode l) name.
Proof.
  intros Hinv [x Hx]. unfold view_child.
  by rewrite (alloc_lookup_old _ _ _ _ Hinv Hx), Hx.
Qed.

Lemma alloc_ram_child n k l s c : inv k →
  (∀ ch, node_private_data n = Some (RamDirectoryNode ch) → ch = ∅) →
  ram_child (alloc_state n k) l s c → ram_child k l s c.
Proof.
  intros Hinv He (m & ch & Hm & Hp & Hc). simpl in Hm.
  apply lookup_insert_Some in Hm as [[<- <-]|[? ?]].
  - apply He in Hp as ->. by rewrite lookup_empty in Hc.
  - exists m, ch. eauto.
Qed.

Lemma is_dir_at_alloc n k l : inv k → is_dir_at k l → is_dir_at (alloc_state n k) l.
Proof. intros Hinv (x & Hx & ?). exists x. eauto using alloc_lookup_old. Qed.

Lemma dcache_ok_alloc n k : inv k → dcache_ok (alloc_state n k).
Proof.
  intros Hinv. split.
  - intros e de He. destruct (inv_entry _ Hinv _ _ He) as (? & ? & [x Hx] & ?).
    split; [simpl; lia|]. split; [done|]. split; [|done].
    rewrite (alloc_lookup_old _ _ _ _ Hinv Hx). eauto.
  - apply (inv_entry_inj _ Hinv).
  - intros e de p He Hp. destruct (inv_parent _ Hinv _ _ _ He Hp) as (? & pe & ? & ?).
    eauto using is_dir_at_alloc.
  - intros key w Hw. destruct (inv_cache _ Hinv _ _ Hw). split; [simpl; lia|done].
  - apply (inv_held _ Hinv).
Qed.

Lemma inv_alloc_node k n fs : inv k →
  mount_fs k (node_mount_id n) = Some fs → node_ok fs n →
  (∀ ch, node_private_data n = Some (RamDirectoryNode ch) → ch = ∅) →
  inv (alloc_state n k).
Proof.
  intros Hinv Hfs Hok He. split; try apply Hinv; [..|by apply dcache_ok_alloc|].
  - intros l m Hm. simpl in Hm. apply lookup_insert_Some in Hm as [[<- <-]|[? Hm]].
    + split; [simpl; lia|]. eauto.
    + destruct (inv_node _ Hinv _ _ Hm). split; [simpl; lia|done].
  - intros l m ch s c Hm Hp Hc.
    destruct (alloc_ram_child n k l s c Hinv He) as (m' & ch' & Hm' & Hp' & Hc').
    { exists m, ch. eauto. }
    destruct (inv_child _ Hinv _ _ _ _ _ Hm' Hp' Hc') as (? & cn & ? & Hid).
    split; [done|]. exists cn. split; [by apply alloc_lookup_old|].
    apply (alloc_lookup_old n) in Hm'; [|done]. by simplify_eq.
  - intros l1 s1 l2 s2 c H1%alloc_ram_child H2%alloc_ram_child; [|done..].
    by eapply (inv_child_inj _ Hinv).
  - intros l s c id fs' H1%alloc_ram_child; [|done..]. by eapply (inv_child_root _ Hinv).
  - intros id m Hm. destruct (inv_mount _ Hinv _ _ Hm) as (? & ? & fs0 & de & x & ? & ? & ? & ? & ?).
    split; [done|]. split; [done|]. exists fs0, de, x. eauto 10 using alloc_lookup_old.
  - intros l Hl%(inv_fs _ Hinv). simpl. lia.
  - intros e de p pe Hde Hp Hpe Hm.
    destruct (inv_entry _ Hinv _ _ Hde) as (_ & _ & ? & _).
    destruct (inv_entry _ Hinv _ _ Hpe) as (_ & _ & ? & _).
    rewrite alloc_view_child, alloc_node_view by done. by eapply (inv_coherent _ Hinv).
Qed.
