(* ===== verification/VfsLookup.v ===== *)
(** * Looking one name up

    Specifications of the steps of path resolution: reads of the heaps, lookups
    in the backing file systems, and [get_cached_or_lookup], which keeps the
    invariant, returns a live entry, and can panic only by exhausting a driver's
    64-bit node ids. *)

From Stdlib Require Import Init.Byte.
From S2P Require Import Prelude Util FsTypes Fs Registry RamFs DevFs DirCache Path Vfs VfsFrame VfsInv.

(** ** Runs of the reads *)

Lemma get_entry_run k e de : entries k !! e = Some de → get_entry e k = (Ok de, k).
Proof. intros He. unfold get_entry, mbind, M_bind, gets. by rewrite He. Qed.
Lemma get_node_run k l n : nodes k !! l = Some n → get_node l k = (Ok n, k).
Proof. intros Hl. unfold get_node, mbind, M_bind, gets. by rewrite Hl. Qed.
Lemma get_fs_run k l fs : file_systems k !! l = Some fs → get_fs l k = (Ok fs, k).
Proof. intros Hl. unfold get_fs, mbind, M_bind, gets. by rewrite Hl. Qed.
Lemma entry_node_loc_run k e de : entries k !! e = Some de →
  entry_node_loc e k = (Ok (de_node de), k).
Proof. intros He. unfold entry_node_loc. by rewrite (mbind_run _ _ _ _ _ (get_entry_run _ _ _ He)). Qed.
Lemma entry_node_run k e de n : entries k !! e = Some de → nodes k !! de_node de = Some n →
  entry_node e k = (Ok n, k).
Proof.
  intros He Hn. unfold entry_node. rewrite (mbind_run _ _ _ _ _ (entry_node_loc_run _ _ _ He)).
  by apply get_node_run.
Qed.
Lemma entry_eq_run k a ae b be : entries k !! a = Some ae → entries k !! b = Some be →
  entry_eq a b k = (Ok (bool_decide (de_id ae = de_id be)), k).
Proof.
  intros Ha Hb. unfold entry_eq.
  by rewrite (mbind_run _ _ _ _ _ (get_entry_run _ _ _ Ha)),
    (mbind_run _ _ _ _ _ (get_entry_run _ _ _ Hb)).
Qed.

Lemma node_file_system_run k n m : vfs_ready k = true →
  mount_table k !! node_mount_id n = Some m →
  node_file_system n k = (Ok (mount_file_system m), k).
Proof.
  intros Hr Hm. unfold node_file_system, vfs_get, get_mount, mbind, M_bind, gets.
  rewrite Hr. cbn. by rewrite Hm.
Qed.

Lemma directory_operations_run k l fs : file_systems k !! l = Some fs →
  directory_operations l k =
    (Ok match fs with RamFileSystem _ => ram_directory_operations l
                    | DevFileSystem _ => dev_directory_operations l end, k).
Proof.
  intros Hl. unfold directory_operations. by rewrite (mbind_run _ _ _ _ _ (get_fs_run _ _ _ Hl)).
Qed.
Lemma file_operations_run k l fs : file_systems k !! l = Some fs →
  file_operations l k =
    (Ok match fs with RamFileSystem _ => ram_file_operations l
                    | DevFileSystem _ => dev_file_operations l end, k).
Proof.
  intros Hl. unfold file_operations. by rewrite (mbind_run _ _ _ _ _ (get_fs_run _ _ _ Hl)).
Qed.

(** Rewrites a run by the lemmas above, one bind at a time. *)
Ltac mstep_with lem := rewrite (mbind_run _ _ _ _ _ lem).
Tactic Notation "mstep" constr(lem) "in" hyp(H) := rewrite (mbind_run _ _ _ _ _ lem) in H.

(** The mount of an existing node. *)
Lemma node_mount k l n : inv k → nodes k !! l = Some n →
  ∃ m fs, mount_table k !! node_mount_id n = Some m ∧
    file_systems k !! mount_file_system m = Some fs ∧
    mount_fs k (node_mount_id n) = Some fs ∧ node_ok fs n.
Proof.
  intros Hinv Hn. destruct (inv_node _ Hinv _ _ Hn) as (_ & fs & Hfs & Hok).
  pose proof Hfs as Hfs'. apply bind_Some in Hfs' as (m & Hm & Hf). eauto 10.
Qed.

(** Entries of [k] survive in [k'], up to their [children] cache. *)
Definition grows (k k' : kernel) : Prop :=
  ∀ l de, entries k !! l = Some de →
    ∃ de', entries k' !! l = Some de' ∧ entry_static de' = entry_static de.

#[export] Instance grows_preorder : PreOrder grows.
Proof.
  split.
  - intros k l de Hl. eauto.
  - intros k1 k2 k3 H1 H2 l de Hl. destruct (H1 _ _ Hl) as (d2 & Hd2 & E2).
    destruct (H2 _ _ Hd2) as (d3 & Hd3 & E3). exists d3. split; [done|congruence].
Qed.

Lemma grows_same k k' : entries k' = entries k → grows k k'.
Proof. intros Heq l de Hl. rewrite Heq. eauto. Qed.
Lemma grows_live k k' l : grows k k' → is_Some (entries k !! l) → is_Some (entries k' !! l).
Proof. intros Hg [de Hl]. destruct (Hg _ _ Hl) as (de' & -> & _). eauto. Qed.

(** ** Lookup in the backing file system *)

Lemma next_node_id_cases self k r k' fs : file_systems k !! self = Some fs →
  next_node_id self k = (r, k') →
  (r = Panic ArithOverflow ∧ k' = k) ∨
  ∃ id c, r = Ok id ∧ k' = upd_file_systems <[self := set_next_node_id c fs]> k.
Proof.
  intros Hfs Hrun. unfold next_node_id in Hrun. mstep (get_fs_run _ _ _ Hfs) in Hrun.
  unfold SynCell.replace, checked_add in Hrun. case_decide; munfold Hrun; simplify_eq/=; eauto.
Qed.

Lemma dev_lookup_spec k self p i id root rn name r k' : inv k →
  file_systems k !! self = Some (DevFileSystem i) →
  fsi_root i = root → nodes k !! root = Some rn → node_mount_id rn = id →
  mount_fs k id = Some (DevFileSystem i) →
  dev_lookup self p name k = (r, k') →
  (r = Ok None ∧ k' = k ∧ char_registry k !! name = None) ∨
  (∃ d l, r = Ok (Some l) ∧ char_registry k !! name = Some d ∧ inv k' ∧
    is_Some (nodes k' !! l) ∧ node_view k' l = VDev id d ∧
    entries k' = entries k ∧ held k' = held k) ∨
  r = Panic ArithOverflow.
Proof.
  intros Hinv Hself Hroot Hrn Hid Hmfs Hrun. unfold dev_lookup, get_char_device in Hrun.
  rewrite mbind_gets in Hrun.
  destruct (char_registry k !! name) as [d|] eqn:Hd; [|left; munfold Hrun; by simplify_eq].
  right. minv Hrun as nid s1 Hnid; destruct (next_node_id_cases _ _ _ _ _ Hself Hnid)
    as [[Hr Hk]|(nid' & c & Hr & Hk)]; simplify_eq; [|by right].
  set (k1 := upd_file_systems _ k) in *.
  assert (Hinv1 : inv k1) by (by apply inv_next_node_id).
  unfold root_mount_id, root_directory in Hrun.
  assert (Hfs1 : file_systems k1 !! self = Some (set_next_node_id c (DevFileSystem i)))
    by apply lookup_insert_eq.
  rewrite (mbind_run _ _ k1 (node_mount_id rn) k1) in Hrun.
  2: { rewrite (mbind_run _ _ k1 (fsi_root i) k1); [|by mstep_with (get_fs_run _ _ _ Hfs1)].
       by mstep_with (get_node_run k1 _ _ Hrn). }
  minv Hrun as l s2 Hl; apply alloc_node_run in Hl as [? ?]; simplify_eq.
  munfold Hrun. simplify_eq. left. exists d, (next_loc k). split_and!; try done.
  - destruct (mount_fs_next_id_fwd k self _ c _ Hself _ Hmfs) as (fs' & Hfs' & Hst).
    apply (inv_alloc_node k1 _ fs'); [done| | |done].
    + exact Hfs'.
    + rewrite (fs_static_ok _ _ _ Hst). done.
  - simpl. rewrite lookup_insert_eq. eauto.
  - unfold node_view. simpl. by rewrite lookup_insert_eq.
Qed.

Lemma fs_lookup_spec k p pe pn m fs name r k' : inv k →
  entries k !! p = Some pe → nodes k !! de_node pe = Some pn →
  node_kind pn = FsNodeKind.Directory →
  mount_table k !! node_mount_id pn = Some m → file_systems k !! mount_file_system m = Some fs →
  (ops ← directory_operations (mount_file_system m); op_lookup ops p name) k = (r, k') →
  (r = Ok None ∧ k' = k ∧ view_child k (VNode (de_node pe)) name = None) ∨
  (∃ l, r = Ok (Some l) ∧ inv k' ∧ is_Some (nodes k' !! l) ∧
    view_child k (VNode (de_node pe)) name = Some (node_view k' l) ∧
    entries k' = entries k ∧ held k' = held k) ∨
  r = Panic ArithOverflow.
Proof.
  intros Hinv Hpe Hpn Hkind Hm Hfs Hrun.
  assert (Hmfs : mount_fs k (node_mount_id pn) = Some fs) by (unfold mount_fs; by rewrite Hm).
  assert (Hok : node_ok fs pn).
  { destruct (inv_node _ Hinv _ _ Hpn) as (_ & fs' & ? & ?). by simplify_eq. }
  mstep (directory_operations_run _ _ _ Hfs) in Hrun.
  destruct fs as [i|i]; simpl in Hrun.
  - unfold ram_lookup in Hrun. mstep (entry_node_loc_run _ _ _ Hpe) in Hrun.
    mstep (get_node_run _ _ _ Hpn) in Hrun. unfold data_as_RamDirectoryNode in Hrun.
    unfold node_ok in Hok. simpl. rewrite Hpn. simpl. rewrite Hmfs. simpl.
    destruct (node_private_data pn) as [[|ch|]|] eqn:Hp; try (done || congruence).
    munfold Hrun. simplify_eq. destruct (ch !! name) as [c|] eqn:Hc; [|by left].
    right; left. exists c.
    destruct (inv_child _ Hinv _ _ _ _ _ Hpn Hp Hc) as (_ & cn & Hcn & Hid).
    split; [done|]. split; [done|]. split; [eauto|]. split; [|done].
    simpl. f_equal. unfold node_view. rewrite Hcn.
    destruct (inv_node _ Hinv _ _ Hcn) as (_ & fs' & Hf' & Hok'). rewrite Hid, Hmfs in Hf'.
    simplify_eq. unfold node_ok in Hok'. by destruct (node_private_data cn) as [[]|].
  - destruct (inv_mount _ Hinv _ _ Hm) as (_ & _ & fs' & de & rn & Hfs' & _ & Hroot & Hrn & Hid & _).
    simplify_eq. rewrite Hroot in Hrn.
    assert (Hvc : view_child k (VNode (de_node pe)) name =
      VDev (node_mount_id pn) <$> char_registry k !! name).
    { simpl. rewrite Hpn. simpl. rewrite Hmfs. simpl. unfold is_directory.
      by rewrite bool_decide_eq_true_2. }
    rewrite Hvc.
    destruct (dev_lookup_spec _ _ _ _ _ _ _ _ _ _ Hinv Hfs eq_refl Hrn Hid Hmfs Hrun)
      as [(-> & -> & Hc)|[(d & l & -> & Hc & ? & ? & Hv & ? & ?)| ->]].
    + left. by rewrite Hc.
    + right; left. exists l. rewrite Hc, Hv. done.
    + by right; right.
Qed.

(** Nodes and lookups are stable under resolution. *)

Lemma ext_mount_fs k k' id : ext k k' →
  fs_static <$> mount_fs k' id = fs_static <$> mount_fs k id.
Proof.
  intros Hext. unfold mount_fs. rewrite (ext_mounts _ _ Hext).
  destruct (mount_table k !! id) as [m|]; [|done]. simpl. apply (ext_fs _ _ Hext).
Qed.

Lemma ext_node k k' l n : inv k → ext k k' → nodes k !! l = Some n → nodes k' !! l = Some n.
Proof.
  intros Hinv Hext Hn. rewrite (ext_nodes _ _ Hext); [done|]. by destruct (inv_node _ Hinv _ _ Hn).
Qed.

Lemma ext_node_view k k' l : inv k → ext k k' → is_Some (nodes k !! l) →
  node_view k' l = node_view k l.
Proof.
  intros Hinv Hext [n Hn]. unfold node_view. by rewrite (ext_node _ _ _ _ Hinv Hext Hn), Hn.
Qed.

Lemma ext_is_dir_at k k' l : inv k → ext k k' → is_dir_at k l → is_dir_at k' l.
Proof. intros Hinv Hext (n & Hn & ?). exists n. eauto using ext_node. Qed.

Lemma ext_view_child k k' l name : inv k → ext k k' → is_Some (nodes k !! l) →
  view_child k' (VNode l) name = view_child k (VNode l) name.
Proof.
  intros Hinv Hext [n Hn]. unfold view_child.
  rewrite (ext_node _ _ _ _ Hinv Hext Hn), Hn, (ext_char_registry _ _ Hext). simpl.
  pose proof (ext_mount_fs _ _ (node_mount_id n) Hext) as Hfs.
  destruct (mount_fs k' _) as [[]|], (mount_fs k _) as [[]|]; simplify_eq/=; done.
Qed.

(** ** [get_cached_or_lookup] *)

Lemma cache_insert_child_run k p pe node name r k' : dcache_ok k → entries k !! p = Some pe →
  (∀ e de, entries k !! e = Some de → de_parent de = Some p → de_name de ≠ name) →
  cache_insert (Some p) node name k = (r, k') →
  r = Ok (next_loc k) ∧ k' = insert_state (Some p) node name k.
Proof.
  intros Hok Hpe Hfresh Hrun. unfold cache_insert in Hrun.
  rewrite (mbind_run _ _ k tt k) in Hrun by done.
  rewrite (mbind_run _ _ k tt k) in Hrun.
  2: { unfold cache_lookup_is_none. destruct (cache_lookup p name k) as [o k1] eqn:Hc.
       destruct (cache_lookup_run _ _ _ _ _ _ Hok Hpe Hc)
         as [(-> & -> & _)|(e & de & _ & _ & He & Hp & Hn)].
       - rewrite (mbind_run _ _ k true k); [done|]. by rewrite (mbind_run _ _ _ _ _ Hc).
       - by destruct (Hfresh _ _ He Hp). }
  apply cache_alloc_run in Hrun as [?|(_ & _ & q & [= <-] & Hq)]; [done|congruence].
Qed.

Lemma get_cached_or_lookup_spec k p pe name r k' : inv k →
  entries k !! p = Some pe → is_dir_at k (de_node pe) →
  get_cached_or_lookup p name k = (r, k') → no_wrap k' →
  (r = Ok None ∧ k' = k ∧ view_child k (VNode (de_node pe)) name = None ∧
   ∀ e de, entries k !! e = Some de → de_parent de = Some p → de_name de ≠ name) ∨
  (∃ e de, r = Ok (Some e) ∧ inv k' ∧ held k' = e :: held k ∧ grows k k' ∧
    entries k' !! e = Some de ∧ de_parent de = Some p ∧ de_name de = name) ∨
  r = Panic ArithOverflow.
Proof.
  intros Hinv Hpe (pn & Hpn & Hkind) Hrun Hwrap. unfold get_cached_or_lookup in Hrun.
  minv Hrun as c s1 Hc;
    (destruct (cache_lookup_run _ _ _ _ _ _ (inv_dcache _ Hinv) Hpe Hc)
       as [(? & ? & Hfresh)|(e & de & ? & ? & He & Hp & Hn)]; simplify_eq).
  2: { munfold Hrun. simplify_eq. right; left. exists e, de. split_and!; try done.
       - apply inv_set_held; [done|]. intros h [->|Hh]%elem_of_cons; [eauto|].
         by apply (inv_held _ Hinv).
       - by apply grows_same. }
  destruct (node_mount _ _ _ Hinv Hpn) as (m & fs & Hm & Hfs & _ & _).
  mstep (entry_node_run _ _ _ _ Hpe Hpn) in Hrun.
  mstep (node_file_system_run _ _ _ (inv_ready _ Hinv) Hm) in Hrun.
  destruct ((ops ← directory_operations (mount_file_system m); op_lookup ops p name) k)
    as [o k1] eqn:Hlk.
  assert (Hrun' : match o with
    | Ok on => match on with
               | Some node => e ← cache_insert (Some p) node name; mret (Some e)
               | None => mret None end k1
    | Err e => (Err e, k1) | Panic pp => (Panic pp, k1) end = (r, k')).
  { revert Hlk Hrun. mstep_with (directory_operations_run _ _ _ Hfs).
    mstep_with (directory_operations_run _ _ _ Hfs). unfold mbind, M_bind. by intros ->. }
  destruct (fs_lookup_spec _ _ _ _ _ _ _ _ _ Hinv Hpe Hpn Hkind Hm Hfs Hlk)
    as [(-> & -> & Hvc)|[(l & -> & Hinv1 & Hl & Hvc & Hents & Hheld)| ->]]; simplify_eq.
  - left. munfold Hrun'. by simplify_eq.
  - right; left. assert (ext k k1) as Hext by (by eapply op_lookup_ext).
    assert (Hpe1 : entries k1 !! p = Some pe) by (by rewrite Hents).
    minv Hrun' as e s2 Hins; (apply (cache_insert_child_run _ _ _ _ _ _ _ (inv_dcache _ Hinv1) Hpe1) in Hins
      as [? ?]; [simplify_eq|rewrite Hents; done]).
    munfold Hrun'. simplify_eq.
    assert (Hinv2 : inv (insert_state (Some p) l name k1)).
    { eapply inv_insert_child; eauto using ext_is_dir_at; [|by rewrite Hents|].
      - apply (ext_is_dir_at k); [done..|]. by exists pn.
      - by rewrite (ext_view_child k) by eauto. }
    exists (next_loc k1), (new_entry (Some p) l name k1). split_and!; try done.
    + simpl. by rewrite Hheld.
    + intros x de Hx. rewrite <- Hents in Hx.
      eapply (insert_lookup_old k1); eauto using inv_dcache.
      intros q [= <-]. exists pe. split; [done|]. apply (ext_is_dir_at k); [done..|]. by exists pn.
    + apply (insert_lookup_new k1); [by apply inv_dcache|].
      intros q [= <-]. exists pe. split; [done|]. apply (ext_is_dir_at k); [done..|]. by exists pn.
  - by right; right.
Qed.
