(* ===== verification/VfsWalk.v ===== *)
(** * The name space: a reference semantics of paths

    [walk] looks names up directly in the backing file systems and the mount
    table; it knows nothing of the directory cache, of entries, or of reference
    counts.  A path is the list of its names, innermost first.  [ref_resolve] is
    path resolution on top of it, with ["."] and [".."].  The lemmas show that
    a live directory entry stands for the node [walk] finds at its path, and
    that what resolution does to the state leaves [walk] alone. *)

From Stdlib Require Import Init.Byte.
From S2P Require Import Prelude Util FsTypes Fs Registry RamFs DevFs DirCache Path Vfs.
From S2P Require Import VfsFrame VfsInv VfsLookup.

(** The names from an entry up to the root; a location bounds its depth. *)
Fixpoint rpath_fuel (ents : gmap loc DirectoryEntry) (fuel : nat) (e : loc) : list string :=
  match ents !! e with
  | Some de =>
      match de_parent de, fuel with
      | Some p, S fuel' => de_name de :: rpath_fuel ents fuel' p
      | _, _ => []
      end
  | None => []
  end.
Definition rpath (k : kernel) (e : loc) : list string := rpath_fuel (entries k) e e.

(** The root node of the file system mounted at a path. *)
Definition mount_at (k : kernel) (rp : list string) : option loc :=
  m ← head (filter (λ m, rpath k (mount_root m) = rp) (map_to_list (mount_table k)).*2);
  de_node <$> entries k !! mount_root m.

(** What a path names: mounts first, then the backing file system. *)
Fixpoint walk (k : kernel) (rp : list string) : option view :=
  match rp with
  | [] => VNode <$> mount_at k []
  | name :: rp' =>
      v ← walk k rp';
      match mount_at k (name :: rp') with
      | Some l => Some (VNode l)
      | None => view_child k v name
      end
  end.

Definition view_is_dir (k : kernel) (v : view) : bool :=
  match v with
  | VNode l => from_option is_directory false (nodes k !! l)
  | VDev _ _ => false
  end.

(** Resolution of the segments after the root, from the directory [cur]. *)
Fixpoint ref_resolve (k : kernel) (cur : list string) (segs : list string)
    : outcome IoError (option (list string)) :=
  match segs with
  | [] => Ok (Some cur)
  | segment :: rest =>
      if negb (from_option (view_is_dir k) false (walk k cur)) then Err NotADirectory
      else if decide (segment = ".") then ref_resolve k cur rest
      else if decide (segment = "..") then ref_resolve k (tail cur) rest
      else match walk k (segment :: cur) with
           | Some _ => ref_resolve k (segment :: cur) rest
           | None => Ok None
           end
  end.

(** ** Paths of entries *)

Lemma rpath_fuel_enough ents fuel e : parents_below ents → e ≤ fuel →
  rpath_fuel ents fuel e = rpath_fuel ents e e.
Proof.
  intros Hpb. revert fuel. induction (lt_wf e) as [e _ IH]. intros fuel Hf.
  destruct e as [|e], fuel as [|fuel]; simpl; try lia; destruct (ents !! _) as [de|] eqn:He; try done;
    destruct (de_parent de) as [p|] eqn:Hp; try done; destruct (Hpb _ _ _ He Hp); try lia.
  f_equal. rewrite (IH p) by lia. symmetry. apply IH; lia.
Qed.

Lemma rpath_child k e de p : inv k → entries k !! e = Some de → de_parent de = Some p →
  rpath k e = de_name de :: rpath k p.
Proof.
  intros Hinv He Hp. pose proof (inv_parents_below _ Hinv) as Hpb.
  destruct (Hpb _ _ _ He Hp) as [Hlt _]. unfold rpath. destruct e as [|e]; [lia|]. simpl.
  rewrite He, Hp. f_equal. apply rpath_fuel_enough; [done|lia].
Qed.

Lemma rpath_top k e de : entries k !! e = Some de → de_parent de = None → rpath k e = [].
Proof. intros He Hp. unfold rpath. destruct e; simpl; by rewrite He, Hp. Qed.

Lemma rpath_inj k e1 : inv k → ∀ e2 de1 de2,
  entries k !! e1 = Some de1 → entries k !! e2 = Some de2 → rpath k e1 = rpath k e2 → e1 = e2.
Proof.
  intros Hinv. induction (lt_wf e1) as [e1 _ IH]. intros e2 de1 de2 H1 H2 Heq.
  destruct (de_parent de1) as [p1|] eqn:Hp1, (de_parent de2) as [p2|] eqn:Hp2.
  - rewrite (rpath_child _ _ _ _ Hinv H1 Hp1), (rpath_child _ _ _ _ Hinv H2 Hp2) in Heq.
    destruct (inv_parent _ Hinv _ _ _ H1 Hp1) as (? & pe1 & ? & _).
    destruct (inv_parent _ Hinv _ _ _ H2 Hp2) as (? & pe2 & ? & _).
    injection Heq as Hn Hr. assert (p1 = p2) as -> by eauto.
    eapply child_unique; eauto. congruence.
  - by rewrite (rpath_child _ _ _ _ Hinv H1 Hp1), (rpath_top _ _ _ H2 Hp2) in Heq.
  - by rewrite (rpath_child _ _ _ _ Hinv H2 Hp2), (rpath_top _ _ _ H1 Hp1) in Heq.
  - destruct (inv_root _ Hinv _ _ H1 Hp1), (inv_root _ Hinv _ _ H2 Hp2).
    eapply child_unique; eauto; congruence.
Qed.

Lemma rpath_static k k' e : inv k → inv k' →
  (∀ l de de', entries k !! l = Some de → entries k' !! l = Some de' →
    entry_static de' = entry_static de) →
  is_Some (entries k !! e) → is_Some (entries k' !! e) → rpath k' e = rpath k e.
Proof.
  intros Hinv Hinv' Hst. induction (lt_wf e) as [e _ IH]. intros [de He] [de' He'].
  destruct (entry_static_eq _ _ (Hst _ _ _ He He')) as (_ & Hn & _ & Hp).
  destruct (de_parent de) as [p|] eqn:Hpe.
  - rewrite (rpath_child _ _ _ _ Hinv He Hpe), (rpath_child _ _ _ _ Hinv' He' Hp), Hn.
    destruct (inv_parent _ Hinv _ _ _ He Hpe) as (? & pe & ? & _).
    destruct (inv_parent _ Hinv' _ _ _ He' Hp) as (_ & pe' & ? & _).
    f_equal. apply IH; eauto.
  - by rewrite (rpath_top _ _ _ He Hpe), (rpath_top _ _ _ He' Hp).
Qed.

(** ** Mounts by path *)

Lemma mount_at_Some k rp l : inv k →
  mount_at k rp = Some l ↔
  ∃ e de, e ∈ mount_roots k ∧ entries k !! e = Some de ∧ rpath k e = rp ∧ de_node de = l.
Proof.
  intros Hinv. unfold mount_at. split.
  - intros (m & Hm & Hl)%bind_Some. apply fmap_Some in Hl as (de & Hde & ->).
    assert (m ∈ filter (λ m, rpath k (mount_root m) = rp) (map_to_list (mount_table k)).*2) as Hin.
    { destruct (filter _ _); simplify_eq/=. left. }
    apply list_elem_of_filter in Hin as [Hr Hin].
    apply list_elem_of_fmap in Hin as ([id m'] & ? & Hin%elem_of_map_to_list). simplify_eq/=.
    exists (mount_root m'), de. split_and!; try done. apply elem_of_mount_roots. eauto.
  - intros (e & de & (id & m & Hm & <-)%elem_of_mount_roots & Hde & Hr & <-).
    assert (m ∈ filter (λ m, rpath k (mount_root m) = rp) (map_to_list (mount_table k)).*2) as Hin.
    { apply list_elem_of_filter. split; [done|]. apply list_elem_of_fmap.
      exists (id, m). by rewrite elem_of_map_to_list. }
    destruct (filter _ _) as [|m' ms] eqn:Hf; [by apply not_elem_of_nil in Hin|]. simpl.
    assert (m' ∈ filter (λ m, rpath k (mount_root m) = rp) (map_to_list (mount_table k)).*2) as Hin'.
    { rewrite Hf. left. }
    apply list_elem_of_filter in Hin' as [Hr' Hin'].
    apply list_elem_of_fmap in Hin' as ([id' m''] & ? & Hin'%elem_of_map_to_list). simplify_eq/=.
    assert (mount_root m'' ∈ mount_roots k) as Hroot by (apply elem_of_mount_roots; eauto).
    destruct (mount_root_live _ _ Hinv Hroot) as [de' Hde'].
    assert (mount_root m'' = mount_root m) as Heq by (eapply rpath_inj; eauto; congruence).
    rewrite Heq in *. by rewrite Hde.
Qed.

(** A live entry stands for what its path names. *)
Lemma walk_entry k e de : inv k → entries k !! e = Some de →
  walk k (rpath k e) = Some (node_view k (de_node de)).
Proof.
  intros Hinv. revert de. induction (lt_wf e) as [e _ IH]. intros de He.
  destruct (de_parent de) as [p|] eqn:Hp.
  - rewrite (rpath_child _ _ _ _ Hinv He Hp). simpl.
    destruct (inv_parent _ Hinv _ _ _ He Hp) as (Hlt & pe & Hpe & Hdir).
    rewrite (IH _ Hlt _ Hpe). simpl. rewrite <- (rpath_child _ _ _ _ Hinv He Hp).
    destruct (decide (e ∈ mount_roots k)) as [Hm|Hm].
    + rewrite (proj2 (mount_at_Some _ _ (de_node de) Hinv)) by eauto 10.
      by rewrite dir_node_view by eauto using mount_root_dir.
    + destruct (mount_at k (rpath k e)) as [l|] eqn:Hmnt.
      * apply mount_at_Some in Hmnt as (e' & de' & Hroot & He' & Hr & _); [|done].
        assert (e' = e) as -> by (eapply rpath_inj; eauto). done.
      * rewrite dir_node_view by done. by eapply (inv_coherent _ Hinv).
  - rewrite (rpath_top _ _ _ He Hp). simpl. destruct (inv_root _ Hinv _ _ He Hp) as [_ Hroot].
    rewrite (proj2 (mount_at_Some _ _ (de_node de) Hinv)) by eauto 10 using rpath_top.
    simpl. by rewrite dir_node_view by eauto using mount_root_dir.
Qed.

(** The name space depends on the mount points and the backing lookups only. *)
Lemma walk_congr k k' : (∀ q, mount_at k' q = mount_at k q) →
  (∀ v s, view_child k' v s = view_child k v s) → ∀ q, walk k' q = walk k q.
Proof.
  intros Hm Hv q. induction q as [|s q IH]; simpl; rewrite Hm; [done|]. rewrite IH.
  destruct (walk k q); [|done]. simpl. by rewrite Hv.
Qed.

(** ** Stability under resolution *)

Lemma ext_rpath k k' e : inv k → inv k' → ext k k' →
  is_Some (entries k !! e) → is_Some (entries k' !! e) → rpath k' e = rpath k e.
Proof.
  intros Hinv Hinv' Hext. apply rpath_static; [done..|].
  intros l de de' Hl Hl'. destruct (inv_entry _ Hinv _ _ Hl) as [Hlt _].
  destruct (ext_entries _ _ Hext _ _ Hlt Hl') as (d & ? & ?). congruence.
Qed.

Lemma ext_mount_roots k k' : ext k k' → mount_roots k' = mount_roots k.
Proof. intros Hext. unfold mount_roots. by rewrite (ext_mounts _ _ Hext). Qed.

Lemma ext_mount_at k k' rp : inv k → inv k' → ext k k' → mount_at k' rp = mount_at k rp.
Proof.
  intros Hinv Hinv' Hext. apply option_eq. intros l.
  rewrite !mount_at_Some, (ext_mount_roots _ _ Hext) by done.
  split; intros (e & de & Hm & He & Hr & Hl).
  - destruct (mount_root_live _ _ Hinv Hm) as [d Hd]. exists e, d.
    destruct (inv_entry _ Hinv _ _ Hd) as [Hlt _].
    destruct (ext_entries _ _ Hext _ _ Hlt He) as (d' & ? & (_ & _ & Hn & _)%entry_static_eq).
    rewrite <- (ext_rpath k k') by eauto. split_and!; congruence.
  - rewrite <- (ext_mount_roots _ _ Hext) in Hm.
    destruct (mount_root_live _ _ Hinv' Hm) as [d Hd]. exists e, d.
    rewrite (ext_mount_roots _ _ Hext) in Hm. destruct (inv_entry _ Hinv _ _ He) as [Hlt _].
    destruct (ext_entries _ _ Hext _ _ Hlt Hd) as (d' & ? & (_ & _ & Hn & _)%entry_static_eq).
    rewrite (ext_rpath k k') by eauto. split_and!; congruence.
Qed.

(** Every node [walk] finds is in the heap. *)
Lemma walk_node k rp l : inv k → walk k rp = Some (VNode l) → is_Some (nodes k !! l).
Proof.
  intros Hinv. destruct rp as [|name rp]; simpl.
  - intros (l' & Hm & [= ->])%fmap_Some.
    apply mount_at_Some in Hm as (e & de & _ & He & _ & <-); [|done].
    by apply (inv_entry _ Hinv _ _ He).
  - intros (v & _ & H)%bind_Some. destruct (mount_at k _) as [l'|] eqn:Hm.
    + simplify_eq. apply mount_at_Some in Hm as (e & de & _ & He & _ & <-); [|done].
      by apply (inv_entry _ Hinv _ _ He).
    + destruct v as [l'|]; [|done]. apply view_child_VNode in H as (n & ch & Hn & Hp & Hc).
      destruct (inv_child _ Hinv _ _ _ _ _ Hn Hp Hc) as (_ & cn & ? & _). eauto.
Qed.

Lemma ext_walk k k' rp : inv k → inv k' → ext k k' → walk k' rp = walk k rp.
Proof.
  intros Hinv Hinv' Hext. induction rp as [|name rp IH]; simpl.
  - by rewrite (ext_mount_at k k').
  - rewrite IH, (ext_mount_at k k') by done. destruct (walk k rp) as [v|] eqn:Hw; [|done]. simpl.
    destruct (mount_at k _); [done|]. destruct v as [l|]; [|done].
    apply ext_view_child; [done..|]. by eapply walk_node.
Qed.

Lemma ext_view_is_dir k k' rp v : inv k → ext k k' → walk k rp = Some v →
  view_is_dir k' v = view_is_dir k v.
Proof.
  intros Hinv Hext Hw. destruct v as [l|]; [|done]. simpl.
  destruct (walk_node _ _ _ Hinv Hw) as [n Hn]. by rewrite (ext_node _ _ _ _ Hinv Hext Hn), Hn.
Qed.

Lemma ext_ref_resolve k k' segs : inv k → inv k' → ext k k' →
  ∀ cur, ref_resolve k' cur segs = ref_resolve k cur segs.
Proof.
  intros Hinv Hinv' Hext. induction segs as [|s segs IH]; intros cur; [done|].
  cbn [ref_resolve]. rewrite !(ext_walk k k') by done.
  destruct (walk k cur) as [v|] eqn:Hw; [cbn; rewrite (ext_view_is_dir k k' cur v) by done|done].
  destruct (view_is_dir k v); [cbn|done].
  repeat case_decide; [by rewrite IH..|]. by rewrite IH.
Qed.

(** Directories seen through entries. *)
Lemma view_is_dir_node k l n : inv k → nodes k !! l = Some n →
  view_is_dir k (node_view k l) = is_directory n.
Proof.
  intros Hinv Hn. unfold node_view. rewrite Hn.
  destruct (inv_node _ Hinv _ _ Hn) as (_ & fs & _ & Hok). unfold node_ok in Hok.
  destruct fs, (node_private_data n) as [[| |]|]; try done; simpl; rewrite ?Hn; try done.
  unfold is_directory. rewrite Hok. done.
Qed.
