(* ===== verification/VfsResolve.v ===== *)
(** * Path resolution refines the reference semantics

    [resolve_path] and [resolve_path_parent_directory] keep the invariant and
    compute what [ref_resolve] computes on the name space: the cache, the
    resolution stack and reference counting are transparent. *)

From Stdlib Require Import Init.Byte.
From S2P Require Import Prelude Util FsTypes Fs Registry RamFs DevFs DirCache Path Vfs.
From S2P Require Import VfsFrame VfsInv VfsLookup VfsWalk.

(** ** The scan of the mount table *)

Lemma find_mount_spec k top te name mnts r k' : inv k → entries k !! top = Some te →
  (∀ m, m ∈ mnts → mount_root m ∈ mount_roots k) →
  find_mount mnts top name k = (r, k') →
  (r = Ok None ∧ k' = k ∧ ∀ m re, m ∈ mnts → entries k !! mount_root m = Some re →
     ¬ (de_parent re = Some top ∧ de_name re = name)) ∨
  (∃ e re, r = Ok (Some e) ∧ k' = set_held (e :: held k) k ∧ e ∈ mount_roots k ∧
     entries k !! e = Some re ∧ de_parent re = Some top ∧ de_name re = name).
Proof.
  intros Hinv Hte. induction mnts as [|m mnts IH]; intros Hall Hrun; simpl in Hrun.
  - munfold Hrun. simplify_eq. left. split_and!; [done..|]. by intros m re ?%not_elem_of_nil.
  - assert (Hm : mount_root m ∈ mount_roots k) by (apply Hall; left).
    destruct (mount_root_live _ _ Hinv Hm) as [re Hre].
    mstep (get_entry_run _ _ _ Hre) in Hrun.
    assert (Hb : (match de_parent re with Some p => entry_eq p top | None => mret false end) k
      = (Ok (bool_decide (de_parent re = Some top)), k)).
    { destruct (de_parent re) as [p|] eqn:Hp; [|done].
      destruct (inv_parent _ Hinv _ _ _ Hre Hp) as (_ & pe & Hpe & _).
      rewrite (entry_eq_run _ _ _ _ _ Hpe Hte). do 2 f_equal. apply bool_decide_ext. split.
      - intros. f_equal. by eapply inv_entry_inj.
      - intros [= ->]. congruence. }
    mstep Hb in Hrun.
    destruct (bool_decide (de_parent re = Some top) && bool_decide (de_name re = name)) eqn:Htest.
    + apply andb_prop in Htest as [Hp%bool_decide_eq_true Hn%bool_decide_eq_true].
      unfold arc_clone in Hrun. munfold Hrun. simplify_eq. right. eauto 10.
    + destruct IH as [(-> & -> & Hno)|?]; [|done|left|by right].
      { intros m' Hm'. apply Hall. by right. }
      split_and!; [done..|]. intros m' re' [->|Hin]%elem_of_cons Hre'; [|by eauto].
      simplify_eq. intros [Hp Hn]. by rewrite !bool_decide_eq_true_2 in Htest.
Qed.

(** The mounts of the table are the mount roots. *)
Lemma mount_values_roots k m : m ∈ btree_values Z.le (mount_table k) →
  mount_root m ∈ mount_roots k.
Proof. intros (id & Hid)%elem_of_btree_values. apply elem_of_mount_roots. eauto. Qed.

Lemma mount_roots_values k e : e ∈ mount_roots k →
  ∃ m, m ∈ btree_values Z.le (mount_table k) ∧ mount_root m = e.
Proof.
  intros (id & m & Hm & <-)%elem_of_mount_roots. exists m. split; [|done].
  apply elem_of_btree_values. eauto.
Qed.

(** One name: the mount table first, then the cache and the file system. *)
Definition lookup_name (top : loc) (name : string) : KM (option loc) :=
  mnts ← gets (λ k, btree_values Z.le (mount_table k));
  om ← find_mount mnts top name;
  match om with
  | Some root => mret (Some root)
  | None => get_cached_or_lookup top name
  end.

Lemma lookup_name_spec k top te name r k' : inv k →
  entries k !! top = Some te → is_dir_at k (de_node te) →
  lookup_name top name k = (r, k') → no_wrap k' →
  (r = Ok None ∧ k' = k ∧ walk k (name :: rpath k top) = None ∧
   ∀ e de, entries k !! e = Some de → de_parent de = Some top → de_name de ≠ name) ∨
  (∃ e de, r = Ok (Some e) ∧ inv k' ∧ held k' = e :: held k ∧ grows k k' ∧
    entries k' !! e = Some de ∧ de_parent de = Some top ∧ de_name de = name) ∨
  r = Panic ArithOverflow.
Proof.
  intros Hinv Hte Hdir Hrun Hwrap. unfold lookup_name in Hrun. rewrite mbind_gets in Hrun.
  minv Hrun as om s1 Hfm;
    (destruct (find_mount_spec _ _ _ _ _ _ _ Hinv Hte (mount_values_roots k) Hfm)
      as [(? & ? & Hno)|(e & re & ? & ? & Hm & He & Hp & Hn)]; simplify_eq).
  - destruct (get_cached_or_lookup_spec _ _ _ _ _ _ Hinv Hte Hdir Hrun Hwrap)
      as [(-> & -> & Hvc & Hfresh)|[?| ->]]; [left|by right; left|by right; right].
    split_and!; [done..| |done]. simpl. rewrite (walk_entry _ _ _ Hinv Hte). simpl.
    rewrite dir_node_view by done.
    destruct (mount_at k (name :: rpath k top)) as [l|] eqn:Hmnt; [|done].
    apply mount_at_Some in Hmnt as (e & de & Hroot & He & Hr & _); [|done].
    destruct (mount_roots_values _ _ Hroot) as (m & Hm & <-).
    exfalso. eapply Hno; [done..|].
    destruct (de_parent de) as [p|] eqn:Hp; [|by rewrite (rpath_top _ _ _ He Hp) in Hr].
    rewrite (rpath_child _ _ _ _ Hinv He Hp) in Hr. injection Hr as -> Hr.
    destruct (inv_parent _ Hinv _ _ _ He Hp) as (_ & pe & Hpe & _).
    by rewrite (rpath_inj _ _ Hinv _ _ _ Hpe Hte Hr).
  - munfold Hrun. simplify_eq. right; left. exists e, re. split_and!; try done.
    + apply inv_set_held; [done|]. intros h [->|Hh]%elem_of_cons; [eauto|]. by apply (inv_held _ Hinv).
    + by apply grows_same.
Qed.

(** ** The resolution stack

    The stack is the chain of entries from the current one down to the root. *)
Fixpoint chain (k : kernel) (stack : list loc) : Prop :=
  match stack with
  | [] => False
  | e :: stack' =>
      ∃ de, entries k !! e = Some de ∧
        match stack' with
        | [] => de_parent de = None
        | p :: _ => de_parent de = Some p ∧ chain k stack'
        end
  end.

Lemma chain_grows k k' stack : grows k k' → chain k stack → chain k' stack.
Proof.
  intros Hg. induction stack as [|e stack IH]; [done|]. simpl.
  intros (de & He & Hrest). destruct (Hg _ _ He) as (de' & He' & (_ & _ & _ & Hp)%entry_static_eq).
  exists de'. split; [done|]. rewrite Hp. destruct stack; [done|]. naive_solver.
Qed.

Lemma chain_static k k' stack : 
  (∀ l de, l ∈ stack → entries k !! l = Some de →
    ∃ de', entries k' !! l = Some de' ∧ de_parent de' = de_parent de) →
  chain k stack → chain k' stack.
Proof.
  intros Hs. induction stack as [|e stack IH]; [done|]. simpl. intros (de & He & Hrest).
  destruct (Hs e de) as (de' & He' & Hp); [left|done|]. exists de'. split; [done|].
  rewrite Hp. destruct stack as [|p stack]; [done|]. destruct Hrest as [? Hc]. split; [done|].
  apply IH; [|done]. intros l d Hl. apply Hs. by right.
Qed.

Lemma chain_rpath k e stack : inv k → chain k (e :: stack) →
  rpath k e = match stack with
              | [] => []
              | p :: _ => match entries k !! e with
                          | Some de => de_name de :: rpath k p
                          | None => []
                          end
              end.
Proof.
  intros Hinv (de & He & Hrest). rewrite He. destruct stack as [|p stack].
  - by eapply rpath_top.
  - destruct Hrest as [Hp _]. by eapply rpath_child.
Qed.

Lemma ext_no_wrap k k' : ext k k' → no_wrap k' → no_wrap k.
Proof.
  intros Hext (? & ? & ?). destruct Hext. unfold no_wrap in *.
  rewrite <- ext_mount_count, <- ext_fd_count. lia.
Qed.

Lemma resolve_name_step top st name rest k :
  (mnts ← gets (λ k, btree_values Z.le (mount_table k));
   om ← find_mount mnts top name;
   match om with
   | Some root => resolve_segments (root :: st) rest
   | None =>
       oe ← get_cached_or_lookup top name;
       match oe with
       | None => mret None
       | Some entry => resolve_segments (entry :: st) rest
       end
   end) k =
  (oe ← lookup_name top name;
   match oe with
   | None => mret None
   | Some entry => resolve_segments (entry :: st) rest
   end) k.
Proof.
  unfold lookup_name, mbind, M_bind, gets, mret, M_ret.
  destruct (find_mount _ top name k) as [[[]| |] ?]; done.
Qed.

(** Dropping the top of the stack keeps the rest alive. *)
Lemma drop_top k top st H : inv k → chain k (top :: st) → st ≠ [] → held k = (top :: st) ++ H →
  let k1 := gc (set_held (remove_one top (held k)) k) in
  inv k1 ∧ chain k1 st ∧ held k1 = st ++ H ∧ ext k k1.
Proof.
  intros Hinv Hch Hst Hheld k1.
  assert (Hrem : remove_one top (held k) = st ++ H).
  { rewrite Hheld. simpl. by rewrite decide_True. }
  assert (Hk1 : k1 = gc (set_held (st ++ H) k)) by (unfold k1; by rewrite Hrem).
  split_and!.
  - rewrite Hk1. apply inv_gc_held; [done|]. intros h Hh. apply (inv_held _ Hinv).
    rewrite Hheld. by right.
  - rewrite Hk1. destruct st as [|p st]; [done|]. destruct Hch as (de & _ & _ & Hch).
    revert Hch. apply chain_static. intros l d Hl Hd. exists d. split; [|done].
    apply gc_entries. split; [done|]. apply reachable_root, elem_of_app. left.
    apply (proj2 (elem_of_app (p :: st) H l)). by left.
  - by rewrite Hk1.
  - rewrite Hk1. apply ext_gc_held.
Qed.

#[export] Instance lookup_name_ext top name : Respects ext (lookup_name top name).
Proof. unfold lookup_name. apply _. Qed.

Lemma resolve_segments_spec segs : ∀ top st k H r k',
  inv k → chain k (top :: st) → held k = (top :: st) ++ H →
  resolve_segments (top :: st) segs k = (r, k') → no_wrap k' →
  match r with
  | Panic p => p = ArithOverflow
  | Err e => inv k' ∧ (∃ st', held k' = st' ++ H) ∧ ref_resolve k (rpath k top) segs = Err e
  | Ok None => inv k' ∧ (∃ st', held k' = st' ++ H) ∧
      ref_resolve k (rpath k top) segs = Ok None
  | Ok (Some e) => inv k' ∧ (∃ st', chain k' (e :: st') ∧ held k' = (e :: st') ++ H) ∧
      ref_resolve k (rpath k top) segs = Ok (Some (rpath k' e))
  end.
Proof.
  induction segs as [|s segs IH]; intros top st k H r k' Hinv Hch Hheld Hrun Hwrap.
  { simpl in Hrun. munfold Hrun. simplify_eq. eauto. }
  destruct Hch as (te & Hte & Hch'). assert (Hch : chain k (top :: st)) by (exists te; done).
  destruct (inv_entry _ Hinv _ _ Hte) as (_ & _ & [n Hn] & _).
  assert (Hdirb : from_option (view_is_dir k) false (walk k (rpath k top)) = is_directory n).
  { rewrite (walk_entry _ _ _ Hinv Hte). simpl. by apply view_is_dir_node. }
  cbn [resolve_segments] in Hrun. cbn [ref_resolve]. rewrite Hdirb.
  rewrite (mbind_run _ _ k top k) in Hrun by done.
  mstep (entry_node_run _ _ _ _ Hte Hn) in Hrun.
  destruct (is_directory n) eqn:Hisdir; cbn [negb] in *.
  2: { munfold Hrun. simplify_eq. eauto. }
  assert (Hdir : is_dir_at k (de_node te)).
  { exists n. split; [done|]. by apply bool_decide_eq_true in Hisdir. }
  case_decide; [by eapply IH|].
  case_decide as Hdd.
  - case_decide as Hlen.
    + destruct st; [|done]. assert (rpath k top = []) as Hr by (by eapply rpath_top).
      rewrite Hr. cbn [tail]. rewrite <- Hr. by eapply IH.
    + destruct st as [|p st]; [done|]. destruct Hch' as [Hp Hch'].
      rewrite (mbind_run _ _ k tt (gc (set_held (remove_one top (held k)) k))) in Hrun by done.
      destruct (drop_top k top (p :: st) H Hinv Hch) as (Hinv1 & Hch1 & Hheld1 & Hext1); [done..|].
      set (k1 := gc _) in *. rewrite (rpath_child _ _ _ _ Hinv Hte Hp). cbn [tail] in *.
      destruct (inv_parent _ Hinv _ _ _ Hte Hp) as (_ & pe & Hpe & _).
      assert (is_Some (entries k1 !! p)) by (destruct Hch1 as (d & -> & _); eauto).
      rewrite <- (ext_rpath k k1 p), <- (ext_ref_resolve k k1) by eauto. by eapply IH.
  - rewrite resolve_name_step in Hrun.
    minv Hrun as oe k1 Hlk; [destruct oe as [e|]|..].
    + assert (Hwrap1 : no_wrap k1).
      { eapply ext_no_wrap; [|exact Hwrap]. by eapply resolve_segments_ext. }
      assert (Hext : ext k k1) by (by eapply lookup_name_ext).
      destruct (lookup_name_spec _ _ _ _ _ _ Hinv Hte Hdir Hlk Hwrap1)
        as [(? & _)|[(e' & de & Heq & Hinv1 & Hheld1 & Hg & He & Hp & Hs)|?]]; [done| |done].
      injection Heq as <-. subst s.
      destruct (Hg _ _ Hte) as (te1 & Hte1 & _).
      assert (Hr1 : rpath k1 e = de_name de :: rpath k top).
      { rewrite (rpath_child _ _ _ _ Hinv1 He Hp). f_equal. apply ext_rpath; eauto. }
      rewrite <- (ext_walk k k1), <- Hr1, (walk_entry _ _ _ Hinv1 He) by done.
      rewrite <- (ext_ref_resolve k k1) by done.
      eapply IH; [done| |by rewrite Hheld1, Hheld|done..].
      exists de. split; [done|]. split; [done|]. by eapply chain_grows.
    + munfold Hrun. simplify_eq.
      destruct (lookup_name_spec _ _ _ _ _ _ Hinv Hte Hdir Hlk Hwrap)
        as [(_ & -> & -> & _)|[(? & ? & ? & _)|?]]; simplify_eq. eauto.
    + by destruct (lookup_name_spec _ _ _ _ _ _ Hinv Hte Hdir Hlk Hwrap)
        as [(? & _)|[(? & ? & ? & _)|?]].
    + by destruct (lookup_name_spec _ _ _ _ _ _ Hinv Hte Hdir Hlk Hwrap)
        as [(? & _)|[(? & ? & ? & _)|?]]; simplify_eq.
Qed.

(** ** Whole paths *)

Lemma scoped_run {A} keep (m : KM A) k r k' : scoped keep m k = (r, k') →
  ∃ k2, m k = (r, k2) ∧
    match r with
    | Ok a => k' = gc (set_held (keep a ++ held k) k2)
    | Err _ => k' = gc (set_held (held k) k2)
    | Panic _ => k' = k2
    end.
Proof. unfold scoped. destruct (m k) as [[] k2]; intros [= <- <-]; eauto. Qed.

Lemma cache_get_root_run k r k' : inv k → cache_get_root k = (r, k') →
  (r = Ok None ∧ k' = k ∧ ∀ e de, entries k !! e = Some de → de_parent de ≠ None) ∨
  (∃ e de, r = Ok (Some e) ∧ k' = set_held (e :: held k) k ∧
    entries k !! e = Some de ∧ de_parent de = None).
Proof.
  intros Hinv Hrun. unfold cache_get_root, weak_upgrade, arc_clone in Hrun.
  rewrite mbind_gets in Hrun.
  assert (Hnone : ∀ w, directory_cache k !! (DirectoryEntryId_NULL, "/") = w →
    (∀ e, w = Some e → entries k !! e = None) →
    ∀ e de, entries k !! e = Some de → de_parent de ≠ None).
  { intros w Hw Hdead e de He Hp. destruct (inv_entry _ Hinv _ _ He) as (_ & _ & _ & Hc).
    destruct (inv_root _ Hinv _ _ He Hp) as [Hn _]. unfold entry_key in Hc.
    rewrite Hp, Hn in Hc. change (parent_id (entries k) None) with DirectoryEntryId_NULL in Hc.
    rewrite Hc in Hw. pose proof (Hdead e (eq_sym Hw)). congruence. }
  destruct (directory_cache k !! (DirectoryEntryId_NULL, "/")) as [w|] eqn:Hw.
  - rewrite mbind_gets in Hrun. destruct (entries k !! w) as [de|] eqn:He.
    + munfold Hrun. simplify_eq. right. exists w, de. split_and!; try done.
      destruct (inv_cache _ Hinv _ _ Hw) as [_ Hkey]. specialize (Hkey _ He).
      destruct (de_parent de) as [p|] eqn:Hp; [|done]. unfold entry_key in Hkey.
      rewrite Hp in Hkey. injection Hkey as Hid _.
      destruct (inv_parent _ Hinv _ _ _ He Hp) as (_ & pe & Hpe & _).
      unfold parent_id in Hid. rewrite Hpe in Hid. simpl in Hid.
      destruct (inv_entry _ Hinv _ _ Hpe) as (_ & ? & _). unfold DirectoryEntryId_NULL in *. lia.
    + munfold Hrun. simplify_eq. left. split_and!; [done..|].
      apply (Hnone _ eq_refl). by intros e' [= <-].
  - munfold Hrun. simplify_eq. left. split_and!; [done..|]. by apply (Hnone _ eq_refl).
Qed.

(** Without a root entry there are no entries and no mounts. *)
Lemma no_root_walk k : inv k → (∀ e de, entries k !! e = Some de → de_parent de ≠ None) →
  walk k [] = None.
Proof.
  intros Hinv Hno. simpl. destruct (mount_at k []) as [l|] eqn:Hm; [|done].
  apply mount_at_Some in Hm as (e & de & _ & He & Hr & _); [|done].
  destruct (de_parent de) as [p|] eqn:Hp; [|by destruct (Hno _ _ He)].
  by rewrite (rpath_child _ _ _ _ Hinv He Hp) in Hr.
Qed.

(** The segments of an absolute path after its root, or how a path is refused. *)
Definition path_segments (k : kernel) (path : string) : outcome IoError (list string) :=
  match Path.from_str path with
  | Panic p => Panic p
  | Err _ => Err InvalidPath
  | Ok p =>
      match Path.is_absolute p, walk k [] with
      | Some true, Some _ => Ok (drop 1 (Path.segments p))
      | Some true, None => Err NoRootDirectory
      | _, _ => Panic Todo
      end
  end.

(** The reference semantics of [resolve_path]. *)
Definition ref_resolve_path (k : kernel) (path : string) : outcome IoError (option (list string)) :=
  match path_segments k path with
  | Panic p => Panic p
  | Err e => Err e
  | Ok segs => ref_resolve k [] segs
  end.

Lemma parse_path_cases path k r k' : parse_path path k = (r, k') →
  k' = k ∧ match Path.from_str path with
           | Ok p => r = Ok p | Err _ => r = Err InvalidPath | Panic q => r = Panic q end.
Proof. unfold parse_path. by destruct (Path.from_str path); intros [= <- <-]. Qed.

Lemma from_str_nonempty path p : Path.from_str path = Ok p → is_Some (Path.is_absolute p).
Proof.
  intros Hp. destruct (Path.from_str_inv _ _ Hp) as (? & ? & ?).
  rewrite Path.from_str_Ok in Hp by done. simplify_eq. unfold Path.is_absolute. simpl.
  destruct (Path.strip_slash path); [eauto|].
  pose proof (Path.split_slash_nonempty path). destruct (Path.split_slash path); [done|eauto].
Qed.

Lemma inv_push k e : inv k → is_Some (entries k !! e) → inv (set_held (e :: held k) k).
Proof.
  intros Hinv He. apply inv_set_held; [done|]. intros h [->|Hh]%elem_of_cons; [done|].
  by apply (inv_held _ Hinv).
Qed.

(** Leaving a scope: the state after the body, with [keep] moved out. *)
Lemma inv_leave k k2 keep hs : inv k2 → held k2 = hs ++ held k →
  (∀ h, h ∈ keep → is_Some (entries k2 !! h)) →
  inv (gc (set_held (keep ++ held k) k2)).
Proof.
  intros Hinv Hheld Hkeep. apply inv_gc_held; [done|].
  intros h [Hh|Hh]%elem_of_app; [by auto|]. apply (inv_held _ Hinv). rewrite Hheld.
  apply elem_of_app. by right.
Qed.

Lemma gc_held_live k h hs : h ∈ hs → is_Some (entries k !! h) →
  is_Some (entries (gc (set_held hs k)) !! h).
Proof.
  intros Hh [de Hde]. exists de. apply gc_entries. split; [done|].
  apply reachable_root, elem_of_app. by left.
Qed.

(** The code both resolution functions start with. *)
Definition with_root {A} (path : string) (f : loc → Path.t → KM A) : KM A :=
  p ← parse_path path;
  abs ← unwrap UnwrapNone (Path.is_absolute p);
  if negb abs then panic Todo else
  o ← cache_get_root;
  root_directory ← ok_or NoRootDirectory o;
  _ ← arc_clone root_directory;
  f root_directory p.

Lemma with_root_spec {A} path (f : loc → Path.t → KM A) k r k2 : inv k →
  with_root path f k = (r, k2) →
  (∃ q, r = Panic q ∧ path_segments k path = Panic q) ∨
  (∃ e, r = Err e ∧ k2 = k ∧ path_segments k path = Err e) ∨
  (∃ p root de, let k1 := set_held (root :: root :: held k) k in
    path_segments k path = Ok (drop 1 (Path.segments p)) ∧ inv k1 ∧ ext k k1 ∧
    entries k1 !! root = Some de ∧ de_parent de = None ∧ rpath k1 root = [] ∧
    f root p k1 = (r, k2)).
Proof.
  intros Hinv Hrun. unfold path_segments, with_root in *.
  minv Hrun as p s1 Hparse; (apply parse_path_cases in Hparse as [-> Hparse];
    destruct (Path.from_str path) as [p'| |] eqn:Hpath; simplify_eq); [|by eauto 10..].
  destruct (from_str_nonempty _ _ Hpath) as [b Hb]. rewrite Hb in *.
  rewrite (mbind_run _ _ k b k) in Hrun by done. destruct b; cbn [negb] in Hrun.
  2: { munfold Hrun. simplify_eq. eauto. }
  minv Hrun as o s1 Hroot;
    (destruct (cache_get_root_run _ _ _ Hinv Hroot) as [(? & ? & Hno)|(e & de & ? & ? & He & Hp)];
     simplify_eq).
  { munfold Hrun. simplify_eq. rewrite (no_root_walk _ Hinv Hno). eauto 10. }
  unfold ok_or, arc_clone in Hrun. rewrite mbind_ret, mbind_modify in Hrun.
  right; right. exists p', e, de. set (k1 := set_held _ k).
  assert (Hinv1 : inv k1).
  { apply (inv_push (set_held (e :: held k) k)); [|by exists de]. apply inv_push; [done|by exists de]. }
  assert (Hext1 : ext k k1) by apply ext_set_held.
  assert (He1 : entries k1 !! e = Some de) by done.
  assert (Hr1 : rpath k1 e = []) by (by eapply rpath_top).
  rewrite <- (ext_walk k k1), <- Hr1, (walk_entry _ _ _ Hinv1 He1) by done.
  split_and!; done.
Qed.

Lemma no_wrap_leave {A} (r : outcome IoError A) (keep : A → list loc) hs k2 k' :
  match r with
  | Ok a => k' = gc (set_held (keep a ++ hs) k2)
  | Err _ => k' = gc (set_held hs k2)
  | Panic _ => k' = k2
  end → no_wrap k' → no_wrap k2.
Proof. intros Hk Hwrap. destruct r; subst; eapply ext_no_wrap; try done; apply ext_gc_held. Qed.

(** Leaving a resolution scope with nothing, or with the top of the stack. *)
Lemma inv_leave_none k k2 st root : inv k2 → held k2 = st ++ root :: held k →
  inv (gc (set_held (held k) k2)).
Proof.
  intros Hi Hh. apply (inv_leave k k2 [] (st ++ [root])); [done|by rewrite Hh, <- app_assoc|].
  by intros h ?%not_elem_of_nil.
Qed.

Lemma inv_leave_top k k2 e st root : inv k2 → chain k2 (e :: st) →
  held k2 = (e :: st) ++ root :: held k →
  let k' := gc (set_held (e :: held k) k2) in
  inv k' ∧ (∀ de, entries k2 !! e = Some de → entries k' !! e = Some de) ∧ rpath k' e = rpath k2 e.
Proof.
  intros Hi Hch Hh k'. destruct Hch as (de & He & _).
  assert (Hi' : inv k').
  { apply (inv_leave k k2 [e] ((e :: st) ++ [root])); [done|by rewrite Hh, <- app_assoc|].
    intros h ->%list_elem_of_singleton. eauto. }
  assert (Hl : entries k' !! e = Some de).
  { apply gc_entries. split; [done|]. apply reachable_root, elem_of_app. left. left. }
  split_and!; [done|by intros; simplify_eq|].
  apply ext_rpath; [done..|apply ext_gc_held|by eauto|by eauto].
Qed.

Lemma resolve_path_spec path k r k' : inv k → resolve_path path k = (r, k') → no_wrap k' →
  match r with
  | Panic p => p = ArithOverflow ∨ ref_resolve_path k path = Panic p
  | Err e => inv k' ∧ held k' = held k ∧ ref_resolve_path k path = Err e
  | Ok None => inv k' ∧ held k' = held k ∧ ref_resolve_path k path = Ok None
  | Ok (Some e) => inv k' ∧ held k' = e :: held k ∧
      ref_resolve_path k path = Ok (Some (rpath k' e))
  end.
Proof.
  intros Hinv Hrun Hwrap. apply scoped_run in Hrun as (k2 & Hrun & Hk').
  pose proof (no_wrap_leave _ _ _ _ _ Hk' Hwrap) as Hwrap2. unfold ref_resolve_path.
  apply (with_root_spec path (λ root p, resolve_segments [root] (drop 1 (Path.segments p)))) in Hrun
    as [(q & -> & ->)|[(e & -> & -> & ->)|(p & root & de & Hrun)]]; [by right| | |done].
  { subst k'. split_and!; [|done..]. apply inv_gc_held; [done|]. apply (inv_held _ Hinv). }
  destruct Hrun as (-> & Hinv1 & Hext1 & He1 & Hp1 & Hr1 & Hrun). set (k1 := set_held _ k) in *.
  rewrite <- (ext_ref_resolve k k1), <- Hr1 by done.
  pose proof (resolve_segments_spec _ root [] k1 (root :: held k) _ _ Hinv1
    ltac:(by exists de) eq_refl Hrun Hwrap2) as Hspec.
  destruct r as [[e'|]|err|q]; [destruct Hspec as (Hi2 & (st & Hch & Hh2) & Href)|
    destruct Hspec as (Hi2 & (st & Hh2) & Href)..|by left]; subst k'.
  - destruct (inv_leave_top _ _ _ _ _ Hi2 Hch Hh2) as (? & _ & Hr).
    split_and!; [done..|]. by rewrite Href, <- Hr.
  - split_and!; [by eapply inv_leave_none|done..].
  - split_and!; [by eapply inv_leave_none|done..].
Qed.

(** ** The parent directory of a path *)

(** The reference semantics of the loop of [resolve_path_parent_directory]. *)
Fixpoint ref_parent (k : kernel) (cur segs : list string) : outcome IoError (list string * string) :=
  match segs with
  | [] => Panic Unreachable
  | segment :: rest =>
      if decide (segment = ".") then Panic Todo
      else if decide (segment = "..") then Panic Todo
      else match rest with
           | [] => Ok (cur, segment)
           | _ =>
               match walk k (segment :: cur) with
               | None => Err EntryNotFound
               | Some v =>
                   if negb (view_is_dir k v) then Err NotADirectory
                   else ref_parent k (segment :: cur) rest
               end
           end
  end.

Lemma ext_ref_parent k k' segs : inv k → inv k' → ext k k' →
  ∀ cur, ref_parent k' cur segs = ref_parent k cur segs.
Proof.
  intros Hinv Hinv' Hext. induction segs as [|s segs IH]; intros cur; [done|].
  cbn [ref_parent]. repeat case_decide; try done. destruct segs as [|s' segs]; [done|].
  rewrite (ext_walk k k') by done. destruct (walk k (s :: cur)) as [v|] eqn:Hw; [|done].
  rewrite (ext_view_is_dir k k' (s :: cur)) by done. by rewrite IH.
Qed.

(** A cache miss means the path names nothing: mount roots are always cached. *)
Lemma no_child_walk k top te name : inv k → entries k !! top = Some te →
  is_dir_at k (de_node te) →
  view_child k (VNode (de_node te)) name = None →
  (∀ e de, entries k !! e = Some de → de_parent de = Some top → de_name de ≠ name) →
  walk k (name :: rpath k top) = None.
Proof.
  intros Hinv Hte Hdir Hvc Hfresh. simpl. rewrite (walk_entry _ _ _ Hinv Hte). simpl.
  rewrite dir_node_view by done.
  destruct (mount_at k (name :: rpath k top)) as [l|] eqn:Hmnt; [|done].
  apply mount_at_Some in Hmnt as (e & de & Hroot & He & Hr & _); [|done]. exfalso.
  destruct (de_parent de) as [p|] eqn:Hp; [|by rewrite (rpath_top _ _ _ He Hp) in Hr].
  rewrite (rpath_child _ _ _ _ Hinv He Hp) in Hr. injection Hr as Hn Hr.
  destruct (inv_parent _ Hinv _ _ _ He Hp) as (_ & pe & Hpe & _).
  apply (Hfresh e de He); [|done]. by rewrite Hp, (rpath_inj _ _ Hinv _ _ _ Hpe Hte Hr).
Qed.

Lemma resolve_parent_segments_spec segs : ∀ top te st count i k H r k',
  inv k → chain k (top :: st) → entries k !! top = Some te → is_dir_at k (de_node te) →
  held k = (top :: st) ++ H → segs ≠ [] → count = i + length segs →
  resolve_parent_segments (top :: st) count i segs k = (r, k') → no_wrap k' →
  match r with
  | Panic p => p = ArithOverflow ∨ ref_parent k (rpath k top) segs = Panic p
  | Err e => inv k' ∧ (∃ st', held k' = st' ++ H) ∧ ref_parent k (rpath k top) segs = Err e
  | Ok (p, name) => inv k' ∧ (∃ st', chain k' (p :: st') ∧ held k' = (p :: st') ++ H) ∧
      (∃ pe, entries k' !! p = Some pe ∧ is_dir_at k' (de_node pe)) ∧
      ref_parent k (rpath k top) segs = Ok (rpath k' p, name)
  end.
Proof.
  induction segs as [|s segs IH];
    intros top te st count i k H r k' Hinv Hch Hte Hdir Hheld Hne Hcount Hrun Hwrap; [done|].
  cbn [resolve_parent_segments] in Hrun. cbn [ref_parent].
  case_decide; [munfold Hrun; simplify_eq; by right|].
  case_decide; [munfold Hrun; simplify_eq; by right|].
  case_decide as Hi.
  2: { assert (segs = []) as -> by (destruct segs; simpl in *; [done|lia]).
       munfold Hrun. cbn [head] in Hrun. simplify_eq.
       split; [done|]. split; [by exists st|]. split; [by exists te|done]. }
  destruct segs as [|s' segs]; [simpl in *; lia|].
  unfold unwrap in Hrun. cbn [head] in Hrun. rewrite mbind_ret in Hrun.
  minv Hrun as oe k1 Hlk.
  2: by destruct (get_cached_or_lookup_spec _ _ _ _ _ _ Hinv Hte Hdir Hlk Hwrap)
       as [(? & _)|[(? & ? & ? & _)|?]].
  2: { subst r. left. by destruct (get_cached_or_lookup_spec _ _ _ _ _ _ Hinv Hte Hdir Hlk Hwrap)
       as [(? & _)|[(? & ? & ? & _)|?]]; simplify_eq. }
  assert (Hext : ext k k1) by (by eapply get_cached_or_lookup_ext).
  destruct oe as [e|]; unfold ok_or in Hrun.
  2: { munfold Hrun. simplify_eq.
       destruct (get_cached_or_lookup_spec _ _ _ _ _ _ Hinv Hte Hdir Hlk Hwrap)
         as [(_ & -> & Hvc & Hfresh)|[(? & ? & ? & _)|?]]; simplify_eq.
       rewrite (no_child_walk _ _ _ _ Hinv Hte) by done. eauto. }
  rewrite mbind_ret in Hrun.
  assert (Hwrap1 : no_wrap k1).
  { eapply ext_no_wrap; [|exact Hwrap]. revert Hrun.
    apply (respects_bind ext (entry_node e)); apply _. }
  destruct (get_cached_or_lookup_spec _ _ _ _ _ _ Hinv Hte Hdir Hlk Hwrap1)
    as [(? & _)|[(e' & de & Heq & Hinv1 & Hheld1 & Hg & He & Hp & Hs)|?]]; [done| |done].
  injection Heq as <-. subst s.
  destruct (inv_entry _ Hinv1 _ _ He) as (_ & _ & [n Hn] & _).
  mstep (entry_node_run _ _ _ _ He Hn) in Hrun.
  destruct (Hg _ _ Hte) as (te1 & Hte1 & _).
  assert (Hr1 : rpath k1 e = de_name de :: rpath k top).
  { rewrite (rpath_child _ _ _ _ Hinv1 He Hp). f_equal. apply ext_rpath; eauto. }
  assert (Hw : walk k (de_name de :: rpath k top) = Some (node_view k1 (de_node de))).
  { by rewrite <- (ext_walk k k1), <- Hr1, (walk_entry _ _ _ Hinv1 He) by done. }
  rewrite Hw, <- (ext_view_is_dir k k1 _ _ Hinv Hext Hw), (view_is_dir_node _ _ _ Hinv1 Hn).
  assert (Hch1 : chain k1 (e :: top :: st)).
  { exists de. split; [done|]. split; [done|]. by eapply chain_grows. }
  assert (Hh1 : held k1 = (e :: top :: st) ++ H) by (by rewrite Hheld1, Hheld).
  destruct (is_directory n) eqn:Hd; cbn [negb] in *.
  - rewrite <- Hr1, <- (ext_ref_parent k k1) by done.
    apply (IH e de (top :: st) count (S i) k1 H r k'); try done; [|simpl in *; lia].
    exists n. split; [done|]. by apply bool_decide_eq_true in Hd.
  - munfold Hrun. simplify_eq. eauto 10.
Qed.

(** The reference semantics of [resolve_path_parent_directory]. *)
Definition ref_parent_path (k : kernel) (path : string) : outcome IoError (list string * string) :=
  match path_segments k path with
  | Panic p => Panic p
  | Err e => Err e
  | Ok [] => Err InvalidPath
  | Ok segs => ref_parent k [] segs
  end.

Lemma resolve_path_parent_directory_spec path k r k' :
  inv k → resolve_path_parent_directory path k = (r, k') → no_wrap k' →
  match r with
  | Panic p => p = ArithOverflow ∨ ref_parent_path k path = Panic p
  | Err e => inv k' ∧ held k' = held k ∧ ref_parent_path k path = Err e
  | Ok (p, name) => inv k' ∧ held k' = p :: held k ∧
      (∃ pe, entries k' !! p = Some pe ∧ is_dir_at k' (de_node pe)) ∧
      ref_parent_path k path = Ok (rpath k' p, name)
  end.
Proof.
  intros Hinv Hrun Hwrap. apply scoped_run in Hrun as (k2 & Hrun & Hk').
  pose proof (no_wrap_leave _ _ _ _ _ Hk' Hwrap) as Hwrap2. unfold ref_parent_path.
  apply (with_root_spec path (λ root p, let count := length (Path.segments p) - 1 in
    if decide (count = 0) then fail InvalidPath
    else resolve_parent_segments [root] count 0 (drop 1 (Path.segments p)))) in Hrun
    as [(q & -> & ->)|[(e & -> & -> & ->)|(p & root & de & Hrun)]]; [by right| | |done].
  { subst k'. split_and!; [|done..]. apply inv_gc_held; [done|]. apply (inv_held _ Hinv). }
  destruct Hrun as (-> & Hinv1 & Hext1 & He1 & Hp1 & Hr1 & Hrun). set (k1 := set_held _ k) in *.
  assert (Hlen : length (drop 1 (Path.segments p)) = length (Path.segments p) - 1)
    by apply length_drop.
  cbv zeta in Hrun. case_decide as Hc.
  { rewrite Hc in Hlen. destruct (drop 1 (Path.segments p)); [|done].
    munfold Hrun. simplify_eq. split_and!; [|done..]. by apply (inv_leave_none _ _ [root] root). }
  assert (Hsegs : drop 1 (Path.segments p) ≠ []) by (intros Heq; by rewrite Heq in Hlen).
  assert (Hdir : is_dir_at k1 (de_node de)).
  { apply (mount_root_dir _ root); [done| |done]. by apply (inv_root _ Hinv1 _ _ He1). }
  pose proof (resolve_parent_segments_spec _ root de [] _ 0 k1 (root :: held k) _ _ Hinv1
    ltac:(by exists de) He1 Hdir eq_refl Hsegs (eq_sym Hlen) Hrun Hwrap2) as Hspec.
  destruct (drop 1 (Path.segments p)) as [|s segs]; [done|].
  rewrite <- (ext_ref_parent k k1), <- Hr1 by done.
  destruct r as [[q name]|err|q];
    [destruct Hspec as (Hi2 & (st & Hch & Hh2) & (pe & Hpe & Hdir2) & Href)|
     destruct Hspec as (Hi2 & (st & Hh2) & Href)|done]; subst k'.
  - destruct (inv_leave_top _ _ _ _ _ Hi2 Hch Hh2) as (? & Hl & Hr).
    split_and!; [done..|by eauto|]. cbn in *. by rewrite Href, <- Hr.
  - split_and!; [by eapply inv_leave_none|done..].
Qed.
