(* ===== verification/VfsCreate.v ===== *)
(** * Changing the backing store

    What the drivers do to nodes: rewriting a node in place without changing
    its shape (link counts, file contents), and adding a child to a RAM
    directory.  Both keep the invariant; the first leaves the name space alone,
    the second adds exactly one name, because the name space is a tree. *)

From Stdlib Require Import Init.Byte.
From S2P Require Import Prelude Util FsTypes Fs Registry RamFs DevFs DirCache Path Vfs.
From S2P Require Import VfsFrame VfsInv VfsLookup VfsWalk VfsResolve.

(** ** The name space is a tree *)

(** A mount point's node determines its path. *)
Lemma mount_at_inj k r1 r2 l : inv k → mount_at k r1 = Some l → mount_at k r2 = Some l → r1 = r2.
Proof.
  intros Hinv (e1 & d1 & Hm1 & He1 & <- & <-)%mount_at_Some (e2 & d2 & Hm2 & He2 & <- & Hn)%mount_at_Some;
    [|done..].
  by rewrite (mount_root_unique _ _ _ _ _ Hinv Hm1 Hm2 He1 He2 (eq_sym Hn)).
Qed.

(** A mounted root is no file system's child. *)
Lemma mount_at_not_child k rp l p s : inv k → mount_at k rp = Some l → ram_child k p s l → False.
Proof.
  intros Hinv (e & de & (id & m & Hm & <-)%elem_of_mount_roots & He & _ & Hl)%mount_at_Some Hc; [|done].
  destruct (inv_mount _ Hinv _ _ Hm) as (_ & _ & fs & de' & n & Hfs & ? & Hroot & _). simplify_eq.
  apply (inv_child_root _ Hinv _ _ _ id fs Hc); [|done]. unfold mount_fs. by rewrite Hm.
Qed.

(** How a path reaches a node: it is a mount point, or a child of a node. *)
Lemma walk_VNode k rp l : walk k rp = Some (VNode l) →
  mount_at k rp = Some l ∨
  ∃ s rp' p, rp = s :: rp' ∧ walk k rp' = Some (VNode p) ∧ ram_child k p s l.
Proof.
  destruct rp as [|s rp]; simpl.
  - intros (l' & ? & [= ->])%fmap_Some. by left.
  - intros (v & Hv & H)%bind_Some. destruct (mount_at k (s :: rp)) as [l'|].
    + left. by simplify_eq.
    + right. destruct v as [p|]; [|done]. eauto 10 using view_child_VNode.
Qed.

Lemma walk_inj k r1 : inv k → ∀ r2 l,
  walk k r1 = Some (VNode l) → walk k r2 = Some (VNode l) → r1 = r2.
Proof.
  intros Hinv. induction r1 as [|s1 r1 IH]; intros r2 l H1 H2;
    apply walk_VNode in H1 as [H1|(s & r & p & ? & Hw1 & H1)]; simplify_eq;
    apply walk_VNode in H2 as [H2|(s' & r' & p' & -> & Hw2 & H2)];
    try by (exfalso; eauto using mount_at_not_child).
  - by eapply mount_at_inj.
  - by eapply mount_at_inj.
  - destruct (inv_child_inj _ Hinv _ _ _ _ _ H1 H2) as [-> ->]. f_equal. eauto.
Qed.

(** A device is found in the root of the file system it is a device of. *)
Lemma walk_VDev k rp id d : inv k → walk k rp = Some (VDev id d) → ∃ rp' l n,
  rp = cdm_name (char_device_metadata d) :: rp' ∧ mount_at k rp' = Some l ∧ nodes k !! l = Some n ∧ node_mount_id n = id.
Proof.
  intros Hinv. destruct rp as [|s rp]; simpl; [by intros (l & _ & ?)%fmap_Some|].
  intros (v & Hv & H)%bind_Some. destruct (mount_at k (s :: rp)); [done|].
  destruct v as [l|]; [|done]. apply bind_Some in H as (n & Hn & H). apply bind_Some in H as (fs & Hfs & H).
  destruct fs as [i|i]; [by repeat case_match; try done; apply fmap_Some in H as (? & _ & ?)|].
  case_match; [|done]. apply fmap_Some in H as (d' & Hd & [= -> ->]).
  exists rp, l, n. rewrite (inv_chars _ Hinv _ _ Hd). split_and!; [done| |done..].
  apply walk_VNode in Hv as [Hv|(s' & rp' & p & -> & _ & (pn & ch & Hpn & Hch & Hc))]; [done|].
  destruct (inv_child _ Hinv _ _ _ _ _ Hpn Hch Hc) as (_ & cn & Hcn & Hid).
  destruct (inv_node _ Hinv _ _ Hpn) as (_ & fs & Hfs' & Hok). simplify_eq.
  rewrite <- Hid, Hfs in Hfs'. simplify_eq. unfold node_ok in Hok. by rewrite Hch in Hok.
Qed.
Lemma mount_at_id_inj k r1 r2 l1 l2 n1 n2 : inv k → mount_at k r1 = Some l1 → mount_at k r2 = Some l2 →
  nodes k !! l1 = Some n1 → nodes k !! l2 = Some n2 → node_mount_id n1 = node_mount_id n2 → r1 = r2.
Proof.
  intros Hinv (e1 & d1 & (i1 & m1 & Hm1 & <-)%elem_of_mount_roots & He1 & <- & <-)%mount_at_Some; [|done].
  intros (e2 & d2 & (i2 & m2 & Hm2 & <-)%elem_of_mount_roots & He2 & <- & <-)%mount_at_Some Hn1 Hn2 Hid; [|done].
  destruct (inv_mount _ Hinv _ _ Hm1) as (_ & _ & ? & ? & ? & _ & ? & _ & ? & ? & _).
  destruct (inv_mount _ Hinv _ _ Hm2) as (_ & _ & ? & ? & ? & _ & ? & _ & ? & ? & _).
  simplify_eq. rewrite Hid in Hm1. by simplify_eq.
Qed.
(** So everything has one path. *)
Lemma walk_view_inj k r1 r2 v : inv k → walk k r1 = Some v → walk k r2 = Some v → r1 = r2.
Proof.
  intros Hinv H1 H2. destruct v as [l|id d]; [by eapply walk_inj|].
  apply walk_VDev in H1 as (q1 & l1 & n1 & -> & Hm1 & Hn1 & <-); [|done].
  apply walk_VDev in H2 as (q2 & l2 & n2 & -> & Hm2 & Hn2 & Hid); [|done].
  f_equal. by eapply (mount_at_id_inj k q1 q2 l1 l2).
Qed.

(** ** Rewriting nodes in place *)

(** What the invariant and the name space depend on in a node. *)
Definition node_shape (n : FsNode) : Z * FsNodeKind.t * option PrivateData :=
  (node_mount_id n, node_kind n,
   match node_private_data n with
   | Some (RamFileNode _) => Some (RamFileNode [])
   | d => d
   end).

Lemma node_shape_eq n n' : node_shape n' = node_shape n →
  node_mount_id n' = node_mount_id n ∧ node_kind n' = node_kind n ∧
  (∀ ch, node_private_data n' = Some (RamDirectoryNode ch) ↔
         node_private_data n = Some (RamDirectoryNode ch)) ∧
  (∀ d, node_private_data n' = Some (CharDeviceNode d) ↔
        node_private_data n = Some (CharDeviceNode d)) ∧
  (∀ fs, node_ok fs n' ↔ node_ok fs n).
Proof.
  unfold node_shape, node_ok. intros [= -> -> Hp].
  destruct (node_private_data n') as [[]|], (node_private_data n) as [[]|]; simplify_eq/=;
    split_and!; try done.
Qed.

Section put_node.
Context (k : kernel) (l : loc) (n n' : FsNode).
Context (Hinv : inv k) (Hn : nodes k !! l = Some n) (Hshape : node_shape n' = node_shape n).
Abbreviation k' := (upd_nodes <[l := n']> k).

Lemma put_lookup x m' : nodes k' !! x = Some m' →
  ∃ m, nodes k !! x = Some m ∧ node_shape m' = node_shape m.
Proof. simpl. intros [[<- <-]|[? ?]]%lookup_insert_Some; eauto. Qed.

Lemma put_lookup_old x m : nodes k !! x = Some m →
  ∃ m', nodes k' !! x = Some m' ∧ node_shape m' = node_shape m.
Proof.
  intros Hx. simpl. rewrite lookup_insert. case_decide as Hd; [|by eauto].
  exists n'. split; [done|]. rewrite Hshape. f_equal. congruence.
Qed.

Lemma put_node_view x : node_view k' x = node_view k x.
Proof.
  unfold node_view. simpl. rewrite lookup_insert. case_decide; [|done]. subst. rewrite Hn.
  revert Hshape. unfold node_shape. intros [= -> _ Hp].
  destruct (node_private_data n') as [[]|], (node_private_data n) as [[]|]; simplify_eq/=; done.
Qed.

Lemma put_view_child v name : view_child k' v name = view_child k v name.
Proof.
  destruct v as [x|]; [|done]. unfold view_child. change (mount_fs k') with (mount_fs k). simpl.
  rewrite lookup_insert. case_decide; [|done]. subst. rewrite Hn. simpl. revert Hshape. unfold node_shape, is_directory. intros [= -> -> Hp].
  destruct (mount_fs k _) as [[]|]; [|done..]. simpl.
  destruct (node_private_data n') as [[]|], (node_private_data n) as [[]|]; simplify_eq/=; done.
Qed.

Lemma put_is_dir_at x : is_dir_at k x → is_dir_at k' x.
Proof.
  intros (m & (m' & Hm' & (_ & Hk & _)%node_shape_eq)%put_lookup_old & ?). exists m'. by rewrite Hk.
Qed.

Lemma put_ram_child x s c : ram_child k' x s c → ram_child k x s c.
Proof.
  intros (m' & ch & (m & Hm & (_ & _ & Hd & _)%node_shape_eq)%put_lookup & Hp & ?).
  exists m, ch. by rewrite <- Hd.
Qed.

Lemma dcache_ok_put : dcache_ok k'.
Proof.
  split.
  - intros e de He. destruct (inv_entry _ Hinv _ _ He) as (? & ? & [x Hx] & ?).
    destruct (put_lookup_old _ _ Hx) as (x' & ? & _). eauto 10.
  - apply (inv_entry_inj _ Hinv).
  - intros e de p He Hp. destruct (inv_parent _ Hinv _ _ _ He Hp) as (? & pe & ? & ?).
    eauto using put_is_dir_at.
  - apply (inv_cache _ Hinv).
  - apply (inv_held _ Hinv).
Qed.

Lemma inv_put_node : inv k'.
Proof.
  split; try apply Hinv; [..|by apply dcache_ok_put|].
  - intros x m' (m & Hm & (Hid & _ & _ & _ & Hok)%node_shape_eq)%put_lookup.
    destruct (inv_node _ Hinv _ _ Hm) as (? & fs & ? & ?). split; [done|].
    exists fs. rewrite Hid, Hok. done.
  - intros x m' ch s c (m & Hm & (Hid & _ & Hd & _)%node_shape_eq)%put_lookup Hp Hc.
    apply Hd in Hp. destruct (inv_child _ Hinv _ _ _ _ _ Hm Hp Hc) as (? & cn & Hcn & Hcid).
    split; [done|]. destruct (put_lookup_old _ _ Hcn) as (cn' & ? & (Hid' & _)%node_shape_eq).
    exists cn'. split; [done|]. congruence.
  - intros l1 s1 l2 s2 c H1%put_ram_child H2%put_ram_child. by eapply (inv_child_inj _ Hinv).
  - intros x s c id fs H1%put_ram_child. by eapply (inv_child_root _ Hinv).
  - intros id m Hm. destruct (inv_mount _ Hinv _ _ Hm) as (? & ? & fs & de & x & ? & ? & ? & Hx & ? & ?).
    destruct (put_lookup_old _ _ Hx) as (x' & ? & (Hid & Hk & _)%node_shape_eq).
    split; [done|]. split; [done|]. exists fs, de, x'. rewrite Hid, Hk. done.
  - intros e de p pe He Hp Hpe Hm. rewrite put_view_child, put_node_view.
    by eapply (inv_coherent _ Hinv).
Qed.

Lemma put_walk rp : walk k' rp = walk k rp.
Proof.
  apply walk_congr; [done|apply put_view_child].
Qed.
End put_node.

(** ** Adding a child to a RAM directory *)

Section add_child.
Context (k : kernel) (pl c : loc) (pn cn : FsNode) (ch : gmap string loc) (name : string).
Context (Hinv : inv k) (Hpn : nodes k !! pl = Some pn).
Context (Hch : node_private_data pn = Some (RamDirectoryNode ch)).
Context (Hcn : nodes k !! c = Some cn) (Hid : node_mount_id cn = node_mount_id pn) (Hlt : pl < c).
Context (Hnew : ∀ x s, ¬ ram_child k x s c).
Context (Hroot : ∀ id fs, mount_fs k id = Some fs → c ≠ fsi_root (fs_instance fs)).
Context (Hname : ch !! name = None).
Context (Hfresh : ∀ e de p pe, entries k !! e = Some de → de_parent de = Some p →
  entries k !! p = Some pe → de_node pe = pl → de_name de ≠ name).
Definition add_child_state (k : kernel) (pl c : loc) (pn : FsNode) (ch : gmap string loc)
    (name : string) : kernel :=
  upd_nodes <[pl := set_private_data (RamDirectoryNode (<[name := c]> ch)) pn]> k.
Abbreviation k' := (add_child_state k pl c pn ch name).

Lemma add_lookup_old x m : nodes k !! x = Some m →
  ∃ m', nodes k' !! x = Some m' ∧ node_mount_id m' = node_mount_id m ∧ node_kind m' = node_kind m.
Proof.
  intros Hx. simpl. rewrite lookup_insert. case_decide as Heq; [|by eauto].
  subst x. assert (m = pn) as -> by congruence. eauto.
Qed.

Lemma add_lookup x m' : nodes k' !! x = Some m' →
  (x = pl ∧ m' = set_private_data (RamDirectoryNode (<[name := c]> ch)) pn) ∨
  (x ≠ pl ∧ nodes k !! x = Some m').
Proof. simpl. intros [[<- <-]|[? ?]]%lookup_insert_Some; eauto. Qed.

Lemma add_ram_fs : ∃ i, mount_fs k (node_mount_id pn) = Some (RamFileSystem i).
Proof.
  destruct (inv_node _ Hinv _ _ Hpn) as (_ & fs & Hfs & Hok). unfold node_ok in Hok.
  rewrite Hch in Hok. destruct fs; [by eauto|done].
Qed.

Lemma add_ram_child x s d : ram_child k' x s d →
  (x = pl ∧ s = name ∧ d = c) ∨ ram_child k x s d.
Proof.
  intros (m & ch' & [[-> ->]|[Hx Hm]]%add_lookup & Hp & Hd).
  - simpl in Hp. injection Hp as <-. apply lookup_insert_Some in Hd as [[<- <-]|[? ?]]; [by left|].
    right. exists pn, ch. eauto.
  - right. exists m, ch'. eauto.
Qed.

Lemma add_node_view x : node_view k' x = node_view k x.
Proof.
  unfold node_view. simpl. rewrite lookup_insert. case_decide as Heq; [|done]. subst x.
  by rewrite Hpn, Hch.
Qed.

Lemma add_view_child v s : view_child k' v s =
  if decide (v = VNode pl ∧ s = name) then Some (VNode c) else view_child k v s.
Proof.
  destruct v as [x|]; [|by rewrite decide_False by (by intros [? _])].
  unfold view_child. change (mount_fs k') with (mount_fs k). simpl. rewrite lookup_insert.
  destruct (decide (pl = x)) as [<-|Hne]; simpl.
  - destruct add_ram_fs as [i Hi]. rewrite Hpn. simpl. rewrite Hi, Hch. simpl.
    rewrite lookup_insert. repeat case_decide; naive_solver.
  - by rewrite decide_False by naive_solver.
Qed.

Lemma add_is_dir_at x : is_dir_at k x → is_dir_at k' x.
Proof. intros (m & (m' & ? & _ & Hk)%add_lookup_old & ?). exists m'. by rewrite Hk. Qed.

Lemma dcache_ok_add : dcache_ok k'.
Proof.
  split.
  - intros e de He. destruct (inv_entry _ Hinv _ _ He) as (? & ? & [x Hx] & ?).
    destruct (add_lookup_old _ _ Hx) as (x' & ? & _). eauto 10.
  - apply (inv_entry_inj _ Hinv).
  - intros e de p He Hp. destruct (inv_parent _ Hinv _ _ _ He Hp) as (? & pe & ? & ?).
    eauto using add_is_dir_at.
  - apply (inv_cache _ Hinv).
  - apply (inv_held _ Hinv).
Qed.

Lemma inv_add_child : inv k'.
Proof.
  split; try apply Hinv; [..|by apply dcache_ok_add|].
  - intros x m [[-> ->]|[_ Hm]]%add_lookup; [|by apply (inv_node _ Hinv)].
    destruct (inv_node _ Hinv _ _ Hpn) as (? & fs & ? & Hok). split; [done|].
    exists fs. split; [done|]. unfold node_ok in *. by rewrite Hch in Hok.
  - intros x m ch' s d Hm Hp Hd.
    assert (Hc : ∃ m0, nodes k !! x = Some m0 ∧ node_mount_id m0 = node_mount_id m).
    { apply add_lookup in Hm as [[-> ->]|[_ Hm]]; eauto. }
    destruct Hc as (m0 & Hm0 & Hmid).
    assert (Hc : ram_child k' x s d) by (exists m, ch'; eauto).
    apply add_ram_child in Hc as [(-> & -> & ->)|(m1 & ch1 & Hm1 & Hp1 & Hc1)].
    + split; [done|]. destruct (add_lookup_old _ _ Hcn) as (cn' & ? & Hi & _).
      exists cn'. split; [done|]. congruence.
    + destruct (inv_child _ Hinv _ _ _ _ _ Hm1 Hp1 Hc1) as (? & x' & Hx' & Hi'). split; [done|].
      destruct (add_lookup_old _ _ Hx') as (cn' & ? & Hi & _). exists cn'. split; [done|]. congruence.
  - intros l1 s1 l2 s2 d [(-> & -> & ->)|H1]%add_ram_child [(-> & -> & Hd)|H2]%add_ram_child.
    + done.
    + by destruct (Hnew _ _ H2).
    + subst. by destruct (Hnew _ _ H1).
    + by eapply (inv_child_inj _ Hinv).
  - intros x s d id fs [(-> & -> & ->)|H1]%add_ram_child Hfs; [by eapply Hroot|].
    by eapply (inv_child_root _ Hinv).
  - intros id m Hm. destruct (inv_mount _ Hinv _ _ Hm) as (? & ? & fs & de & x & ? & ? & ? & Hx & ? & ?).
    destruct (add_lookup_old _ _ Hx) as (x' & ? & Hi & Hk).
    split; [done|]. split; [done|]. exists fs, de, x'. rewrite Hi, Hk. done.
  - intros e de p pe He Hp Hpe Hm. rewrite add_view_child, add_node_view.
    rewrite decide_False; [by eapply (inv_coherent _ Hinv)|].
    intros [[= Hl] Hs]. exact (Hfresh _ _ _ _ He Hp Hpe Hl Hs).
Qed.

(** The new name is the only change to the name space. *)
Context (rp : list string).
Context (Hrp : walk k rp = Some (VNode pl)) (Hnone : walk k (name :: rp) = None).
Context (Hleaf : ∀ s, view_child k (VNode c) s = None).
#[local] Arguments view_child : simpl never.

Lemma walk_None_mount : ∀ s q, walk k q = None → mount_at k (s :: q) = None.
Proof.
  intros s q Hq. destruct (mount_at k (s :: q)) as [l|] eqn:Hm; [|done].
  apply mount_at_Some in Hm as (e & de & _ & He & Hr & _); [|done].
  pose proof (walk_entry _ _ _ Hinv He) as Hw. rewrite Hr in Hw. simpl in Hw. by rewrite Hq in Hw.
Qed.

Lemma add_walk q : walk k' q = if decide (q = name :: rp) then Some (VNode c) else walk k q.
Proof.
  induction q as [|s q IH]; [by rewrite decide_False|]. cbn [walk].
  change (mount_at k' (s :: q)) with (mount_at k (s :: q)). rewrite IH.
  destruct (decide (q = name :: rp)) as [->|Hq].
  - rewrite decide_False by (intros [= _ Hl]; apply (f_equal length) in Hl; simpl in Hl; lia).
    rewrite Hnone. simpl. rewrite walk_None_mount by done. rewrite add_view_child.
    case_decide as Hd; [|apply Hleaf]. destruct Hd as [[= ->] _]. lia.
  - destruct (walk k q) as [v|] eqn:Hw; simpl.
    2: { rewrite decide_False; [done|]. intros [= -> ->]. congruence. }
    rewrite add_view_child. destruct (decide (v = VNode pl ∧ s = name)) as [[-> ->]|Hd].
    + assert (q = rp) as -> by (by eapply walk_inj). rewrite decide_True by done.
      destruct (mount_at k (name :: rp)) as [l|] eqn:Hm; [|done].
      cbn [walk] in Hnone. rewrite Hrp in Hnone. simpl in Hnone. by rewrite Hm in Hnone.
    + rewrite decide_False; [done|]. intros [= -> ->]. naive_solver.
Qed.
End add_child.

(** ** Creating a node in a RAM directory *)

(** [create_file] and [create_directory] of [RamFileSystem] differ in the node
    they make. *)
Definition ram_create (kind : FsNodeKind.t) (data : PrivateData) (self parent : loc)
    (name : string) : KM loc :=
  id ← next_node_id self;
  mid ← root_mount_id self;
  node ← alloc_node {|
    node_id := id; node_mount_id := mid; node_kind := kind;
    node_metadata := initial_metadata; node_private_data := Some data |};
  _ ← ram_add_child parent name node;
  mret node.

(** The two nodes they make: an empty file and an empty directory. *)
Definition fresh_data (kind : FsNodeKind.t) (data : PrivateData) : Prop :=
  (kind = FsNodeKind.File ∧ data = RamFileNode []) ∨
  (kind = FsNodeKind.Directory ∧ data = RamDirectoryNode ∅).

Lemma root_mount_id_run k self fs rn : file_systems k !! self = Some fs →
  nodes k !! fsi_root (fs_instance fs) = Some rn →
  root_mount_id self k = (Ok (node_mount_id rn), k).
Proof.
  intros Hfs Hrn. unfold root_mount_id, root_directory.
  rewrite (mbind_run _ _ k (fsi_root (fs_instance fs)) k); [by mstep_with (get_node_run _ _ _ Hrn)|].
  by mstep_with (get_fs_run _ _ _ Hfs).
Qed.

Lemma set_next_root c fs : fsi_root (fs_instance (set_next_node_id c fs)) = fsi_root (fs_instance fs).
Proof. by destruct fs. Qed.

Lemma fresh_loc_not_child k x s : inv k → ¬ ram_child k x s (next_loc k).
Proof.
  intros Hinv (m & ch & Hm & Hp & Hc). destruct (inv_child _ Hinv _ _ _ _ _ Hm Hp Hc) as (_ & cn & Hcn & _).
  by rewrite fresh_node_None in Hcn.
Qed.
Lemma fresh_loc_not_root k id fs : inv k → mount_fs k id = Some fs →
  next_loc k ≠ fsi_root (fs_instance fs).
Proof.
  intros Hinv (m & Hm & Hfs)%bind_Some Heq.
  destruct (inv_mount _ Hinv _ _ Hm) as (_ & _ & fs' & de & n & ? & _ & Hr & Hn & _). simplify_eq.
  by rewrite Hr, <- Heq, fresh_node_None in Hn.
Qed.

(** A name nothing is found under has no live entry. *)
Lemma walk_None_fresh k p pe name : inv k → entries k !! p = Some pe →
  walk k (name :: rpath k p) = None →
  ∀ e de, entries k !! e = Some de → de_parent de = Some p → de_name de ≠ name.
Proof.
  intros Hinv Hpe Hnone e de He Hp <-.
  rewrite <- (rpath_child _ _ _ _ Hinv He Hp), (walk_entry _ _ _ Hinv He) in Hnone. done.
Qed.

(** What creating the node [c] at the path [rp] does to the state. *)
Record created (k k' : kernel) (rp : list string) (kind : FsNodeKind.t) (data : PrivateData)
    (c : loc) : Prop := {
  cr_inv : inv k';
  cr_walk q : walk k' q = if decide (q = rp) then Some (VNode c) else walk k q;
  cr_node : ∃ n, nodes k' !! c = Some n ∧ node_kind n = kind ∧ node_private_data n = Some data ∧
    node_metadata n = initial_metadata;
  cr_new : nodes k !! c = None;
  cr_nodes x n : nodes k !! x = Some n → ∃ n', nodes k' !! x = Some n' ∧
    node_metadata n' = node_metadata n ∧ node_bytes n' = node_bytes n ∧ node_kind n' = node_kind n ∧
    (node_kind n ≠ FsNodeKind.Directory → n' = n);
  cr_back x n' : nodes k' !! x = Some n' → fresh_node n' ∨
    ∃ n, nodes k !! x = Some n ∧ node_metadata n' = node_metadata n ∧ node_bytes n' = node_bytes n;
  cr_files : files k' = files k;
  cr_mounts : mount_table k' = mount_table k;
  cr_counts : mount_count k' = mount_count k ∧ fd_count k' = fd_count k;
}.

(** The node made for a directory whose node is [pn]. *)
Definition made_node (kind : FsNodeKind.t) (data : PrivateData) (nid : Z) (pn : FsNode) : FsNode := {|
  node_id := nid; node_mount_id := node_mount_id pn; node_kind := kind;
  node_metadata := initial_metadata; node_private_data := Some data |}.

Section ram_create.
Context (kind : FsNodeKind.t) (data : PrivateData) (Hfd : fresh_data kind data).
Context (k : kernel) (p : loc) (pe : DirectoryEntry) (pn : FsNode) (name : string).
Context (Hinv : inv k) (Hpe : entries k !! p = Some pe) (Hpn : nodes k !! de_node pe = Some pn).
Context (ch : gmap string loc) (Hch : node_private_data pn = Some (RamDirectoryNode ch)).
Context (Hkind : node_kind pn = FsNodeKind.Directory).
Context (Hnone : walk k (name :: rpath k p) = None).
Context (nid : Z).
Abbreviation n := (made_node kind data nid pn).
Abbreviation k2 := (alloc_state n k).
Abbreviation k' := (add_child_state k2 (de_node pe) (next_loc k) pn ch name).

Lemma create_alloc_inv : inv k2.
Proof.
  destruct (inv_node _ Hinv _ _ Hpn) as (_ & fs & Hfs & Hok).
  apply (inv_alloc_node k n fs); [done..| |].
  - unfold node_ok in *. rewrite Hch in Hok. destruct fs; [|done].
    by destruct Hfd as [[-> ->]|[-> ->]].
  - simpl. destruct Hfd as [[-> ->]|[-> ->]]; [done|]. by intros c [= <-].
Qed.

Lemma create_fresh_node : fresh_node n.
Proof. split; [done|]. unfold node_bytes. simpl. by destruct Hfd as [[-> ->]|[-> ->]]. Qed.

Lemma create_alloc_walk q : walk k2 q = walk k q.
Proof. apply ext_walk; [done|apply create_alloc_inv|]. by eapply (alloc_node_ext n create_fresh_node). Qed.

Lemma create_dir_walk : walk k (rpath k p) = Some (VNode (de_node pe)).
Proof. rewrite (walk_entry _ _ _ Hinv Hpe), dir_node_view; [done..|]. by exists pn. Qed.

Lemma create_no_child : ch !! name = None.
Proof.
  simpl in Hnone. rewrite create_dir_walk in Hnone. simpl in Hnone.
  destruct (mount_at k _); [done|]. rewrite Hpn in Hnone. simpl in Hnone.
  destruct (add_ram_fs _ _ _ _ Hinv Hpn Hch) as [i Hi]. rewrite Hi, Hch in Hnone. simpl in Hnone.
  by destruct (ch !! name).
Qed.

Lemma create_leaf s : view_child k2 (VNode (next_loc k)) s = None.
Proof.
  simpl. rewrite lookup_insert_eq. simpl.
  destruct (add_ram_fs _ _ _ _ Hinv Hpn Hch) as [i Hi].
  change (mount_fs k2) with (mount_fs k). rewrite Hi. simpl.
  by destruct Hfd as [[-> ->]|[-> ->]].
Qed.

Lemma create_lt : de_node pe < next_loc k.
Proof. by destruct (inv_node _ Hinv _ _ Hpn). Qed.

Lemma create_parent : nodes k2 !! de_node pe = Some pn.
Proof. by apply alloc_lookup_old. Qed.

Lemma create_not_child x s : ¬ ram_child k2 x s (next_loc k).
Proof.
  intros Hc%(alloc_ram_child n k); [by eapply fresh_loc_not_child|done|].
  simpl. destruct Hfd as [[-> ->]|[-> ->]]; [done|]. by intros c [= <-].
Qed.

Lemma create_not_root id fs : mount_fs k2 id = Some fs → next_loc k ≠ fsi_root (fs_instance fs).
Proof. intros Hfs. by apply (fresh_loc_not_root k id). Qed.

Lemma create_lookup : nodes k2 !! next_loc k = Some n.
Proof. apply lookup_insert_eq. Qed.

Lemma create_fresh e de q qe : entries k2 !! e = Some de → de_parent de = Some q →
  entries k2 !! q = Some qe → de_node qe = de_node pe → de_name de ≠ name.
Proof.
  intros He Hp Hqe Heq. eapply (walk_None_fresh k p); try done.
  assert (q = p) as ->; [|done]. eapply (entry_node_inj k); [done..|].
  rewrite Heq. by exists pn.
Qed.

Lemma create_inv : inv k'.
Proof.
  apply (inv_add_child k2 _ _ pn n ch); eauto using create_alloc_inv, create_parent, create_lt,
    create_not_child, create_not_root, create_lookup, create_no_child, create_fresh.
Qed.

Lemma create_walk q : walk k' q =
  if decide (q = name :: rpath k p) then Some (VNode (next_loc k)) else walk k q.
Proof.
  rewrite <- create_alloc_walk. apply (add_walk k2 _ _ pn n ch);
    rewrite ?create_alloc_walk; eauto using create_alloc_inv, create_parent, create_lt,
    create_not_child, create_not_root, create_lookup, create_no_child, create_fresh, create_leaf,
    create_dir_walk.
Qed.

Lemma create_created : created k k' (name :: rpath k p) kind data (next_loc k).
Proof.
  assert (Hne : de_node pe ≠ next_loc k) by (pose proof create_lt; lia).
  split; try done; [apply create_inv|apply create_walk|..].
  - exists n. split_and!; try done. simpl. rewrite lookup_insert_ne by done. apply lookup_insert_eq.
  - by apply fresh_node_None.
  - intros x m Hm. simpl. rewrite lookup_insert. case_decide as Hd.
    + subst x. simplify_eq. eexists. split; [done|]. split_and!; [done| |done|by intros []].
      unfold node_bytes. simpl. by rewrite Hch.
    + rewrite lookup_insert_ne; [by eauto 10|]. intros <-. by rewrite fresh_node_None in Hm.
  - intros x m. simpl. rewrite !lookup_insert. case_decide as Hd.
    + intros [= <-]. right. exists pn. subst x. split_and!; [done..|]. unfold node_bytes. simpl. by rewrite Hch.
    + case_decide; [intros [= <-]; left; apply create_fresh_node|]. eauto.
Qed.
End ram_create.

Lemma ram_create_run kind data k p pe pn m i ch name r k' : inv k →
  entries k !! p = Some pe → nodes k !! de_node pe = Some pn →
  node_private_data pn = Some (RamDirectoryNode ch) →
  mount_table k !! node_mount_id pn = Some m →
  file_systems k !! mount_file_system m = Some (RamFileSystem i) →
  ram_create kind data (mount_file_system m) p name k = (r, k') →
  r = Panic ArithOverflow ∨
  ∃ k1 nid, inv k1 ∧ ext k k1 ∧ nodes k1 = nodes k ∧ entries k1 = entries k ∧ held k1 = held k ∧
    r = Ok (next_loc k1) ∧
    k' = add_child_state (alloc_state (made_node kind data nid pn) k1) (de_node pe) (next_loc k1)
           pn ch name.
Proof.
  intros Hinv Hpe Hpn Hch Hm Hfs Hrun. unfold ram_create in Hrun.
  minv Hrun as nid s1 Hnid; destruct (next_node_id_cases _ _ _ _ _ Hfs Hnid)
    as [[Hr Hk]|(nid' & cell & Hr & Hk)]; simplify_eq; [right|by left].
  set (k1 := upd_file_systems _ k) in *. exists k1, nid'.
  assert (Hinv1 : inv k1) by (by apply inv_next_node_id).
  assert (Hext1 : ext k k1) by (by eapply next_node_id_ext).
  split_and!; [done..| |].
  all: destruct (inv_mount _ Hinv _ _ Hm) as (_ & _ & fs' & rde & rn & Hfs' & _ & Hroot & Hrn & Hrid & _);
    simplify_eq; rewrite Hroot in Hrn;
    mstep (root_mount_id_run k1 _ (set_next_node_id cell (RamFileSystem i)) rn
      ltac:(by apply lookup_insert_eq) Hrn) in Hrun;
    rewrite Hrid in Hrun; minv Hrun as c s2 Hc; apply alloc_node_run in Hc as [? ?]; simplify_eq;
    change (upd_nodes _ _) with (alloc_state (made_node kind data nid' pn) k1) in Hrun;
    set (k2 := alloc_state _ k1) in *;
    assert (Hpn2 : nodes k2 !! de_node pe = Some pn) by (by apply alloc_lookup_old);
    (rewrite (mbind_run _ _ k2 tt (add_child_state k2 (de_node pe) (next_loc k1) pn ch name)) in Hrun;
     [munfold Hrun; by simplify_eq|]);
    unfold ram_add_child; mstep_with (entry_node_loc_run k2 _ _ Hpe);
    mstep_with (get_node_run _ _ _ Hpn2); unfold data_as_RamDirectoryNode; by rewrite Hch.
Qed.

(** [created] is stable under the state changes of resolution. *)
Lemma created_ext_l k k1 k' rp kind data c : inv k → inv k1 → ext k k1 →
  created k1 k' rp kind data c → created k k' rp kind data c.
Proof.
  intros Hinv Hinv1 Hext [? Hw Hn Hnew Hns Hnb Hf Hm Hc]. split; try done.
  - intros q. by rewrite Hw, (ext_walk k k1).
  - destruct (nodes k !! c) as [n|] eqn:Hk; [|done]. apply (ext_node k k1) in Hk; [|done..]. congruence.
  - intros x n Hx. apply (ext_node k k1) in Hx; [|done..]. auto.
  - intros x n' Hx. destruct (Hnb _ _ Hx) as [?|(n & Hn' & Hmd & Hby)]; [by left|].
    destruct (ext_new_nodes _ _ Hext _ _ Hn') as [|[? ?]]; [right|left; split; congruence]. eauto.
  - by rewrite Hf, (ext_files _ _ Hext).
  - by rewrite Hm, (ext_mounts _ _ Hext).
  - by rewrite <- (ext_mount_count _ _ Hext), <- (ext_fd_count _ _ Hext).
Qed.

Lemma created_ext_r k k1 k' rp kind data c : inv k' → ext k1 k' →
  created k k1 rp kind data c → created k k' rp kind data c.
Proof.
  intros Hinv' Hext [? Hw Hn Hnew Hns Hnb Hf Hm Hc]. split; try done.
  - intros q. rewrite <- Hw. by apply ext_walk.
  - destruct Hn as (n & Hn & ?). exists n. split; [|done]. by apply (ext_node k1).
  - intros x n Hx. destruct (Hns _ _ Hx) as (n' & Hn' & ?). exists n'. split; [|done]. by apply (ext_node k1).
  - intros x n' Hx. destruct (ext_new_nodes _ _ Hext _ _ Hx); auto.
  - by rewrite (ext_files _ _ Hext).
  - by rewrite (ext_mounts _ _ Hext).
  - by rewrite (ext_mount_count _ _ Hext), (ext_fd_count _ _ Hext).
Qed.

(** The code [open] and [create_directory] share: create in the parent's file
    system, then enter the new node into the cache. *)
Definition create_op (kind : FsNodeKind.t) (ops : DirectoryOperations) : loc → string → KM loc :=
  if decide (kind = FsNodeKind.Directory) then op_create_directory ops else op_create_file ops.
Definition create_in (kind : FsNodeKind.t) (pn : loc * string) : KM loc :=
  n ← entry_node pn.1;
  fs ← node_file_system n;
  ops ← directory_operations fs;
  node ← create_op kind ops pn.1 pn.2;
  cache_insert (Some pn.1) node pn.2.

Lemma create_op_ram kind data self : fresh_data kind data →
  create_op kind (ram_directory_operations self) = ram_create kind data self.
Proof. by intros [[-> ->]|[-> ->]]. Qed.

(** Entering the created node into the cache. *)
Lemma created_enter kind data k k2 p pe name c : fresh_data kind data → inv k →
  created k k2 (name :: rpath k p) kind data c → entries k2 = entries k → entries k !! p = Some pe →
  is_dir_at k (de_node pe) → walk k (name :: rpath k p) = None →
  let k' := insert_state (Some p) c name k2 in no_wrap k' →
  created k k' (name :: rpath k p) kind data c ∧ entries k' !! next_loc k2 = Some (new_entry (Some p) c name k2) ∧
  rpath k' (next_loc k2) = name :: rpath k p.
Proof.
  intros Hfd Hinv Hcr Hents Hpe Hdir Hnone k' Hwrap.
  assert (Hinv2 : inv k2) by apply Hcr. assert (Hpe2 : entries k2 !! p = Some pe) by (by rewrite Hents).
  assert (Hrp : ∀ x, rpath k2 x = rpath k x) by (intros x; unfold rpath; by rewrite Hents).
  assert (Hdir2 : is_dir_at k2 (de_node pe)).
  { destruct Hdir as (n & Hn & Hk). destruct (cr_nodes _ _ _ _ _ _ Hcr (de_node pe) n) as (n' & ? & _ & _ & ? & _);
      [done|exists n'; split; congruence]. }
  destruct (cr_node _ _ _ _ _ _ Hcr) as (n & Hn & _ & Hd & _).
  assert (Hview : node_view k2 c = VNode c).
  { unfold node_view. rewrite Hn, Hd. by destruct Hfd as [[-> ->]|[-> ->]]. }
  pose proof (walk_None_fresh _ _ _ _ Hinv Hpe Hnone) as Hfresh. rewrite <- Hents in Hfresh.
  assert (Hvc : view_child k2 (VNode (de_node pe)) name = Some (VNode c)).
  { pose proof (cr_walk _ _ _ _ _ _ Hcr (name :: rpath k p)) as Hw. rewrite decide_True in Hw by done.
    rewrite <- Hrp in Hw. cbn [walk] in Hw. rewrite (walk_entry _ _ _ Hinv2 Hpe2), dir_node_view in Hw by done.
    simpl mbind in Hw. destruct (mount_at k2 _) as [l|] eqn:Hm; [|done].
    apply mount_at_Some in Hm as (e & de & _ & He & Hr & _); [|done].
    rewrite Hents in He. pose proof (walk_entry _ _ _ Hinv He) as He'.
    rewrite <- Hrp, Hr, Hrp, Hnone in He'. done. }
  assert (Hinv' : inv k').
  { apply (inv_insert_child k2 p pe); eauto. by rewrite Hvc, Hview. }
  assert (Hpar : ∀ q, Some p = Some q → ∃ pe, entries k2 !! q = Some pe ∧ is_dir_at k2 (de_node pe))
    by (intros q [= <-]; eauto).
  pose proof (insert_lookup_new k2 (Some p) c name (inv_dcache _ Hinv2) Hpar) as He.
  destruct (insert_lookup_old k2 (Some p) c name (inv_dcache _ Hinv2) Hpar _ _ Hpe2) as (pe' & Hpe' & _).
  split_and!; [by apply (created_ext_r k k2); [|apply insert_state_ext|]|done|].
  rewrite (rpath_child k' _ _ p Hinv' He eq_refl). f_equal. rewrite <- Hrp.
  apply ext_rpath; eauto. apply insert_state_ext.
Qed.

(** Whether a directory is on a RAM file system, the only kind that creates. *)
Definition on_ram (k : kernel) (v : view) : bool :=
  match v with
  | VNode l =>
      match n ← nodes k !! l; mount_fs k (node_mount_id n) with
      | Some (RamFileSystem _) => true
      | _ => false
      end
  | VDev _ _ => false
  end.

Lemma ext_on_ram k k' rp v : inv k → ext k k' → walk k rp = Some v → on_ram k' v = on_ram k v.
Proof.
  intros Hinv Hext Hw. destruct v as [l|]; [|done]. simpl.
  destruct (walk_node _ _ _ Hinv Hw) as [n Hn]. rewrite (ext_node _ _ _ _ Hinv Hext Hn), Hn. simpl.
  pose proof (ext_mount_fs _ _ (node_mount_id n) Hext) as Hfs.
  by destruct (mount_fs k' _) as [[]|], (mount_fs k _) as [[]|].
Qed.

Lemma create_in_spec kind data k p pe name r k' : fresh_data kind data → inv k →
  entries k !! p = Some pe → is_dir_at k (de_node pe) → walk k (name :: rpath k p) = None →
  create_in kind (p, name) k = (r, k') → no_wrap k' →
  (r = Err OperationNotSupported ∧ k' = k ∧ on_ram k (VNode (de_node pe)) = false) ∨
  r = Panic ArithOverflow ∨
  ∃ e c de, r = Ok e ∧ on_ram k (VNode (de_node pe)) = true ∧ created k k' (name :: rpath k p) kind data c ∧ held k' = e :: held k ∧
    entries k' !! e = Some de ∧ de_node de = c ∧ rpath k' e = name :: rpath k p.
Proof.
  intros Hfd Hinv Hpe (pn & Hpn & Hkind) Hnone Hrun Hwrap. unfold create_in in Hrun. cbn [fst snd] in Hrun.
  destruct (node_mount _ _ _ Hinv Hpn) as (m & fs & Hm & Hfs & Hmfs & Hok).
  mstep (entry_node_run _ _ _ _ Hpe Hpn) in Hrun.
  mstep (node_file_system_run _ _ _ (inv_ready _ Hinv) Hm) in Hrun.
  mstep (directory_operations_run _ _ _ Hfs) in Hrun. destruct fs as [i|i].
  all: simpl; rewrite Hpn; simpl; rewrite Hmfs.
  2: { left. munfold Hrun. unfold create_op in Hrun. case_decide; by simplify_eq/=. }
  right. rewrite (create_op_ram _ _ _ Hfd) in Hrun. unfold node_ok in Hok.
  destruct (node_private_data pn) as [[|ch|]|] eqn:Hch; try (done || congruence).
  minv Hrun as c s1 Hcr; (destruct (ram_create_run _ _ _ _ _ _ _ _ _ _ _ _ Hinv Hpe Hpn Hch Hm Hfs Hcr)
    as [?|(k1 & nid & Hinv1 & Hext1 & Hns & Hes & Hhs & ? & ?)]; simplify_eq; try by left). right.
  set (k2 := add_child_state _ _ _ _ _ _) in *.
  assert (Hpe1 : entries k1 !! p = Some pe) by (by rewrite Hes).
  assert (Hr1 : rpath k1 p = rpath k p) by (apply ext_rpath; eauto).
  assert (Hnone1 : walk k1 (name :: rpath k1 p) = None) by (by rewrite Hr1, (ext_walk k k1)).
  assert (Hpn1 : nodes k1 !! de_node pe = Some pn) by (by rewrite Hns).
  pose proof (create_created _ _ Hfd k1 p pe pn name Hinv1 Hpe1 Hpn1 ch Hch Hkind Hnone1 nid) as Hcr1.
  assert (Hinv2 : inv k2) by apply Hcr1. assert (Hpe2 : entries k2 !! p = Some pe) by done.
  pose proof (walk_None_fresh _ _ _ _ Hinv1 Hpe1 Hnone1) as Hfresh.
  apply (cache_insert_child_run _ _ _ _ _ _ _ (inv_dcache _ Hinv2) Hpe2 Hfresh) in Hrun as [-> ->].
  destruct (created_enter _ _ _ k2 _ _ _ _ Hfd Hinv1 Hcr1 eq_refl Hpe1 ltac:(by exists pn) Hnone1 Hwrap)
    as (Hcr2 & He & Hr). rewrite Hr1 in Hr, Hcr2.
  eexists _, (next_loc k1), _. split_and!; [done|done| |simpl; by rewrite Hhs|done..].
  apply (created_ext_l k k1); eauto.
Qed.
