(* ===== verification/VfsDirs.v ===== *)
(** * Creating directories and files by path

    [create_directory] and the creating half of [open] against a reference on
    the name space: which error they give, and that on success exactly one
    name is added. *)

From Stdlib Require Import Init.Byte.
From S2P Require Import Prelude Util FsTypes Fs Registry RamFs DevFs DirCache Path Vfs.
From S2P Require Import VfsFrame VfsInv VfsLookup VfsWalk VfsResolve VfsCreate.

(** ** Counters only grow *)

Definition counts_le (k k' : kernel) : Prop :=
  (entry_count k ≤ entry_count k' ∧ mount_count k ≤ mount_count k' ∧ fd_count k ≤ fd_count k')%Z.

#[export] Instance counts_le_preorder : PreOrder counts_le.
Proof. split; [intros k; unfold counts_le; lia|intros ???; unfold counts_le; lia]. Qed.

Lemma counts_le_no_wrap k k' : counts_le k k' → no_wrap k' → no_wrap k.
Proof. unfold counts_le, no_wrap. lia. Qed.

Lemma ext_counts_le k k' : ext k k' → counts_le k k'.
Proof. intros []. unfold counts_le. lia. Qed.

(** Code that respects [ext] respects [counts_le]. *)
Lemma respects_ext_counts {A} (m : KM A) : Respects ext m → Respects counts_le m.
Proof. intros Hm k r k' Hrun. by eapply ext_counts_le, Hm. Qed.

#[export] Instance resolve_path_counts path : Respects counts_le (resolve_path path).
Proof. apply respects_ext_counts, _. Qed.
#[export] Instance resolve_parent_counts path : Respects counts_le (resolve_path_parent_directory path).
Proof. apply respects_ext_counts, _. Qed.
#[export] Instance cache_insert_counts p n s : Respects counts_le (cache_insert p n s).
Proof. apply respects_ext_counts, _. Qed.
#[export] Instance put_node_counts l n : Respects counts_le (put_node l n).
Proof. apply respects_modify. intros k. unfold counts_le; simpl; lia. Qed.
#[export] Instance alloc_node_counts n : Respects counts_le (alloc_node n).
Proof. intros k r k' [-> ->]%alloc_node_run. unfold counts_le; simpl; lia. Qed.
#[export] Instance next_node_id_counts self : Respects counts_le (next_node_id self).
Proof. apply respects_ext_counts, _. Qed.
#[export] Instance ram_add_child_counts p s n : Respects counts_le (ram_add_child p s n).
Proof. unfold ram_add_child. apply _. Qed.

#[export] Instance create_in_counts kind pn : Respects counts_le (create_in kind pn).
Proof.
  unfold create_in. do 2 (apply respects_bind; [apply _..|]; intros ?).
  apply (with_directory_ops counts_le); intros l; apply respects_bind; [apply _| |apply _|apply _| |apply _];
    unfold create_op, ram_directory_operations, dev_directory_operations, ram_create_file,
      ram_create_directory, default_create_file, default_create_directory; simpl; case_decide; apply _.
Qed.

(** ** The references are stable under resolution *)

Section stable.
Context (k k' : kernel) (Hinv : inv k) (Hinv' : inv k') (Hext : ext k k').

Lemma ext_path_segments path : path_segments k' path = path_segments k path.
Proof. unfold path_segments. by rewrite (ext_walk k k'). Qed.

Lemma ext_ref_resolve_path path : ref_resolve_path k' path = ref_resolve_path k path.
Proof.
  unfold ref_resolve_path. rewrite ext_path_segments. destruct (path_segments k path); [|done..].
  by apply ext_ref_resolve.
Qed.

Lemma ext_ref_parent_path path : ref_parent_path k' path = ref_parent_path k path.
Proof.
  unfold ref_parent_path. rewrite ext_path_segments. destruct (path_segments k path) as [[]| |]; [done| |done..].
  by apply ext_ref_parent.
Qed.
End stable.

(** ** The reference for creation *)

(** Where a new node for [path] goes: the directory and the name in it. *)
Definition ref_create (k : kernel) (path : string) : outcome IoError (list string) :=
  match ref_parent_path k path with
  | Panic p => Panic p
  | Err e => Err e
  | Ok (rp, name) =>
      if from_option (on_ram k) false (walk k rp) then Ok (name :: rp) else Err OperationNotSupported
  end.

Lemma ext_ref_create k k' path : inv k → inv k' → ext k k' → ref_create k' path = ref_create k path.
Proof.
  intros Hinv Hinv' Hext. unfold ref_create. rewrite (ext_ref_parent_path k k') by done.
  destruct (ref_parent_path k path) as [[rp name]| |]; [|done..]. rewrite (ext_walk k k') by done.
  destruct (walk k rp) as [v|] eqn:Hw; [|done]. simpl. by rewrite (ext_on_ram k k' rp).
Qed.

(** A path that resolves to nothing has nothing under its last name. *)
Lemma ref_parent_None k segs : ∀ cur rp name,
  ref_parent k cur segs = Ok (rp, name) → ref_resolve k cur segs = Ok None → walk k (name :: rp) = None.
Proof.
  induction segs as [|s segs IH]; intros cur rp name Hp Hr; [done|].
  cbn [ref_parent ref_resolve] in *. destruct (negb _); [done|].
  do 2 (case_decide; [done|]). destruct segs as [|s' segs].
  - simplify_eq. by destruct (walk k (name :: rp)).
  - destruct (walk k (s :: cur)) as [v|]; [|done]. destruct (negb _); [done|]. by eapply IH.
Qed.

Lemma ref_parent_path_None k path rp name :
  ref_parent_path k path = Ok (rp, name) → ref_resolve_path k path = Ok None →
  walk k (name :: rp) = None.
Proof.
  unfold ref_parent_path, ref_resolve_path. destruct (path_segments k path) as [segs| |]; [|done..].
  destruct segs; [done|]. apply ref_parent_None.
Qed.

(** ** Code that starts by resolving a path *)

Lemma resolve_then {A} path (f : option loc → KM A) k r k2 : inv k →
  (∀ o, Respects counts_le (f o)) → (resolve_path path ≫= f) k = (r, k2) → no_wrap k2 →
  (∃ q, r = Panic q ∧ (q = ArithOverflow ∨ ref_resolve_path k path = Panic q)) ∨
  (∃ e, r = Err e ∧ inv k2 ∧ ext k k2 ∧ held k2 = held k ∧ ref_resolve_path k path = Err e) ∨
  (∃ k1 o, f o k1 = (r, k2) ∧ inv k1 ∧ ext k k1 ∧ held k1 = option_list o ++ held k ∧
    ref_resolve_path k path = Ok (rpath k1 <$> o)).
Proof.
  intros Hinv Hf Hrun Hwrap. minv Hrun as o k1 Hres;
    pose proof (resolve_path_ext _ _ _ _ Hres) as Hext.
  - assert (Hwrap1 : no_wrap k1) by (eapply counts_le_no_wrap; [by eapply Hf|done]).
    pose proof (resolve_path_spec _ _ _ _ Hinv Hres Hwrap1) as Hspec.
    right; right. exists k1, o. destruct o; destruct Hspec as (? & ? & ?); done.
  - pose proof (resolve_path_spec _ _ _ _ Hinv Hres Hwrap) as (? & ? & ?). right; left. eauto 10.
  - pose proof (resolve_path_spec _ _ _ _ Hinv Hres Hwrap) as Hspec. left. eauto.
Qed.

(** Resolving the parent of a path known to name nothing. *)
Lemma parent_then {A} path (f : loc * string → KM A) k r k2 : inv k →
  ref_resolve_path k path = Ok None →
  (∀ pn, Respects counts_le (f pn)) → (resolve_path_parent_directory path ≫= f) k = (r, k2) →
  no_wrap k2 →
  (∃ q, r = Panic q ∧ (q = ArithOverflow ∨ ref_parent_path k path = Panic q)) ∨
  (∃ e, r = Err e ∧ inv k2 ∧ ext k k2 ∧ held k2 = held k ∧ ref_parent_path k path = Err e) ∨
  (∃ k1 p pe name, f (p, name) k1 = (r, k2) ∧ inv k1 ∧ ext k k1 ∧ held k1 = p :: held k ∧
    entries k1 !! p = Some pe ∧ is_dir_at k1 (de_node pe) ∧ walk k1 (name :: rpath k1 p) = None ∧
    ref_parent_path k path = Ok (rpath k1 p, name)).
Proof.
  intros Hinv Hnone Hf Hrun Hwrap. minv Hrun as pn k1 Hres;
    pose proof (resolve_path_parent_directory_ext _ _ _ _ Hres) as Hext.
  - assert (Hwrap1 : no_wrap k1) by (eapply counts_le_no_wrap; [by eapply Hf|done]).
    pose proof (resolve_path_parent_directory_spec _ _ _ _ Hinv Hres Hwrap1) as Hspec.
    destruct pn as [p name]. destruct Hspec as (Hinv1 & Hh & (pe & Hpe & Hdir) & Href).
    right; right. exists k1, p, pe, name. split_and!; try done.
    eapply ref_parent_path_None; [by rewrite (ext_ref_parent_path k k1)|].
    by rewrite (ext_ref_resolve_path k k1).
  - pose proof (resolve_path_parent_directory_spec _ _ _ _ Hinv Hres Hwrap) as (? & ? & ?).
    right; left. eauto 10.
  - pose proof (resolve_path_parent_directory_spec _ _ _ _ Hinv Hres Hwrap) as Hspec. left. eauto.
Qed.

(** ** Creation by path *)

Definition create_path (kind : FsNodeKind.t) (path : string) : KM loc :=
  pn ← resolve_path_parent_directory path; create_in kind pn.

Lemma create_path_spec kind data path k r k' : fresh_data kind data → inv k →
  ref_resolve_path k path = Ok None → create_path kind path k = (r, k') → no_wrap k' →
  match r with
  | Panic p => p = ArithOverflow ∨ ref_create k path = Panic p
  | Err e => inv k' ∧ ext k k' ∧ (∃ hs, held k' = hs ++ held k) ∧ ref_create k path = Err e
  | Ok e => ∃ rp c de p, created k k' rp kind data c ∧ held k' = [e; p] ++ held k ∧
      entries k' !! e = Some de ∧ de_node de = c ∧ rpath k' e = rp ∧ ref_create k path = Ok rp
  end.
Proof.
  intros Hfd Hinv Hnone Hrun Hwrap. unfold create_path in Hrun. unfold ref_create.
  apply parent_then in Hrun as [(q & -> & [-> | ->])|[(e & -> & ? & ? & Hh & ->)|(k1 & p & pe & name & Hrun & Hinv1
    & Hext & Hh1 & Hpe & Hdir & Hnone1 & Href)]]; [by left|by right| | |done|done|apply _|done].
  { split_and!; try done. by exists []. }
  assert (Hon : from_option (on_ram k) false (walk k (rpath k1 p)) = on_ram k1 (VNode (de_node pe))).
  { pose proof (walk_entry _ _ _ Hinv1 Hpe) as Hw. rewrite dir_node_view in Hw by done.
    rewrite (ext_walk k k1) in Hw by done. rewrite Hw. symmetry. by apply (ext_on_ram k k1 (rpath k1 p)). }
  rewrite Href, Hon.
  destruct (create_in_spec _ _ _ _ _ _ _ _ Hfd Hinv1 Hpe Hdir Hnone1 Hrun Hwrap)
    as [(-> & -> & ->)|[->|(e & c & de & -> & -> & Hcr & Hh & He & Hc & Hr)]]; [|by left|].
  - split_and!; try done. exists [p]. done.
  - exists (name :: rpath k1 p), c, de, p. split_and!; try done; [|by rewrite Hh, Hh1].
    by apply (created_ext_l k k1).
Qed.

(** ** [create_directory] *)

Lemma create_directory_unfold path k : create_directory path k =
  scoped (λ e, [e]) (
    o ← resolve_path path;
    match o with
    | Some _ => fail AlreadyExists
    | None => create_path FsNodeKind.Directory path
    end) k.
Proof. done. Qed.

(** Leaving a scope with [keep]: what is reachable from it stays. *)
Lemma leave_scope k k2 keep : inv k2 → (∀ h, h ∈ keep ++ held k → is_Some (entries k2 !! h)) →
  let k' := gc (set_held (keep ++ held k) k2) in
  inv k' ∧ ext k2 k' ∧ (∀ h de, h ∈ keep → entries k2 !! h = Some de →
    entries k' !! h = Some de ∧ rpath k' h = rpath k2 h).
Proof.
  intros Hinv Hl k'. assert (Hinv' : inv k') by (by apply inv_gc_held).
  split_and!; [done|apply ext_gc_held|]. intros h de Hh Hde.
  assert (entries k' !! h = Some de).
  { apply gc_entries. split; [done|]. apply reachable_root, elem_of_app. left. simpl.
    apply elem_of_app. by left. }
  split; [done|]. apply ext_rpath; eauto. apply ext_gc_held.
Qed.

Lemma held_sub k k2 hs keep : inv k2 → held k2 = hs ++ held k → (∀ h, h ∈ keep → h ∈ hs) →
  ∀ h, h ∈ keep ++ held k → is_Some (entries k2 !! h).
Proof.
  intros Hinv Hh Hk h [Hin|Hin]%elem_of_app; apply (inv_held _ Hinv); rewrite Hh; apply elem_of_app; auto.
Qed.

Lemma leave_scope_none k k2 hs : inv k2 → held k2 = hs ++ held k →
  inv (gc (set_held (held k) k2)).
Proof. intros Hinv Hh. apply (leave_scope k k2 [] Hinv). by eapply held_sub; [..|intros ? ?%not_elem_of_nil]. Qed.

(** The reference for [create_directory]: the path of the new directory. *)
Definition ref_create_directory (k : kernel) (path : string) : outcome IoError (list string) :=
  match ref_resolve_path k path with
  | Panic p => Panic p
  | Err e => Err e
  | Ok (Some _) => Err AlreadyExists
  | Ok None => ref_create k path
  end.

#[export] Instance create_path_counts kind path : Respects counts_le (create_path kind path).
Proof. unfold create_path. apply _. Qed.

Lemma create_directory_spec path k r k' : inv k → create_directory path k = (r, k') → no_wrap k' →
  match r with
  | Panic p => p = ArithOverflow ∨ ref_create_directory k path = Panic p
  | Err e => inv k' ∧ ext k k' ∧ held k' = held k ∧ ref_create_directory k path = Err e
  | Ok e => ∃ rp c de, ref_create_directory k path = Ok rp ∧
      created k k' rp FsNodeKind.Directory (RamDirectoryNode ∅) c ∧ held k' = e :: held k ∧
      entries k' !! e = Some de ∧ de_node de = c ∧ rpath k' e = rp
  end.
Proof.
  intros Hinv Hrun Hwrap. rewrite create_directory_unfold in Hrun.
  apply scoped_run in Hrun as (k2 & Hrun & Hk'). pose proof (no_wrap_leave _ _ _ _ _ Hk' Hwrap) as Hwrap2.
  unfold ref_create_directory.
  apply resolve_then in Hrun as [(q & -> & [-> | ->])|[(e & -> & ? & ? & Hh & ->)|(k1 & o & Hrun & Hinv1 & Hext1 & Hh1 & Href0)]];
    [by left|by right| | |done|intros []; apply _|done].
  { subst k'. split_and!; try done; [by apply (leave_scope_none k k2 [])|]. etrans; [done|apply ext_gc_held]. }
  rewrite Href0. destruct o as [e|]; simpl in *.
  { munfold Hrun. simplify_eq. split_and!; try done; [by apply (leave_scope_none k k2 [e])|].
    etrans; [done|apply ext_gc_held]. }
  assert (Href1 : ref_resolve_path k1 path = Ok None) by (by rewrite (ext_ref_resolve_path k k1)).
  pose proof (create_path_spec _ (RamDirectoryNode ∅) _ _ _ _ ltac:(by right) Hinv1 Href1 Hrun Hwrap2) as Hspec.
  rewrite (ext_ref_create k k1) in Hspec by done. destruct r as [e|e|q]; [| |done].
  - destruct Hspec as (rp & c & de & p & Hcr & Hh & He & Hc & Hr & Href). subst k'.
    destruct (leave_scope k k2 [e]) as (Hinv' & Hext' & Hkeep); [apply Hcr|..].
    { eapply (held_sub k k2 [e; p]); [apply Hcr|by rewrite Hh, Hh1|]. intros h ->%list_elem_of_singleton. left. }
    destruct (Hkeep e de) as [He' Hr']; [left|done|].
    exists rp, c, de. split_and!; try done; [|by rewrite <- Hr].
    apply (created_ext_r k k2); [done..|]. by apply (created_ext_l k k1).
  - destruct Hspec as (Hinv2 & Hext2 & (hs & Hh) & Href). subst k'.
    split_and!; try done; [apply (leave_scope_none k k2 hs); [done|by rewrite Hh, Hh1]|].
    etrans; [exact Hext1|]. etrans; [exact Hext2|apply ext_gc_held].
Qed.

(** The path a directory is created at is free. *)
Lemma ref_create_directory_None k path rp : ref_create_directory k path = Ok rp → walk k rp = None.
Proof.
  unfold ref_create_directory, ref_create.
  destruct (ref_resolve_path k path) as [[]| |] eqn:Hr; [done| |done..].
  destruct (ref_parent_path k path) as [[q name]| |] eqn:Hp; [|done..].
  destruct (from_option _ _ _); [|done]. intros [= <-]. by apply (ref_parent_path_None k path).
Qed.
