(* ===== verification/VfsMount.v ===== *)
(** * Mounting

    [mount] makes a file system instance, enters its root directory into the
    cache, and adds the mount to the table.  Between these steps the invariant
    does not hold (the new node's mount is not in the table yet), so the three
    steps are taken as one.  The name space gains the tree of the new instance
    at the target and keeps everything else. *)

From Stdlib Require Import Init.Byte.
From S2P Require Import Prelude Util FsTypes Fs Registry RamFs DevFs DirCache Path Vfs.
From S2P Require Import VfsFrame VfsInv VfsLookup VfsWalk VfsResolve VfsCreate VfsDirs.

(** ** The state after each step *)

Definition instance_root (ty : FileSystemType) (id : Z) : FsNode := {|
  node_id := 0; node_mount_id := id; node_kind := FsNodeKind.Directory;
  node_metadata := initial_metadata;
  node_private_data :=
    match ty with
    | RamFileSystemType => Some (RamDirectoryNode ∅)
    | DevFileSystemType => None
    end |}.
Definition instance_of (ty : FileSystemType) (flags : Z) (root : loc) : FileSystem :=
  let i := {|
    fsi_metadata := {| fsm_device := None; fsm_mount_flags := flags; fsm_block_size := 512;
      fsm_max_file_size := u64_max; fsm_file_system_type := ty |};
    fsi_next_node_id := SynCell.new 1%Z;
    fsi_root := root |} in
  match ty with
  | RamFileSystemType => RamFileSystem i
  | DevFileSystemType => DevFileSystem i
  end.

(** After [ty.mount]: the root is at [next_loc k], the instance after it. *)
Definition instance_state (ty : FileSystemType) (flags : Z) (k : kernel) : kernel :=
  let r := next_loc k in
  upd_file_systems <[S r := instance_of ty flags r]> (set_next_loc (S (S r))
    (upd_nodes <[r := instance_root ty (wrap64 (mount_count k))]>
      (set_mount_count (mount_count k + 1) k))).
Definition new_mount (ty : FileSystemType) (flags : Z) (k : kernel) : VfsMount := {|
  mount_id := wrap64 (mount_count k);
  mount_root := S (S (next_loc k));
  mount_file_system := S (next_loc k) |}.
Definition mount_state (ty : FileSystemType) (flags : Z) (parent : option loc) (name : string)
    (k : kernel) : kernel :=
  upd_mount_table <[wrap64 (mount_count k) := new_mount ty flags k]>
    (insert_state parent (next_loc k) name (instance_state ty flags k)).

Lemma instance_run {A} ty source flags (f : Z → loc → KM A) k :
  (id ← MountId_new; fs ← fs_type_mount ty id source flags; f id fs) k =
  if decide (source = "") then f (wrap64 (mount_count k)) (S (next_loc k)) (instance_state ty flags k)
  else (Panic AssertFailed, set_mount_count (mount_count k + 1) k).
Proof.
  case_decide as Hs; [subst; by destruct ty|].
  unfold MountId_new, mbind, M_bind, gets, modify, mret, M_ret.
  destruct ty; simpl; unfold ram_mount, dev_mount, mbind, M_bind;
    by rewrite bool_decide_eq_false_2.
Qed.

(** A lookup depends on the directory's node and its instance. *)
Lemma view_child_local k k' l n fs s : nodes k !! l = Some n → nodes k' !! l = Some n →
  mount_fs k (node_mount_id n) = Some fs → mount_fs k' (node_mount_id n) = Some fs →
  char_registry k' = char_registry k → view_child k' (VNode l) s = view_child k (VNode l) s.
Proof. intros Hn Hn' Hfs Hfs' Hc. unfold view_child. rewrite Hn, Hn'. simpl. by rewrite Hfs, Hfs', Hc. Qed.

Lemma view_child_run k l n fs s : nodes k !! l = Some n → mount_fs k (node_mount_id n) = Some fs →
  view_child k (VNode l) s =
    match fs with
    | RamFileSystem _ =>
        match node_private_data n with
        | Some (RamDirectoryNode ch) => VNode <$> ch !! s
        | _ => None
        end
    | DevFileSystem _ =>
        if is_directory n then VDev (node_mount_id n) <$> char_registry k !! s else None
    end.
Proof. intros Hn Hfs. unfold view_child. rewrite Hn. simpl. by rewrite Hfs. Qed.

Lemma entries_upd_mount_table f k : entries (upd_mount_table f k) = entries k.
Proof. done. Qed.
Lemma dcache_ok_mount_table f k : dcache_ok k → dcache_ok (upd_mount_table f k).
Proof. by intros []; split. Qed.

(** ** The invariant *)

Section mount.
Context (ty : FileSystemType) (flags : Z) (k : kernel) (parent : option loc) (name : string).
Context (Hinv : inv k).
Context (Hwrap : no_wrap (mount_state ty flags parent name k)).
Context (Hparent : ∀ p, parent = Some p → ∃ pe, entries k !! p = Some pe ∧ is_dir_at k (de_node pe)).
Context (Hfresh : ∀ e de, entries k !! e = Some de → de_parent de = parent → de_name de ≠ name).
Context (Hname : parent = None → name = "/").
Abbreviation k1 := (instance_state ty flags k).
Abbreviation k2 := (insert_state parent (next_loc k) name k1).
Abbreviation k' := (mount_state ty flags parent name k).
Abbreviation id := (mount_count k).

Lemma mount_new_id : wrap64 id = id.
Proof.
  destruct Hwrap as (_ & H & _), (inv_counts _ Hinv) as (_ & ? & _). simpl in H.
  unfold wrap64. apply Z.mod_small. lia.
Qed.

Lemma mount_node_old l n : nodes k !! l = Some n → nodes k' !! l = Some n.
Proof.
  intros Hn. simpl. rewrite lookup_insert_ne; [done|]. intros <-. by rewrite fresh_node_None in Hn.
Qed.

Lemma mount_node l n : nodes k' !! l = Some n →
  (l = next_loc k ∧ n = instance_root ty (wrap64 id)) ∨ nodes k !! l = Some n.
Proof. simpl. intros [[<- <-]|[? ?]]%lookup_insert_Some; eauto. Qed.

Lemma mount_is_dir_at l : is_dir_at k l → is_dir_at k' l.
Proof. intros (n & Hn & ?). exists n. eauto using mount_node_old. Qed.

Lemma mount_mount_fs_old i fs : mount_fs k i = Some fs → mount_fs k' i = Some fs.
Proof.
  intros (m & Hm & Hfs)%bind_Some. destruct (inv_mount _ Hinv _ _ Hm) as (_ & ? & _).
  unfold mount_fs. simpl. rewrite mount_new_id, lookup_insert_ne by lia. rewrite Hm. simpl.
  rewrite lookup_insert_ne; [done|]. intros Heq.
  assert (mount_file_system m < next_loc k) by (apply (inv_fs _ Hinv); eauto). lia.
Qed.

Lemma mount_mount_fs_new : mount_fs k' id = Some (instance_of ty flags (next_loc k)).
Proof.
  unfold mount_fs. simpl. rewrite mount_new_id, lookup_insert_eq. simpl. by rewrite lookup_insert_eq.
Qed.

Lemma mount_mount_fs i fs : mount_fs k' i = Some fs →
  (i = id ∧ fs = instance_of ty flags (next_loc k)) ∨ (i ≠ id ∧ mount_fs k i = Some fs).
Proof.
  intros Hi. destruct (decide (i = id)) as [->|Hne].
  - rewrite mount_mount_fs_new in Hi. left. by simplify_eq.
  - right. split; [done|]. revert Hi. unfold mount_fs. simpl.
    rewrite mount_new_id, lookup_insert_ne by done. intros (m & Hm & Hfs)%bind_Some.
    rewrite Hm. simpl. destruct (inv_mount _ Hinv _ _ Hm) as (_ & _ & fs' & _ & _ & Hfs' & _).
    assert (mount_file_system m < next_loc k) by (apply (inv_fs _ Hinv); eauto).
    rewrite lookup_insert_ne in Hfs by lia. done.
Qed.

Lemma mount_ram_child l s c : ram_child k' l s c → ram_child k l s c.
Proof.
  intros (n & ch & [[-> ->]|Hn]%mount_node & Hp & Hc).
  - simpl in Hp. destruct ty; [|done]. injection Hp as <-. by rewrite lookup_empty in Hc.
  - exists n, ch. eauto.
Qed.

Lemma mount_node_view l : is_Some (nodes k !! l) → node_view k' l = node_view k l.
Proof. intros [n Hn]. unfold node_view. by rewrite (mount_node_old _ _ Hn), Hn. Qed.

Lemma mount_view_child l s : is_Some (nodes k !! l) →
  view_child k' (VNode l) s = view_child k (VNode l) s.
Proof.
  intros [n Hn]. destruct (inv_node _ Hinv _ _ Hn) as (_ & fs & Hfs & _).
  eapply view_child_local; eauto using mount_node_old, mount_mount_fs_old.
Qed.

Lemma dcache_ok_instance : dcache_ok k1.
Proof.
  assert (Hold : ∀ l n, nodes k !! l = Some n → nodes k1 !! l = Some n) by apply mount_node_old.
  split.
  - intros e de He. destruct (inv_entry _ Hinv _ _ He) as (? & ? & [n Hn] & ?).
    split; [simpl; lia|]. split; [done|]. split; [|done]. rewrite (Hold _ _ Hn). eauto.
  - apply (inv_entry_inj _ Hinv).
  - intros e de p He Hp. destruct (inv_parent _ Hinv _ _ _ He Hp) as (? & pe & ? & n & ? & ?).
    split; [done|]. exists pe. split; [done|]. exists n. eauto.
  - intros key w Hw. destruct (inv_cache _ Hinv _ _ Hw). split; [simpl; lia|done].
  - apply (inv_held _ Hinv).
Qed.

Lemma mount_parent p : parent = Some p →
  ∃ pe, entries k1 !! p = Some pe ∧ is_dir_at k1 (de_node pe).
Proof.
  intros Hp. destruct (Hparent p Hp) as (pe & ? & n & ? & ?). exists pe. split; [done|].
  exists n. split; [by apply mount_node_old|done].
Qed.

Lemma dcache_ok_mount : dcache_ok k'.
Proof.
  apply dcache_ok_mount_table. apply dcache_ok_insert; [apply dcache_ok_instance| | |apply mount_parent|done].
  - destruct Hwrap as (H & _), (inv_counts _ Hinv). simpl in H. simpl. lia.
  - simpl. rewrite lookup_insert_eq. eauto.
Qed.

Lemma mount_entries : entries k' = entries k2.
Proof. apply entries_upd_mount_table. Qed.
Lemma mount_next : next_loc k1 = S (S (next_loc k)).
Proof. done. Qed.

Lemma mount_entry_new : entries k' !! S (S (next_loc k)) = Some (new_entry parent (next_loc k) name k1).
Proof. rewrite mount_entries, <- mount_next. exact (insert_lookup_new k1 parent (next_loc k) name dcache_ok_instance mount_parent). Qed.

Lemma mount_entry_old l de : entries k !! l = Some de →
  ∃ de', entries k' !! l = Some de' ∧ entry_static de' = entry_static de.
Proof. rewrite mount_entries. exact (insert_lookup_old k1 parent (next_loc k) name dcache_ok_instance mount_parent l de). Qed.

Lemma mount_entry l de' : entries k' !! l = Some de' →
  (l = S (S (next_loc k)) ∧ de' = new_entry parent (next_loc k) name k1) ∨
  (∃ de, entries k !! l = Some de ∧ entry_static de' = entry_static de).
Proof.
  rewrite mount_entries, <- mount_next. intros Hl. destruct (insert_lookup_inv k1 parent (next_loc k) name dcache_ok_instance mount_parent l de' Hl)
    as [?|[_ ?]]; [by left|by right].
Qed.

Lemma mount_mount_roots e : e ∈ mount_roots k' ↔ e = S (S (next_loc k)) ∨ e ∈ mount_roots k.
Proof.
  rewrite !elem_of_mount_roots. split.
  - intros (i & m & Hm & <-). simpl in Hm. apply lookup_insert_Some in Hm as [[_ <-]|[_ ?]]; eauto.
  - intros [->|(i & m & Hm & <-)].
    + exists id, (new_mount ty flags k). simpl. rewrite mount_new_id. by rewrite lookup_insert_eq.
    + exists i, m. split; [|done]. simpl. rewrite mount_new_id.
      destruct (inv_mount _ Hinv _ _ Hm) as (_ & ? & _). by rewrite lookup_insert_ne by lia.
Qed.

Lemma mount_next' : next_loc k' = S (S (S (next_loc k))).
Proof. done. Qed.
Lemma mount_count' : mount_count k' = (id + 1)%Z.
Proof. done. Qed.

Lemma mount_inv_node l n : nodes k' !! l = Some n →
  l < next_loc k' ∧ ∃ fs, mount_fs k' (node_mount_id n) = Some fs ∧ node_ok fs n.
Proof.
  rewrite mount_next'. intros [[-> ->]|Hn]%mount_node.
  - split; [lia|]. exists (instance_of ty flags (next_loc k)). split; [|by destruct ty].
    cbn [node_mount_id instance_root]. rewrite mount_new_id. apply mount_mount_fs_new.
  - destruct (inv_node _ Hinv _ _ Hn) as (? & fs & ? & ?). split; [lia|].
    eauto using mount_mount_fs_old.
Qed.

Lemma mount_inv_child l n ch s c : nodes k' !! l = Some n →
  node_private_data n = Some (RamDirectoryNode ch) → ch !! s = Some c →
  l < c ∧ ∃ cn, nodes k' !! c = Some cn ∧ node_mount_id cn = node_mount_id n.
Proof.
  intros Hn Hp Hc. assert (Hrc : ram_child k' l s c) by (exists n, ch; eauto).
  apply mount_ram_child in Hrc as (n' & ch' & Hn' & Hp' & Hc').
  destruct (inv_child _ Hinv _ _ _ _ _ Hn' Hp' Hc') as (? & cn & Hcn & ?).
  pose proof (mount_node_old _ _ Hn') as Hn2. rewrite Hn in Hn2. injection Hn2 as ->.
  eauto using mount_node_old.
Qed.

Lemma mount_inv_child_root l s c i fs : ram_child k' l s c → mount_fs k' i = Some fs →
  c ≠ fsi_root (fs_instance fs).
Proof.
  intros H1%mount_ram_child [[-> ->]|[_ Hfs]]%mount_mount_fs; [|by eapply (inv_child_root _ Hinv)].
  assert (fsi_root (fs_instance (instance_of ty flags (next_loc k))) = next_loc k) as -> by (by destruct ty).
  intros ->. by eapply fresh_loc_not_child.
Qed.

Lemma mount_inv_fs l : is_Some (file_systems k' !! l) → l < next_loc k'.
Proof. rewrite mount_next'. simpl. rewrite lookup_insert_is_Some'. intros [<-|Hl%(inv_fs _ Hinv)]; lia. Qed.

Lemma mount_inv_mount i m : mount_table k' !! i = Some m →
  mount_id m = i ∧ (0 ≤ i < mount_count k')%Z ∧
  ∃ fs de n, file_systems k' !! mount_file_system m = Some fs ∧
    entries k' !! mount_root m = Some de ∧ de_node de = fsi_root (fs_instance fs) ∧
    nodes k' !! de_node de = Some n ∧ node_mount_id n = i ∧ node_kind n = FsNodeKind.Directory.
Proof.
  rewrite mount_count'. intros Hm. simpl in Hm. rewrite mount_new_id in Hm.
  apply lookup_insert_Some in Hm as [[<- <-]|[Hne Hm]].
  - destruct (inv_counts _ Hinv) as (_ & ? & _). split; [apply mount_new_id|]. split; [lia|].
    exists (instance_of ty flags (next_loc k)), (new_entry parent (next_loc k) name k1),
      (instance_root ty (wrap64 id)).
    split_and!; [apply lookup_insert_eq|apply mount_entry_new|by destruct ty|apply lookup_insert_eq| |done].
    cbn [node_mount_id instance_root]. apply mount_new_id.
  - destruct (inv_mount _ Hinv _ _ Hm) as (? & ? & fs & de & n & Hfs & Hde & Hr & Hn & ?).
    destruct (mount_entry_old _ _ Hde) as (de' & Hde' & (_ & _ & Hdn & _)%entry_static_eq).
    assert (mount_file_system m < next_loc k) by (apply (inv_fs _ Hinv); eauto).
    split; [done|]. split; [lia|]. exists fs, de', n. rewrite Hdn.
    split; [simpl; by rewrite lookup_insert_ne by lia|].
    split; [done|]. split; [done|]. split; [by apply mount_node_old|done].
Qed.

Lemma mount_inv_root e de : entries k' !! e = Some de → de_parent de = None →
  de_name de = "/" ∧ e ∈ mount_roots k'.
Proof.
  intros He Hp. rewrite mount_mount_roots.
  apply mount_entry in He as [[-> ->]|(d & Hd & (_ & Hn & _ & Hpp)%entry_static_eq)].
  - cbn [de_name de_parent new_entry] in *. split; [by apply Hname|by left].
  - rewrite Hpp in Hp. rewrite Hn. destruct (inv_root _ Hinv _ _ Hd Hp). split; [done|by right].
Qed.

Lemma mount_inv_coherent e de p pe : entries k' !! e = Some de → de_parent de = Some p →
  entries k' !! p = Some pe → e ∉ mount_roots k' →
  view_child k' (VNode (de_node pe)) (de_name de) = Some (node_view k' (de_node de)).
Proof.
  intros He Hp Hpe Hm. rewrite mount_mount_roots in Hm.
  apply mount_entry in He as [[-> ->]|(d & Hd & (_ & Hn & Hdn & Hpp)%entry_static_eq)];
    [by destruct Hm; left|].
  rewrite Hpp in Hp. destruct (inv_parent _ Hinv _ _ _ Hd Hp) as (_ & qe & Hqe & _).
  destruct (mount_entry_old _ _ Hqe) as (qe' & Hqe' & (_ & _ & Hqn & _)%entry_static_eq).
  rewrite Hpe in Hqe'. injection Hqe' as <-.
  destruct (inv_entry _ Hinv _ _ Hd) as (_ & _ & ? & _), (inv_entry _ Hinv _ _ Hqe) as (_ & _ & ? & _).
  rewrite Hqn, Hdn, Hn, mount_view_child, mount_node_view by done.
  eapply (inv_coherent _ Hinv); [done..|]. intros ?. destruct Hm. by right.
Qed.

Lemma inv_mount_state : inv k'.
Proof.
  split.
  - exact (inv_ready _ Hinv).
  - exact Hwrap.
  - rewrite mount_count'. destruct (inv_counts _ Hinv) as (? & ? & ?). simpl. lia.
  - exact mount_inv_node.
  - exact mount_inv_child.
  - intros l1 s1 l2 s2 c H1%mount_ram_child H2%mount_ram_child. by eapply (inv_child_inj _ Hinv).
  - exact mount_inv_child_root.
  - exact mount_inv_mount.
  - exact mount_inv_fs.
  - exact dcache_ok_mount.
  - exact mount_inv_root.
  - exact mount_inv_coherent.
  - exact (inv_chars _ Hinv).
Qed.

(** ** The name space after mounting *)

Definition mount_target (k : kernel) (parent : option loc) (name : string) : list string :=
  match parent with
  | Some p => name :: rpath k p
  | None => []
  end.
(** The names in a new instance: none in RAM, the devices in the device tree. *)
Definition instance_child (k : kernel) (ty : FileSystemType) (mid : Z) (s : string) : option view :=
  match ty with
  | RamFileSystemType => None
  | DevFileSystemType => VDev mid <$> char_registry k !! s
  end.
Abbreviation target := (mount_target k parent name).
Context (Hnone : walk k target = None).

Lemma mount_rpath e : is_Some (entries k !! e) → rpath k' e = rpath k e.
Proof.
  intros [de He]. destruct (mount_entry_old _ _ He) as (de' & He' & _).
  apply rpath_static; [done|apply inv_mount_state| |by eauto..].
  intros l d d' Hl [[-> _]|(d0 & ? & ?)]%mount_entry; [|congruence].
  destruct (inv_entry _ Hinv _ _ Hl). lia.
Qed.

Lemma mount_rpath_new : rpath k' (S (S (next_loc k))) = target.
Proof.
  assert (H1 : ∀ p, parent = Some p → rpath k' (S (S (next_loc k))) = name :: rpath k p).
  { intros p Hp. rewrite (rpath_child k' _ _ p inv_mount_state mount_entry_new Hp). f_equal.
    apply mount_rpath. destruct (Hparent p Hp) as (pe & -> & _). eauto. }
  assert (H2 : parent = None → rpath k' (S (S (next_loc k))) = []).
  { intros Hp. by rewrite (rpath_top k' _ _ mount_entry_new Hp). }
  unfold mount_target. destruct parent; auto.
Qed.

Lemma mount_at_mount q : mount_at k' q = if decide (q = target) then Some (next_loc k) else mount_at k q.
Proof.
  apply option_eq. intros l. rewrite mount_at_Some by apply inv_mount_state.
  pose proof mount_entry_new as Hnew. case_decide as Hq.
  - subst q. split.
    + intros (e & de & Hm & He & Hr & <-). rewrite <- mount_rpath_new in Hr.
      pose proof (rpath_inj k' e inv_mount_state _ _ _ He Hnew Hr) as ->.
      rewrite Hnew in He. by injection He as <-.
    + intros [= <-]. exists (S (S (next_loc k))), (new_entry parent (next_loc k) name k1).
      split_and!; [apply mount_mount_roots; by left|done|apply mount_rpath_new|done].
  - rewrite mount_at_Some by done. split.
    + intros (e & de & Hm & He & Hr & <-). apply mount_mount_roots in Hm as [->|Hm].
      { rewrite mount_rpath_new in Hr. congruence. }
      destruct (mount_root_live _ _ Hinv Hm) as [d Hd]. exists e, d.
      destruct (mount_entry_old _ _ Hd) as (d' & Hd' & (_ & _ & Hn & _)%entry_static_eq).
      rewrite He in Hd'. injection Hd' as <-. rewrite <- mount_rpath by eauto. done.
    + intros (e & de & Hm & He & Hr & <-).
      destruct (mount_entry_old _ _ He) as (d' & Hd' & (_ & _ & Hn & _)%entry_static_eq).
      exists e, d'. rewrite mount_mount_roots, mount_rpath by eauto. split_and!; [by right|done..].
Qed.

Lemma mount_walk_target : walk k' target = Some (VNode (next_loc k)).
Proof.
  rewrite <- mount_rpath_new, (walk_entry _ _ _ inv_mount_state mount_entry_new).
  rewrite dir_node_view; [done|apply inv_mount_state|].
  exists (instance_root ty (wrap64 id)). split; [apply lookup_insert_eq|done].
Qed.

Lemma mount_walk_other q : ¬ target `suffix_of` q → walk k' q = walk k q.
Proof.
  induction q as [|s q IH]; intros Hsuf.
  - simpl. rewrite mount_at_mount, decide_False; [done|]. intros Heq. apply Hsuf. by rewrite <- Heq.
  - simpl. rewrite IH by (intros ?; apply Hsuf; by apply suffix_cons_r).
    rewrite mount_at_mount, decide_False by (intros Heq; apply Hsuf; by rewrite <- Heq).
    destruct (walk k q) as [v|] eqn:Hw; [|done]. simpl.
    destruct (mount_at k (s :: q)); [done|]. destruct v as [l|]; [|done].
    apply mount_view_child. by eapply walk_node.
Qed.

Lemma mount_view_new s : view_child k' (VNode (next_loc k)) s = instance_child k ty id s.
Proof.
  assert (Hn : nodes k' !! next_loc k = Some (instance_root ty (wrap64 id))) by apply lookup_insert_eq.
  rewrite (view_child_run k' _ _ (instance_of ty flags (next_loc k)) s Hn).
  - rewrite mount_new_id. by destruct ty.
  - cbn [node_mount_id instance_root]. rewrite mount_new_id. apply mount_mount_fs_new.
Qed.

Lemma mount_walk_below l : walk k' (l ++ target) =
  match l with
  | [] => Some (VNode (next_loc k))
  | [s] => instance_child k ty id s
  | _ => None
  end.
Proof.
  assert (Hmnt : ∀ s l, mount_at k' (s :: l ++ target) = None).
  { intros s l'. rewrite mount_at_mount, decide_False.
    2: { intros Hl%(f_equal length). rewrite length_cons, length_app in Hl. lia. }
    apply (walk_None_mount k Hinv). induction l' as [|s' l' IH]; [done|]. simpl. by rewrite IH. }
  destruct l as [|s l]; [apply mount_walk_target|].
  revert s. induction l as [|s' l IH]; intros s.
  - cbn [app walk]. rewrite mount_walk_target. cbn [mbind option_bind].
    pose proof (Hmnt s []) as Hs. cbn [app] in Hs. rewrite Hs. apply mount_view_new.
  - change (walk k' ((s :: s' :: l) ++ target)) with
      (v ← walk k' ((s' :: l) ++ target);
       match mount_at k' (s :: (s' :: l) ++ target) with
       | Some l => Some (VNode l) | None => view_child k' v s end).
    rewrite IH, (Hmnt s (s' :: l)). destruct l; [|done]. unfold instance_child.
    destruct ty; [done|]. by destruct (char_registry k !! s').
Qed.
End mount.

(** ** [mount] *)

(** What a successful mount at [rp] does to the state. *)
Record mounted (k k' : kernel) (ty : FileSystemType) (rp : list string) (id : Z) : Prop := {
  mtd_inv : inv k';
  mtd_id : id = mount_count k ∧ is_Some (mount_table k' !! id);
  mtd_other q : ¬ rp `suffix_of` q → walk k' q = walk k q;
  mtd_below l : walk k' (l ++ rp) =
    match l with
    | [] => Some (VNode (fsi_root (fs_instance (default (instance_of ty 0 0) (mount_fs k' id)))))
    | [s] => instance_child k ty id s
    | _ => None
    end;
  mtd_nodes x n : nodes k !! x = Some n → nodes k' !! x = Some n;
  mtd_back x n : nodes k' !! x = Some n → nodes k !! x = Some n ∨ fresh_node n;
  mtd_files : files k' = files k;
  mtd_fds : fd_count k' = fd_count k;
}.

Definition mount_branch (ty : FileSystemType) (source : string) (flags : Z) (parent : option loc)
    (name : string) : KM Z :=
  m ← mount_instance ty source flags parent name;
  _ ← modify (upd_mount_table <[mount_id m := m]>);
  mret (mount_id m).

Section mount_run.
Context (ty : FileSystemType) (flags : Z) (k : kernel) (parent : option loc) (name : string).
Context (Hinv : inv k).
Context (Hparent : ∀ p, parent = Some p → ∃ pe, entries k !! p = Some pe ∧ is_dir_at k (de_node pe)).
Context (Hfresh : ∀ e de, entries k !! e = Some de → de_parent de = parent → de_name de ≠ name).
Context (Hname : parent = None → name = "/").

Lemma mount_insert_run r k' :
  cache_insert parent (next_loc k) name (instance_state ty flags k) = (r, k') →
  r = Ok (S (S (next_loc k))) ∧
  k' = insert_state parent (next_loc k) name (instance_state ty flags k).
Proof.
  intros Hrun. rewrite <- (mount_next ty flags). destruct parent as [p|] eqn:Hp.
  - destruct (Hparent p eq_refl) as (pe & Hpe & _).
    apply (cache_insert_child_run _ p pe); [by apply dcache_ok_instance|done..].
  - unfold cache_insert in Hrun. rewrite (Hname eq_refl) in *.
    rewrite (mbind_run _ _ (instance_state ty flags k) tt (instance_state ty flags k)) in Hrun by done.
    rewrite mbind_ret in Hrun.
    by apply cache_alloc_run in Hrun as [?|(_ & _ & q & ? & _)].
Qed.

Lemma root_directory_instance :
  root_directory (S (next_loc k)) (instance_state ty flags k) =
    (Ok (next_loc k), instance_state ty flags k).
Proof.
  unfold root_directory.
  mstep_with (get_fs_run (instance_state ty flags k) (S (next_loc k)) (instance_of ty flags (next_loc k))
    ltac:(apply lookup_insert_eq)). by destruct ty.
Qed.

Lemma mount_branch_run source r k' : mount_branch ty source flags parent name k = (r, k') →
  (source ≠ "" ∧ r = Panic AssertFailed) ∨
  (source = "" ∧ r = Ok (wrap64 (mount_count k)) ∧ k' = mount_state ty flags parent name k).
Proof.
  intros Hrun. unfold mount_branch, mount_instance in Hrun.
  minv Hrun as m s1 Hm; rewrite instance_run in Hm; case_decide; simplify_eq; try by left.
  all: rewrite (mbind_run _ _ _ (next_loc k) (instance_state ty flags k)) in Hm;
    [|by apply root_directory_instance].
  all: right; minv Hm as e s2 Hins; apply mount_insert_run in Hins as [? ?]; simplify_eq.
  munfold Hm. simplify_eq. munfold Hrun. by simplify_eq.
Qed.

Lemma mount_mounted : no_wrap (mount_state ty flags parent name k) →
  walk k (mount_target k parent name) = None →
  mounted k (mount_state ty flags parent name k) ty (mount_target k parent name) (wrap64 (mount_count k)).
Proof.
  intros Hwrap Hnone.
  pose proof (mount_new_id ty flags k parent name Hinv Hwrap) as Hid.
  pose proof (mount_mount_fs_new ty flags k parent name Hinv Hwrap) as Hfs.
  rewrite Hid. split; try done.
  - by apply inv_mount_state.
  - split; [done|]. simpl. rewrite Hid, lookup_insert_eq. eauto.
  - by apply mount_walk_other.
  - intros l. rewrite mount_walk_below by done. rewrite Hfs. destruct l; [|done]. simpl. by destruct ty.
  - by apply mount_node_old.
  - intros x n Hn. apply mount_node in Hn as [[-> ->]|?]; [right; by destruct ty|by left].
Qed.
End mount_run.

Lemma mounted_ext_l k k1 k' ty rp id : inv k → inv k1 → ext k k1 →
  mounted k1 k' ty rp id → mounted k k' ty rp id.
Proof.
  intros Hinv Hinv1 Hext [? [Hid ?] Ho Hb Hn Hnb Hf Hfd]. split; try done.
  - split; [|done]. by rewrite <- (ext_mount_count _ _ Hext).
  - intros q Hq. rewrite Ho by done. by apply ext_walk.
  - intros l. rewrite Hb. unfold instance_child. by rewrite (ext_char_registry _ _ Hext).
  - intros x n Hx. apply (ext_node k k1) in Hx; auto.
  - intros x n Hx. destruct (Hnb _ _ Hx) as [Hx'|?]; [|by right]. by apply (ext_new_nodes _ _ Hext).
  - by rewrite Hf, (ext_files _ _ Hext).
  - by rewrite Hfd, (ext_fd_count _ _ Hext).
Qed.

Lemma mounted_gc k k1 hs ty rp id : inv (gc (set_held hs k1)) →
  mounted k k1 ty rp id → mounted k (gc (set_held hs k1)) ty rp id.
Proof.
  intros Hinv' [? ? Ho Hb Hn Hnb Hf Hfd]. pose proof (ext_gc_held k1 hs) as Hext. split; try done.
  - intros q Hq. rewrite <- Ho by done. by apply ext_walk.
  - intros l. rewrite (ext_walk k1) by done. by rewrite Hb.
Qed.

(** The reference for [mount]: the type and the path of the new mount. *)
Definition ref_mount_body (k : kernel) (ty : FileSystemType) (source target : string)
    : outcome IoError (FileSystemType * list string) :=
  let at_path rp := if decide (source = "") then Ok (ty, rp) else Panic AssertFailed in
  if decide (target = "/") then
    match walk k [] with Some _ => Err AlreadyExists | None => at_path [] end
  else
    match ref_resolve_path k target with
    | Panic p => Panic p
    | Err e => Err e
    | Ok (Some _) => Panic Todo
    | Ok None =>
        match ref_parent_path k target with
        | Panic p => Panic p
        | Err e => Err e
        | Ok (rp, name) => at_path (name :: rp)
        end
    end.
Definition ref_mount (k : kernel) (source target : string) (kind : option string)
    : outcome IoError (FileSystemType * list string) :=
  match kind with
  | None => Panic Todo
  | Some kd =>
      match fs_registry k !! kd with
      | None => Err FileSystemTypeNotFound
      | Some ty => ref_mount_body k ty source target
      end
  end.

Lemma fs_type_names ty : negb (bool_decide (fst_name (fs_type_metadata ty) = "ramfs")) &&
  negb (bool_decide (fst_name (fs_type_metadata ty) = "devfs")) = false.
Proof. by destruct ty. Qed.

#[export] Instance mount_branch_counts ty source flags parent name :
  Respects counts_le (mount_branch ty source flags parent name).
Proof.
  unfold mount_branch, mount_instance.
  assert (∀ f, Respects counts_le (modify (upd_mount_table f))).
  { intros f. apply respects_modify. intros k. unfold counts_le. simpl. lia. }
  assert (∀ f, Respects counts_le (modify (upd_file_systems f))).
  { intros f. apply respects_modify. intros k. unfold counts_le. simpl. lia. }
  assert (Respects counts_le fresh_loc).
  { intros k r k' [= <- <-]. unfold counts_le. simpl. lia. }
  assert (Respects counts_le MountId_new).
  { intros k r k' [= <- <-]. unfold counts_le. simpl. lia. }
  assert (∀ id, Respects counts_le (fs_type_mount ty id source flags)).
  { intros id. destruct ty; simpl; unfold ram_mount, dev_mount; apply _. }
  apply _.
Qed.

(** The part of [mount] that picks the parent and the name. *)
Definition mount_body (ty : FileSystemType) (source target : string) (flags : Z) : KM Z :=
  if decide (target = "/") then
    r ← cache_get_root;
    match r with
    | Some _ => fail AlreadyExists
    | None => mount_branch ty source flags None "/"
    end
  else
    t ← resolve_path target;
    match t with
    | Some _ => panic Todo
    | None => pn ← resolve_path_parent_directory target; mount_branch ty source flags (Some pn.1) pn.2
    end.

Lemma mount_unfold source target kind flags k : mount source target kind flags k =
  scoped (λ _, []) (
    match kind with
    | None => panic Todo
    | Some kd =>
        match fs_registry k !! kd with
        | None => fail FileSystemTypeNotFound
        | Some ty => mount_body ty source target flags
        end
    end) k.
Proof.
  unfold mount, scoped. destruct kind as [kd|]; [|done]. f_equal.
  unfold mount_body, mount_branch, find_file_system_type, ok_or, unwrap, modify, mbind, M_bind, gets,
    mret, M_ret.
  destruct (fs_registry k !! kd) as [ty|]; [|done]. rewrite fs_type_names. case_decide.
  - destruct (cache_get_root k) as [[[]| |] ?]; try done.
  - destruct (resolve_path target k) as [[[]| |] k1]; try done.
    destruct (resolve_path_parent_directory target k1) as [[] ?]; try done.
Qed.

Lemma mount_at_root ty source flags k r k' : inv k →
  (∀ e de, entries k !! e = Some de → de_parent de ≠ None) →
  mount_branch ty source flags None "/" k = (r, k') → no_wrap k' →
  (source ≠ "" ∧ r = Panic AssertFailed) ∨
  (source = "" ∧ ∃ id, r = Ok id ∧ mounted k k' ty [] id ∧ ∃ hs, held k' = hs ++ held k).
Proof.
  intros Hinv Hno Hrun Hwrap.
  apply mount_branch_run in Hrun as [?|(-> & -> & ->)]; [by left|right|done|done| |done].
  - split; [done|]. eexists. split; [done|]. split; [|by exists [S (S (next_loc k))]].
    apply (mount_mounted ty flags k None "/"); try done; [|by apply no_root_walk].
    intros e de He Hp. by destruct (Hno _ _ He).
  - intros e de He Hp. by destruct (Hno _ _ He).
Qed.

Lemma mount_at_child ty source flags k p pe name r k' : inv k →
  entries k !! p = Some pe → is_dir_at k (de_node pe) → walk k (name :: rpath k p) = None →
  mount_branch ty source flags (Some p) name k = (r, k') → no_wrap k' →
  (source ≠ "" ∧ r = Panic AssertFailed) ∨
  (source = "" ∧ ∃ id, r = Ok id ∧ mounted k k' ty (name :: rpath k p) id ∧
    ∃ hs, held k' = hs ++ held k).
Proof.
  intros Hinv Hpe Hdir Hnone Hrun Hwrap. pose proof (walk_None_fresh _ _ _ _ Hinv Hpe Hnone) as Hfresh.
  assert (Hpar : ∀ q, Some p = Some q → ∃ pe, entries k !! q = Some pe ∧ is_dir_at k (de_node pe))
    by (intros q [= <-]; eauto).
  apply mount_branch_run in Hrun as [?|(-> & -> & ->)]; [by left|right|done..].
  split; [done|]. eexists. split; [done|]. split; [|by exists [S (S (next_loc k))]].
  by apply (mount_mounted ty flags k (Some p) name).
Qed.

Lemma mount_body_spec ty source target flags k r k' : inv k →
  mount_body ty source target flags k = (r, k') → no_wrap k' →
  let ref := ref_mount_body k ty source target in
  match r with
  | Panic p => p = ArithOverflow ∨ ref = Panic p
  | Err e => inv k' ∧ ext k k' ∧ (∃ hs, held k' = hs ++ held k) ∧ ref = Err e
  | Ok id => ∃ rp, ref = Ok (ty, rp) ∧ mounted k k' ty rp id ∧ ∃ hs, held k' = hs ++ held k
  end.
Proof.
  intros Hinv Hrun Hwrap. unfold ref_mount_body, mount_body in *. simpl.
  case_decide.
  - minv Hrun as o s1 Hroot;
    (destruct (cache_get_root_run _ _ _ Hinv Hroot) as [(? & ? & Hno)|(e & de & ? & ? & He & Hp)];
     simplify_eq).
    + pose proof (no_root_walk _ Hinv Hno) as Hw. simpl in Hw. rewrite Hw.
      destruct (mount_at_root _ _ _ _ _ _ Hinv Hno Hrun Hwrap) as [[? ->]|(-> & id & -> & ? & ?)].
      * right. by rewrite decide_False.
      * exists []. split; [by rewrite decide_True|done].
    + munfold Hrun. simplify_eq. split_and!; [by apply inv_push; eauto|apply ext_set_held|by exists [e]|].
      pose proof (walk_entry _ _ _ Hinv He) as Hw. rewrite (rpath_top _ _ _ He Hp) in Hw. simpl in Hw.
      by rewrite Hw.
  - apply resolve_then in Hrun as [(q & -> & [-> | ->])|[(e & -> & ? & ? & Hh & ->)|(k1 & o & Hrun & Hinv1
      & Hext1 & Hh1 & Href)]]; [by left|by right| | |done|intros []; apply _|done].
    { split_and!; try done. by exists []. }
    rewrite Href. destruct o as [e|]; [munfold Hrun; simplify_eq; by right|]. simpl in *.
    assert (Href1 : ref_resolve_path k1 target = Ok None) by (by rewrite (ext_ref_resolve_path k k1)).
    apply parent_then in Hrun as [(q & -> & Hq)|[(e & -> & ? & Hx & Hh & Hq)|(k2 & p & pe & name & Hrun & Hinv2
      & Hext & Hh2 & Hpe & Hdir & Hnone & Hq)]]; [| | |done|done|apply _|done];
      rewrite (ext_ref_parent_path k k1) in Hq by done.
    + destruct Hq as [->|Hq]; [by left|right]. by rewrite Hq.
    + rewrite Hq. split_and!; [done|by etrans|by exists []; rewrite Hh|done].
    + rewrite Hq. destruct (mount_at_child _ _ _ _ _ _ _ _ _ Hinv2 Hpe Hdir Hnone Hrun Hwrap)
        as [[? ->]|(-> & id & -> & Hmt & hs & Hh)].
      * right. by rewrite decide_False.
      * exists (name :: rpath k2 p). split; [by rewrite decide_True|].
        split; [|exists (hs ++ [p]); by rewrite Hh, Hh2, Hh1, <- app_assoc].
        apply (mounted_ext_l k k2); [done..|by etrans|done].
Qed.

Lemma mount_spec source target kind flags k r k' : inv k →
  mount source target kind flags k = (r, k') → no_wrap k' →
  match r with
  | Panic p => p = ArithOverflow ∨ ref_mount k source target kind = Panic p
  | Err e => inv k' ∧ ext k k' ∧ held k' = held k ∧ ref_mount k source target kind = Err e
  | Ok id => ∃ ty rp, ref_mount k source target kind = Ok (ty, rp) ∧ mounted k k' ty rp id ∧
      held k' = held k
  end.
Proof.
  intros Hinv Hrun Hwrap. rewrite mount_unfold in Hrun.
  apply scoped_run in Hrun as (k2 & Hrun & Hk'). pose proof (no_wrap_leave _ _ _ _ _ Hk' Hwrap) as Hwrap2.
  unfold ref_mount. destruct kind as [kd|]; [|munfold Hrun; simplify_eq; by right].
  destruct (fs_registry k !! kd) as [ty|] eqn:Hty.
  2: { munfold Hrun. simplify_eq. split_and!; [by apply (leave_scope_none k2 k2 [])|apply ext_gc_held|done..]. }
  pose proof (mount_body_spec _ _ _ _ _ _ _ Hinv Hrun Hwrap2) as Hspec. simpl in Hspec.
  destruct r as [id|e|p]; [| |done]; subst k'.
  - destruct Hspec as (rp & Href & Hmt & hs & Hh). exists ty, rp. split; [done|]. split; [|done].
    apply mounted_gc; [|done]. eapply leave_scope_none; [apply Hmt|done].
  - destruct Hspec as (Hinv2 & Hext & (hs & Hh) & Href).
    split_and!; [by eapply leave_scope_none|by etrans; [|apply ext_gc_held]|done..].
Qed.
