(* ===== verification/VfsFiles.v ===== *)
(** * Open files

    The table of open files: descriptors are fresh, a node's link count is one
    more than the number of descriptors open on it, and [open], [close],
    [read] and [write] keep both facts and the invariant of the name space. *)

From Stdlib Require Import Init.Byte.
From S2P Require Import Prelude Util FsTypes Fs Registry RamFs DevFs DirCache Path Vfs.
From S2P Require Import VfsFrame VfsInv VfsLookup VfsWalk VfsResolve VfsCreate VfsDirs.

(** ** The invariant of the file table *)

(** The number of descriptors open on a node. *)
Definition open_count (fs : gmap Z File) (l : loc) : nat :=
  size (filter (λ f : Z * File, file_node f.2 = l) fs).

Record files_ok (k : kernel) : Prop := {
  fo_file fd f : files k !! fd = Some f →
    (1 ≤ fd < fd_count k)%Z ∧ is_Some (nodes k !! file_node f) ∧
    (0 ≤ file_position f ≤ u64_max)%Z;
  fo_links l n : nodes k !! l = Some n →
    link_count (node_metadata n) = (1 + Z.of_nat (open_count (files k) l))%Z;
  fo_size l n : nodes k !! l = Some n → (Z.of_nat (length (node_bytes n)) ≤ u64_max)%Z;
}.

Lemma open_count_insert_new fs fd f l : fs !! fd = None →
  open_count (<[fd := f]> fs) l = open_count fs l + (if decide (file_node f = l) then 1 else 0).
Proof.
  intros Hfd. unfold open_count. rewrite map_filter_insert. simpl.
  case_decide; [|rewrite delete_id by done; lia].
  rewrite map_size_insert_None; [lia|]. apply map_lookup_filter_None. by left.
Qed.

Lemma open_count_delete fs fd f l : fs !! fd = Some f →
  open_count fs l = open_count (delete fd fs) l + (if decide (file_node f = l) then 1 else 0).
Proof.
  intros Hfd. rewrite <- (insert_delete_id fs fd f Hfd) at 1.
  apply open_count_insert_new, lookup_delete_eq.
Qed.

Lemma open_count_update fs fd f f' l : fs !! fd = Some f → file_node f' = file_node f →
  open_count (<[fd := f']> fs) l = open_count fs l.
Proof.
  intros Hfd Hn. rewrite (open_count_delete fs fd f) by done.
  rewrite (open_count_delete (<[fd := f']> fs) fd f') by apply lookup_insert_eq.
  by rewrite delete_insert_eq, Hn.
Qed.

Lemma open_count_0 fs l : (∀ fd f, fs !! fd = Some f → file_node f ≠ l) → open_count fs l = 0.
Proof.
  intros Hno. unfold open_count. apply map_size_empty_iff, map_empty. intros fd.
  apply map_lookup_filter_None. right. intros f Hf. simpl. eauto.
Qed.

(** A node nothing knew before has no descriptor. *)
Lemma fo_new k l : files_ok k → nodes k !! l = None → open_count (files k) l = 0.
Proof.
  intros Hok Hl. apply open_count_0. intros fd f Hf <-.
  destruct (fo_file _ Hok _ _ Hf) as (_ & [? ?] & _). congruence.
Qed.

(** The file table is not concerned by changes that keep metadata. *)
Lemma files_ok_nodes k k' : files_ok k → files k' = files k → fd_count k' = fd_count k →
  (∀ x n, nodes k !! x = Some n → ∃ n', nodes k' !! x = Some n' ∧
    node_metadata n' = node_metadata n ∧ node_bytes n' = node_bytes n) →
  (∀ x n', nodes k' !! x = Some n' → nodes k !! x = None → fresh_node n') →
  files_ok k'.
Proof.
  intros Hok Hf Hfd Hfwd Hnew. split.
  - intros fd f. rewrite Hf, Hfd. intros Hl. destruct (fo_file _ Hok _ _ Hl) as (? & [n Hn] & ?).
    destruct (Hfwd _ _ Hn) as (n' & Hn' & _). eauto.
  - intros l n' Hn'. rewrite Hf. destruct (nodes k !! l) as [n|] eqn:Hn.
    + destruct (Hfwd _ _ Hn) as (n'' & ? & Hmd & _). simplify_eq. rewrite Hmd. by apply (fo_links _ Hok).
    + destruct (Hnew _ _ Hn' Hn) as [-> _]. by rewrite (fo_new _ _ Hok Hn).
  - intros l n' Hn'. destruct (nodes k !! l) as [n|] eqn:Hn.
    + destruct (Hfwd _ _ Hn) as (n'' & ? & _ & Hby). simplify_eq. rewrite Hby. by apply (fo_size _ Hok _ _ Hn).
    + destruct (Hnew _ _ Hn' Hn) as [_ ->]. done.
Qed.

Lemma files_ok_ext k k' : inv k → files_ok k → ext k k' → files_ok k'.
Proof.
  intros Hinv Hok Hext. apply (files_ok_nodes k); [done|apply Hext..| |].
  - intros x n Hn. exists n. split; [|done]. by eapply ext_node.
  - intros x n' Hn' Hx. destruct (ext_new_nodes _ _ Hext _ _ Hn'); [congruence|done].
Qed.

Lemma files_ok_created k k' rp kind data c : files_ok k → created k k' rp kind data c → files_ok k'.
Proof.
  intros Hok Hcr. apply (files_ok_nodes k); [done|apply Hcr|apply (cr_counts _ _ _ _ _ _ Hcr)| |].
  - intros x n Hn. destruct (cr_nodes _ _ _ _ _ _ Hcr _ _ Hn) as (n' & ? & ? & ? & _). eauto.
  - intros x n' Hn' Hx. destruct (cr_back _ _ _ _ _ _ Hcr _ _ Hn') as [?|(n & ? & _)]; [done|congruence].
Qed.

(** ** The invariant of the whole file subsystem *)

Record vfs_ok (k : kernel) : Prop := {
  vo_inv : inv k;
  vo_files : files_ok k;
}.

(** State the name space does not depend on. *)
Lemma inv_upd_files f k : inv k → inv (upd_files f k).
Proof. by intros [? ? ? ? ? ? ? ? ? []]; split. Qed.
Lemma walk_upd_files f k q : walk (upd_files f k) q = walk k q.
Proof. by apply walk_congr. Qed.
Lemma inv_set_fd_count c k : inv k → (fd_count k ≤ c ≤ two64)%Z → inv (set_fd_count c k).
Proof.
  intros [? [? [? ?]] [? [? ?]] ? ? ? ? ? ? []] Hc. split; try done; unfold no_wrap; simpl; lia.
Qed.
Lemma walk_set_fd_count c k q : walk (set_fd_count c k) q = walk k q.
Proof. by apply walk_congr. Qed.

(** ** Link counts *)

Lemma set_link_count_shape c n : node_shape (set_link_count c n) = node_shape n.
Proof. done. Qed.

(** The state with a descriptor for [f] added and its node's count raised. *)
Definition opened_state (f : File) (n : FsNode) (k : kernel) : kernel :=
  upd_files <[wrap64 (fd_count k) := f]> (set_fd_count (fd_count k + 1)
    (upd_nodes <[file_node f := set_link_count (link_count (node_metadata n) + 1) n]> k)).

(** The second half of [open]. *)
Definition open_tail (nl : loc) (mode : FileMode.t) : KM Z :=
  _ ← increment_link_count nl;
  Defer.defer_handle (decrement_link_count nl) (
    file ← Defer.lift (
      n ← get_node nl;
      fs ← node_file_system n;
      ops ← file_operations fs;
      op_open ops nl mode);
    fd ← Defer.lift (
      fd ← FileDescriptor_new;
      _ ← modify (upd_files <[fd := file]>);
      mret fd);
    _ ← Defer.cancel;
    mret fd).

Lemma op_open_default k l nl mode fs : file_systems k !! l = Some fs →
  (ops ← file_operations l; op_open ops nl mode) k = (Ok (File_new nl mode), k).
Proof. intros Hfs. mstep_with (file_operations_run _ _ _ Hfs). by destruct fs. Qed.

Lemma increment_link_count_run k l n : nodes k !! l = Some n →
  increment_link_count l k =
    if decide (link_count (node_metadata n) + 1 ≤ u64_max)%Z
    then (Ok tt, upd_nodes <[l := set_link_count (link_count (node_metadata n) + 1) n]> k)
    else (Panic ArithOverflow, k).
Proof.
  intros Hn. unfold increment_link_count. mstep_with (get_node_run _ _ _ Hn).
  unfold checked_add. by case_decide.
Qed.
Lemma decrement_link_count_run k l n : nodes k !! l = Some n →
  (1 ≤ link_count (node_metadata n))%Z →
  decrement_link_count l k =
    (Ok tt, upd_nodes <[l := set_link_count (link_count (node_metadata n) - 1) n]> k).
Proof.
  intros Hn Hc. unfold decrement_link_count. mstep_with (get_node_run _ _ _ Hn).
  unfold checked_sub. by rewrite decide_True.
Qed.

Lemma open_tail_run k nl n mode r k' : inv k → nodes k !! nl = Some n →
  open_tail nl mode k = (r, k') →
  r = Panic ArithOverflow ∨
  r = Ok (wrap64 (fd_count k)) ∧ k' = opened_state (File_new nl mode) n k.
Proof.
  intros Hinv Hn Hrun. unfold open_tail in Hrun.
  destruct (node_mount _ _ _ Hinv Hn) as (m & fs & Hm & Hfs & _).
  pose proof (increment_link_count_run _ _ _ Hn) as Hinc. case_decide.
  2: { left. unfold mbind at 1, M_bind at 1 in Hrun. rewrite Hinc in Hrun. by simplify_eq. }
  mstep Hinc in Hrun. rewrite defer_handle_cancel_last in Hrun. right.
  set (n' := set_link_count _ n) in *. set (k1 := upd_nodes _ k) in *.
  rewrite (mbind_run _ _ k1 (File_new nl mode) k1) in Hrun.
  2: { mstep_with (get_node_run k1 nl n' ltac:(apply lookup_insert_eq)).
       mstep_with (node_file_system_run k1 n' m (inv_ready _ Hinv) Hm).
       by apply (op_open_default k1 _ _ _ fs). }
  unfold FileDescriptor_new in Hrun. munfold Hrun. by simplify_eq.
Qed.

Section opened.
Context (k : kernel) (f : File) (n : FsNode).
Context (Hok : vfs_ok k) (Hn : nodes k !! file_node f = Some n).
Context (Hpos : (0 ≤ file_position f ≤ u64_max)%Z).
Context (Hwrap : no_wrap (opened_state f n k)).
Abbreviation k' := (opened_state f n k).

Lemma opened_fd : wrap64 (fd_count k) = fd_count k.
Proof.
  destruct Hwrap as (_ & _ & H), (inv_counts _ (vo_inv _ Hok)). simpl in H.
  unfold wrap64. apply Z.mod_small. lia.
Qed.

Lemma opened_fresh : files k !! fd_count k = None.
Proof.
  destruct (files k !! fd_count k) as [f'|] eqn:Hf; [|done].
  destruct (fo_file _ (vo_files _ Hok) _ _ Hf). lia.
Qed.

Lemma opened_inv : inv k'.
Proof.
  apply inv_upd_files, inv_set_fd_count.
  - eapply inv_put_node; [apply Hok|done|apply set_link_count_shape].
  - destruct Hwrap as (_ & _ & H). simpl in *. lia.
Qed.

Lemma opened_walk q : walk k' q = walk k q.
Proof.
  unfold opened_state. rewrite walk_upd_files, walk_set_fd_count.
  eapply put_walk; [done|apply set_link_count_shape].
Qed.

Lemma opened_files_ok : files_ok k'.
Proof.
  pose proof (vo_files _ Hok) as Hfo. split.
  - intros fd f'. simpl. rewrite opened_fd. intros [[<- <-]|[? Hf]]%lookup_insert_Some.
    + destruct (inv_counts _ (vo_inv _ Hok)). split; [lia|]. split; [|done].
      rewrite lookup_insert_eq. eauto.
    + destruct (fo_file _ Hfo _ _ Hf) as (? & ? & ?). split; [lia|]. split; [|done].
      rewrite lookup_insert_is_Some'. by right.
  - intros l n'. simpl. rewrite opened_fd, (open_count_insert_new _ _ _ _ opened_fresh).
    intros [[<- <-]|[Hne Hl]]%lookup_insert_Some.
    + rewrite decide_True by done. simpl. rewrite (fo_links _ Hfo _ _ Hn). lia.
    + rewrite decide_False by done. rewrite (fo_links _ Hfo _ _ Hl). lia.
  - intros l n'. simpl. intros [[<- <-]|[Hne Hl]]%lookup_insert_Some; [|by eapply fo_size].
    by apply (fo_size _ Hfo _ _ Hn).
Qed.
End opened.

(** ** [open] *)

(** File contents are kept. *)
Definition data_kept (k k' : kernel) : Prop := ∀ x n d, nodes k !! x = Some n →
  node_private_data n = Some (RamFileNode d) →
  ∃ n', nodes k' !! x = Some n' ∧ node_private_data n' = Some (RamFileNode d).

#[export] Instance data_kept_preorder : PreOrder data_kept.
Proof.
  split; [intros k x n d ? ?; eauto|]. intros k1 k2 k3 H1 H2 x n d Hx Hd.
  destruct (H1 _ _ _ Hx Hd) as (n' & Hx' & Hd'). eauto.
Qed.

Lemma ext_data_kept k k' : inv k → ext k k' → data_kept k k'.
Proof. intros Hinv Hext x n d Hx Hd. exists n. split; [|done]. by eapply ext_node. Qed.

Lemma created_data_kept k k' rp kind data c : inv k → created k k' rp kind data c → data_kept k k'.
Proof.
  intros Hinv Hcr x n d Hx Hd. destruct (cr_nodes _ _ _ _ _ _ Hcr _ _ Hx) as (n' & Hx' & _ & _ & _ & Hk).
  rewrite Hk in Hx'; [by eauto|]. destruct (inv_node _ Hinv _ _ Hx) as (_ & fs & _ & Hok).
  unfold node_ok in Hok. rewrite Hd in Hok. destruct fs; congruence.
Qed.

Lemma put_data_kept k l n n' : nodes k !! l = Some n → node_private_data n' = node_private_data n →
  data_kept k (upd_nodes <[l := n']> k).
Proof.
  intros Hn Hp x m d Hx Hd. simpl. rewrite lookup_insert. case_decide; [|by eauto].
  simplify_eq. exists n'. by rewrite Hp.
Qed.

(** The reference for [open]: whether the file is created, and its path. *)
Definition ref_open (k : kernel) (path : string) (mode : FileMode.t) : outcome IoError (bool * list string) :=
  match ref_resolve_path k path with
  | Panic p => Panic p
  | Err e => Err e
  | Ok (Some rp) =>
      if FileMode.is_mutating mode && from_option (view_is_dir k) false (walk k rp) then Err NotAFile
      else Ok (false, rp)
  | Ok None =>
      if FileMode.is_mutating mode then
        match ref_create k path with
        | Panic p => Panic p
        | Err e => Err e
        | Ok rp => Ok (true, rp)
        end
      else Err EntryNotFound
  end.

(** The first half of [open]. *)
Definition open_entry (path : string) (mode : FileMode.t) : KM loc :=
  o ← resolve_path path;
  if FileMode.is_mutating mode then
    match o with
    | Some entry => n ← entry_node entry; if is_directory n then fail NotAFile else mret entry
    | None => create_path FsNodeKind.File path
    end
  else ok_or EntryNotFound o.

Lemma open_unfold path mode k : open path mode k =
  scoped (λ _, []) (e ← open_entry path mode; nl ← entry_node_loc e; open_tail nl mode) k.
Proof. unfold open, open_entry. by destruct mode. Qed.

(** The entry a file is opened through, and what was done to get it. *)
Definition found (k k' : kernel) (cr : bool) (rp : list string) (l : loc) : Prop :=
  if cr then created k k' rp FsNodeKind.File (RamFileNode []) l else ext k k'.

Lemma found_vfs_ok k k' cr rp l : vfs_ok k → inv k' → found k k' cr rp l → vfs_ok k'.
Proof.
  intros Hok Hinv' Hf. split; [done|]. destruct cr; simpl in Hf.
  - eapply files_ok_created; [apply Hok|done].
  - eapply files_ok_ext; [apply Hok..|done].
Qed.

Lemma found_facts k k' cr rp l : inv k → inv k' → found k k' cr rp l →
  (∀ q, walk k' q = if decide (cr = true ∧ q = rp) then Some (VNode l) else walk k q) ∧
  data_kept k k' ∧ files k' = files k ∧ fd_count k' = fd_count k.
Proof.
  intros Hinv Hinv' Hf. destruct cr; simpl in Hf.
  - split_and!; [|by eapply created_data_kept|apply Hf|apply (cr_counts _ _ _ _ _ _ Hf)].
    intros q. rewrite (cr_walk _ _ _ _ _ _ Hf). repeat case_decide; naive_solver.
  - split_and!; [|by apply ext_data_kept|apply Hf..]. intros q.
    rewrite decide_False by naive_solver. by apply ext_walk.
Qed.

Lemma open_entry_spec path mode k r k' : inv k → open_entry path mode k = (r, k') → no_wrap k' →
  match r with
  | Panic p => p = ArithOverflow ∨ ref_open k path mode = Panic p
  | Err e => inv k' ∧ ext k k' ∧ (∃ hs, held k' = hs ++ held k) ∧ ref_open k path mode = Err e
  | Ok e => ∃ cr rp de, inv k' ∧ found k k' cr rp (de_node de) ∧ (∃ hs, held k' = hs ++ held k) ∧
      entries k' !! e = Some de ∧ rpath k' e = rp ∧ ref_open k path mode = Ok (cr, rp)
  end.
Proof.
  intros Hinv Hrun Hwrap. unfold open_entry in Hrun. unfold ref_open.
  apply resolve_then in Hrun as [(q & -> & [-> | ->])|[(e & -> & ? & ? & Hh & ->)|(k1 & o & Hrun & Hinv1
    & Hext1 & Hh1 & Href)]]; [by left|by right| | |done| |done].
  { split_and!; try done. by exists []. }
  2: { intros o. destruct (FileMode.is_mutating mode), o; apply _. }
  rewrite Href. destruct o as [e|]; simpl in *.
  - destruct (inv_held _ Hinv1 e) as [de He]; [rewrite Hh1; left|].
    destruct (inv_entry _ Hinv1 _ _ He) as (_ & _ & [n Hn] & _).
    assert (Hdir : from_option (view_is_dir k) false (walk k (rpath k1 e)) = is_directory n).
    { rewrite <- (ext_walk k k1), (walk_entry _ _ _ Hinv1 He) by done. simpl.
      rewrite <- (ext_view_is_dir k k1 (rpath k1 e)); [by apply view_is_dir_node|done..|].
      by rewrite <- (ext_walk k k1), (walk_entry _ _ _ Hinv1 He) by done. }
    rewrite Hdir. destruct (FileMode.is_mutating mode); simpl.
    + mstep (entry_node_run _ _ _ _ He Hn) in Hrun. destruct (is_directory n); munfold Hrun; simplify_eq.
      * split_and!; try done. by exists [e].
      * exists false, (rpath k' e), de. split_and!; try done. by exists [e].
    + munfold Hrun; simplify_eq. exists false, (rpath k' e), de. split_and!; try done. by exists [e].
  - destruct (FileMode.is_mutating mode); [|munfold Hrun; simplify_eq; split_and!; try done; by exists []].
    assert (Href1 : ref_resolve_path k1 path = Ok None) by (by rewrite (ext_ref_resolve_path k k1)).
    pose proof (create_path_spec _ (RamFileNode []) _ _ _ _ ltac:(by left) Hinv1 Href1 Hrun Hwrap) as Hspec.
    rewrite (ext_ref_create k k1) in Hspec by done. rewrite Hh1 in Hspec. destruct r as [e|e|q].
    + destruct Hspec as (rp & c & de & p & Hcr & Hh & He & <- & Hr & ->).
      exists true, rp, de. split_and!; try done; [apply Hcr|by apply (created_ext_l k k1)|by exists [e; p]].
    + destruct Hspec as (? & ? & (hs & Hh) & ->). split_and!; try done; [by etrans|by exists hs].
    + destruct Hspec as [->|Hspec]; [by left|right]. by rewrite Hspec.
Qed.

#[export] Instance open_tail_counts nl mode : Respects counts_le (open_tail nl mode).
Proof.
  unfold open_tail, increment_link_count.
  assert (Respects counts_le FileDescriptor_new).
  { intros k r k' [= <- <-]. unfold counts_le. simpl. lia. }
  assert (∀ f, Respects counts_le (modify (upd_files f))).
  { intros f. apply respects_modify. intros k. unfold counts_le. simpl. lia. }
  apply respects_bind; [apply _..|]. intros _. apply respects_defer; [apply _| | |].
  - unfold decrement_link_count. apply _.
  - do 2 (apply respects_bind; [apply _..|]; intros ?). apply (with_file_ops counts_le); intros l; simpl; apply _.
  - intros f. apply _.
Qed.

(** What [open] promises when it succeeds. *)
Record opened (k k' : kernel) (mode : FileMode.t) (cr : bool) (rp : list string) (fd : Z) (l : loc)
    : Prop := {
  opd_fd : fd = fd_count k ∧ files k !! fd = None;
  opd_files : files k' = <[fd := File_new l mode]> (files k);
  opd_node : walk k' rp = Some (node_view k' l);
  opd_walk q : walk k' q = if decide (cr = true ∧ q = rp) then Some (VNode l) else walk k q;
  opd_data : data_kept k k';
  opd_new : cr = true → ∃ n, nodes k' !! l = Some n ∧ node_private_data n = Some (RamFileNode []);
}.

Lemma open_found k k1 cr rp e de mode n : vfs_ok k → inv k1 → found k k1 cr rp (de_node de) →
  entries k1 !! e = Some de → rpath k1 e = rp → nodes k1 !! de_node de = Some n →
  no_wrap (opened_state (File_new (de_node de) mode) n k1) →
  let k' := opened_state (File_new (de_node de) mode) n k1 in
  vfs_ok k' ∧ opened k k' mode cr rp (wrap64 (fd_count k1)) (de_node de).
Proof.
  intros Hok Hinv1 Hf He Hr Hn Hwrap k'. pose proof (found_vfs_ok _ _ _ _ _ Hok Hinv1 Hf) as Hok1.
  destruct (found_facts _ _ _ _ _ (vo_inv _ Hok) Hinv1 Hf) as (Hw & Hd & Hfiles & Hfdc).
  assert (Hpos : (0 ≤ file_position (File_new (de_node de) mode) ≤ u64_max)%Z) by done.
  pose proof (opened_fd _ _ _ Hok1 Hwrap) as Hfd.
  split; [split; [by apply opened_inv|by apply opened_files_ok]|].
  rewrite Hfd, Hfdc. split.
  - split; [done|]. rewrite <- Hfdc, <- Hfiles. by apply opened_fresh.
  - simpl. by rewrite Hfd, Hfdc, Hfiles.
  - unfold k'. rewrite (opened_walk k1 (File_new (de_node de) mode)) by done.
    rewrite <- Hr, (walk_entry _ _ _ Hinv1 He). f_equal. symmetry.
    by apply (put_node_view k1 (de_node de) n).
  - intros q. unfold k'. by rewrite (opened_walk k1 (File_new (de_node de) mode)), Hw.
  - etrans; [done|]. by apply (put_data_kept k1 (de_node de) n).
  - intros ->. destruct (cr_node _ _ _ _ _ _ Hf) as (n0 & Hn0 & _ & Hp & _). simplify_eq.
    eexists. split; [apply lookup_insert_eq|done].
Qed.

Lemma vfs_ok_ext k k' : vfs_ok k → inv k' → ext k k' → vfs_ok k'.
Proof. intros [? ?] ? ?. split; [done|]. by apply (files_ok_ext k). Qed.
Lemma vfs_ok_gc k hs : vfs_ok k → inv (gc (set_held hs k)) → vfs_ok (gc (set_held hs k)).
Proof. intros Hok Hinv. apply (vfs_ok_ext k); [done..|apply ext_gc_held]. Qed.

Lemma opened_gc k k1 hs mode cr rp fd l : inv k1 → inv (gc (set_held hs k1)) →
  opened k k1 mode cr rp fd l → opened k (gc (set_held hs k1)) mode cr rp fd l.
Proof.
  intros Hinv1 Hinv' [? ? Hn Hw Hd Hnew]. pose proof (ext_gc_held k1 hs) as Hext. split; try done.
  - by rewrite (ext_walk k1).
  - intros q. rewrite <- Hw. by apply ext_walk.
Qed.

Lemma open_spec path mode k r k' : vfs_ok k → open path mode k = (r, k') → no_wrap k' →
  match r with
  | Panic p => p = ArithOverflow ∨ ref_open k path mode = Panic p
  | Err e => vfs_ok k' ∧ ext k k' ∧ held k' = held k ∧ ref_open k path mode = Err e
  | Ok fd => vfs_ok k' ∧ held k' = held k ∧ ∃ cr rp l, ref_open k path mode = Ok (cr, rp) ∧
      opened k k' mode cr rp fd l
  end.
Proof.
  intros Hok Hrun Hwrap. pose proof (vo_inv _ Hok) as Hinv. rewrite open_unfold in Hrun.
  apply scoped_run in Hrun as (k2 & Hrun & Hk'). pose proof (no_wrap_leave _ _ _ _ _ Hk' Hwrap) as Hwrap2.
  minv Hrun as e k1 He.
  2: { pose proof (open_entry_spec _ _ _ _ _ Hinv He Hwrap2) as (Hinv2 & Hext & (hs & Hh) & Href). subst.
       assert (Hinv' : inv (gc (set_held (held k) k2))) by (by eapply leave_scope_none).
       assert (Hext' : ext k (gc (set_held (held k) k2))) by (etrans; [done|apply ext_gc_held]).
       split_and!; [by eapply vfs_ok_ext|done..]. }
  2: { subst. exact (open_entry_spec _ _ _ _ _ Hinv He Hwrap2). }
  assert (Hwrap1 : no_wrap k1).
  { eapply counts_le_no_wrap; [|exact Hwrap2]. revert Hrun. apply respects_bind; apply _. }
  pose proof (open_entry_spec _ _ _ _ _ Hinv He Hwrap1) as (cr & rp & de & Hinv1 & Hf & (hs & Hh) & Hde & Hr & Href).
  mstep (entry_node_loc_run _ _ _ Hde) in Hrun.
  destruct (inv_entry _ Hinv1 _ _ Hde) as (_ & _ & [n Hn] & _).
  destruct (open_tail_run _ _ _ _ _ _ Hinv1 Hn Hrun) as [->|[-> ->]]; [by left|]. subst k'.
  destruct (open_found _ _ _ _ _ _ mode _ Hok Hinv1 Hf Hde Hr Hn Hwrap2) as [Hok2 Hopd].
  assert (Hinv' : inv (gc (set_held (held k) (opened_state (File_new (de_node de) mode) n k1)))).
  { eapply leave_scope_none; [apply Hok2|done]. }
  split; [by apply vfs_ok_gc|]. split; [done|]. exists cr, rp, (de_node de). split; [done|].
  apply opened_gc; [apply Hok2|done..].
Qed.
