(* ===== verification/VfsIo.v ===== *)
(** * [close], [read] and [write]

    Exact outcomes of the three operations on a descriptor, in terms of the
    node it is open on; all three keep the invariant. *)

From Stdlib Require Import Init.Byte.
From S2P Require Import Prelude Util FsTypes Fs Registry RamFs DevFs DirCache Path Vfs.
From S2P Require Import VfsFrame VfsInv VfsLookup VfsWalk VfsResolve VfsCreate VfsDirs.
From S2P Require Import VfsFiles.

(** The directory structures are untouched. *)
Definition same_dirs (k k' : kernel) : Prop :=
  entries k' = entries k ∧ held k' = held k ∧ mount_table k' = mount_table k.

(** ** Runs of the reads *)

Lemma get_file_run k fd f : files k !! fd = Some f → get_file fd k = (Ok f, k).
Proof. intros Hf. unfold get_file. rewrite mbind_gets. by rewrite Hf. Qed.
Lemma get_file_None k fd : files k !! fd = None → get_file fd k = (Err InvalidFile, k).
Proof. intros Hf. unfold get_file. rewrite mbind_gets. by rewrite Hf. Qed.

Lemma file_file_system_run k f n m : vfs_ready k = true → nodes k !! file_node f = Some n →
  mount_table k !! node_mount_id n = Some m →
  file_file_system f k = (Ok (mount_file_system m), k).
Proof.
  intros Hr Hn Hm. unfold file_file_system.
  rewrite (mbind_run _ _ k tt k) by (unfold vfs_get; rewrite mbind_gets; by rewrite Hr).
  mstep_with (get_node_run _ _ _ Hn). unfold get_mount. rewrite mbind_gets. by rewrite Hm.
Qed.

(** The operations of the file system a file is on. *)
Lemma file_ops_run {A} k f n (g : FileOperations → KM A) : vfs_ok k →
  nodes k !! file_node f = Some n →
  ∃ fs self, node_ok fs n ∧
    (fs ← file_file_system f; ops ← file_operations fs; g ops) k =
    g match fs with RamFileSystem _ => ram_file_operations self
                  | DevFileSystem _ => dev_file_operations self end k.
Proof.
  intros Hok Hn. pose proof (vo_inv _ Hok) as Hinv.
  destruct (node_mount _ _ _ Hinv Hn) as (m & fs & Hm & Hfs & _ & Hnok).
  exists fs, (mount_file_system m). split; [done|].
  mstep_with (file_file_system_run _ _ _ _ (inv_ready _ Hinv) Hn Hm).
  by mstep_with (file_operations_run _ _ _ Hfs).
Qed.

(** ** [close] *)

Definition closed_state (fd : Z) (f : File) (n : FsNode) (k : kernel) : kernel :=
  upd_nodes <[file_node f := set_link_count (link_count (node_metadata n) - 1) n]>
    (upd_files (delete fd) k).

Lemma close_run k fd f n : vfs_ok k → files k !! fd = Some f → nodes k !! file_node f = Some n →
  close fd k = (Ok tt, closed_state fd f n k).
Proof.
  intros Hok Hf Hn. unfold close. mstep_with (get_file_run _ _ _ Hf).
  destruct (file_ops_run k f n (λ ops, _ ← op_flush ops f; _ ← modify (upd_files (delete fd));
    decrement_link_count (file_node f)) Hok Hn) as (fs & self & _ & ->).
  rewrite (mbind_run _ _ k tt k) by (by destruct fs). rewrite mbind_modify.
  apply (decrement_link_count_run (upd_files (delete fd) k)); [done|].
  rewrite (fo_links _ (vo_files _ Hok) _ _ Hn). lia.
Qed.

Lemma closed_walk k fd f n q : nodes k !! file_node f = Some n →
  walk (closed_state fd f n k) q = walk k q.
Proof.
  intros Hn. unfold closed_state. rewrite <- (walk_upd_files (delete fd) k).
  by apply (put_walk (upd_files (delete fd) k) _ n).
Qed.

Lemma vfs_ok_closed k fd f n : vfs_ok k → files k !! fd = Some f → nodes k !! file_node f = Some n →
  vfs_ok (closed_state fd f n k).
Proof.
  intros [Hinv Hfo] Hf Hn. split.
  { eapply inv_put_node; [by apply inv_upd_files|done|apply set_link_count_shape]. }
  split.
  - intros fd' f'. simpl. intros [Hne Hf']%lookup_delete_Some. destruct (fo_file _ Hfo _ _ Hf') as (? & ? & ?).
    split; [done|]. split; [|done]. simpl. apply lookup_insert_is_Some'. by right.
  - intros l n'. simpl. pose proof (open_count_delete _ _ _ l Hf) as Hc.
    intros [[<- <-]|[Hne Hl]]%lookup_insert_Some.
    + rewrite decide_True in Hc by done. simpl. rewrite (fo_links _ Hfo _ _ Hn). lia.
    + rewrite decide_False in Hc by done. rewrite (fo_links _ Hfo _ _ Hl). lia.
  - intros l n'. simpl. intros [[<- <-]|[Hne Hl]]%lookup_insert_Some; [|by eapply fo_size].
    by apply (fo_size _ Hfo _ _ Hn).
Qed.

(** The device file system passes the call to the device behind the node. *)
Lemma dev_dispatch_run {A} k l n d (x : CharDevice → KM A) : nodes k !! l = Some n →
  node_private_data n = Some (CharDeviceNode d) → node_kind n = FsNodeKind.CharDevice →
  (n ← get_node l;
   match node_kind n with
   | FsNodeKind.CharDevice => c_dev ← data_as_CharDevice n; x c_dev
   | FsNodeKind.BlockDevice => panic Todo
   | _ => panic Unreachable
   end) k = x d k.
Proof.
  intros Hn Hp Hk. mstep_with (get_node_run _ _ _ Hn). rewrite Hk. unfold data_as_CharDevice. by rewrite Hp.
Qed.

(** ** [read] *)

(** What [read] gives for a file [f] on the node [n]. *)
Definition ref_read (n : FsNode) (f : File) (buffer : list byte) : outcome IoError (Z * list byte) :=
  if decide (node_kind n = FsNodeKind.Directory) then Panic AssertFailed
  else if decide (file_mode f ≠ FileMode.Read) then Err InvalidMode
  else match node_private_data n with
       | Some (RamFileNode data) => Ok (read_at data (file_position f) buffer)
       | Some (CharDeviceNode ZeroDevice) => Ok (Z.of_nat (length buffer), replicate (length buffer) x00)
       | _ => Err OperationNotSupported
       end.

(** The state after the position of [fd] moves by [c]. *)
Definition moved_state (fd : Z) (f : File) (c : Z) (k : kernel) : kernel :=
  upd_files <[fd := set_position (file_position f + c) f]> k.

Lemma store_position_run k fd f c : files k !! fd = Some f →
  store_position fd (file_position f + c) k = (Ok tt, moved_state fd f c k).
Proof.
  intros Hf. unfold store_position, modify, moved_state, upd_files.
  by rewrite (alter_as_insert _ _ _ _ Hf).
Qed.

Lemma read_run k fd f n buffer : vfs_ok k → files k !! fd = Some f →
  nodes k !! file_node f = Some n →
  read fd buffer k =
    match ref_read n f buffer with
    | Panic p => (Panic p, k)
    | Err e => (Err e, k)
    | Ok r => if decide (file_position f + r.1 ≤ u64_max)%Z then (Ok r, moved_state fd f r.1 k)
              else (Panic ArithOverflow, k)
    end.
Proof.
  intros Hok Hf Hn. unfold read, ref_read. mstep_with (get_file_run _ _ _ Hf).
  mstep_with (get_node_run _ _ _ Hn). destruct (decide (node_kind n = FsNodeKind.Directory)) as [Hd|Hd].
  { unfold mbind, M_bind. rewrite bool_decide_eq_false_2 by (by intros []). done. }
  rewrite bool_decide_eq_true_2 by done. rewrite (mbind_run _ _ k tt k) by done.
  case_decide; [done|].
  destruct (file_ops_run k f n (λ ops, r ← op_read ops f (file_position f) buffer;
    p ← checked_add (file_position f) r.1; _ ← store_position fd p; mret r) Hok Hn)
    as (fs & self & Hnok & ->). unfold node_ok in Hnok.
  assert (Hfin : ∀ r : Z * list byte, (p ← checked_add (file_position f) r.1; _ ← store_position fd p; mret r) k =
    if decide (file_position f + r.1 ≤ u64_max)%Z then (Ok r, moved_state fd f r.1 k)
    else (Panic ArithOverflow, k)).
  { intros r. unfold checked_add. case_decide; [|done]. rewrite mbind_ret.
    by mstep_with (store_position_run _ _ _ r.1 Hf). }
  destruct fs; simpl.
  - unfold ram_read. destruct (node_private_data n) as [[data| |]|] eqn:Hp; try (done || congruence).
    rewrite (mbind_run _ _ k (read_at data (file_position f) buffer) k); [apply Hfin|].
    mstep_with (get_node_run _ _ _ Hn). unfold data_as_RamFileNode. by rewrite Hp.
  - unfold dev_read. destruct (node_private_data n) as [[| |d]|] eqn:Hp; try (done || congruence).
    unfold mbind at 1, M_bind at 1. rewrite (dev_dispatch_run _ _ _ d _ Hn Hp Hnok).
    destruct d; [done|]. apply Hfin.
Qed.

Lemma vfs_ok_moved k fd f c : vfs_ok k → files k !! fd = Some f →
  (0 ≤ c)%Z → (file_position f + c ≤ u64_max)%Z → vfs_ok (moved_state fd f c k).
Proof.
  intros [Hinv Hfo] Hf Hc Hmax. split; [by apply inv_upd_files|]. split.
  - intros fd' f'. simpl. intros [[<- <-]|[Hne Hf']]%lookup_insert_Some.
    + destruct (fo_file _ Hfo _ _ Hf) as (? & ? & ?). split; [done|]. split; [done|]. simpl. lia.
    + by apply (fo_file _ Hfo).
  - intros l n Hn. simpl. rewrite (open_count_update _ _ f) by done. by apply (fo_links _ Hfo).
  - apply (fo_size _ Hfo).
Qed.

(** Reading a RAM file does not overflow the position. *)
Lemma read_at_position data p buffer : (0 ≤ p)%Z →
  (0 ≤ (read_at data p buffer).1 ∧
   p + (read_at data p buffer).1 ≤ Z.max p (Z.of_nat (length data)))%Z.
Proof. intros Hp. destruct (read_at_spec data p buffer Hp) as (Hn & H1 & _). lia. Qed.

Lemma ref_read_count n f buffer r : (0 ≤ file_position f)%Z → ref_read n f buffer = Ok r → (0 ≤ r.1)%Z.
Proof.
  intros Hp. unfold ref_read. repeat case_decide; try done.
  destruct (node_private_data n) as [[data| |[]]|]; intros [= <-]; [by apply read_at_position|simpl; lia].
Qed.

Lemma read_spec k fd buffer r k' : vfs_ok k → read fd buffer k = (r, k') →
  (is_panic r = false → vfs_ok k') ∧ (∀ q, walk k' q = walk k q) ∧ nodes k' = nodes k ∧
  same_dirs k k'.
Proof.
  intros Hok Hrun. destruct (files k !! fd) as [f|] eqn:Hf.
  2: { unfold read in Hrun. unfold mbind at 1, M_bind at 1 in Hrun.
       rewrite (get_file_None _ _ Hf) in Hrun. by simplify_eq. }
  destruct (fo_file _ (vo_files _ Hok) _ _ Hf) as (_ & [n Hn] & Hp).
  rewrite (read_run _ _ _ _ _ Hok Hf Hn) in Hrun.
  destruct (ref_read n f buffer) as [c|e|p] eqn:Hr; [|by simplify_eq..].
  case_decide; simplify_eq; [|done].
  pose proof (ref_read_count _ _ _ _ (proj1 Hp) Hr).
  split_and!; [intros _; by apply vfs_ok_moved|apply walk_upd_files|done..].
Qed.

(** ** [write] *)

(** What [write] gives, and what it makes of the node. *)
Definition ref_write (n : FsNode) (f : File) (buffer : list byte) : outcome IoError FsNode :=
  if decide (node_kind n = FsNodeKind.Directory) then Panic AssertFailed
  else if decide (file_mode f ≠ FileMode.Write) then Err InvalidMode
  else match node_private_data n with
       | Some (RamFileNode data) =>
           Ok (set_private_data (RamFileNode (write_at data (file_position f) buffer)) n)
       | Some (CharDeviceNode NullDevice) => Ok n
       | _ => Err OperationNotSupported
       end.

Definition written_state (fd : Z) (f : File) (n' : FsNode) (buffer : list byte) (k : kernel) : kernel :=
  moved_state fd f (Z.of_nat (length buffer)) (upd_nodes <[file_node f := n']> k).

Lemma upd_nodes_id k l n : nodes k !! l = Some n → upd_nodes <[l := n]> k = k.
Proof. intros Hn. unfold upd_nodes. rewrite insert_id by done. by destruct k. Qed.

Lemma write_run k fd f n buffer : vfs_ok k → files k !! fd = Some f →
  nodes k !! file_node f = Some n →
  write fd buffer k =
    match ref_write n f buffer with
    | Panic p => (Panic p, k)
    | Err e => (Err e, k)
    | Ok n' => if decide (file_position f + Z.of_nat (length buffer) ≤ u64_max)%Z
               then (Ok (Z.of_nat (length buffer)), written_state fd f n' buffer k)
               else (Panic ArithOverflow, k)
    end.
Proof.
  intros Hok Hf Hn. unfold write, ref_write. mstep_with (get_file_run _ _ _ Hf).
  mstep_with (get_node_run _ _ _ Hn). destruct (decide (node_kind n = FsNodeKind.Directory)) as [Hd|Hd].
  { unfold mbind, M_bind. rewrite bool_decide_eq_false_2 by (by intros []). done. }
  rewrite bool_decide_eq_true_2 by done. rewrite (mbind_run _ _ k tt k) by done.
  case_decide; [done|].
  destruct (file_ops_run k f n (λ ops, c ← op_write ops f (file_position f) buffer;
    p ← checked_add (file_position f) c; _ ← store_position fd p; mret c) Hok Hn)
    as (fs & self & Hnok & ->). unfold node_ok in Hnok.
  set (len := Z.of_nat (length buffer)).
  assert (Hfin : ∀ n', (p ← checked_add (file_position f) len; _ ← store_position fd p; mret len)
    (upd_nodes <[file_node f := n']> k) =
    if decide (file_position f + len ≤ u64_max)%Z then (Ok len, written_state fd f n' buffer k)
    else (Panic ArithOverflow, upd_nodes <[file_node f := n']> k)).
  { intros n'. unfold checked_add. case_decide; [|done]. rewrite mbind_ret.
    by mstep_with (store_position_run (upd_nodes <[file_node f := n']> k) _ _ len Hf). }
  destruct fs; simpl.
  - unfold ram_write. destruct (node_private_data n) as [[data| |]|] eqn:Hp; try (done || congruence).
    set (n' := set_private_data _ n). unfold mbind at 1, M_bind at 1.
    mstep_with (get_node_run _ _ _ Hn). unfold data_as_RamFileNode at 1. rewrite Hp, mbind_ret.
    unfold checked_add at 1. fold len. destruct (decide _) as [Hmax|]; [|done].
    rewrite mbind_ret. unfold put_node. rewrite mbind_modify.
    exact (Hfin n').
  - unfold dev_write. destruct (node_private_data n) as [[| |d]|] eqn:Hp; try (done || congruence).
    unfold mbind at 1, M_bind at 1. rewrite (dev_dispatch_run _ _ _ d _ Hn Hp Hnok).
    destruct d; [|done]. pose proof (Hfin n) as Hfin'. rewrite (upd_nodes_id _ _ _ Hn) in Hfin'. exact Hfin'.
Qed.

Lemma vfs_ok_written k fd f n n' buffer : vfs_ok k → files k !! fd = Some f →
  nodes k !! file_node f = Some n → ref_write n f buffer = Ok n' →
  (file_position f + Z.of_nat (length buffer) ≤ u64_max)%Z →
  vfs_ok (written_state fd f n' buffer k) ∧
  ∀ q, walk (written_state fd f n' buffer k) q = walk k q.
Proof.
  intros Hok Hf Hn Hw Hmax. destruct (fo_file _ (vo_files _ Hok) _ _ Hf) as (_ & _ & Hp).
  assert (Hn' : node_shape n' = node_shape n ∧ node_metadata n' = node_metadata n ∧
    (Z.of_nat (length (node_bytes n')) ≤ u64_max)%Z).
  { pose proof (fo_size _ (vo_files _ Hok) _ _ Hn) as Hs.
    unfold ref_write in Hw. repeat case_decide; try done.
    destruct (node_private_data n) as [[data| |[]]|] eqn:Hd; simplify_eq; [|done].
    unfold node_shape. simpl. rewrite Hd. split_and!; [done..|].
    unfold node_bytes in *. simpl. rewrite Hd in Hs. rewrite write_at_length by lia. lia. }
  destruct Hn' as (Hsh & Hmd & Hsz). unfold written_state. set (k1 := upd_nodes _ k).
  split.
  - apply vfs_ok_moved; [|done|lia|done]. split.
    + eapply inv_put_node; [apply Hok|done..].
    + destruct (vo_files _ Hok) as [Hfo1 Hfo2 Hfo3]. split.
      * intros fd' f' Hf'. destruct (Hfo1 _ _ Hf') as (? & ? & ?). split; [done|]. split; [|done].
        apply lookup_insert_is_Some'. by right.
      * intros l m. simpl. intros [[<- <-]|[? ?]]%lookup_insert_Some; [rewrite Hmd|]; by apply Hfo2.
      * intros l m. simpl. intros [[<- <-]|[? ?]]%lookup_insert_Some; [done|]. by eapply Hfo3.
  - intros q. unfold moved_state. rewrite walk_upd_files. by eapply put_walk.
Qed.

Lemma write_spec k fd buffer r k' : vfs_ok k → write fd buffer k = (r, k') →
  (is_panic r = false → vfs_ok k') ∧ (∀ q, walk k' q = walk k q) ∧ same_dirs k k'.
Proof.
  intros Hok Hrun. destruct (files k !! fd) as [f|] eqn:Hf.
  2: { unfold write in Hrun. unfold mbind at 1, M_bind at 1 in Hrun.
       rewrite (get_file_None _ _ Hf) in Hrun. by simplify_eq. }
  destruct (fo_file _ (vo_files _ Hok) _ _ Hf) as (_ & [n Hn] & Hp).
  rewrite (write_run _ _ _ _ _ Hok Hf Hn) in Hrun.
  destruct (ref_write n f buffer) as [n'|e|p] eqn:Hr; [|by simplify_eq..].
  case_decide; simplify_eq; [|done].
  destruct (vfs_ok_written _ _ _ _ _ _ Hok Hf Hn Hr) as [? ?]; done.
Qed.

Lemma close_spec k fd r k' : vfs_ok k → close fd k = (r, k') →
  vfs_ok k' ∧ (∀ q, walk k' q = walk k q) ∧ same_dirs k k' ∧ is_panic r = false.
Proof.
  intros Hok Hrun. destruct (files k !! fd) as [f|] eqn:Hf.
  2: { unfold close in Hrun. unfold mbind at 1, M_bind at 1 in Hrun.
       rewrite (get_file_None _ _ Hf) in Hrun. by simplify_eq. }
  destruct (fo_file _ (vo_files _ Hok) _ _ Hf) as (_ & [n Hn] & Hp).
  rewrite (close_run _ _ _ _ Hok Hf Hn) in Hrun. simplify_eq.
  split_and!; [by apply vfs_ok_closed|intros; by apply closed_walk|done..].
Qed.
