(* ===== verification/VfsReadDir.v ===== *)
(** * [read_directory] and [stat]

    A listing holds exactly the names the name space has in the directory,
    with their kinds: the children in the backing file system and the roots of
    the mounts placed there. *)

From Stdlib Require Import Init.Byte.
From S2P Require Import Prelude Util FsTypes Fs Registry RamFs DevFs DirCache Path Vfs.
From S2P Require Import VfsFrame VfsInv VfsLookup VfsWalk VfsResolve VfsCreate VfsDirs.
From S2P Require Import VfsMount.

(** ** Listings *)

(** A listing entry is right for a view: its name, the kind of the node, and its
    id unless it is a device, for which every listing takes a new one. *)
Definition view_kind (k : kernel) (v : view) : option FsNodeKind.t :=
  match v with
  | VNode l => node_kind <$> nodes k !! l
  | VDev _ _ => Some FsNodeKind.CharDevice
  end.
Definition view_id (k : kernel) (v : view) : option Z :=
  match v with VNode l => node_id <$> nodes k !! l | VDev _ _ => None end.
Definition lists (k : kernel) (s : string) (v : view) (o : option DirectoryIterationEntry) : Prop :=
  ∃ d, o = Some d ∧ die_name d = s ∧ Some (die_kind d) = view_kind k v ∧ ∀ i, view_id k v = Some i → die_id d = i.
(** [ctx] lists the names of [f], in a directory listing. *)
Definition lists_fun (k : kernel) (f : string → option view) (ctx : DirectoryIterationContext) : Prop :=
  ∀ s, match f s with
       | Some v => lists k s v (ctx !! s)
       | None => ctx !! s = None
       end.

Lemma ram_list_children_run k : ∀ l ctx, NoDup l.*1 →
  (∀ s c, (s, c) ∈ l → is_Some (nodes k !! c)) →
  ∃ ctx', ram_list_children l ctx k = (Ok ctx', k) ∧
    (∀ s c, (s, c) ∈ l → lists k s (VNode c) (ctx' !! s)) ∧
    (∀ s, s ∉ l.*1 → ctx' !! s = ctx !! s).
Proof.
  induction l as [|[s c] l IH]; intros ctx Hnd Hl.
  { exists ctx. split_and!; [done|by intros s c ?%not_elem_of_nil|done]. }
  destruct (Hl s c) as [n Hn]; [left|]. apply NoDup_cons in Hnd as [Hs Hnd].
  destruct (IH (DirectoryIterationContext_insert s (node_id n) (node_kind n) ctx))
    as (ctx' & Hrun & Hin & Hout); [done|intros s' c' ?; eapply Hl; by right|].
  exists ctx'. split_and!.
  - cbn [ram_list_children]. by mstep_with (get_node_run _ _ _ Hn).
  - intros s' c' [[= -> ->]|Hin']%elem_of_cons; [|by apply Hin].
    exists {| die_name := s; die_id := node_id n; die_kind := node_kind n |}.
    rewrite (Hout s Hs). unfold DirectoryIterationContext_insert. rewrite lookup_insert_eq.
    simpl. rewrite Hn. split_and!; try done. by intros i [= <-].
  - intros s' Hs'. rewrite fmap_cons in Hs'. apply not_elem_of_cons in Hs' as [? ?].
    rewrite Hout by done. unfold DirectoryIterationContext_insert. by rewrite lookup_insert_ne.
Qed.

Lemma dev_list_devices_run self : ∀ devs ctx k r k' fs, inv k → file_systems k !! self = Some fs →
  dev_list_devices self devs ctx k = (r, k') →
  r = Panic ArithOverflow ∨
  ∃ ctx', r = Ok ctx' ∧ inv k' ∧ ext k k' ∧ held k' = held k ∧ entries k' = entries k ∧
    (∀ s d, d ∈ devs → cdm_name (char_device_metadata d) = s →
      ∃ e, ctx' !! s = Some e ∧ die_name e = s ∧ die_kind e = FsNodeKind.CharDevice) ∧
    (∀ s, (∀ d, d ∈ devs → cdm_name (char_device_metadata d) ≠ s) → ctx' !! s = ctx !! s).
Proof.
  induction devs as [|d devs IH]; intros ctx k r k' fs Hinv Hfs Hrun; cbn [dev_list_devices] in Hrun.
  { munfold Hrun. simplify_eq. right. exists ctx. split_and!; try done. by intros s d ?%not_elem_of_nil. }
  minv Hrun as id k1 Hid; pose proof (next_node_id_ext _ _ _ _ Hid) as Hext;
    destruct (next_node_id_cases _ _ _ _ _ Hfs Hid) as [[? ?]|(id' & c & ? & ?)]; simplify_eq; [|by left].
  set (k1 := upd_file_systems _ k) in *.
  assert (Hinv1 : inv k1) by (by apply inv_next_node_id).
  destruct (IH _ _ _ _ (set_next_node_id c fs) Hinv1 ltac:(apply lookup_insert_eq) Hrun)
    as [->|(ctx' & -> & Hinv' & Hext' & Hh & He & Hin & Hout)]; [by left|right].
  exists ctx'. split_and!; try done; [by etrans| |].
  - intros s d' Hd' Hs.
    destruct (decide (Exists (λ d, cdm_name (char_device_metadata d) = s) devs)) as [(d2 & ? & ?)%Exists_exists|Hno].
    { by apply (Hin s d2). }
    apply elem_of_cons in Hd' as [->|Hd'].
    2: { destruct Hno. apply Exists_exists. eauto. }
    rewrite Hout by (intros d2 ? ?; apply Hno, Exists_exists; eauto).
    unfold DirectoryIterationContext_insert. rewrite Hs, lookup_insert_eq. eauto.
  - intros s Hs. rewrite Hout by (intros d2 Hd2; apply Hs; by right).
    unfold DirectoryIterationContext_insert. rewrite lookup_insert_ne; [done|]. apply Hs. left.
Qed.

(** The default listing of a file system holds the backing children. *)
Lemma op_read_directory_spec k p pe pn m fs r k' : inv k →
  entries k !! p = Some pe → nodes k !! de_node pe = Some pn → node_kind pn = FsNodeKind.Directory →
  mount_table k !! node_mount_id pn = Some m → file_systems k !! mount_file_system m = Some fs →
  op_read_directory match fs with RamFileSystem _ => ram_directory_operations (mount_file_system m)
                                | DevFileSystem _ => dev_directory_operations (mount_file_system m) end
    DirectoryIterationContext_new p k = (r, k') →
  r = Panic ArithOverflow ∨
  ∃ ctx, r = Ok ctx ∧ inv k' ∧ ext k k' ∧ held k' = held k ∧ entries k' = entries k ∧
    lists_fun k (view_child k (VNode (de_node pe))) ctx.
Proof.
  intros Hinv Hpe Hpn Hkind Hm Hfs Hrun.
  assert (Hmfs : mount_fs k (node_mount_id pn) = Some fs) by (unfold mount_fs; by rewrite Hm).
  assert (Hok : node_ok fs pn).
  { destruct (inv_node _ Hinv _ _ Hpn) as (_ & fs' & ? & ?). by simplify_eq. }
  pose proof (λ s, view_child_run _ _ _ _ s Hpn Hmfs) as Hvc. unfold node_ok in Hok.
  destruct fs as [i|i]; simpl in Hrun.
  - destruct (node_private_data pn) as [[|ch|]|] eqn:Hp; try (done || congruence).
    unfold ram_read_directory in Hrun. mstep (entry_node_loc_run _ _ _ Hpe) in Hrun.
    mstep (get_node_run _ _ _ Hpn) in Hrun. unfold data_as_RamDirectoryNode in Hrun.
    rewrite Hp, mbind_ret in Hrun. right.
    destruct (ram_list_children_run k (btree_iter String.le ch) DirectoryIterationContext_new)
      as (ctx & Hctx & Hin & Hout).
    { apply btree_iter_nodup. }
    { intros s c Hc%elem_of_btree_iter. destruct (inv_child _ Hinv _ _ _ _ _ Hpn Hp Hc) as (_ & cn & ? & _). eauto. }
    rewrite Hctx in Hrun. simplify_eq. exists ctx. split_and!; try done.
    intros s. rewrite Hvc. destruct (ch !! s) as [c|] eqn:Hc; simpl.
    + apply Hin. by apply elem_of_btree_iter.
    + rewrite Hout; [done|]. intros ([s' c] & -> & Hs%elem_of_btree_iter)%list_elem_of_fmap. simpl in *. congruence.
  - unfold dev_read_directory, list_char_devices in Hrun. rewrite mbind_gets in Hrun.
    destruct (dev_list_devices_run _ _ _ _ _ _ _ Hinv Hfs Hrun)
      as [->|(ctx & -> & ? & ? & ? & ? & Hin & Hout)]; [by left|right].
    exists ctx. split_and!; try done. intros s. rewrite Hvc. unfold is_directory.
    rewrite bool_decide_eq_true_2 by done. destruct (char_registry k !! s) as [d|] eqn:Hd; simpl.
    + destruct (Hin s d) as (e & He & Hn & Hk); [apply elem_of_btree_values; eauto|by apply (inv_chars _ Hinv)|].
      exists e. split_and!; try done. simpl. by rewrite Hk.
    + rewrite Hout; [done|]. intros d (s' & Hs')%elem_of_btree_values Hn.
      pose proof (inv_chars _ Hinv _ _ Hs'). congruence.
Qed.

Lemma lists_ext k k1 s v o : inv k → ext k k1 → lists k s v o → lists k1 s v o.
Proof.
  intros Hinv Hext (d & -> & Hs & Hk & Hi). exists d. split; [done|]. split; [done|].
  destruct v as [l|]; [|done]. simpl in *. destruct (nodes k !! l) as [n|] eqn:Hn; [|done].
  by rewrite (ext_node _ _ _ _ Hinv Hext Hn).
Qed.

(** The mounts in a directory are added to its listing. *)
Lemma list_mounts_run k dir te : inv k → entries k !! dir = Some te → ∀ mnts ctx,
  (∀ m, m ∈ mnts → mount_root m ∈ mount_roots k) →
  ∃ ctx', list_mounts mnts dir ctx k = (Ok ctx', k) ∧
    (∀ m re, m ∈ mnts → entries k !! mount_root m = Some re → de_parent re = Some dir →
      lists k (de_name re) (VNode (de_node re)) (ctx' !! de_name re)) ∧
    (∀ s, (∀ m re, m ∈ mnts → entries k !! mount_root m = Some re →
        ¬ (de_parent re = Some dir ∧ de_name re = s)) → ctx' !! s = ctx !! s).
Proof.
  intros Hinv Hte. induction mnts as [|m mnts IH]; intros ctx Hall.
  { exists ctx. split_and!; [done| |done]. by intros m re ?%not_elem_of_nil. }
  destruct (mount_root_live _ (mount_root m) Hinv) as [re Hre]; [apply Hall; left|].
  destruct (inv_entry _ Hinv _ _ Hre) as (_ & _ & [n Hn] & _).
  set (ctx1 := if decide (de_parent re = Some dir)
    then DirectoryIterationContext_insert (de_name re) (node_id n) (node_kind n) ctx else ctx).
  destruct (IH ctx1) as (ctx' & Hrun & Hin & Hout); [intros; apply Hall; by right|].
  exists ctx'. split_and!.
  - cbn [list_mounts]. mstep_with (get_entry_run _ _ _ Hre). unfold ctx1 in Hrun.
    destruct (de_parent re) as [q|] eqn:Hq; [|by rewrite decide_False in Hrun].
    destruct (inv_parent _ Hinv _ _ _ Hre Hq) as (_ & qe & Hqe & _).
    mstep_with (entry_eq_run _ _ _ _ _ Hqe Hte). case_bool_decide as Hid.
    + rewrite decide_True in Hrun by (f_equal; by eapply inv_entry_inj).
      by mstep_with (get_node_run _ _ _ Hn).
    + rewrite decide_False in Hrun; [done|]. intros [= ->]. congruence.
  - intros m' re' Hm' Hre' Hp'. destruct (decide (Exists (λ m2, mount_root m2 = mount_root m') mnts))
      as [(m2 & Hm2 & Heq)%Exists_exists|Hno].
    { apply (Hin m2); [done|by rewrite Heq|done]. }
    apply elem_of_cons in Hm' as [->|Hm']; [|by destruct Hno; apply Exists_exists; eauto].
    simplify_eq. rewrite Hout.
    + unfold ctx1. rewrite decide_True by done. unfold DirectoryIterationContext_insert.
      rewrite lookup_insert_eq. eexists. simpl. rewrite Hn. split_and!; [done..|]. by intros i [= <-].
    + intros m2 r2 Hm2 Hr2 [Hp2 Hn2]. apply Hno, Exists_exists. exists m2. split; [done|].
      eapply child_unique; [done..| |done]. congruence.
  - intros s Hs. rewrite Hout by (intros m2 r2 Hm2; apply Hs; by right). unfold ctx1.
    case_decide as Hp; [|done]. unfold DirectoryIterationContext_insert. rewrite lookup_insert_ne; [done|].
    intros Heq. eapply (Hs m re); [left|done..].
Qed.

(** Mount points in a directory, by parent and name. *)
Lemma mount_at_child_iff k dir te s l : inv k → entries k !! dir = Some te →
  mount_at k (s :: rpath k dir) = Some l ↔
  ∃ m re, m ∈ btree_values Z.le (mount_table k) ∧ entries k !! mount_root m = Some re ∧
    de_parent re = Some dir ∧ de_name re = s ∧ de_node re = l.
Proof.
  intros Hinv Hte. rewrite mount_at_Some by done. split.
  - intros (e & de & Hm & He & Hr & Hl). destruct (mount_roots_values _ _ Hm) as (m & Hm' & <-).
    exists m, de. destruct (de_parent de) as [q|] eqn:Hq; [|by rewrite (rpath_top _ _ _ He Hq) in Hr].
    rewrite (rpath_child _ _ _ _ Hinv He Hq) in Hr. injection Hr as Hn Hr.
    destruct (inv_parent _ Hinv _ _ _ He Hq) as (_ & qe & Hqe & _).
    by rewrite (rpath_inj _ _ Hinv _ _ _ Hqe Hte Hr).
  - intros (m & re & Hm & Hre & Hp & <- & <-). exists (mount_root m), re. split_and!; try done.
    + by apply mount_values_roots.
    + by rewrite (rpath_child _ _ _ _ Hinv Hre Hp).
Qed.

Lemma walk_child_eq k dir te s : inv k → entries k !! dir = Some te → is_dir_at k (de_node te) →
  walk k (s :: rpath k dir) =
    match mount_at k (s :: rpath k dir) with
    | Some l => Some (VNode l)
    | None => view_child k (VNode (de_node te)) s
    end.
Proof.
  intros Hinv Hte Hdir. cbn [walk]. by rewrite (walk_entry _ _ _ Hinv Hte), dir_node_view.
Qed.

(** ** [read_directory] *)

(** The reference: the path of the directory to list. *)
Definition ref_read_directory (k : kernel) (path : string) : outcome IoError (list string) :=
  match ref_resolve_path k path with
  | Panic p => Panic p
  | Err e => Err e
  | Ok None => Err EntryNotFound
  | Ok (Some rp) =>
      if from_option (view_is_dir k) false (walk k rp) then Ok rp else Err NotADirectory
  end.

(** The body after the path has been resolved to a directory. *)
Definition list_directory (directory : loc) (n : FsNode) : KM DirectoryIterationContext :=
  fs ← node_file_system n;
  ops ← directory_operations fs;
  ctx ← op_read_directory ops DirectoryIterationContext_new directory;
  mnts ← gets (λ k, btree_values Z.le (mount_table k));
  list_mounts mnts directory ctx.

Lemma list_directory_spec k dir te n r k' : inv k → entries k !! dir = Some te →
  nodes k !! de_node te = Some n → node_kind n = FsNodeKind.Directory →
  list_directory dir n k = (r, k') →
  r = Panic ArithOverflow ∨
  ∃ ctx, r = Ok ctx ∧ inv k' ∧ ext k k' ∧ held k' = held k ∧
    lists_fun k' (λ s, walk k (s :: rpath k dir)) ctx.
Proof.
  intros Hinv Hte Hn Hk Hrun. unfold list_directory in Hrun.
  destruct (node_mount _ _ _ Hinv Hn) as (m & fs & Hm & Hfs & _ & _).
  mstep (node_file_system_run _ _ _ (inv_ready _ Hinv) Hm) in Hrun.
  mstep (directory_operations_run _ _ _ Hfs) in Hrun.
  minv Hrun as ctx k1 Hop;
    (destruct (op_read_directory_spec _ _ _ _ _ _ _ _ Hinv Hte Hn Hk Hm Hfs Hop)
      as [?|(ctx0 & ? & Hinv1 & Hext & Hh & He & Hl)]; simplify_eq; try by left). right.
  rewrite mbind_gets in Hrun. assert (Hte1 : entries k1 !! dir = Some te) by (by rewrite He).
  destruct (list_mounts_run k1 dir te Hinv1 Hte1 _ ctx0 (mount_values_roots k1)) as (ctx' & Hlm & Hin & Hout).
  rewrite Hlm in Hrun. simplify_eq. exists ctx'. split_and!; try done. intros s.
  assert (Hdir : is_dir_at k (de_node te)) by (by exists n).
  rewrite (walk_child_eq _ _ _ _ Hinv Hte Hdir), <- (ext_mount_at k k') by done.
  assert (Hrp : rpath k' dir = rpath k dir) by (apply ext_rpath; eauto). rewrite <- Hrp.
  destruct (mount_at k' (s :: rpath k' dir)) as [l|] eqn:Hmt.
  - apply (mount_at_child_iff _ _ _ _ _ Hinv1 Hte1) in Hmt as (m' & re & Hm' & Hre & Hp & <- & <-).
    by apply (Hin m').
  - rewrite Hout.
    + specialize (Hl s). destruct (view_child k _ s); [|done]. by apply (lists_ext k k').
    + intros m' re Hm' Hre [Hp Hs]. assert (mount_at k' (s :: rpath k' dir) = Some (de_node re)); [|congruence].
      apply (mount_at_child_iff _ _ _ _ _ Hinv1 Hte1). eauto 10.
Qed.

#[export] Instance ram_list_children_respects R `{!PreOrder R} l : ∀ ctx,
  Respects R (ram_list_children l ctx).
Proof. induction l as [|[]]; intros ctx; simpl; apply _. Qed.
#[export] Instance dev_list_devices_ext self l : ∀ ctx, Respects ext (dev_list_devices self l ctx).
Proof. induction l; intros ctx; simpl; apply _. Qed.
#[export] Instance list_mounts_respects R `{!PreOrder R} l dir : ∀ ctx,
  Respects R (list_mounts l dir ctx).
Proof. induction l; intros ctx; simpl; apply _. Qed.
#[export] Instance list_directory_ext dir n : Respects ext (list_directory dir n).
Proof.
  unfold list_directory. apply respects_bind; [apply _..|]. intros fs. apply (with_directory_ops ext); intros l; simpl;
    unfold ram_read_directory, dev_read_directory, list_char_devices; apply _.
Qed.

Lemma read_directory_unfold path k : read_directory path k =
  scoped (λ _, []) (
    o ← resolve_path path;
    directory ← ok_or EntryNotFound o;
    n ← entry_node directory;
    if negb (is_directory n) then fail NotADirectory else list_directory directory n) k.
Proof. done. Qed.

#[local] Arguments walk : simpl never.
Lemma read_directory_spec path k r k' : inv k → read_directory path k = (r, k') → no_wrap k' →
  match r with
  | Panic p => p = ArithOverflow ∨ ref_read_directory k path = Panic p
  | Err e => inv k' ∧ ext k k' ∧ held k' = held k ∧ ref_read_directory k path = Err e
  | Ok ctx => inv k' ∧ ext k k' ∧ held k' = held k ∧ ∃ rp, ref_read_directory k path = Ok rp ∧
      lists_fun k' (λ s, walk k (s :: rp)) ctx
  end.
Proof.
  intros Hinv Hrun Hwrap. rewrite read_directory_unfold in Hrun.
  apply scoped_run in Hrun as (k2 & Hrun & Hk'). pose proof (no_wrap_leave _ _ _ _ _ Hk' Hwrap) as Hwrap2.
  unfold ref_read_directory.
  apply resolve_then in Hrun as [(q & -> & [-> | ->])|[(e & -> & ? & ? & Hh & ->)|(k1 & o & Hrun & Hinv1
    & Hext1 & Hh1 & Href)]]; [by left|by right| | |done| |done].
  { subst k'. split_and!; try done; [by apply (leave_scope_none k k2 [])|]. etrans; [done|apply ext_gc_held]. }
  2: { intros o. apply respects_ext_counts, _. }
  rewrite Href. destruct o as [e|]; simpl in *.
  2: { munfold Hrun. simplify_eq. split_and!; try done; [by apply (leave_scope_none k k2 [])|].
       etrans; [done|apply ext_gc_held]. }
  rewrite mbind_ret in Hrun.
  destruct (inv_held _ Hinv1 e) as [de He]; [rewrite Hh1; left|].
  destruct (inv_entry _ Hinv1 _ _ He) as (_ & _ & [n Hn] & _).
  assert (Hw : walk k (rpath k1 e) = Some (node_view k1 (de_node de)))
    by (by rewrite <- (ext_walk k k1), (walk_entry _ _ _ Hinv1 He)).
  mstep (entry_node_run _ _ _ _ He Hn) in Hrun. rewrite Hw. simpl.
  rewrite <- (ext_view_is_dir k k1 _ _ Hinv Hext1 Hw), (view_is_dir_node _ _ _ Hinv1 Hn).
  destruct (is_directory n) eqn:Hdir; cbn [negb] in *.
  2: { munfold Hrun. simplify_eq. split_and!; try done; [by apply (leave_scope_none k k2 [e])|].
       etrans; [done|apply ext_gc_held]. }
  apply bool_decide_eq_true in Hdir.
  destruct (list_directory_spec _ _ _ _ _ _ Hinv1 He Hn Hdir Hrun)
    as [->|(ctx & -> & Hinv2 & Hext2 & Hh2 & Hl)]; [by left|]. subst k'.
  split_and!; [by eapply (leave_scope_none k k2 [e]); [|rewrite Hh2]| |done|].
  { etrans; [exact Hext1|]. etrans; [exact Hext2|apply ext_gc_held]. }
  exists (rpath k1 e). split; [done|]. intros s. specialize (Hl s). cbv beta in Hl. rewrite (ext_walk k k1) in Hl by done.
  destruct (walk k (s :: rpath k1 e)); [|done]. by eapply lists_ext; [..|apply ext_gc_held|].
Qed.

Lemma ext_ref_read_directory k k' path : inv k → inv k' → ext k k' →
  ref_read_directory k' path = ref_read_directory k path.
Proof.
  intros Hinv Hinv' Hext. unfold ref_read_directory. rewrite (ext_ref_resolve_path k k') by done.
  destruct (ref_resolve_path k path) as [[rp|]| |]; try done. rewrite (ext_walk k k') by done.
  destruct (walk k rp) as [v|] eqn:Hw; [|done]. simpl. by rewrite (ext_view_is_dir k k' rp v).
Qed.

(** ** [stat] *)

Lemma stat_spec path k r k' : inv k → stat path k = (r, k') → no_wrap k' →
  match r with
  | Panic p => p = ArithOverflow ∨ ref_resolve_path k path = Panic p
  | Err e => inv k' ∧ ext k k' ∧ held k' = held k ∧
      (ref_resolve_path k path = Err e ∨ (ref_resolve_path k path = Ok None ∧ e = EntryNotFound))
  | Ok e => inv k' ∧ ext k k' ∧ held k' = e :: held k ∧
      ref_resolve_path k path = Ok (Some (rpath k' e))
  end.
Proof.
  intros Hinv Hrun Hwrap. unfold stat in Hrun.
  apply resolve_then in Hrun as [(q & -> & Hq)|[(e & -> & ? & ? & Hh & ?)|(k1 & o & Hrun & Hinv1
    & Hext1 & Hh1 & Href)]]; [done| | |done|apply _|done].
  { split_and!; auto. }
  destruct o as [e|]; munfold Hrun; simplify_eq; split_and!; auto.
Qed.
