(* ===== verification/VfsPrune.v ===== *)
(** * Pruning the directory cache

    In a state where every entry still in memory has a positive strong count
    (which holds whenever no operation is running), [prune_directory_cache]
    removes exactly the stale cache keys and leaves the name space alone. *)

From Stdlib Require Import Init.Byte.
From S2P Require Import Prelude Util FsTypes Fs Registry RamFs DevFs DirCache Path Vfs.
From S2P Require Import VfsFrame VfsInv VfsLookup VfsWalk VfsResolve VfsCreate VfsDirs.

(** Entries with a strong count of zero have been freed. *)
Definition tidy (k : kernel) : Prop := ∀ l, is_Some (entries k !! l) → 0 < strong_count k l.

Lemma tidy_gc k : tidy (gc k).
Proof. intros l [de Hl]. by eapply gc_live. Qed.

Lemma tidy_same k k' : entries k' = entries k → held k' = held k → mount_table k' = mount_table k →
  tidy k → tidy k'.
Proof.
  intros He Hh Hm Ht l. unfold strong_count, child_count, mount_roots. rewrite He, Hh, Hm. apply Ht.
Qed.

(** A positive strong count means the entry is in memory. *)
Lemma count_loc_elem l ls : 0 < count_loc l ls → l ∈ ls.
Proof.
  unfold count_loc. intros Hc. destruct (filter _ ls) as [|x xs] eqn:Hf; [simpl in Hc; lia|].
  assert (x ∈ filter (λ x, x = l) ls) as Hx by (rewrite Hf; left).
  by apply list_elem_of_filter in Hx as [-> ?].
Qed.

Lemma strong_count_live k l : inv k → 0 < strong_count k l → is_Some (entries k !! l).
Proof.
  intros Hinv Hc. unfold strong_count in Hc.
  destruct (decide (0 < count_loc l (held k))) as [H1|].
  { apply (inv_held _ Hinv). by apply count_loc_elem. }
  destruct (decide (0 < count_loc l (mount_roots k))) as [H2|].
  { apply mount_root_live; [done|]. by apply count_loc_elem. }
  assert (Hch : child_count k l ≠ 0) by lia. unfold child_count in Hch.
  rewrite map_size_empty_iff in Hch. apply map_choose in Hch as (e & de & Hf).
  apply map_lookup_filter_Some in Hf as [He Hp]. simpl in Hp.
  destruct (inv_parent _ Hinv _ _ _ He Hp) as (_ & pe & -> & _). eauto.
Qed.

Lemma strong_count_iff k l : inv k → tidy k → 0 < strong_count k l ↔ is_Some (entries k !! l).
Proof. intros Hinv Ht. split; [by apply strong_count_live|apply Ht]. Qed.

(** ** Dropping stale keys *)

Definition drop_stale (k : kernel) : kernel :=
  upd_directory_cache (filter (λ e : DirectoryCacheKey * loc, 0 < strong_count k e.2)) k.

Lemma inv_drop_stale k : inv k → tidy k → inv (drop_stale k).
Proof.
  intros Hinv Ht. split; try apply Hinv.
  destruct (inv_dcache _ Hinv) as [He Hi Hp Hc Hh]. split; try done.
  - intros e de Hde. destruct (He _ _ Hde) as (? & ? & ? & ?). split; [done|]. split; [done|]. split; [done|].
    apply map_lookup_filter_Some. split; [done|]. apply Ht. eauto.
  - intros key w [Hw _]%map_lookup_filter_Some. by apply Hc.
Qed.

(** Replacing the children of an entry. *)
Definition put_children (e : loc) (ch : gmap string loc) (k : kernel) : kernel :=
  upd_entries (alter (set_children ch) e) k.

Lemma put_children_lookup e ch k l de' : entries (put_children e ch k) !! l = Some de' ↔
  ∃ de, entries k !! l = Some de ∧ de' = if decide (l = e) then set_children ch de else de.
Proof.
  simpl. rewrite lookup_alter. case_decide as Heq.
  - subst l. rewrite fmap_Some. split.
    + intros (de & ? & ->). exists de. by rewrite decide_True.
    + intros (de & ? & ->). exists de. by rewrite decide_True.
  - split.
    + intros ?. exists de'. by rewrite decide_False by congruence.
    + intros (de & ? & ->). by rewrite decide_False by congruence.
Qed.

Lemma put_children_parent_id e ch k q :
  parent_id (entries (put_children e ch k)) q = parent_id (entries k) q.
Proof.
  destruct q as [p|]; [|done]. simpl. rewrite lookup_alter. case_decide; [subst|done].
  by destruct (entries k !! p).
Qed.

Lemma put_children_entry e ch k l de' : entries (put_children e ch k) !! l = Some de' →
  ∃ de, entries k !! l = Some de ∧ entry_static de' = entry_static de ∧
    entry_key (put_children e ch k) de' = entry_key k de.
Proof.
  intros (de & Hde & ->)%put_children_lookup. exists de. split; [done|].
  unfold entry_key. rewrite put_children_parent_id. by case_decide.
Qed.

Lemma put_children_live e ch k l de : entries k !! l = Some de →
  ∃ de', entries (put_children e ch k) !! l = Some de' ∧ entry_static de' = entry_static de.
Proof.
  intros Hl. exists (if decide (l = e) then set_children ch de else de). split; [|by case_decide].
  apply put_children_lookup. eauto.
Qed.

Lemma ext_put_children e ch k : ext k (put_children e ch k).
Proof.
  split; simpl; try done; [by intros; left|].
  intros l de' _ Hl. apply put_children_entry in Hl as (de & ? & ? & _). eauto.
Qed.

Lemma inv_put_children e ch k : inv k → inv (put_children e ch k).
Proof.
  intros Hinv. split; try apply Hinv.
  - intros id m Hm. destruct (inv_mount _ Hinv _ _ Hm) as (? & ? & fs & de & n & ? & Hde & Hr).
    destruct (put_children_live e ch _ _ _ Hde) as (de' & ? & (_ & _ & Hn & _)%entry_static_eq).
    split; [done|]. split; [done|]. exists fs, de', n. by rewrite Hn.
  - split.
    + intros l de' (de & Hde & (Hid & _ & Hn & _)%entry_static_eq & Hk)%put_children_entry.
      rewrite Hid, Hn, Hk. by apply (inv_entry _ Hinv).
    + intros l1 d1 l2 d2 (e1 & H1 & (Hi1 & _)%entry_static_eq & _)%put_children_entry
        (e2 & H2 & (Hi2 & _)%entry_static_eq & _)%put_children_entry Hid.
      eapply (inv_entry_inj _ Hinv); [done..|]. congruence.
    + intros l d p (de & Hde & (_ & _ & _ & Hp)%entry_static_eq & _)%put_children_entry Hpp.
      rewrite Hp in Hpp. destruct (inv_parent _ Hinv _ _ _ Hde Hpp) as (? & pe & Hpe & ?).
      destruct (put_children_live e ch _ _ _ Hpe) as (pe' & ? & (_ & _ & Hn & _)%entry_static_eq).
      split; [done|]. exists pe'. by rewrite Hn.
    + intros key w Hw. destruct (inv_cache _ Hinv _ _ Hw) as [? Hk]. split; [done|].
      intros d (de & Hde & _ & Heq)%put_children_entry. rewrite Heq. auto.
    + intros h Hh. destruct (inv_held _ Hinv _ Hh) as [de Hde].
      destruct (put_children_live e ch _ _ _ Hde) as (de' & -> & _). eauto.
  - intros l d (de & Hde & (_ & Hn & _ & Hp)%entry_static_eq & _)%put_children_entry.
    rewrite Hn, Hp. by apply (inv_root _ Hinv).
  - intros l d p pe (de & Hde & (_ & Hn & Hdn & Hp)%entry_static_eq & _)%put_children_entry Hpp
      (qe & Hqe & (_ & _ & Hqn & _)%entry_static_eq & _)%put_children_entry Hm.
    rewrite Hn, Hdn, Hqn. eapply (inv_coherent _ Hinv); [done| |done..]. congruence.
Qed.

(** ** The pass over the remaining keys *)

Lemma prune_children_run k e de : entries k !! e = Some de →
  prune_children e k = (Ok tt, put_children e
    (filter (λ c : string * loc, 0 < strong_count k c.2) (de_children de)) k).
Proof.
  intros He. unfold prune_children. mstep_with (get_entry_run _ _ _ He). rewrite mbind_gets.
  unfold modify, put_children, upd_entries. f_equal. f_equal. symmetry. by apply alter_as_insert.
Qed.

Lemma prune_entries_spec ws : ∀ k, inv k → tidy k →
  ∃ k', prune_entries ws k = (Ok tt, k') ∧ inv k' ∧ ext k k' ∧ held k' = held k ∧
    directory_cache k' = directory_cache k ∧ tidy k'.
Proof.
  induction ws as [|w ws IH]; intros k Hinv Ht; [by exists k|]. cbn [prune_entries].
  unfold weak_upgrade. destruct (entries k !! w) as [de|] eqn:Hw.
  - set (k1 := set_held (w :: held k) k).
    set (k2 := put_children w (filter (λ c : string * loc, 0 < strong_count k1 c.2) (de_children de)) k1).
    set (k3 := gc (set_held (remove_one w (held k2)) k2)).
    assert (Hrem : remove_one w (held k2) = held k) by (simpl; by rewrite decide_True).
    assert (Hinv2 : inv k2) by (apply inv_put_children, inv_push; eauto).
    assert (Hinv3 : inv k3).
    { unfold k3. rewrite Hrem. apply inv_gc_held; [done|]. intros h Hh. apply (inv_held _ Hinv2). by right. }
    assert (Hext3 : ext k k3).
    { etrans; [apply (ext_set_held k (w :: held k))|]. etrans; [apply ext_put_children|apply ext_gc_held]. }
    destruct (IH k3 Hinv3 (tidy_gc _)) as (k' & Hrun & Hinv' & Hext' & Hh' & Hc' & Ht').
    exists k'. split_and!; [|done|by etrans|by rewrite Hh'; unfold k3; rewrite Hrem|by rewrite Hc'|done].
    rewrite (mbind_run _ _ k (Some w) k1) by (rewrite mbind_gets; by rewrite Hw).
    rewrite (mbind_run _ _ k1 tt k3); [done|].
    by mstep_with (prune_children_run k1 w de Hw).
  - destruct (IH k Hinv Ht) as (k' & Hrun & ?). exists k'. split; [|done].
    rewrite (mbind_run _ _ k None k) by (rewrite mbind_gets; by rewrite Hw). by rewrite mbind_ret.
Qed.

Lemma prune_spec k : inv k → tidy k →
  ∃ k', prune_directory_cache k = (Ok tt, k') ∧ inv k' ∧ ext k k' ∧ held k' = held k ∧ tidy k' ∧
    ∀ key w, directory_cache k' !! key = Some w ↔
      directory_cache k !! key = Some w ∧ is_Some (entries k !! w).
Proof.
  intros Hinv Ht. destruct (prune_entries_spec (btree_values cache_key_le (directory_cache (drop_stale k)))
    (drop_stale k) (inv_drop_stale _ Hinv Ht) (tidy_same k _ eq_refl eq_refl eq_refl Ht))
    as (k' & Hrun & Hinv' & Hext & Hh & Hc & Ht').
  exists k'. split_and!; [exact Hrun|done| |done|done|].
  - etrans; [|exact Hext]. ext_trivial.
  - intros key w. rewrite Hc. simpl. rewrite map_lookup_filter_Some. simpl.
    by rewrite strong_count_iff.
Qed.
