(* ===== verification/VfsReach.v ===== *)
(** * Reachable states of the file subsystem

    The calls the rest of the kernel makes, as a transition system from the
    state [boot] leaves.  Every reachable state satisfies the invariants, and
    in a reachable state a call panics only through [todo!()], through the
    assertions on directories and mount sources, or by exhausting 64-bit
    counters. *)

From Stdlib Require Import Init.Byte.
From S2P Require Import Prelude Util FsTypes Fs Registry RamFs DevFs DirCache Path Vfs.
From S2P Require Import VfsFrame VfsInv VfsLookup VfsWalk VfsResolve VfsCreate VfsDirs.
From S2P Require Import VfsMount VfsFiles VfsIo VfsReadDir VfsPrune.

(** ** The invariant between calls *)

Record sys_ok (k : kernel) : Prop := {
  so_vfs : vfs_ok k;
  so_tidy : tidy k;
}.

(** ** Calls *)

Inductive call :=
  | CMount (source target : string) (kind : option string) (flags : Z)
  | COpen (path : string) (mode : FileMode.t)
  | CClose (fd : Z)
  | CRead (fd : Z) (buffer : list byte)
  | CWrite (fd : Z) (buffer : list byte)
  | CReadDirectory (path : string)
  | CCreateDirectory (path : string)
  | CStat (path : string)
  | CPrune.

(** A call, with its result dropped; an entry that is returned is released. *)
Definition run_call (c : call) : KM unit :=
  match c with
  | CMount source target kind flags => _ ← mount source target kind flags; mret tt
  | COpen path mode => _ ← open path mode; mret tt
  | CClose fd => close fd
  | CRead fd buffer => _ ← read fd buffer; mret tt
  | CWrite fd buffer => _ ← write fd buffer; mret tt
  | CReadDirectory path => _ ← read_directory path; mret tt
  | CCreateDirectory path => e ← create_directory path; arc_drop e
  | CStat path => e ← stat path; arc_drop e
  | CPrune => prune_directory_cache
  end.

(** One call that returns; the id counters have not wrapped around. *)
Inductive vfs_step (k : kernel) : kernel → Prop :=
  | vfs_step_call c r k' : run_call c k = (r, k') → is_panic r = false → no_wrap k' → vfs_step k k'.

Inductive vfs_reach : kernel → Prop :=
  | reach_boot k : boot kernel_start = (Ok tt, k) → vfs_reach k
  | reach_step k k' : vfs_reach k → vfs_step k k' → vfs_reach k'.

(** ** Each call keeps the invariant *)

Lemma tidy_scoped {A} keep (m : KM A) k r k' : scoped keep m k = (r, k') → is_panic r = false → tidy k'.
Proof.
  intros (k2 & _ & Hk')%scoped_run Hp. destruct r; [subst; apply tidy_gc..|done].
Qed.

Lemma files_ok_mounted k k' ty rp id : files_ok k → mounted k k' ty rp id → files_ok k'.
Proof.
  intros Hok Hm. apply (files_ok_nodes k); [done|apply Hm..| |].
  - intros x n Hn. exists n. split; [|done]. by apply (mtd_nodes _ _ _ _ _ Hm).
  - intros x n Hn Hx. destruct (mtd_back _ _ _ _ _ Hm _ _ Hn); [congruence|done].
Qed.

(** Running a call and dropping its result. *)
Lemma drop_result {A} (m : KM A) k r k' : (_ ← m; mret tt) k = (r, k') →
  ∃ r0, m k = (r0, k') ∧ is_panic r0 = is_panic r.
Proof.
  intros Hrun. minv Hrun as a s Hm; munfold Hrun; simplify_eq; eauto.
Qed.

Lemma drop_entry k e k' : vfs_ok k → held k = e :: held k' → k' = gc (set_held (held k') k) → vfs_ok k'.
Proof.
  intros Hok Hh ->. apply vfs_ok_gc; [done|]. apply inv_gc_held; [apply Hok|].
  intros h Hin. apply (inv_held _ (vo_inv _ Hok)). rewrite Hh. by right.
Qed.

Lemma arc_drop_run k e hs : held k = e :: hs → arc_drop e k = (Ok tt, gc (set_held hs k)).
Proof. intros Hh. unfold arc_drop, modify. rewrite Hh. simpl. by rewrite decide_True. Qed.

(** A call that returns an entry, which is then released. *)
Lemma release_run (m : KM loc) k r k' : vfs_ok k →
  (∀ r0 k1, m k = (r0, k1) → no_wrap k1 →
    match r0 with
    | Ok e => vfs_ok k1 ∧ held k1 = e :: held k
    | Err _ => vfs_ok k1 ∧ held k1 = held k ∧ tidy k1
    | Panic _ => True
    end) →
  (e ← m; arc_drop e) k = (r, k') → is_panic r = false → no_wrap k' →
  sys_ok k' ∧ held k' = held k.
Proof.
  intros Hok Hm Hrun Hp Hwrap. minv Hrun as e k1 H1; [|subst r..|by subst].
  - assert (Hwrap1 : no_wrap k1).
    { eapply ext_no_wrap; [|done]. by eapply arc_drop_ext. }
    destruct (Hm _ _ H1 Hwrap1) as [Hok1 Hh]. rewrite (arc_drop_run _ _ _ Hh) in Hrun. simplify_eq.
    split; [|done]. split; [|apply tidy_gc]. by apply (drop_entry k1 e).
  - destruct (Hm _ _ H1 Hwrap) as (? & ? & ?). split; [by split|done].
Qed.

Lemma stat_tidy path k e k' : stat path k = (Err e, k') → tidy k'.
Proof.
  unfold stat. intros Hrun. minv Hrun as o s Hr; [destruct o; munfold Hrun; simplify_eq|simplify_eq|done];
    by eapply tidy_scoped.
Qed.

Lemma call_sys_ok c k r k' : sys_ok k → run_call c k = (r, k') → is_panic r = false → no_wrap k' →
  sys_ok k' ∧ held k' = held k.
Proof.
  intros [Hok Ht] Hrun Hp Hwrap. pose proof (vo_inv _ Hok) as Hinv.
  destruct c as [src tgt kind flags|path mode|fd|fd buf|fd buf|path|path|path|]; cbn [run_call] in Hrun.
  - apply drop_result in Hrun as (r0 & Hrun & Hr0). rewrite Hp in Hr0.
    pose proof (mount_spec _ _ _ _ _ _ _ Hinv Hrun Hwrap) as Hspec.
    assert (Ht' : tidy k') by (by eapply (tidy_scoped (λ _, [])); [rewrite mount_unfold in Hrun|]).
    destruct r0 as [id|e|p]; [|destruct Hspec as (? & ? & ? & _)|done].
    + destruct Hspec as (ty & rp & _ & Hm & ?). split; [|done]. split; [|done].
      split; [apply Hm|]. by eapply files_ok_mounted; [apply Hok|].
    + split; [|done]. split; [|done]. by apply (vfs_ok_ext k).
  - apply drop_result in Hrun as (r0 & Hrun & Hr0). rewrite Hp in Hr0.
    pose proof (open_spec _ _ _ _ _ Hok Hrun Hwrap) as Hspec.
    assert (Ht' : tidy k') by (by eapply (tidy_scoped (λ _, [])); [rewrite open_unfold in Hrun|]).
    destruct r0 as [fd|e|p]; [|destruct Hspec as (? & ? & ? & _)|done].
    + destruct Hspec as (? & ? & _). by split.
    + by split.
  - pose proof (close_spec _ _ _ _ Hok Hrun) as (? & _ & (? & ? & ?) & _). split; [|done].
    split; [done|]. by apply (tidy_same k).
  - apply drop_result in Hrun as (r0 & Hrun & Hr0). rewrite Hp in Hr0.
    pose proof (read_spec _ _ _ _ _ Hok Hrun) as (? & _ & _ & ? & ? & ?). split; [|done].
    split; [by auto|]. by apply (tidy_same k).
  - apply drop_result in Hrun as (r0 & Hrun & Hr0). rewrite Hp in Hr0.
    pose proof (write_spec _ _ _ _ _ Hok Hrun) as (? & _ & ? & ? & ?). split; [|done].
    split; [by auto|]. by apply (tidy_same k).
  - apply drop_result in Hrun as (r0 & Hrun & Hr0). rewrite Hp in Hr0.
    pose proof (read_directory_spec _ _ _ _ Hinv Hrun Hwrap) as Hspec.
    assert (Ht' : tidy k') by (by eapply (tidy_scoped (λ _, [])); [rewrite read_directory_unfold in Hrun|]).
    destruct r0 as [ctx|e|p]; [|destruct Hspec as (? & ? & ? & _)|done].
    + destruct Hspec as (? & ? & ? & _). split; [|done]. split; [|done]. by apply (vfs_ok_ext k).
    + split; [|done]. split; [|done]. by apply (vfs_ok_ext k).
  - apply (release_run (create_directory path)) with (r := r); try done.
    intros r0 k1 H1 Hw1. pose proof (create_directory_spec _ _ _ _ Hinv H1 Hw1) as Hspec.
    destruct r0 as [e|e|p]; [|destruct Hspec as (? & ? & ? & _)|done].
    + destruct Hspec as (rp & c & de & _ & Hcr & Hh & _). split; [|done]. split; [apply Hcr|].
      by eapply files_ok_created; [apply Hok|].
    + split_and!; [by apply (vfs_ok_ext k)|done|].
      by eapply (tidy_scoped (λ e, [e])); [rewrite create_directory_unfold in H1|].
  - apply (release_run (stat path)) with (r := r); try done.
    intros r0 k1 H1 Hw1. pose proof (stat_spec _ _ _ _ Hinv H1 Hw1) as Hspec.
    destruct r0 as [e|e|p]; [destruct Hspec as (? & ? & ? & _)..|done].
    + split; [by apply (vfs_ok_ext k)|done].
    + split_and!; [by apply (vfs_ok_ext k)|done|]. by eapply stat_tidy.
  - destruct (prune_spec _ Hinv Ht) as (k1 & Hrun' & Hinv' & Hext & Hh & ? & _).
    rewrite Hrun in Hrun'. simplify_eq. split; [|done]. split; [by apply (vfs_ok_ext k)|done].
Qed.

(** ** Booting *)

(** The state [vfs_init] starts from, after the drivers have registered. *)
Definition boot_drivers : kernel :=
  set_vfs_ready true ((_ ← expect (E':=IoError) drivers_char_init; expect drivers_fs_init) kernel_start).2.
Definition boot_flags : Z := Z.lor MountFlags_READ MountFlags_WRITE.
Definition boot_root : kernel := (mount "" "/" (Some "ramfs") boot_flags boot_drivers).2.
Definition boot_dev : kernel := (mount "" "/dev" (Some "devfs") boot_flags boot_root).2.
Definition boot_open : kernel := (open "/test.txt" FileMode.Write boot_dev).2.
Definition boot_write : kernel := (write 1 (bytes "Hello, world!") boot_open).2.
Definition boot_close : kernel := (close 1 boot_write).2.

Lemma boot_drivers_eq : boot_drivers = Kernel
  (<["devfs" := DevFileSystemType]> (<["ramfs" := RamFileSystemType]> ∅))
  (<["zero" := ZeroDevice]> (<["null" := NullDevice]> ∅))
  true ∅ ∅ ∅ 1 0 1 ∅ ∅ ∅ 0 [].
Proof. reflexivity. Qed.

Lemma boot_drivers_ok : sys_ok boot_drivers.
Proof.
  rewrite boot_drivers_eq. split; [split|].
  - split.
    + done.
    + by vm_compute.
    + by vm_compute.
    + intros l n. simpl. by rewrite lookup_empty.
    + intros l n ch s c. simpl. by rewrite lookup_empty.
    + intros l1 s1 l2 s2 c (n & ch & Hn & _). simpl in Hn. by rewrite lookup_empty in Hn.
    + intros l s c id fs (n & ch & Hn & _). simpl in Hn. by rewrite lookup_empty in Hn.
    + intros id m. simpl. by rewrite lookup_empty.
    + intros l [x Hx]. simpl in Hx. by rewrite lookup_empty in Hx.
    + split; [intros ? ?|intros ? ? ? ?|intros ? ? ?|intros ? ?|intros h Hh].
      1-4: simpl; by rewrite lookup_empty. by apply not_elem_of_nil in Hh.
    + intros e de. simpl. by rewrite lookup_empty.
    + intros e de p pe. simpl. by rewrite lookup_empty.
    + intros name d Hd. simpl in Hd.
      apply lookup_insert_Some in Hd as [[<- <-]|[_ Hd]]; [done|].
      by apply lookup_insert_Some in Hd as [[<- <-]|[_ Hd]].
  - split; [intros ? ?|intros ? ?|intros ? ?]; simpl; by rewrite lookup_empty.
  - intros l [de Hde]. simpl in Hde. by rewrite lookup_empty in Hde.
Qed.

Lemma run_call_ok c k k' : sys_ok k → run_call c k = (Ok tt, k') → no_wrap k' → sys_ok k'.
Proof. intros Hok Hrun Hwrap. by eapply call_sys_ok. Qed.

Lemma boot_root_ok : sys_ok boot_root.
Proof.
  apply (run_call_ok (CMount "" "/" (Some "ramfs") boot_flags) boot_drivers); [apply boot_drivers_ok| |].
  - vm_compute. reflexivity.
  - by vm_compute.
Qed.
Lemma boot_dev_ok : sys_ok boot_dev.
Proof.
  apply (run_call_ok (CMount "" "/dev" (Some "devfs") boot_flags) boot_root); [apply boot_root_ok| |].
  - vm_compute. reflexivity.
  - by vm_compute.
Qed.
Lemma boot_open_ok : sys_ok boot_open.
Proof.
  apply (run_call_ok (COpen "/test.txt" FileMode.Write) boot_dev); [apply boot_dev_ok| |].
  - vm_compute. reflexivity.
  - by vm_compute.
Qed.
Lemma boot_write_ok : sys_ok boot_write.
Proof.
  apply (run_call_ok (CWrite 1 (bytes "Hello, world!")) boot_open); [apply boot_open_ok| |].
  - vm_compute. reflexivity.
  - by vm_compute.
Qed.
Lemma boot_close_ok : sys_ok boot_close.
Proof.
  apply (run_call_ok (CClose 1) boot_write); [apply boot_write_ok| |].
  - vm_compute. reflexivity.
  - by vm_compute.
Qed.

(** The phases above are what [boot] does. *)
Lemma boot_run : boot kernel_start = (Ok tt, boot_close).
Proof. vm_compute. reflexivity. Qed.
Lemma boot_state k : boot kernel_start = (Ok tt, k) → k = boot_close.
Proof.
  intros Hk. transitivity (boot kernel_start).2.
  - rewrite Hk. reflexivity.
  - rewrite boot_run. reflexivity.
Qed.

Lemma reach_sys_ok k : vfs_reach k → sys_ok k.
Proof.
  induction 1 as [k Hk|k k' _ IH [c r k2 Hrun Hp Hwrap]].
  - rewrite (boot_state _ Hk). apply boot_close_ok.
  - by eapply call_sys_ok.
Qed.

(** ** Panics *)

(** The panics user input can cause. *)
Definition known_panic (p : PanicKind) : Prop := p = Todo ∨ p = AssertFailed ∨ p = ArithOverflow.

(** The paths on which the code says [todo!()]: those with characters outside ASCII
    and relative ones, and, for the parent of a path, those with a dot segment. *)
Definition unsupported (path : string) : Prop :=
  is_ascii path = false ∨ ∃ q, Path.from_str path = Ok q ∧ head (Path.segments q) ≠ Some "/".
Definition dotted (path : string) : Prop :=
  ∃ q, Path.from_str path = Ok q ∧ ("." ∈ Path.segments q ∨ ".." ∈ Path.segments q).

Lemma path_segments_panic k path p : path_segments k path = Panic p → p = Todo ∧ unsupported path.
Proof.
  unfold path_segments, unsupported. destruct (Path.from_str path) as [q| |q] eqn:Hq; [|done|].
  - unfold Path.is_absolute. destruct (Path.segments q) as [|s segs] eqn:Hs.
    + intros [= <-]. split; [done|]. right. exists q. by rewrite Hs.
    + case_bool_decide as Hd; [by case_match|]. intros [= <-]. split; [done|]. right. exists q.
      rewrite Hs. split; [done|]. simpl. congruence.
  - intros [= <-]. unfold Path.from_str in Hq. destruct (is_ascii path) eqn:Ha; simpl in Hq; [|by simplify_eq; auto].
    repeat case_match; by simplify_eq.
Qed.

Lemma ref_resolve_no_panic k segs : ∀ cur p, ref_resolve k cur segs ≠ Panic p.
Proof.
  induction segs as [|s segs IH]; intros cur p; [done|]. cbn [ref_resolve].
  destruct (negb _); [done|]. repeat case_decide; [by apply IH..|].
  destruct (walk k (s :: cur)); [apply IH|done].
Qed.

Lemma ref_resolve_path_panic k path p : ref_resolve_path k path = Panic p → p = Todo ∧ unsupported path.
Proof.
  unfold ref_resolve_path. destruct (path_segments k path) as [segs| |q] eqn:Hs; [|done|].
  - by intros ?%ref_resolve_no_panic.
  - intros [= <-]. by eapply path_segments_panic.
Qed.

Lemma ref_parent_panic k segs : ∀ cur p, segs ≠ [] → ref_parent k cur segs = Panic p →
  p = Todo ∧ ("." ∈ segs ∨ ".." ∈ segs).
Proof.
  induction segs as [|s segs IH]; intros cur p Hne; [done|]. cbn [ref_parent].
  case_decide as H1; [intros [= <-]; split; [done|left; subst; left]|].
  case_decide as H2; [intros [= <-]; split; [done|right; subst; left]|]. destruct segs as [|s' segs]; [done|].
  destruct (walk k (s :: cur)) as [v|]; [|done]. destruct (negb _); [done|].
  intros [-> Hin]%IH; [|done]. split; [done|]. destruct Hin; [left|right]; by right.
Qed.

Lemma ref_parent_path_panic k path p : ref_parent_path k path = Panic p → p = Todo ∧ (unsupported path ∨ dotted path).
Proof.
  unfold ref_parent_path. destruct (path_segments k path) as [[|s segs]| |q] eqn:Hs; [done| |done|].
  - intros [-> Hin]%ref_parent_panic; [|done]. split; [done|]. right. unfold path_segments in Hs.
    destruct (Path.from_str path) as [q| |] eqn:Hq; [|done..]. exists q. split; [done|].
    assert (Hd : drop 1 (Path.segments q) = s :: segs) by (repeat case_match; by simplify_eq).
    rewrite <- (take_drop 1 (Path.segments q)), Hd. rewrite !elem_of_app. destruct Hin; auto.
  - intros [= <-]. apply path_segments_panic in Hs as [-> ?]. auto.
Qed.

Lemma ref_create_panic k path p : ref_create k path = Panic p → p = Todo ∧ (unsupported path ∨ dotted path).
Proof.
  unfold ref_create. destruct (ref_parent_path k path) as [[rp name]| |q] eqn:Hs; [by case_match|done|].
  intros [= <-]. by eapply ref_parent_path_panic.
Qed.

Lemma ref_open_panic k path mode p : ref_open k path mode = Panic p → p = Todo ∧ (unsupported path ∨ dotted path).
Proof.
  unfold ref_open. destruct (ref_resolve_path k path) as [[rp|]| |q] eqn:Hr; [by case_match| |done|].
  - case_match; [|done]. destruct (ref_create k path) eqn:Hc; [done..|]. intros [= <-]. by eapply ref_create_panic.
  - intros [= <-]. apply ref_resolve_path_panic in Hr as [-> ?]. auto.
Qed.

Lemma ref_create_directory_panic k path p : ref_create_directory k path = Panic p →
  p = Todo ∧ (unsupported path ∨ dotted path).
Proof.
  unfold ref_create_directory. destruct (ref_resolve_path k path) as [[rp|]| |q] eqn:Hr; [done| |done|].
  - apply ref_create_panic.
  - intros [= <-]. apply ref_resolve_path_panic in Hr as [-> ?]. auto.
Qed.

Lemma ref_read_directory_panic k path p : ref_read_directory k path = Panic p → p = Todo ∧ unsupported path.
Proof.
  unfold ref_read_directory. destruct (ref_resolve_path k path) as [[rp|]| |q] eqn:Hr; [by case_match|done..|].
  intros [= <-]. by eapply ref_resolve_path_panic.
Qed.

(** ** Why a call panics *)

(** [fd] is open on a directory. *)
Definition directory_open (k : kernel) (fd : Z) : Prop :=
  ∃ f n, files k !! fd = Some f ∧ nodes k !! file_node f = Some n ∧ node_kind n = FsNodeKind.Directory.
Definition panic_cause (k : kernel) (c : call) (p : PanicKind) : Prop :=
  match p with
  | Todo =>
      match c with
      | CMount _ target kind _ => kind = None ∨ (∃ rp, ref_resolve_path k target = Ok (Some rp)) ∨
          unsupported target ∨ dotted target
      | COpen path _ | CCreateDirectory path => unsupported path ∨ dotted path
      | CReadDirectory path | CStat path => unsupported path
      | _ => False
      end
  | AssertFailed =>
      match c with
      | CMount source _ _ _ => source ≠ ""
      | CRead fd _ | CWrite fd _ => directory_open k fd
      | _ => False
      end
  | ArithOverflow => match c with CClose _ | CPrune => False | _ => True end
  | _ => False
  end.
Lemma panic_cause_known k c p : panic_cause k c p → known_panic p.
Proof. unfold known_panic. destruct p; simpl; auto; done. Qed.

Lemma ref_mount_panic k source target kind flags p : ref_mount k source target kind = Panic p →
  panic_cause k (CMount source target kind flags) p.
Proof.
  unfold ref_mount, ref_mount_body. intros Hp.
  destruct kind as [kd|]; [|simplify_eq; by left].
  destruct (fs_registry k !! kd) as [ty|]; [|done]. case_decide.
  - destruct (walk k []); [done|]. by case_decide; simplify_eq.
  - destruct (ref_resolve_path k target) as [[rp|]| |q] eqn:Hr; [simplify_eq; simpl; eauto| |done|].
    + destruct (ref_parent_path k target) as [[rp name]| |q] eqn:Hq; [|done|].
      * by case_decide; simplify_eq.
      * simplify_eq. apply ref_parent_path_panic in Hq as [-> ?]. simpl. auto.
    + simplify_eq. apply ref_resolve_path_panic in Hr as [-> ?]. simpl. auto.
Qed.

Lemma read_panic fd buffer k p k' : vfs_ok k → read fd buffer k = (Panic p, k') → panic_cause k (CRead fd buffer) p.
Proof.
  intros Hok Hrun. destruct (files k !! fd) as [f|] eqn:Hf.
  2: { unfold read in Hrun. unfold mbind at 1, M_bind at 1 in Hrun.
       by rewrite (get_file_None _ _ Hf) in Hrun. }
  destruct (fo_file _ (vo_files _ Hok) _ _ Hf) as (_ & [n Hn] & _).
  rewrite (read_run _ _ _ _ _ Hok Hf Hn) in Hrun. unfold ref_read in Hrun.
  case_decide; [simplify_eq; by exists f, n|]. repeat case_match; by simplify_eq.
Qed.

Lemma write_panic fd buffer k p k' : vfs_ok k → write fd buffer k = (Panic p, k') → panic_cause k (CWrite fd buffer) p.
Proof.
  intros Hok Hrun. destruct (files k !! fd) as [f|] eqn:Hf.
  2: { unfold write in Hrun. unfold mbind at 1, M_bind at 1 in Hrun.
       by rewrite (get_file_None _ _ Hf) in Hrun. }
  destruct (fo_file _ (vo_files _ Hok) _ _ Hf) as (_ & [n Hn] & _).
  rewrite (write_run _ _ _ _ _ Hok Hf Hn) in Hrun. unfold ref_write in Hrun.
  case_decide; [simplify_eq; by exists f, n|]. repeat case_match; by simplify_eq.
Qed.

Lemma drop_result_panic {A B} (m : KM A) (f : A → KM B) k p k' : (∀ a s r s', f a s = (r, s') → is_panic r = false) →
  (m ≫= f) k = (Panic p, k') → m k = (Panic p, k').
Proof.
  intros Hf Hrun. minv Hrun as a s Hm; simplify_eq; [|done]. by specialize (Hf _ _ _ _ Hrun).
Qed.

Lemma call_panic_cause c k p k' : sys_ok k → run_call c k = (Panic p, k') → no_wrap k' → panic_cause k c p.
Proof.
  intros [Hok Ht] Hrun Hwrap. pose proof (vo_inv _ Hok) as Hinv.
  assert (Hret : ∀ A (a : A) s r s', (mret tt : KM unit) s = (r, s') → is_panic r = false)
    by (by intros A a s r s' [= <- <-]).
  assert (Hdrop : ∀ e s r s', arc_drop e s = (r, s') → is_panic r = false) by (by intros e s r s' [= <- <-]).
  destruct c as [src tgt kind flags|path mode|fd|fd buf|fd buf|path|path|path|]; cbn [run_call] in Hrun.
  - apply drop_result_panic in Hrun; [|apply Hret].
    pose proof (mount_spec _ _ _ _ _ _ _ Hinv Hrun Hwrap) as [-> | Hm]; [done|]. by eapply ref_mount_panic.
  - apply drop_result_panic in Hrun; [|apply Hret].
    by pose proof (open_spec _ _ _ _ _ Hok Hrun Hwrap) as [-> | [-> ?]%ref_open_panic].
  - by pose proof (close_spec _ _ _ _ Hok Hrun) as (_ & _ & _ & ?).
  - apply drop_result_panic in Hrun; [|apply Hret]. by eapply read_panic.
  - apply drop_result_panic in Hrun; [|apply Hret]. by eapply write_panic.
  - apply drop_result_panic in Hrun; [|apply Hret].
    by pose proof (read_directory_spec _ _ _ _ Hinv Hrun Hwrap) as [-> | [-> ?]%ref_read_directory_panic].
  - apply drop_result_panic in Hrun; [|apply Hdrop].
    by pose proof (create_directory_spec _ _ _ _ Hinv Hrun Hwrap) as [-> | [-> ?]%ref_create_directory_panic].
  - apply drop_result_panic in Hrun; [|apply Hdrop].
    by pose proof (stat_spec _ _ _ _ Hinv Hrun Hwrap) as [-> | [-> ?]%ref_resolve_path_panic].
  - destruct (prune_spec _ Hinv Ht) as (k1 & Hrun' & _). by rewrite Hrun in Hrun'.
Qed.
Lemma call_panic c k p k' : sys_ok k → run_call c k = (Panic p, k') → no_wrap k' → known_panic p.
Proof. intros Hok Hrun Hwrap. by eapply panic_cause_known, call_panic_cause. Qed.
