(* ===== verification/VfsCalls.v ===== *)
(** * What the file system promises its clients

    [FsCall m keep]: a call that keeps the invariants of the file subsystem,
    leaves the caller with the entry references [keep] of its result, panics only
    where a call may, and never turns a counter back.  The shell is verified
    against this interface; the instances are the calls it makes. *)

From Stdlib Require Import Init.Byte.
From S2P Require Import Prelude Util FsTypes Fs Registry RamFs DevFs DirCache Path Vfs.
From S2P Require Import VfsFrame VfsInv VfsLookup VfsWalk VfsResolve VfsCreate VfsDirs.
From S2P Require Import VfsMount VfsFiles VfsIo VfsReadDir VfsPrune VfsReach.

Class FsCall {A} (m : KM A) (keep : A → list loc) : Prop := {
  fc_counts : Respects counts_le m;
  fc_ok k r k' : sys_ok k → m k = (r, k') → no_wrap k' →
    match r with
    | Ok a => sys_ok k' ∧ held k' = keep a ++ held k
    | Err _ => sys_ok k' ∧ held k' = held k
    | Panic p => known_panic p
    end;
}.

(** ** Counters only grow *)

Lemma scoped_counts {A} keep (m : KM A) : Respects counts_le m → Respects counts_le (scoped keep m).
Proof. apply respects_scoped; [apply _|]. intros k h. unfold counts_le. simpl. lia. Qed.

#[export] Instance create_path_counts kind path : Respects counts_le (create_path kind path).
Proof. unfold create_path. apply _. Qed.
#[export] Instance open_entry_counts path mode : Respects counts_le (open_entry path mode).
Proof. unfold open_entry. apply _. Qed.
#[export] Instance open_counts path mode : Respects counts_le (open path mode).
Proof.
  intros k r k'. rewrite open_unfold. apply scoped_counts. apply _.
Qed.
#[export] Instance create_directory_counts path : Respects counts_le (create_directory path).
Proof. intros k r k'. rewrite create_directory_unfold. apply scoped_counts. apply _. Qed.
#[export] Instance stat_counts path : Respects counts_le (stat path).
Proof. unfold stat. apply _. Qed.
#[export] Instance list_directory_counts dir n : Respects counts_le (list_directory dir n).
Proof. apply respects_ext_counts, _. Qed.
#[export] Instance read_directory_counts path : Respects counts_le (read_directory path).
Proof. intros k r k'. rewrite read_directory_unfold. apply scoped_counts. apply _. Qed.

#[export] Instance upd_files_counts f : Respects counts_le (modify (upd_files f)).
Proof. apply respects_modify. intros k. unfold counts_le. simpl. lia. Qed.
#[export] Instance decrement_counts l : Respects counts_le (decrement_link_count l).
Proof. unfold decrement_link_count. apply _. Qed.
#[export] Instance close_counts fd : Respects counts_le (close fd).
Proof.
  unfold close. do 2 (apply respects_bind; [apply _..|]; intros ?).
  apply (with_file_ops counts_le); intros l; simpl; apply _.
Qed.
#[export] Instance store_position_counts fd p : Respects counts_le (store_position fd p).
Proof. apply _. Qed.
#[export] Instance read_counts fd buffer : Respects counts_le (read fd buffer).
Proof.
  unfold read. do 3 (apply respects_bind; [apply _..|]; intros ?). case_decide; [apply _|].
  apply respects_bind; [apply _..|]; intros ?. apply (with_file_ops counts_le); intros l; simpl.
  - unfold ram_read. apply _.
  - unfold dev_read. apply respects_bind; [apply _| |apply _]. apply respects_bind; [apply _..|]; intros n.
    destruct (node_kind n); try apply _. apply respects_bind; [apply _..|]; intros []; simpl; apply _.
Qed.

(** ** The calls *)

(** A call whose result holds no reference. *)
Lemma plain_call {A} (m : KM A) c : Respects counts_le m → (∀ k, run_call c k = (_ ← m; mret tt) k) →
  FsCall m (λ _, []).
Proof.
  intros Hc Hm. split; [done|]. intros k r k' Hok Hrun Hwrap.
  assert (Hrun' : run_call c k = (match r with Ok _ => Ok tt | Err e => Err e | Panic p => Panic p end, k')).
  { rewrite Hm. unfold mbind, M_bind. rewrite Hrun. by destruct r. }
  destruct r; [by eapply call_sys_ok..|by eapply call_panic].
Qed.

#[export] Instance open_call path mode : FsCall (open path mode) (λ _, []).
Proof. by apply (plain_call _ (COpen path mode)); [apply _|]. Qed.
#[export] Instance read_call fd buffer : FsCall (read fd buffer) (λ _, []).
Proof. by apply (plain_call _ (CRead fd buffer)); [apply _|]. Qed.
#[export] Instance read_directory_call path : FsCall (read_directory path) (λ _, []).
Proof. by apply (plain_call _ (CReadDirectory path)); [apply _|]. Qed.
#[export] Instance close_call fd : FsCall (close fd) (λ _, []).
Proof.
  apply (plain_call _ (CClose fd)); [apply _|]. intros k. simpl. unfold mbind, M_bind, mret, M_ret.
  by destruct (close fd k) as [[[]| |]].
Qed.

#[export] Instance stat_call path : FsCall (stat path) (λ e, [e]).
Proof.
  split; [apply _|]. intros k r k' [Hok Ht] Hrun Hwrap.
  pose proof (stat_spec _ _ _ _ (vo_inv _ Hok) Hrun Hwrap) as Hspec. destruct r as [e|e|p].
  - destruct Hspec as (? & ? & ? & _). split; [|done]. split; [by apply (vfs_ok_ext k)|].
    unfold stat in Hrun. apply mbind_Ok_inv in Hrun as (o & k1 & Hr & Hrun).
    destruct o; munfold Hrun; simplify_eq. by eapply tidy_scoped.
  - destruct Hspec as (? & ? & ? & _). split; [|done]. split; [by apply (vfs_ok_ext k)|]. by eapply stat_tidy.
  - destruct Hspec as [-> | [-> _]%ref_resolve_path_panic]; unfold known_panic; auto.
Qed.
#[export] Instance create_directory_call path : FsCall (create_directory path) (λ e, [e]).
Proof.
  split; [apply _|]. intros k r k' [Hok Ht] Hrun Hwrap.
  pose proof (create_directory_spec _ _ _ _ (vo_inv _ Hok) Hrun Hwrap) as Hspec.
  assert (Htidy : is_panic r = false → tidy k').
  { rewrite create_directory_unfold in Hrun. by apply (tidy_scoped _ _ _ _ _ Hrun). }
  destruct r as [e|e|p].
  - destruct Hspec as (rp & c & de & _ & Hcr & Hh & _). split; [|done]. split; [|by apply Htidy].
    split; [apply Hcr|]. by eapply files_ok_created; [apply Hok|].
  - destruct Hspec as (? & ? & ? & _). split; [|done]. split; [by apply (vfs_ok_ext k)|by apply Htidy].
  - destruct Hspec as [-> | [-> _]%ref_create_directory_panic]; unfold known_panic; auto.
Qed.

(** Dropping the reference at the head. *)
Lemma arc_drop_ok k e hs : sys_ok k → held k = e :: hs →
  ∃ k', arc_drop e k = (Ok tt, k') ∧ sys_ok k' ∧ held k' = hs ∧ counts_le k k'.
Proof.
  intros [Hok Ht] Hh. eexists. split; [by apply arc_drop_run|]. split_and!; [|done|unfold counts_le; simpl; lia].
  split; [|apply tidy_gc]. by apply (drop_entry k e).
Qed.

(** A held entry and its node are in memory. *)
Lemma held_entry k e : sys_ok k → e ∈ held k → ∃ de n, entries k !! e = Some de ∧ nodes k !! de_node de = Some n.
Proof.
  intros [Hok _] Hin. destruct (inv_held _ (vo_inv _ Hok) e Hin) as [de He].
  destruct (inv_entry _ (vo_inv _ Hok) _ _ He) as (_ & _ & [n Hn] & _). eauto.
Qed.

(** [read] returns no more than the buffer holds. *)
Lemma read_fits fd buffer k c out k' : sys_ok k → read fd buffer k = (Ok (c, out), k') →
  length out = length buffer ∧ (0 ≤ c ≤ Z.of_nat (length buffer))%Z.
Proof.
  intros [Hok _] Hrun. destruct (files k !! fd) as [f|] eqn:Hf.
  2: { unfold read in Hrun. unfold mbind at 1, M_bind at 1 in Hrun. by rewrite (get_file_None _ _ Hf) in Hrun. }
  destruct (fo_file _ (vo_files _ Hok) _ _ Hf) as (_ & [n Hn] & Hp).
  rewrite (read_run _ _ _ _ _ Hok Hf Hn) in Hrun.
  destruct (ref_read n f buffer) as [c'|e|p] eqn:Hr; [|done..]. case_decide; [|done]. injection Hrun as -> _.
  unfold ref_read in Hr. repeat case_decide; try done.
  destruct (node_private_data n) as [[data| |[]]|]; [|done..| |done]; injection Hr as Hr.
  - pose proof (read_at_spec data (file_position f) buffer (proj1 Hp)) as (Hc & Hc1 & _).
    pose proof (read_at_length data (file_position f) buffer (proj1 Hp)) as Hl.
    rewrite Hr in *. simpl in *. split; [done|lia].
  - subst. rewrite length_replicate. split; [done|lia].
Qed.
