(* ===== verification/VfsProps.v ===== *)
(** * The properties of the file subsystem

    The theorems about [fs/vfs.rs] and the drivers below it, each with a
    witness on the state the kernel boots into. *)

From Stdlib Require Import Init.Byte.
From S2P Require Import Prelude Util FsTypes Fs Registry RamFs DevFs DirCache Path Vfs.
From S2P Require Import VfsFrame VfsInv VfsLookup VfsWalk VfsResolve VfsCreate VfsDirs.
From S2P Require Import VfsMount VfsFiles VfsIo VfsReadDir VfsPrune VfsReach.

(** [run_as m s H k'] states the outcome of a run on a concrete state, computed,
    and names the state after it; [Hwrap] says no counter wrapped. *)
Ltac run_as m s H k' :=
  let H1 := fresh in
  let H2 := fresh "Hwrap" in
  let o := eval vm_compute in (m s).1 in
  assert (H2 : no_wrap (m s).2) by (vm_compute; repeat split; discriminate);
  assert (H : m s = (o, (m s).2)) by (vm_compute; reflexivity);
  revert H H2; generalize ((m s).2); intros k' H H2.

Lemma boot_inv : inv boot_close.
Proof. apply boot_close_ok. Qed.
Lemma boot_vfs_ok : vfs_ok boot_close.
Proof. apply boot_close_ok. Qed.

(** ** Invariants *)

(** C1: every state the file subsystem can reach from boot through calls that
    return satisfies the invariants: the cache is coherent with the backing file
    systems and the mount table, every file descriptor is open on an existing
    node, a node's link count is one more than the number of descriptors open on
    it, and no entry without a strong reference is in memory. *)
Theorem vfs_reachable_ok k : vfs_reach k → sys_ok k.
Proof. apply reach_sys_ok. Qed.

Lemma vfs_reachable_ok_witness : vfs_reach boot_close ∧ sys_ok boot_close.
Proof.
  split; [apply reach_boot, boot_run|]. apply vfs_reachable_ok, reach_boot, boot_run.
Defined.



(** ** Path resolution *)

(** C2: resolution refines the walk of the name space: whatever is or is not in
    the directory cache, [resolve_path] returns the entry whose path is the one
    the reference finds, returns nothing or an error exactly when the reference
    does, and leaves the name space unchanged; it panics only where the
    reference does or when node ids are exhausted. *)
Theorem resolve_path_refines path k r k' :
  inv k → resolve_path path k = (r, k') → no_wrap k' →
  match r with
  | Ok (Some e) => ref_resolve_path k path = Ok (Some (rpath k' e)) ∧
      (∃ de, entries k' !! e = Some de ∧ walk k (rpath k' e) = Some (node_view k' (de_node de))) ∧
      inv k' ∧ held k' = e :: held k ∧ ∀ q, walk k' q = walk k q
  | Ok None => ref_resolve_path k path = Ok None ∧ inv k' ∧ held k' = held k ∧ ∀ q, walk k' q = walk k q
  | Err e => ref_resolve_path k path = Err e ∧ inv k' ∧ held k' = held k ∧ ∀ q, walk k' q = walk k q
  | Panic p => p = ArithOverflow ∨ ref_resolve_path k path = Panic p
  end.
Proof.
  intros Hinv Hrun Hwrap. pose proof (resolve_path_ext _ _ _ _ Hrun) as Hext.
  pose proof (resolve_path_spec _ _ _ _ Hinv Hrun Hwrap) as Hspec.
  destruct r as [[e|]| |]; [| | |done]; destruct Hspec as (Hinv' & Hh & Href);
    assert (Hw : ∀ q, walk k' q = walk k q) by (intros; by apply ext_walk); [|done..].
  split_and!; try done. destruct (inv_held _ Hinv' e) as [de He]; [rewrite Hh; left|].
  exists de. split; [done|]. by rewrite <- Hw, (walk_entry _ _ _ Hinv' He).
Qed.

Lemma resolve_path_refines_witness : ∃ k',
  resolve_path "/dev/./../test.txt" boot_close = (Ok (Some 8), k') ∧ rpath k' 8 = ["test.txt"].
Proof.
  run_as (resolve_path "/dev/./../test.txt") boot_close H k'. exists k'. split; [exact H|].
  destruct (resolve_path_refines _ _ _ _ boot_inv H Hwrap) as [Href _].
  assert (Hc : ref_resolve_path boot_close "/dev/./../test.txt" = Ok (Some ["test.txt"])) by (by vm_compute).
  rewrite Hc in Href. by injection Href as <-.
Defined.

(** C31: [resolve_path_parent_directory] refines the reference on the name space:
    it returns a directory entry and the last name, and the errors and the
    [todo!()] on ["."] and [".."] are those of the reference. *)
Theorem resolve_path_parent_directory_refines path k r k' :
  inv k → resolve_path_parent_directory path k = (r, k') → no_wrap k' →
  match r with
  | Ok (p, name) => ref_parent_path k path = Ok (rpath k' p, name) ∧
      from_option (view_is_dir k') false (walk k (rpath k' p)) = true ∧
      inv k' ∧ held k' = p :: held k ∧ ∀ q, walk k' q = walk k q
  | Err e => ref_parent_path k path = Err e ∧ inv k' ∧ held k' = held k ∧ ∀ q, walk k' q = walk k q
  | Panic p => p = ArithOverflow ∨ ref_parent_path k path = Panic p
  end.
Proof.
  intros Hinv Hrun Hwrap. pose proof (resolve_path_parent_directory_ext _ _ _ _ Hrun) as Hext.
  pose proof (resolve_path_parent_directory_spec _ _ _ _ Hinv Hrun Hwrap) as Hspec.
  destruct r as [[p name]|e|]; [| |done].
  - destruct Hspec as (Hinv' & Hh & (pe & Hpe & n & Hn & Hk) & Href).
    assert (Hw : ∀ q, walk k' q = walk k q) by (intros; by apply ext_walk). split_and!; try done.
    rewrite <- Hw, (walk_entry _ _ _ Hinv' Hpe). simpl. rewrite (view_is_dir_node _ _ _ Hinv' Hn).
    by apply bool_decide_eq_true.
  - destruct Hspec as (? & ? & ?). split_and!; try done. intros. by apply ext_walk.
Qed.

Lemma resolve_path_parent_directory_refines_witness : ∃ k',
  resolve_path_parent_directory "/dev/tty" boot_close = (Ok (5, "tty"), k') ∧ rpath k' 5 = ["dev"].
Proof.
  run_as (resolve_path_parent_directory "/dev/tty") boot_close H k'. exists k'. split; [exact H|].
  destruct (resolve_path_parent_directory_refines _ _ _ _ boot_inv H Hwrap) as [Href _].
  assert (Hc : ref_parent_path boot_close "/dev/tty" = Ok (["dev"], "tty")) by (by vm_compute).
  rewrite Hc in Href. by injection Href as <-.
Defined.

(** C29: a node has one name, and a name one entry.  In every state the file
    subsystem reaches, when two paths are resolved one after the other and the
    entries are kept, they have the same node exactly when the two paths lead to
    the same place, and then they are one entry, with one id: no node, device
    nodes included, has two names, and, as the documentation of [resolve_path]
    promises, an entry that is referenced is never loaded a second time. *)
Theorem paths_share_entries p1 p2 k e1 k1 e2 k2 : vfs_reach k →
  resolve_path p1 k = (Ok (Some e1), k1) → resolve_path p2 k1 = (Ok (Some e2), k2) → no_wrap k2 →
  ∃ de1 de2, entries k2 !! e1 = Some de1 ∧ entries k2 !! e2 = Some de2 ∧
    (de_node de1 = de_node de2 ↔ ref_resolve_path k p1 = ref_resolve_path k p2) ∧
    (e1 = e2 ↔ ref_resolve_path k p1 = ref_resolve_path k p2) ∧
    (e1 = e2 ↔ de_id de1 = de_id de2).
Proof.
  intros Hk H1 H2 Hw2. pose proof (vo_inv _ (so_vfs _ (reach_sys_ok _ Hk))) as Hinv.
  pose proof (resolve_path_ext _ _ _ _ H1) as Hext1. pose proof (resolve_path_ext _ _ _ _ H2) as Hext2.
  assert (Hw1 : no_wrap k1) by (by eapply ext_no_wrap).
  destruct (resolve_path_spec _ _ _ _ Hinv H1 Hw1) as (Hinv1 & Hh1 & Hr1).
  destruct (resolve_path_spec _ _ _ _ Hinv1 H2 Hw2) as (Hinv2 & Hh2 & Hr2).
  destruct (inv_held _ Hinv2 e1) as [de1 He1]; [rewrite Hh2, Hh1; right; left|].
  destruct (inv_held _ Hinv2 e2) as [de2 He2]; [rewrite Hh2; left|].
  destruct (inv_held _ Hinv1 e1) as [de1' He1']; [rewrite Hh1; left|].
  rewrite (ext_ref_resolve_path k k1) in Hr2 by done.
  rewrite <- (ext_rpath k1 k2 e1) in Hr1 by eauto. exists de1, de2. rewrite Hr1, Hr2.
  assert (Hp : Ok (E:=IoError) (Some (rpath k2 e1)) = Ok (Some (rpath k2 e2)) ↔ e1 = e2).
  { split; [|by intros ->]. intros [= Hp]. by eapply (rpath_inj k2). }
  split_and!; [done..| |by rewrite Hp|].
  - rewrite Hp. split; [|by intros ->; simplify_eq]. intros Hn. eapply (rpath_inj k2); [done..|].
    pose proof (walk_entry _ _ _ Hinv2 He1) as Hv1. pose proof (walk_entry _ _ _ Hinv2 He2) as Hv2.
    rewrite <- Hn in Hv2. by eapply walk_view_inj.
  - split; [by intros ->; simplify_eq|]. by eapply (inv_entry_inj k2).
Qed.

(** Two ways to the file that is made at boot. *)
Lemma paths_share_entries_witness : ∃ e1 e2 k1 k2,
  resolve_path "/dev/./../test.txt" boot_close = (Ok (Some e1), k1) ∧
  resolve_path "/test.txt" k1 = (Ok (Some e2), k2) ∧ e1 = e2.
Proof.
  exists 8, 8. assert (Hk : vfs_reach boot_close) by (apply reach_boot, boot_run).
  set (k1 := (resolve_path "/dev/./../test.txt" boot_close).2).
  assert (H1 : resolve_path "/dev/./../test.txt" boot_close = (Ok (Some 8), k1)) by (vm_compute; reflexivity).
  run_as (resolve_path "/test.txt") k1 H2 k2. exists k1, k2. split; [exact H1|]. split; [exact H2|].
  destruct (paths_share_entries _ _ _ _ _ _ _ Hk H1 H2 Hwrap) as (de1 & de2 & _ & _ & _ & He & _).
  apply He. vm_compute. reflexivity.
Defined.

(** ** Directories and mounts *)

(** C11: [create_directory] adds exactly the requested name: on success the name
    was free, it now names a new empty directory, every other path names what it
    did, and the returned entry is the new path; it fails with the reference's
    error ([AlreadyExists], a missing or non-directory parent, a read-only file
    system) and then the name space is unchanged. *)
Theorem create_directory_adds_one path k r k' :
  inv k → create_directory path k = (r, k') → no_wrap k' →
  match r with
  | Ok e => ∃ rp c n, ref_create_directory k path = Ok rp ∧ walk k rp = None ∧ rpath k' e = rp ∧
      (∀ q, walk k' q = if decide (q = rp) then Some (VNode c) else walk k q) ∧
      nodes k' !! c = Some n ∧ node_kind n = FsNodeKind.Directory ∧
      node_private_data n = Some (RamDirectoryNode ∅) ∧ inv k' ∧ held k' = e :: held k
  | Err e => ref_create_directory k path = Err e ∧ (∀ q, walk k' q = walk k q) ∧
      inv k' ∧ held k' = held k
  | Panic p => p = ArithOverflow ∨ ref_create_directory k path = Panic p
  end.
Proof.
  intros Hinv Hrun Hwrap. pose proof (create_directory_spec _ _ _ _ Hinv Hrun Hwrap) as Hspec.
  destruct r as [e|e|p]; [| |done].
  - destruct Hspec as (rp & c & de & Href & Hcr & Hh & _ & _ & Hr).
    destruct (cr_node _ _ _ _ _ _ Hcr) as (n & Hn & Hk & Hd & _).
    exists rp, c, n. split_and!; try done; [|apply (cr_walk _ _ _ _ _ _ Hcr)|apply Hcr].
    by apply (ref_create_directory_None k path).
  - destruct Hspec as (Hinv' & Hext & Hh & Href). split_and!; try done. intros. by apply ext_walk.
Qed.

Lemma create_directory_adds_one_witness : ∃ k',
  create_directory "/home" boot_close = (Ok 9, k') ∧ rpath k' 9 = ["home"].
Proof.
  run_as (create_directory "/home") boot_close H k'. exists k'. split; [exact H|].
  destruct (create_directory_adds_one _ _ _ _ boot_inv H Hwrap) as (rp & c & n & Href & _ & Hr & _).
  assert (Hc : ref_create_directory boot_close "/home" = Ok ["home"]) by (vm_compute; reflexivity).
  rewrite Hc in Href. injection Href as <-. exact Hr.
Defined.

(** C12: [mount] at a free path grafts the new instance there: the target names
    its root directory, the paths below are those of the new file system (none
    for RAM, the registered devices for the device file system), and every path
    that does not go through the target names what it did. *)
Theorem mount_grafts source target kind flags k r k' :
  inv k → mount source target kind flags k = (r, k') → no_wrap k' →
  match r with
  | Ok id => ∃ ty rp root, ref_mount k source target kind = Ok (ty, rp) ∧ id = mount_count k ∧
      (∀ q, ¬ rp `suffix_of` q → walk k' q = walk k q) ∧
      (∀ l, walk k' (l ++ rp) =
        match l with
        | [] => Some (VNode root)
        | [s] => instance_child k ty id s
        | _ => None
        end) ∧
      inv k' ∧ held k' = held k
  | Err e => ref_mount k source target kind = Err e ∧ (∀ q, walk k' q = walk k q) ∧
      inv k' ∧ held k' = held k
  | Panic p => p = ArithOverflow ∨ ref_mount k source target kind = Panic p
  end.
Proof.
  intros Hinv Hrun Hwrap. pose proof (mount_spec _ _ _ _ _ _ _ Hinv Hrun Hwrap) as Hspec.
  destruct r as [id|e|p]; [| |done].
  - destruct Hspec as (ty & rp & Href & [? [Hid _] Ho Hb _ _ _ _] & Hh). exists ty, rp. eexists.
    split_and!; try done.
  - destruct Hspec as (Hinv' & Hext & Hh & Href). split_and!; try done. intros. by apply ext_walk.
Qed.

Lemma mount_grafts_witness : ∃ k',
  mount "" "/devices" (Some "devfs") 3 boot_close = (Ok 2%Z, k') ∧
  walk k' (["null"] ++ ["devices"]) = Some (VDev 2 NullDevice).
Proof.
  run_as (mount "" "/devices" (Some "devfs") 3) boot_close H k'. exists k'. split; [exact H|].
  destruct (mount_grafts _ _ _ _ _ _ _ boot_inv H Hwrap) as (ty & rp & root & Href & _ & _ & Hw & _).
  assert (Hc : ref_mount boot_close "" "/devices" (Some "devfs") = Ok (DevFileSystemType, ["devices"]))
    by (vm_compute; reflexivity).
  rewrite Hc in Href. injection Href as <- <-. rewrite (Hw ["null"]). vm_compute. reflexivity.
Defined.

(** C27: a listing is complete and exact: [read_directory] returns an entry for
    a name if and only if the path extended by that name exists (in the backing
    file system or as a mount point), and the entry has that name, the kind of the
    node and, unless it is a device, its id; the errors are those of the reference. *)
Theorem read_directory_lists path k r k' :
  inv k → read_directory path k = (r, k') → no_wrap k' →
  match r with
  | Ok ctx => ∃ rp, ref_read_directory k path = Ok rp ∧
      (∀ s, match walk k (s :: rp) with
            | Some v => ∃ d, ctx !! s = Some d ∧ die_name d = s ∧ Some (die_kind d) = view_kind k' v ∧
                ∀ i, view_id k' v = Some i → die_id d = i
            | None => ctx !! s = None
            end) ∧ inv k' ∧ ∀ q, walk k' q = walk k q
  | Err e => ref_read_directory k path = Err e ∧ inv k' ∧ ∀ q, walk k' q = walk k q
  | Panic p => p = ArithOverflow ∨ ref_read_directory k path = Panic p
  end.
Proof.
  intros Hinv Hrun Hwrap. pose proof (read_directory_spec _ _ _ _ Hinv Hrun Hwrap) as Hspec.
  destruct r as [ctx|e|p]; [| |done].
  - destruct Hspec as (Hinv' & Hext & Hh & rp & Href & Hl). exists rp.
    split_and!; [done|exact Hl|done|]. intros. by apply ext_walk.
  - destruct Hspec as (Hinv' & Hext & Hh & Href). split_and!; try done. intros. by apply ext_walk.
Qed.

Lemma read_directory_lists_witness : ∃ ctx k', read_directory "/" boot_close = (Ok ctx, k') ∧
  is_Some (ctx !! "dev") ∧ ctx !! "etc" = None.
Proof.
  run_as (read_directory "/") boot_close H k'. eexists _, k'. split; [exact H|].
  destruct (read_directory_lists _ _ _ _ boot_inv H Hwrap) as (rp & Href & Hl & _).
  assert (Hc : ref_read_directory boot_close "/" = Ok []) by (vm_compute; reflexivity).
  rewrite Hc in Href. injection Href as <-.
  assert (H1 : walk boot_close ["dev"] = Some (VNode 3)) by (vm_compute; reflexivity).
  assert (H2 : walk boot_close ["etc"] = None) by (vm_compute; reflexivity).
  split.
  - specialize (Hl "dev"). rewrite H1 in Hl. destruct Hl as (d & -> & _). eexists; reflexivity.
  - specialize (Hl "etc"). rewrite H2 in Hl. exact Hl.
Defined.

(** C32: pruning the directory cache removes exactly the keys whose entry has
    been freed, does not panic, and changes neither the name space nor the set
    of held references. *)
Theorem prune_removes_stale k : sys_ok k →
  ∃ k', prune_directory_cache k = (Ok tt, k') ∧ sys_ok k' ∧ held k' = held k ∧
    (∀ key w, directory_cache k' !! key = Some w ↔
      directory_cache k !! key = Some w ∧ is_Some (entries k !! w)) ∧
    ∀ q, walk k' q = walk k q.
Proof.
  intros [Hok Ht]. pose proof (vo_inv _ Hok) as Hinv.
  destruct (prune_spec _ Hinv Ht) as (k' & Hrun & Hinv' & Hext & Hh & Ht' & Hc).
  exists k'. split_and!; try done; [split; [by apply (vfs_ok_ext k)|done]|].
  intros. by apply ext_walk.
Qed.

Lemma prune_removes_stale_witness : ∃ k', prune_directory_cache boot_close = (Ok tt, k') ∧
  sys_ok k' ∧ held k' = held boot_close.
Proof.
  destruct (prune_removes_stale boot_close boot_close_ok) as (k' & Hrun & Hok & Hh & _).
  exists k'. split; [exact Hrun|]. split; [exact Hok|exact Hh].
Defined.

(** ** Open files *)

(** C10: [open] returns a descriptor that was not in use, open at position 0 on
    the node the path names; in a writing mode a missing file is created, empty,
    as the only change to the name space, and otherwise the name space, the file
    contents and the other descriptors are unchanged.  Its errors are those of
    the reference, and leave the descriptor table alone. *)
Theorem open_correct path mode k r k' : vfs_ok k → open path mode k = (r, k') → no_wrap k' →
  match r with
  | Ok fd => ∃ cr rp l, ref_open k path mode = Ok (cr, rp) ∧
      files k !! fd = None ∧ files k' = <[fd := File_new l mode]> (files k) ∧
      walk k' rp = Some (node_view k' l) ∧
      (∀ q, walk k' q = if decide (cr = true ∧ q = rp) then Some (VNode l) else walk k q) ∧
      (cr = true → ∃ n, nodes k' !! l = Some n ∧ node_private_data n = Some (RamFileNode [])) ∧
      data_kept k k' ∧ vfs_ok k' ∧ held k' = held k
  | Err e => ref_open k path mode = Err e ∧ files k' = files k ∧ (∀ q, walk k' q = walk k q) ∧
      vfs_ok k' ∧ held k' = held k
  | Panic p => p = ArithOverflow ∨ ref_open k path mode = Panic p
  end.
Proof.
  intros Hok Hrun Hwrap. pose proof (open_spec _ _ _ _ _ Hok Hrun Hwrap) as Hspec.
  destruct r as [fd|e|p]; [| |done].
  - destruct Hspec as (Hok' & Hh & cr & rp & l & Href & [[_ Hnew] Hf Hn Hw Hd Hc]).
    exists cr, rp, l. split_and!; done.
  - destruct Hspec as (Hok' & Hext & Hh & Href).
    split_and!; try done; [apply Hext|]. intros. apply ext_walk; [apply Hok|apply Hok'|done].
Qed.

Lemma open_correct_witness : ∃ k', open "/notes" FileMode.Write boot_close = (Ok 2%Z, k') ∧
  is_Some (walk k' ["notes"]).
Proof.
  run_as (open "/notes" FileMode.Write) boot_close H k'. exists k'. split; [exact H|].
  destruct (open_correct _ _ _ _ _ boot_vfs_ok H Hwrap) as (cr & rp & l & Href & _ & _ & Hw & _).
  assert (Hc : ref_open boot_close "/notes" FileMode.Write = Ok (true, ["notes"])) by (vm_compute; reflexivity).
  rewrite Hc in Href. injection Href as <- <-. rewrite Hw. eexists; reflexivity.
Defined.

(** C30: [close] never panics: an unknown descriptor is [InvalidFile] and changes
    nothing; otherwise the descriptor is removed, and the only other change is
    the link count of its node, which goes down by one. *)
Theorem close_total k fd : vfs_ok k →
  match files k !! fd with
  | None => close fd k = (Err InvalidFile, k)
  | Some f => ∃ n, nodes k !! file_node f = Some n ∧ (2 ≤ link_count (node_metadata n))%Z ∧
      close fd k = (Ok tt, upd_nodes <[file_node f := set_link_count (link_count (node_metadata n) - 1) n]>
        (upd_files (delete fd) k)) ∧
      vfs_ok (close fd k).2 ∧ ∀ q, walk (close fd k).2 q = walk k q
  end.
Proof.
  intros Hok. destruct (files k !! fd) as [f|] eqn:Hf.
  - destruct (fo_file _ (vo_files _ Hok) _ _ Hf) as (_ & [n Hn] & _). exists n.
    rewrite (close_run _ _ _ _ Hok Hf Hn). split; [done|]. split.
    { rewrite (fo_links _ (vo_files _ Hok) _ _ Hn), (open_count_delete _ _ _ _ Hf), decide_True by done. lia. }
    split; [done|]. split; [by apply vfs_ok_closed|]. intros. by apply closed_walk.
  - unfold close, mbind, M_bind. by rewrite (get_file_None _ _ Hf).
Qed.

Lemma close_total_witness : files boot_write !! 1%Z = Some
    {| file_node := 6; file_mode := FileMode.Write; file_position := 13; file_private_data := None |} ∧
  close 1 boot_write = (Ok tt, boot_close) ∧ vfs_ok (close 1 boot_write).2.
Proof.
  pose proof (close_total boot_write 1 (so_vfs _ boot_write_ok)) as Hc.
  assert (Hf : files boot_write !! 1%Z = Some {| file_node := 6; file_mode := FileMode.Write;
    file_position := 13; file_private_data := None |}) by (vm_compute; reflexivity).
  rewrite Hf in Hc. destruct Hc as (n & _ & _ & _ & Hok & _).
  split; [exact Hf|]. split; [vm_compute; reflexivity|exact Hok].
Defined.

(** C26: opening an existing path and closing the descriptor again leaves the
    descriptor table, every file's contents, every link count and the name
    space as they were. *)
Theorem open_close_roundtrip path mode k fd k1 r k2 rp : vfs_ok k →
  open path mode k = (Ok fd, k1) → no_wrap k1 → ref_open k path mode = Ok (false, rp) →
  close fd k1 = (r, k2) →
  r = Ok tt ∧ files k2 = files k ∧ vfs_ok k2 ∧ data_kept k k2 ∧ (∀ q, walk k2 q = walk k q) ∧
  ∀ l n n2, nodes k !! l = Some n → nodes k2 !! l = Some n2 →
    link_count (node_metadata n2) = link_count (node_metadata n).
Proof.
  intros Hok Hopen Hwrap Href Hclose.
  pose proof (open_spec _ _ _ _ _ Hok Hopen Hwrap) as (Hok1 & _ & cr & rp' & l & Href' & Hopd).
  assert (cr = false) as -> by congruence.
  pose proof (opd_files _ _ _ _ _ _ _ Hopd) as Hfs. destruct (opd_fd _ _ _ _ _ _ _ Hopd) as [_ Hnew].
  assert (Hf : files k1 !! fd = Some (File_new l mode)) by (rewrite Hfs; apply lookup_insert_eq).
  destruct (fo_file _ (vo_files _ Hok1) _ _ Hf) as (_ & [n1 Hn1] & _).
  rewrite (close_run _ _ _ _ Hok1 Hf Hn1) in Hclose. simplify_eq.
  pose proof (vfs_ok_closed _ _ _ _ Hok1 Hf Hn1) as Hok2.
  assert (Hfiles : files (closed_state fd (File_new l mode) n1 k1) = files k).
  { simpl. rewrite Hfs. by apply delete_insert_id. }
  split_and!; try done.
  - etrans; [apply Hopd|]. by apply (put_data_kept k1 l n1).
  - intros q. rewrite (closed_walk _ _ _ _ _ Hn1), (opd_walk _ _ _ _ _ _ _ Hopd).
    by rewrite decide_False by naive_solver.
  - intros x n n2 Hn Hn2. rewrite (fo_links _ (vo_files _ Hok2) _ _ Hn2), (fo_links _ (vo_files _ Hok) _ _ Hn).
    by rewrite Hfiles.
Qed.

Lemma open_close_roundtrip_witness : ∃ k1 k2,
  open "/test.txt" FileMode.Read boot_close = (Ok 2%Z, k1) ∧ close 2 k1 = (Ok tt, k2) ∧
  files k2 = files boot_close.
Proof.
  run_as (open "/test.txt" FileMode.Read) boot_close H k1.
  assert (Hr : ref_open boot_close "/test.txt" FileMode.Read = Ok (false, ["test.txt"])) by (vm_compute; reflexivity).
  destruct (close 2 k1) as [r k2] eqn:Hc.
  destruct (open_close_roundtrip _ _ _ _ _ _ _ _ boot_vfs_ok H Hwrap Hr Hc) as (-> & Hf & _).
  exists k1, k2. split; [exact H|]. split; [exact Hc|exact Hf].
Defined.

(** ** Reading and writing *)

(** C24: reading an open RAM file copies the bytes at its position, as many as fit
    in the buffer and exist, leaves the rest of the buffer, and advances the
    position of that descriptor by the count; nothing else changes, and it
    cannot panic. *)
Theorem read_file k fd f n data buffer : vfs_ok k →
  files k !! fd = Some f → file_mode f = FileMode.Read →
  nodes k !! file_node f = Some n → node_private_data n = Some (RamFileNode data) →
  let o := Z.to_nat (file_position f) in
  let c := Nat.min (length buffer) (length data - o) in
  read fd buffer k =
    (Ok (Z.of_nat c, take c (drop o data) ++ drop c buffer),
     upd_files <[fd := set_position (file_position f + Z.of_nat c) f]> k).
Proof.
  intros Hok Hf Hm Hn Hd o c. destruct (fo_file _ (vo_files _ Hok) _ _ Hf) as (_ & _ & Hp).
  rewrite (read_run _ _ _ _ _ Hok Hf Hn). unfold ref_read.
  assert (Hk : node_kind n = FsNodeKind.File).
  { destruct (inv_node _ (vo_inv _ Hok) _ _ Hn) as (_ & fs & _ & H). unfold node_ok in H. rewrite Hd in H.
    by destruct fs. }
  rewrite decide_False by congruence. rewrite decide_False by (by intros []). rewrite Hd.
  destruct (read_at_spec data (file_position f) buffer (proj1 Hp)) as (Hc & H1 & H2).
  pose proof (read_at_position data (file_position f) buffer (proj1 Hp)) as [_ Hmax].
  pose proof (fo_size _ (vo_files _ Hok) _ _ Hn) as Hs. unfold node_bytes in Hs. rewrite Hd in Hs.
  rewrite decide_True by lia. rewrite Hc in H1, H2. fold o in H1, H2. fold c in H1, H2.
  by rewrite (surjective_pairing (read_at _ _ _)), H1, H2.
Qed.

Lemma read_file_witness : ∃ k', (fd ← open "/test.txt" FileMode.Read; read fd (replicate 5 x00)) boot_close =
  (Ok (5%Z, bytes "Hello"), k').
Proof.
  run_as (open "/test.txt" FileMode.Read) boot_close H k1.
  pose proof (open_spec _ _ _ _ _ boot_vfs_ok H Hwrap) as (Hok & _).
  assert (Hk : k1 = (open "/test.txt" FileMode.Read boot_close).2) by (rewrite H; reflexivity).
  eexists. rewrite (mbind_run _ _ _ _ _ H). rewrite (read_file k1 2 {| file_node := 6; file_mode := FileMode.Read;
    file_position := 0; file_private_data := None |} {| node_id := 1; node_mount_id := 0; node_kind := FsNodeKind.File;
    node_metadata := {| dirty := false; link_count := 2; node_size := 0; accessed_at := 0; created_at := 0;
      modified_at := 0 |}; node_private_data := Some (RamFileNode (bytes "Hello, world!")) |}
    (bytes "Hello, world!") (replicate 5 x00) Hok).
  - reflexivity.
  - rewrite Hk. vm_compute. reflexivity.
  - reflexivity.
  - rewrite Hk. vm_compute. reflexivity.
  - reflexivity.
Defined.

(** C23: writing to an open RAM file stores the buffer at the position of the
    descriptor, grows the file if needed with zero bytes in any hole, keeps the
    other bytes, advances the position by the length of the buffer and returns
    that length; it panics only if the end would exceed 2^64 - 1. *)
Theorem write_file k fd f n data buffer : vfs_ok k →
  files k !! fd = Some f → file_mode f = FileMode.Write →
  nodes k !! file_node f = Some n → node_private_data n = Some (RamFileNode data) →
  let o := Z.to_nat (file_position f) in
  let len := length buffer in
  if decide (file_position f + Z.of_nat len ≤ u64_max)%Z then
    ∃ data', write fd buffer k = (Ok (Z.of_nat len),
        upd_files <[fd := set_position (file_position f + Z.of_nat len) f]>
          (upd_nodes <[file_node f := set_private_data (RamFileNode data') n]> k)) ∧
      length data' = Nat.max (length data) (o + len) ∧
      ∀ i, i < length data' → data' !! i = Some
        (if decide (o ≤ i < o + len) then default x00 (buffer !! (i - o)) else default x00 (data !! i))
  else write fd buffer k = (Panic ArithOverflow, k).
Proof.
  intros Hok Hf Hm Hn Hd o len. destruct (fo_file _ (vo_files _ Hok) _ _ Hf) as (_ & _ & Hp).
  rewrite (write_run _ _ _ _ _ Hok Hf Hn). unfold ref_write.
  assert (Hk : node_kind n = FsNodeKind.File).
  { destruct (inv_node _ (vo_inv _ Hok) _ _ Hn) as (_ & fs & _ & H). unfold node_ok in H. rewrite Hd in H.
    by destruct fs. }
  rewrite (decide_False (P := node_kind n = _)) by congruence.
  rewrite (decide_False (P := file_mode f ≠ _)) by (by intros []). rewrite Hd. fold len. case_decide; [|done].
  exists (write_at data (file_position f) buffer). split; [done|].
  pose proof (write_at_length data (file_position f) buffer (proj1 Hp)) as Hl. split; [lia|].
  intros i Hi. exact (write_at_lookup data (file_position f) buffer i (proj1 Hp) Hi).
Qed.

Lemma write_file_witness : ∃ k', write 1 (bytes "Hi") boot_open = (Ok 2%Z, k').
Proof.
  pose proof (write_file boot_open 1 {| file_node := 6; file_mode := FileMode.Write;
    file_position := 0; file_private_data := None |} {| node_id := 1; node_mount_id := 0; node_kind := FsNodeKind.File;
    node_metadata := {| dirty := false; link_count := 2; node_size := 0; accessed_at := 0; created_at := 0;
      modified_at := 0 |}; node_private_data := Some (RamFileNode []) |} [] (bytes "Hi") (so_vfs _ boot_open_ok)
    ltac:(vm_compute; reflexivity) eq_refl ltac:(vm_compute; reflexivity) eq_refl) as Hw.
  cbv zeta in Hw. destruct (decide _) as [_|Hno] in Hw; [|destruct Hno; vm_compute; discriminate].
  destruct Hw as (data' & Hrun & _). eexists. exact Hrun.
Defined.

(** C25: what one descriptor writes another reads: after a successful write, a
    descriptor open for reading on the same file at the position the write
    started from reads back exactly the bytes written. *)
Theorem read_after_write k w r fw fr buffer out res k1 : vfs_ok k →
  files k !! w = Some fw → files k !! r = Some fr → w ≠ r →
  file_node fr = file_node fw → file_mode fr = FileMode.Read → file_position fr = file_position fw →
  (∃ n data, nodes k !! file_node fw = Some n ∧ node_private_data n = Some (RamFileNode data)) →
  length out = length buffer → write w buffer k = (Ok res, k1) →
  ∃ k2, read r out k1 = (Ok (Z.of_nat (length buffer), buffer), k2).
Proof.
  intros Hok Hw Hr Hne Hnode Hm Hpos (n & data & Hn & Hd) Hlen Hrun.
  destruct (fo_file _ (vo_files _ Hok) _ _ Hw) as (_ & _ & Hp).
  rewrite (write_run _ _ _ _ _ Hok Hw Hn) in Hrun.
  destruct (ref_write n fw buffer) as [n'| |] eqn:Hrw; [|done..]. case_decide as Hmax; [|done].
  pose proof (vfs_ok_written _ _ _ _ _ _ Hok Hw Hn Hrw Hmax) as [Hok1 _]. injection Hrun as _ <-.
  assert (Hn' : n' = set_private_data (RamFileNode (write_at data (file_position fw) buffer)) n).
  { unfold ref_write in Hrw. repeat case_decide; try done. rewrite Hd in Hrw. by injection Hrw as <-. }
  assert (Hr1 : files (written_state w fw n' buffer k) !! r = Some fr) by (simpl; by rewrite lookup_insert_ne).
  assert (Hn1 : nodes (written_state w fw n' buffer k) !! file_node fr = Some n').
  { simpl. rewrite Hnode. apply lookup_insert_eq. }
  rewrite (read_run _ _ _ _ _ Hok1 Hr1 Hn1). unfold ref_read.
  assert (Hk : node_kind n ≠ FsNodeKind.Directory) by (unfold ref_write in Hrw; by case_decide).
  rewrite decide_False by (by rewrite Hn'). rewrite decide_False by (by intros []).
  assert (Hpd : node_private_data n' = Some (RamFileNode (write_at data (file_position fw) buffer)))
    by (by rewrite Hn').
  rewrite Hpd, Hpos, (read_at_write_at data) by (done || lia).
  rewrite decide_True by (rewrite <- Hpos in Hmax; simpl; lia). eauto.
Qed.

Lemma read_after_write_witness : ∃ k k1 k2,
  (open "/test.txt" FileMode.Write ≫= λ _, open "/test.txt" FileMode.Read) boot_close = (Ok 3%Z, k) ∧
  write 2 (bytes "Howdy") k = (Ok 5%Z, k1) ∧
  read 3 (replicate 5 x00) k1 = (Ok (5%Z, bytes "Howdy"), k2).
Proof.
  run_as (open "/test.txt" FileMode.Write) boot_close H ka.
  pose proof (open_spec _ _ _ _ _ boot_vfs_ok H Hwrap) as (Hoka & _).
  assert (Hka : ka = (open "/test.txt" FileMode.Write boot_close).2) by (rewrite H; reflexivity).
  assert (Hrun : open "/test.txt" FileMode.Read ka = (Ok 3%Z, (open "/test.txt" FileMode.Read ka).2))
    by (rewrite Hka; vm_compute; reflexivity).
  assert (Hwrapb : no_wrap (open "/test.txt" FileMode.Read ka).2)
    by (rewrite Hka; vm_compute; repeat split; discriminate).
  pose proof (open_spec _ _ _ _ _ Hoka Hrun Hwrapb) as (Hokb & _).
  set (kb := (open "/test.txt" FileMode.Read ka).2) in *.
  assert (Hw : write 2 (bytes "Howdy") kb = (Ok 5%Z, (write 2 (bytes "Howdy") kb).2))
    by (unfold kb; rewrite Hka; vm_compute; reflexivity).
  destruct (read_after_write kb 2 3 (File_new 6 FileMode.Write) (File_new 6 FileMode.Read) (bytes "Howdy")
    (replicate 5 x00) 5%Z (write 2 (bytes "Howdy") kb).2 Hokb) as [k2 Hr].
  - unfold kb. rewrite Hka. vm_compute. reflexivity.
  - unfold kb. rewrite Hka. vm_compute. reflexivity.
  - discriminate.
  - reflexivity.
  - reflexivity.
  - reflexivity.
  - exists {| node_id := 1; node_mount_id := 0; node_kind := FsNodeKind.File;
      node_metadata := {| dirty := false; link_count := 3; node_size := 0; accessed_at := 0; created_at := 0;
        modified_at := 0 |}; node_private_data := Some (RamFileNode (bytes "Hello, world!")) |},
      (bytes "Hello, world!"). split; [unfold kb; rewrite Hka; vm_compute; reflexivity|reflexivity].
  - reflexivity.
  - exact Hw.
  - exists kb, (write 2 (bytes "Howdy") kb).2, k2. split; [|split; [exact Hw|exact Hr]].
    rewrite (mbind_run _ _ _ _ _ H). exact Hrun.
Defined.

(** ** Boot *)

(** C33: the kernel boots: [boot] returns, and the name space it leaves has the
    root directory, the device directory with the two devices, and the file
    [/test.txt] with its greeting, with no descriptor left open and no entry
    reference held. *)
Theorem boot_name_space : ∃ k, boot kernel_start = (Ok tt, k) ∧
  walk k [] = Some (VNode 0) ∧ walk k ["dev"] = Some (VNode 3) ∧
  walk k ["null"; "dev"] = Some (VDev 1 NullDevice) ∧
  walk k ["zero"; "dev"] = Some (VDev 1 ZeroDevice) ∧
  walk k ["test.txt"] = Some (VNode 6) ∧
  node_bytes <$> nodes k !! 6 = Some (bytes "Hello, world!") ∧
  files k = ∅ ∧ held k = [] ∧ sys_ok k.
Proof.
  exists boot_close. split; [apply boot_run|].
  do 5 (split; [vm_compute; reflexivity|]). split; [vm_compute; reflexivity|].
  do 2 (split; [vm_compute; reflexivity|]). apply boot_close_ok.
Qed.
