(* ===== verification/NodeIds.v ===== *)
(** * Node identifiers: what [PartialEq for FsNode] decides

    [fs/mod.rs] compares nodes by id and mount id and says that this is enough to
    identify a node.  It is: every file system hands out an id once, and every
    mount has its own id. *)

From Stdlib Require Import Init.Byte.
From S2P Require Import Prelude Util FsTypes Fs Registry RamFs DevFs DirCache Path Vfs.
From S2P Require Import VfsFrame VfsInv VfsWalk VfsCreate VfsDirs VfsMount VfsFiles VfsReadDir VfsReach VfsCalls VfsProps.

Module NodeIds.

Definition key (n : FsNode) : Z * Z := (node_id n, node_mount_id n).
Definition root_of (fs : FileSystem) : loc := fsi_root (fs_instance fs).
(** The id the instance gives out next. *)
Definition next_id (fs : FileSystem) : Z := SynCell.get (fsi_next_node_id (fs_instance fs)).
(** The instance at [s] serves the mount [mid]. *)
Definition serves (k : kernel) (s : loc) (fs : FileSystem) (mid : Z) : Prop :=
  file_systems k !! s = Some fs ∧ ∃ rn, nodes k !! root_of fs = Some rn ∧ node_mount_id rn = mid.

Record ids_ok (k : kernel) : Prop := {
  io_mounts : (0 ≤ mount_count k)%Z;
  io_node l n : nodes k !! l = Some n → l < next_loc k ∧ (node_mount_id n < mount_count k)%Z;
  io_fs s fs : file_systems k !! s = Some fs → s < next_loc k ∧ is_Some (nodes k !! root_of fs);
  io_serves s s' fs fs' mid : serves k s fs mid → serves k s' fs' mid → s = s';
  io_below l n s fs : nodes k !! l = Some n → serves k s fs (node_mount_id n) → (node_id n < next_id fs)%Z;
  io_unique l l' n n' : nodes k !! l = Some n → nodes k !! l' = Some n' → key n = key n' → l = l';
}.

(** The code keeps [ids_ok] as long as the mount counter does not wrap. *)
Definition ids_step (k k' : kernel) : Prop := counts_le k k' ∧ (no_wrap k' → ids_ok k → ids_ok k').
#[export] Instance ids_step_preorder : PreOrder ids_step.
Proof.
  split; [intros k; by split|]. intros k1 k2 k3 [H12 Hi12] [H23 Hi23]. split; [by etrans|].
  intros Hw Hi. apply Hi23, Hi12; [done| |done]. by eapply counts_le_no_wrap.
Qed.

(** ** Changes that do not concern identifiers *)

Record same_ids (k k' : kernel) : Prop := {
  si_counts : counts_le k k';
  si_loc : next_loc k ≤ next_loc k';
  si_nodes : key <$> nodes k' = key <$> nodes k;
  si_fs : file_systems k' = file_systems k;
}.

Lemma same_node k k' l n : same_ids k k' → nodes k' !! l = Some n → ∃ n0, nodes k !! l = Some n0 ∧ key n = key n0.
Proof.
  intros Hs Hn. pose proof (f_equal (lookup l) (si_nodes _ _ Hs)) as Hl. rewrite !lookup_fmap, Hn in Hl.
  destruct (nodes k !! l) as [n0|]; [|done]. exists n0. split; [done|]. by injection Hl as ? ?; unfold key; f_equal.
Qed.
Lemma same_node_back k k' l n : same_ids k k' → nodes k !! l = Some n → is_Some (nodes k' !! l).
Proof.
  intros Hs Hn. pose proof (f_equal (lookup l) (si_nodes _ _ Hs)) as Hl. rewrite !lookup_fmap, Hn in Hl.
  by destruct (nodes k' !! l).
Qed.
Lemma same_serves k k' s fs mid : same_ids k k' → serves k' s fs mid → serves k s fs mid.
Proof.
  intros Hs (Hfs & rn & Hrn & Hm). destruct (same_node _ _ _ _ Hs Hrn) as (n0 & Hn0 & [= ? ?]).
  split; [by rewrite <- (si_fs _ _ Hs)|]. exists n0. split; [done|congruence].
Qed.
Lemma same_ids_step k k' : same_ids k k' → ids_step k k'.
Proof.
  intros Hs. split; [apply Hs|]. intros _ Hi. pose proof (si_counts _ _ Hs) as (_ & Hc & _). pose proof (si_loc _ _ Hs) as Hl. split.
  - pose proof (io_mounts _ Hi). lia.
  - intros l n Hn. destruct (same_node _ _ _ _ Hs Hn) as (n0 & Hn0 & [= _ ->]).
    destruct (io_node _ Hi _ _ Hn0). split; lia.
  - intros s fs. rewrite (si_fs _ _ Hs). intros Hfs. destruct (io_fs _ Hi _ _ Hfs) as [? [rn Hrn]].
    split; [lia|]. by eapply same_node_back.
  - intros s s' fs fs' mid H1 H2. by eapply (io_serves _ Hi); eapply same_serves.
  - intros l n s fs Hn Hsv. destruct (same_node _ _ _ _ Hs Hn) as (n0 & Hn0 & [= Hid Hm]). rewrite Hid.
    apply (io_below _ Hi l n0 s); [done|]. rewrite <- Hm. by eapply same_serves.
  - intros l l' n n' Hn Hn' Hk. destruct (same_node _ _ _ _ Hs Hn) as (n0 & Hn0 & ?).
    destruct (same_node _ _ _ _ Hs Hn') as (n0' & Hn0' & ?). apply (io_unique _ Hi l l' n0 n0'); [done..|congruence].
Qed.

Lemma put_node_step k l n n' : nodes k !! l = Some n → key n' = key n → ids_step k (upd_nodes <[l := n']> k).
Proof.
  intros Hn Hk. apply same_ids_step. split; simpl; [unfold counts_le; simpl; lia|done| |done].
  rewrite fmap_insert, Hk. apply insert_id. by rewrite lookup_fmap, Hn.
Qed.

(** Code that changes neither nodes nor instances. *)
Ltac same_modify := intros; apply respects_modify; intros ?; apply same_ids_step; split; unfold counts_le; simpl; (done || lia).
#[export] Instance ids_held f : Respects ids_step (modify (λ k, set_held (f k) k)).
Proof. same_modify. Qed.
#[export] Instance ids_gc f : Respects ids_step (modify (λ k, gc (set_held (f k) k))).
Proof. same_modify. Qed.
#[export] Instance ids_entries f : Respects ids_step (modify (upd_entries f)).
Proof. same_modify. Qed.
#[export] Instance ids_cache f : Respects ids_step (modify (upd_directory_cache f)).
Proof. same_modify. Qed.
#[export] Instance ids_files f : Respects ids_step (modify (upd_files f)).
Proof. same_modify. Qed.
#[export] Instance ids_mount_table f : Respects ids_step (modify (upd_mount_table f)).
Proof. same_modify. Qed.
#[export] Instance ids_fd : Respects ids_step FileDescriptor_new.
Proof. intros k r k' [= <- <-]. apply same_ids_step. split; unfold counts_le; simpl; (done || lia). Qed.
#[export] Instance ids_arc_clone l : Respects ids_step (arc_clone l).
Proof. apply _. Qed.
#[export] Instance ids_arc_drop l : Respects ids_step (arc_drop l).
Proof. apply _. Qed.
#[export] Instance ids_weak_upgrade l : Respects ids_step (weak_upgrade l).
Proof. unfold weak_upgrade. apply _. Qed.
Lemma ids_scoped {A} keep (m : KM A) : Respects ids_step m → Respects ids_step (scoped keep m).
Proof. apply respects_scoped; [apply _|]. intros k h. apply same_ids_step. split; unfold counts_le; simpl; (done || lia). Qed.

(** ** A new node *)

Definition bump (self : loc) (fs : FileSystem) (k : kernel) : kernel :=
  upd_file_systems <[self := set_next_node_id (SynCell.new (next_id fs + 1)%Z) fs]> k.
Lemma next_node_id_inc self k r k' : next_node_id self k = (r, k') →
  (k' = k ∧ is_ok r = false) ∨ ∃ fs, file_systems k !! self = Some fs ∧ r = Ok (next_id fs) ∧ k' = bump self fs k.
Proof.
  unfold next_node_id, get_fs, SynCell.replace, checked_add, mbind, M_bind, gets, unwrap, modify, mret, M_ret, panic.
  destruct (file_systems k !! self) as [fs|] eqn:Hfs; [|intros [= <- <-]; by left].
  case_decide; intros [= <- <-]; [right|by left]. by exists fs.
Qed.
Lemma bumped_root c fs : root_of (set_next_node_id c fs) = root_of fs.
Proof. by destruct fs. Qed.
Lemma bumped_next x fs : next_id (set_next_node_id (SynCell.new x) fs) = x.
Proof. by destruct fs. Qed.

Section bump.
Context (self : loc) (fs : FileSystem) (k : kernel) (Hfs : file_systems k !! self = Some fs).
Lemma bump_serves s f mid : serves (bump self fs k) s f mid →
  ∃ f0, serves k s f0 mid ∧ (next_id f0 ≤ next_id f)%Z ∧ (s = self → f0 = fs ∧ next_id f = (next_id fs + 1)%Z).
Proof.
  intros (Hf & rn & Hrn & Hm). simpl in Hf, Hrn. apply lookup_insert_Some in Hf as [[<- <-]|[Hne Hf]].
  - rewrite bumped_root in Hrn. exists fs. rewrite bumped_next. split_and!; [split; eauto|lia|done].
  - exists f. split_and!; [split; eauto|lia|by intros ->].
Qed.
Lemma bump_step : ids_step k (bump self fs k).
Proof.
  split; [unfold counts_le; simpl; lia|]. intros _ Hi. split; [apply Hi|apply Hi|..].
  - intros s f. simpl. intros [[<- <-]|[_ Hf]]%lookup_insert_Some; [rewrite bumped_root|]; by eapply (io_fs _ Hi).
  - intros s s' f f' mid (f0 & H1 & _)%bump_serves (f1 & H2 & _)%bump_serves. by eapply (io_serves _ Hi).
  - intros l n s f Hn (f0 & H1 & Hle & _)%bump_serves. pose proof (io_below _ Hi _ _ _ _ Hn H1). lia.
  - apply (io_unique _ Hi).
Qed.
End bump.
#[export] Instance ids_next_node_id self : Respects ids_step (next_node_id self).
Proof. intros k r k' [[-> _]|(fs & Hfs & _ & ->)]%next_node_id_inc; [done|by apply bump_step]. Qed.

Section alloc.
Context (k : kernel) (n : FsNode) (s0 : loc) (fs0 : FileSystem) (Hi : ids_ok k).
Context (Hsv : serves k s0 fs0 (node_mount_id n)) (Hid : (node_id n < next_id fs0)%Z).
Context (Hnew : ∀ l n', nodes k !! l = Some n' → key n' ≠ key n).

Lemma alloc_serves s fs mid : serves (alloc_state n k) s fs mid → serves k s fs mid.
Proof.
  intros (Hf & rn & Hrn & Hm). split; [done|]. exists rn. split; [|done]. simpl in Hrn.
  apply lookup_insert_Some in Hrn as [[Heq _]|[_ Hrn]]; [|done]. destruct (io_fs _ Hi _ _ Hf) as [_ [n' Hn']].
  rewrite <- Heq in Hn'. destruct (io_node _ Hi _ _ Hn'). lia.
Qed.
Lemma alloc_ids : ids_ok (alloc_state n k).
Proof.
  split; [apply Hi|..].
  - intros l n'. simpl. destruct Hsv as (_ & rn & Hrn & Hm). destruct (io_node _ Hi _ _ Hrn) as [_ Hlt].
    intros [[<- <-]|[_ Hn]]%lookup_insert_Some; [split; lia|]. destruct (io_node _ Hi _ _ Hn). split; lia.
  - intros s fs Hf. destruct (io_fs _ Hi _ _ Hf) as [Hl Hr]. simpl. split; [lia|]. apply lookup_insert_is_Some'. by right.
  - intros s s' f f' mid H1%alloc_serves H2%alloc_serves. by eapply (io_serves _ Hi).
  - intros l n' s f Hn H1%alloc_serves. simpl in Hn. apply lookup_insert_Some in Hn as [[_ <-]|[_ Hn]]; [|by eapply (io_below _ Hi)].
    pose proof (io_serves _ Hi _ _ _ _ _ H1 Hsv) as ->. destruct H1 as [Hf _], Hsv as [Hf0 _]. congruence.
  - intros l l' n1 n2 H1 H2 Hk. simpl in H1, H2. apply lookup_insert_Some in H1 as [[<- <-]|[_ H1]], H2 as [[<- <-]|[_ H2]]; [done|..].
    + by destruct (Hnew _ _ H2).
    + by destruct (Hnew _ _ H1).
    + by eapply (io_unique _ Hi).
Qed.
End alloc.

(** The drivers' code for a new node: an id, the mount's id, the node. *)
Lemma made_node {A} self (g : Z → Z → FsNode) (f : loc → KM A) :
  (∀ id mid, key (g id mid) = (id, mid)) → (∀ l, Respects ids_step (f l)) →
  Respects ids_step (id ← next_node_id self; mid ← root_mount_id self; l ← alloc_node (g id mid); f l).
Proof.
  intros Hg Hf k r k' Hrun. minv Hrun as id k1 Hid; try (by eapply ids_next_node_id in Hid).
  apply next_node_id_inc in Hid as [[_ ?]|(fs & Hfs & [= ->] & ->)]; [done|].
  minv Hrun as mid k2 Hmid; try (by eapply (root_mount_id_respects ids_step) in Hmid; etrans; [apply bump_step|]).
  assert (k2 = bump self fs k ∧ ∃ fs', serves k2 self fs' mid ∧ next_id fs' = (next_id fs + 1)%Z ∧ serves k self fs mid) as [-> (fs' & Hsv & Hn & Hsv0)].
  { unfold root_mount_id, root_directory, get_fs, get_node in Hmid. munfold Hmid. simpl in Hmid.
    rewrite lookup_insert_eq in Hmid. simpl in Hmid. fold (root_of (set_next_node_id (SynCell.new (next_id fs + 1)%Z) fs)) in Hmid.
    rewrite bumped_root in Hmid. destruct (nodes k !! root_of fs) as [rn|] eqn:Hrn; simplify_eq.
    split; [done|]. eexists. split_and!; [split; [apply lookup_insert_eq|]|apply bumped_next|split; eauto].
    exists rn. by rewrite bumped_root. }
  minv Hrun as l k3 Hl; apply alloc_node_run in Hl as [? ->]; [|done..]. etrans; [|by eapply Hf].
  split; [unfold counts_le; simpl; lia|]. intros Hw Hi. pose proof (Hg (next_id fs) mid) as [= Hgi Hgm].
  apply (alloc_ids (bump self fs k) (g (next_id fs) mid) self fs').
  - by apply bump_step.
  - by rewrite Hgm.
  - lia.
  - intros l' n' Hn' [= Hni Hnm]. rewrite Hgi in Hni. rewrite Hgm in Hnm. rewrite <- Hnm in Hsv0.
    pose proof (io_below _ Hi l' n' self fs Hn' Hsv0). lia.
Qed.

(** ** The operations *)

#[export] Instance ids_increment l : Respects ids_step (increment_link_count l).
Proof.
  intros k r k' Hrun. unfold increment_link_count, get_node, put_node, checked_add in Hrun. munfold Hrun.
  destruct (nodes k !! l) as [n|] eqn:Hn; simplify_eq; [|done]. case_decide; simplify_eq; [|done]. by eapply put_node_step.
Qed.
#[export] Instance ids_decrement l : Respects ids_step (decrement_link_count l).
Proof.
  intros k r k' Hrun. unfold decrement_link_count, get_node, put_node, checked_sub in Hrun. munfold Hrun.
  destruct (nodes k !! l) as [n|] eqn:Hn; simplify_eq; [|done]. case_decide; simplify_eq; [|done]. by eapply put_node_step.
Qed.
#[export] Instance ids_add_child p s c : Respects ids_step (ram_add_child p s c).
Proof.
  unfold ram_add_child. apply respects_bind; [apply _..|]. intros pl k r k' Hrun.
  unfold get_node, put_node, data_as_RamDirectoryNode in Hrun. munfold Hrun. destruct (nodes k !! pl) as [n|] eqn:Hn; simplify_eq; [|done].
  repeat case_match; simplify_eq; try done; by eapply put_node_step.
Qed.
#[export] Instance ids_ram_write f o b : Respects ids_step (ram_write f o b).
Proof.
  intros k r k' Hrun. unfold ram_write, get_node, put_node, data_as_RamFileNode, checked_add in Hrun. munfold Hrun.
  destruct (nodes k !! file_node f) as [n|] eqn:Hn; simplify_eq; [|done].
  repeat case_match; simplify_eq; try done; by eapply put_node_step.
Qed.

#[export] Instance ids_cache_get_root : Respects ids_step cache_get_root.
Proof. unfold cache_get_root. apply _. Qed.
#[export] Instance ids_cache_lookup p n : Respects ids_step (cache_lookup p n).
Proof. unfold cache_lookup. apply _. Qed.
#[export] Instance ids_cache_alloc p n s : Respects ids_step (cache_alloc p n s).
Proof.
  intros k r k' Hrun. apply same_ids_step. unfold cache_alloc in Hrun. munfold Hrun. simpl in Hrun.
  destruct p as [p|]; simpl in Hrun; munfold Hrun; [unfold get_entry in Hrun; munfold Hrun; simpl in Hrun|].
  1: destruct (<[_ := _]> (entries k) !! p); simplify_eq/=.
  all: simplify_eq/=; split; unfold counts_le; simpl; (done || lia).
Qed.
#[export] Instance ids_cache_insert p n s : Respects ids_step (cache_insert p n s).
Proof. unfold cache_insert, cache_lookup_is_none. apply _. Qed.
#[export] Instance ids_dev_lookup self p n : Respects ids_step (dev_lookup self p n).
Proof.
  unfold dev_lookup, get_char_device. apply respects_bind; [apply _..|]. intros [d|]; [|apply _].
  apply (made_node self (λ id mid, {| node_id := id; node_mount_id := mid |})); [done|apply _].
Qed.
#[export] Instance ids_ram_create_file self p s : Respects ids_step (ram_create_file self p s).
Proof. apply (made_node self (λ id mid, {| node_id := id; node_mount_id := mid |})); [done|apply _]. Qed.
#[export] Instance ids_ram_create_directory self p s : Respects ids_step (ram_create_directory self p s).
Proof. apply (made_node self (λ id mid, {| node_id := id; node_mount_id := mid |})); [done|apply _]. Qed.

#[export] Instance ids_find_mount mnts top n : Respects ids_step (find_mount mnts top n).
Proof. induction mnts; simpl; apply _. Qed.
#[export] Instance ids_get_cached p n : Respects ids_step (get_cached_or_lookup p n).
Proof.
  unfold get_cached_or_lookup. apply respects_bind; [apply _..|]. intros [e|]; [apply _|].
  do 2 (apply respects_bind; [apply _..|]; intros ?). apply (with_directory_ops ids_step); intros l; simpl; apply _.
Qed.
#[export] Instance ids_segments segs : ∀ stack, Respects ids_step (resolve_segments stack segs).
Proof. induction segs as [|s segs IH]; intros stack; simpl; apply _. Qed.
#[export] Instance ids_parent_segments segs : ∀ stack count i, Respects ids_step (resolve_parent_segments stack count i segs).
Proof. induction segs as [|s segs IH]; intros stack count i; simpl; apply _. Qed.
#[export] Instance ids_resolve_path path : Respects ids_step (resolve_path path).
Proof. apply ids_scoped, _. Qed.
#[export] Instance ids_resolve_parent path : Respects ids_step (resolve_path_parent_directory path).
Proof. apply ids_scoped, _. Qed.

#[export] Instance ids_create_in kind pn : Respects ids_step (create_in kind pn).
Proof.
  unfold create_in. do 2 (apply respects_bind; [apply _..|]; intros ?).
  apply (with_directory_ops ids_step); intros l; unfold create_op; case_decide; simpl;
    unfold default_create_file, default_create_directory; apply _.
Qed.
#[export] Instance ids_create_path kind path : Respects ids_step (create_path kind path).
Proof. unfold create_path. apply _. Qed.

(** ** A new instance *)

Section instance.
Context (ty : FileSystemType) (flags : Z) (k : kernel) (Hi : ids_ok k).
Context (Hw : (mount_count k < two64)%Z).
Lemma instance_id : wrap64 (mount_count k) = mount_count k.
Proof. pose proof (io_mounts _ Hi). apply Z.mod_small. lia. Qed.
Lemma instance_root_of r : root_of (instance_of ty flags r) = r.
Proof. by destruct ty. Qed.
(** The new instance serves the new mount, the others what they served. *)
Lemma instance_serves s fs mid : serves (instance_state ty flags k) s fs mid →
  (s = S (next_loc k) ∧ fs = instance_of ty flags (next_loc k) ∧ mid = mount_count k) ∨
  (serves k s fs mid ∧ (mid < mount_count k)%Z).
Proof.
  intros (Hf & rn & Hrn & Hm). simpl in Hf, Hrn. apply lookup_insert_Some in Hf as [[<- <-]|[Hne Hf]].
  - rewrite instance_root_of, lookup_insert_eq in Hrn. simplify_eq/=. left. by rewrite instance_id.
  - right. destruct (io_fs _ Hi _ _ Hf) as [_ [n' Hn']]. destruct (io_node _ Hi _ _ Hn') as [Hl Hlt].
    rewrite lookup_insert_ne in Hrn by lia. simplify_eq. split; [split; eauto|done].
Qed.
Lemma instance_ids : ids_ok (instance_state ty flags k).
Proof.
  pose proof (io_mounts _ Hi) as Hm0. split; [simpl; lia|..].
  - intros l n. simpl. intros [[<- <-]|[_ Hn]]%lookup_insert_Some; [simpl; rewrite instance_id; lia|].
    destruct (io_node _ Hi _ _ Hn). lia.
  - intros s fs. simpl. intros [[<- <-]|[_ Hf]]%lookup_insert_Some.
    + rewrite instance_root_of, lookup_insert_eq. split; [lia|eauto].
    + destruct (io_fs _ Hi _ _ Hf) as [Hl Hr]. split; [lia|]. apply lookup_insert_is_Some'. by right.
  - intros s s' f f' mid [(-> & _ & ->)|[H1 Hlt]]%instance_serves [(-> & _ & Hm)|[H2 Hlt2]]%instance_serves;
      [done|lia..|by eapply (io_serves _ Hi)].
  - intros l n s f Hn Hsv. simpl in Hn. apply lookup_insert_Some in Hn as [[<- <-]|[_ Hn]].
    + apply instance_serves in Hsv as [(-> & -> & _)|[_ Hlt]]; [by destruct ty|]. simpl in Hlt. rewrite instance_id in Hlt. lia.
    + destruct (io_node _ Hi _ _ Hn). apply instance_serves in Hsv as [(_ & _ & Hm)|[Hsv _]]; [lia|]. by eapply (io_below _ Hi).
  - intros l l' n1 n2 H1 H2 Hk. simpl in H1, H2.
    assert (Hold : ∀ x n, nodes k !! x = Some n → key n ≠ key (instance_root ty (wrap64 (mount_count k)))).
    { intros x n Hn [= _ Hm]. rewrite instance_id in Hm. destruct (io_node _ Hi _ _ Hn). lia. }
    apply lookup_insert_Some in H1 as [[<- <-]|[_ H1]], H2 as [[<- <-]|[_ H2]]; [done|..].
    + by destruct (Hold _ _ H2).
    + by destruct (Hold _ _ H1).
    + by eapply (io_unique _ Hi).
Qed.
End instance.

#[export] Instance ids_mount_branch ty source flags parent name : Respects ids_step (mount_branch ty source flags parent name).
Proof.
  apply respects_bind; [apply _| |apply _]. intros k r k' Hrun. unfold mount_instance in Hrun.
  rewrite instance_run in Hrun. case_decide.
  - etrans; [|exact (respects _ _ _ Hrun)]. split; [unfold counts_le; simpl; lia|].
    intros (_ & Hw & _) Hi. apply instance_ids; [done|]. simpl in Hw. lia.
  - simplify_eq. apply same_ids_step. split; unfold counts_le; simpl; (done || lia).
Qed.

(** ** The calls *)

#[export] Instance ids_mount source target kind flags : Respects ids_step (mount source target kind flags).
Proof.
  intros k r k'. rewrite mount_unfold. apply ids_scoped. unfold mount_body. apply _.
Qed.
#[export] Instance ids_open_entry path mode : Respects ids_step (open_entry path mode).
Proof. unfold open_entry. apply _. Qed.
#[export] Instance ids_open_tail nl mode : Respects ids_step (open_tail nl mode).
Proof.
  unfold open_tail. apply respects_bind; [apply _..|]. intros _. apply respects_defer; [apply _..| |apply _].
  do 2 (apply respects_bind; [apply _..|]; intros ?). apply (with_file_ops ids_step); intros l; simpl; apply _.
Qed.
#[export] Instance ids_open path mode : Respects ids_step (open path mode).
Proof. intros k r k'. rewrite open_unfold. apply ids_scoped, _. Qed.
#[export] Instance ids_close fd : Respects ids_step (close fd).
Proof.
  unfold close. do 2 (apply respects_bind; [apply _..|]; intros ?).
  apply (with_file_ops ids_step); intros l; simpl; apply _.
Qed.
Lemma ids_read_then {B} file o buf (f : Z * list byte → KM B) fs : (∀ a, Respects ids_step (f a)) →
  Respects ids_step (ops ← file_operations fs; r ← op_read ops file o buf; f r).
Proof.
  intros Hf. apply (with_file_ops ids_step); intros l; simpl; unfold ram_read, dev_read; [apply _|].
  apply respects_bind; [apply _| |apply _]. apply respects_bind; [apply _..|]; intros n.
  destruct (node_kind n); try apply _. apply respects_bind; [apply _..|]; intros []; simpl; apply _.
Qed.
Lemma ids_write_then {B} file o buf (f : Z → KM B) fs : (∀ a, Respects ids_step (f a)) →
  Respects ids_step (ops ← file_operations fs; r ← op_write ops file o buf; f r).
Proof.
  intros Hf. apply (with_file_ops ids_step); intros l; simpl; [apply _|]. unfold dev_write.
  apply respects_bind; [apply _| |apply _]. apply respects_bind; [apply _..|]; intros n.
  destruct (node_kind n); try apply _. apply respects_bind; [apply _..|]; intros []; simpl; apply _.
Qed.
#[export] Instance ids_read fd buffer : Respects ids_step (read fd buffer).
Proof.
  unfold read. do 3 (apply respects_bind; [apply _..|]; intros ?). case_decide; [apply _|].
  apply respects_bind; [apply _..|]; intros fs. apply ids_read_then. unfold store_position. apply _.
Qed.
#[export] Instance ids_write fd buffer : Respects ids_step (write fd buffer).
Proof.
  unfold write. do 3 (apply respects_bind; [apply _..|]; intros ?). case_decide; [apply _|].
  apply respects_bind; [apply _..|]; intros fs. apply ids_write_then. unfold store_position. apply _.
Qed.
#[export] Instance ids_list_devices self l : ∀ ctx, Respects ids_step (dev_list_devices self l ctx).
Proof. induction l; intros ctx; simpl; apply _. Qed.
#[export] Instance ids_read_directory path : Respects ids_step (read_directory path).
Proof.
  intros k r k'. rewrite read_directory_unfold. apply ids_scoped.
  do 3 (apply respects_bind; [apply _..|]; intros ?). destruct (negb _); [apply _|]. unfold list_directory.
  apply respects_bind; [apply _..|]; intros fs. apply (with_directory_ops ids_step); intros l; simpl;
    unfold ram_read_directory, dev_read_directory, list_char_devices; apply _.
Qed.
#[export] Instance ids_create_directory path : Respects ids_step (create_directory path).
Proof. intros k r k'. rewrite create_directory_unfold. apply ids_scoped, _. Qed.
#[export] Instance ids_prune : Respects ids_step prune_directory_cache.
Proof.
  unfold prune_directory_cache, cache_prune. assert (∀ ws, Respects ids_step (prune_entries ws)).
  { induction ws; simpl; unfold prune_children; apply _. }
  apply _.
Qed.
#[export] Instance ids_call c : Respects ids_step (run_call c).
Proof. destruct c; unfold run_call, stat; apply _. Qed.

(** ** Reachable states *)

Lemma ids_run {A} (m : KM A) k : Respects ids_step m → ids_step k (m k).2.
Proof. intros Hm. destruct (m k) as [r k'] eqn:Hrun. exact (respects _ _ _ Hrun). Qed.
Lemma ids_ok_drivers : ids_ok boot_drivers.
Proof.
  rewrite boot_drivers_eq. split; simpl; [done|..].
  - intros l n. by rewrite lookup_empty.
  - intros s fs. by rewrite lookup_empty.
  - intros s s' fs fs' mid [Hf _]. simpl in Hf. by rewrite lookup_empty in Hf.
  - intros l n s fs. by rewrite lookup_empty.
  - intros l l' n n'. by rewrite lookup_empty.
Qed.
Lemma ids_boot : ids_step boot_drivers boot_close.
Proof.
  etrans; [exact (ids_run (mount "" "/" (Some "ramfs") boot_flags) boot_drivers _)|].
  etrans; [exact (ids_run (mount "" "/dev" (Some "devfs") boot_flags) boot_root _)|].
  etrans; [exact (ids_run (open "/test.txt" FileMode.Write) boot_dev _)|].
  etrans; [exact (ids_run (write 1 (bytes "Hello, world!")) boot_open _)|].
  exact (ids_run (close 1) boot_write _).
Qed.
Lemma ids_ok_boot : ids_ok boot_close.
Proof. apply ids_boot; [|exact ids_ok_drivers]. by vm_compute. Qed.
Lemma reach_ids k : vfs_reach k → ids_ok k.
Proof.
  induction 1 as [k ->%boot_state|k k' _ IH [c r k'' Hrun _ Hw]]; [exact ids_ok_boot|].
  by apply (respects (R := ids_step) _ _ _ Hrun).
Qed.

(** C28: [PartialEq for FsNode] is identity.  In every state the file subsystem
    reaches, two nodes with the same id and the same mount id are one node, as the
    comment in the code says, although ids are handed out per file system, a
    device gets a new node at each lookup and a listing of devices uses ids up. *)
Theorem node_eq_identity k l l' n n' : vfs_reach k → nodes k !! l = Some n → nodes k !! l' = Some n' →
  FsNode_eq n n' = true ↔ l = l'.
Proof.
  intros Hk%reach_ids Hn Hn'. unfold FsNode_eq. rewrite andb_true_iff, !bool_decide_eq_true. split.
  - intros [Hi Hm]. apply (io_unique _ Hk l l' n n'); [done..|]. unfold key. congruence.
  - intros <-. by simplify_eq.
Qed.

(** The root of the RAM file system and the root of the device file system have
    the same id; the mount tells them apart. *)
Lemma node_eq_identity_witness : ∃ n n', nodes boot_close !! 0 = Some n ∧ nodes boot_close !! 3 = Some n' ∧
  node_id n = node_id n' ∧ FsNode_eq n n' ≠ true.
Proof.
  assert (Hk : vfs_reach boot_close) by (apply reach_boot; exact boot_run).
  destruct (nodes boot_close !! 0) as [n|] eqn:Hn; [|vm_compute in Hn; discriminate Hn].
  destruct (nodes boot_close !! 3) as [n'|] eqn:Hn'; [|vm_compute in Hn'; discriminate Hn'].
  exists n, n'. split; [reflexivity|]. split; [reflexivity|]. split.
  - vm_compute in Hn, Hn'. injection Hn as <-. injection Hn' as <-. reflexivity.
  - intros Heq. apply (node_eq_identity boot_close 0 3 n n' Hk Hn Hn') in Heq. discriminate Heq.
Defined.

End NodeIds.
