(* ===== verification/Parser.v ===== *)
(** * [shell/parser.rs]: splitting a command line into tokens

    [Parser] is an iterator over slices of its input: words separated by blanks,
    and strings in double quotes.  It makes its slices with
    [str::from_raw_parts], so their bounds are the code's own responsibility:
    the model keeps a slice as its start and length, and the subtraction that
    computes the length can overflow. *)

From Stdlib Require Import Init.Byte.
From S2P Require Import Prelude Fmt.

Module Parser.

(** Positions are [usize]; they never exceed the length of the input. *)
Record t := { input : list byte; position : nat }.

(** [Parser::new] *)
Definition new (s : string) : outcome unit t :=
  if is_ascii s then Ok {| input := String.list_byte_of_string s; position := 0 |}
  else Panic AssertFailed.

Definition quote : byte := x22.
Definition is_blank (c : byte) : bool := bool_decide (c = x20) || bool_decide (c = x09).

(** A slice handed to [str::from_raw_parts]: start and length. *)
Abbreviation slice := (nat * nat)%type.
Definition raw_parts (start position : nat) : outcome unit slice :=
  if decide (start ≤ position) then Ok (start, position - start) else Panic ArithOverflow.
(** The slice lies in the input. *)
Definition in_bounds (inp : list byte) (sl : slice) : Prop := sl.1 + sl.2 ≤ length inp.
Definition slice_bytes (inp : list byte) (sl : slice) : list byte := take sl.2 (drop sl.1 inp).

Definition some_slice (start position : nat) : outcome unit (option slice) :=
  match raw_parts start position with
  | Ok sl => Ok (Some sl)
  | Err e => Err e
  | Panic p => Panic p
  end.

(** The loop of [next] over the rest of the input; the second component of the
    result is [self.position] afterwards. *)
Fixpoint scan (rest : list byte) (start position : nat) (parsing_string : bool)
    : outcome unit (option slice) * nat :=
  match rest with
  | [] =>
      if decide (start < position) then (some_slice start position, position)
      else (Ok None, position)
  | c :: rest' =>
      if decide (c = quote) then
        if negb parsing_string then
          if decide (start < position) then (some_slice start position, position)
          else scan rest' (S start) (S position) true
        else (some_slice start position, S position)
      else if is_blank c then
        if parsing_string then scan rest' start (S position) parsing_string
        else
          match raw_parts start position with
          | Ok sl =>
              if decide (sl.2 ≠ 0) then (Ok (Some sl), S position)
              else scan rest' (S position) (S position) parsing_string
          | Err e => (Err e, position)
          | Panic p => (Panic p, position)
          end
      else scan rest' start (S position) parsing_string
  end.

(** [Iterator::next]; slicing past the end of the input would panic. *)
Definition next (p : t) : outcome unit (option slice) * t :=
  if decide (position p ≤ length (input p)) then
    let '(r, pos) := scan (drop (position p) (input p)) (position p) (position p) false in
    (r, {| input := input p; position := pos |})
  else (Panic OutOfBounds, p).

(** [for token in parser { args.push_back(token) }]; [None] when the fuel does
    not suffice. *)
Fixpoint collect (fuel : nat) (p : t) : option (outcome unit (list (list byte))) :=
  match fuel with
  | 0 => None
  | S fuel' =>
      match next p with
      | (Ok None, _) => Some (Ok [])
      | (Ok (Some sl), p') =>
          match collect fuel' p' with
          | Some (Ok l) => Some (Ok (slice_bytes (input p) sl :: l))
          | r => r
          end
      | (Err e, _) => Some (Err e)
      | (Panic q, _) => Some (Panic q)
      end
  end.

(** ** A reference tokenizer

    One pass with the current word as an accumulator. *)

Definition flush (cur : list byte) : list (list byte) :=
  if decide (cur = []) then [] else [cur].

Fixpoint tokens (s cur : list byte) (in_string : bool) : list (list byte) :=
  match s with
  | [] => flush cur
  | c :: s' =>
      if in_string then
        if decide (c = quote) then cur :: tokens s' [] false
        else tokens s' (cur ++ [c]) true
      else if decide (c = quote) then flush cur ++ tokens s' [] true
      else if is_blank c then flush cur ++ tokens s' [] false
      else tokens s' (cur ++ [c]) false
  end.

(** ** [scan] against the reference *)

Definition cursor_ok (inp : list byte) (start position : nat) : Prop :=
  start ≤ position ≤ length inp.

Lemma drop_cons_pos (inp : list byte) pos c rest : drop pos inp = c :: rest →
  pos < length inp ∧ drop (S pos) inp = rest ∧ inp !! pos = Some c.
Proof.
  intros Hd. assert (Hl : inp !! pos = Some c).
  { rewrite <- (Nat.add_0_r pos), <- lookup_drop. by rewrite Hd. }
  split_and!; [by eapply lookup_lt_Some| |done].
  by rewrite (drop_S _ _ _ Hl) in Hd; injection Hd.
Qed.

Lemma slice_snoc inp start pos c : cursor_ok inp start pos → inp !! pos = Some c →
  slice_bytes inp (start, S pos - start) = slice_bytes inp (start, pos - start) ++ [c].
Proof.
  intros [Hs Hl] Hc. unfold slice_bytes. simpl fst; simpl snd.
  rewrite Nat.sub_succ_l by done. apply take_S_r. rewrite lookup_drop. by replace (start + (pos - start)) with pos by lia.
Qed.

Lemma slice_empty inp start : slice_bytes inp (start, start - start) = [].
Proof. unfold slice_bytes. simpl. by rewrite Nat.sub_diag. Qed.

Lemma slice_nonempty inp start pos : cursor_ok inp start pos → start < pos →
  slice_bytes inp (start, pos - start) ≠ [].
Proof.
  intros [_ Hl] Hlt Heq. apply (f_equal length) in Heq. unfold slice_bytes in Heq. simpl in Heq.
  rewrite length_take, length_drop in Heq. lia.
Qed.

Lemma some_slice_ok start pos : start ≤ pos → some_slice start pos = Ok (Some (start, pos - start)).
Proof. intros H. unfold some_slice, raw_parts. by rewrite decide_True. Qed.

(** What one call returns: a slice in bounds and the tokens that remain, or the
    end of the input. *)
Definition scan_post (inp : list byte) (start : nat) (toks : list (list byte))
    (res : outcome unit (option slice) * nat) : Prop :=
  match res with
  | (Ok (Some sl), pos) => in_bounds inp sl ∧ start < pos ≤ length inp ∧
      toks = slice_bytes inp sl :: tokens (drop pos inp) [] false
  | (Ok None, _) => toks = []
  | _ => False
  end.

Lemma scan_post_weaken inp start start' toks res : start ≤ start' →
  scan_post inp start' toks res → scan_post inp start toks res.
Proof. intros H. destruct res as [[[sl|]| |] pos]; simpl; [|done..]. intros (? & ? & ?). split_and!; [done|lia..|done]. Qed.

Lemma scan_spec inp rest : ∀ start pos in_string, drop pos inp = rest → cursor_ok inp start pos →
  (in_string = true → 0 < start) →
  scan_post inp (if in_string then start - 1 else start)
    (tokens rest (slice_bytes inp (start, pos - start)) in_string) (scan rest start pos in_string).
Proof.
  induction rest as [|c rest IH]; intros start pos q Hd Hcur Hq; pose proof Hcur as [Hsp Hpl]; simpl.
  - case_decide.
    + rewrite some_slice_ok by lia. unfold flush. rewrite decide_False by (by apply slice_nonempty).
      simpl. unfold in_bounds. simpl. split_and!; [lia|destruct q; lia|done|].
      by rewrite Hd.
    + assert (start = pos) as -> by lia. by rewrite slice_empty.
  - destruct (drop_cons_pos _ _ _ _ Hd) as (Hlt & Hd' & Hc). pose proof (slice_snoc _ _ _ _ Hcur Hc) as Hsnoc.
    destruct (decide (c = quote)) as [->|Hcq].
    + destruct q; simpl.
      * rewrite some_slice_ok by lia. simpl. unfold in_bounds. simpl. split_and!; [lia..|]. by rewrite Hd'.
      * case_decide.
        -- rewrite some_slice_ok by lia. unfold flush. rewrite decide_False by (by apply slice_nonempty).
           simpl. unfold in_bounds. simpl. split_and!; [lia..|]. by rewrite Hd.
        -- assert (start = pos) as -> by lia. rewrite slice_empty. simpl.
           specialize (IH (S pos) (S pos) true Hd'). rewrite slice_empty, Nat.sub_succ, Nat.sub_0_r in IH.
           apply IH; [unfold cursor_ok; lia|lia].
    + destruct (is_blank c) eqn:Hb.
      * destruct q.
        -- rewrite <- Hsnoc. apply IH; [done|unfold cursor_ok; lia|done].
        -- unfold raw_parts. rewrite decide_True by done. simpl. case_decide as Hne.
           ++ unfold flush. rewrite decide_False by (apply slice_nonempty; [done|lia]).
              simpl. unfold in_bounds. simpl. split_and!; [lia..|]. by rewrite Hd'.
           ++ assert (start = pos) as -> by lia. rewrite slice_empty. simpl.
              specialize (IH (S pos) (S pos) false Hd'). rewrite slice_empty in IH.
              eapply scan_post_weaken; [|apply IH; [unfold cursor_ok; lia|done]]. lia.
      * rewrite <- Hsnoc. destruct q; apply IH; (done || unfold cursor_ok; lia).
Qed.

Lemma next_spec p : position p ≤ length (input p) →
  let toks := tokens (drop (position p) (input p)) [] false in
  (∃ sl p', next p = (Ok (Some sl), p') ∧ input p' = input p ∧ in_bounds (input p) sl ∧
     position p < position p' ≤ length (input p) ∧
     toks = slice_bytes (input p) sl :: tokens (drop (position p') (input p)) [] false) ∨
  (∃ p', next p = (Ok None, p') ∧ toks = []).
Proof.
  intros Hp toks. unfold next. rewrite decide_True by done.
  pose proof (scan_spec (input p) _ (position p) (position p) false eq_refl ltac:(unfold cursor_ok; lia) ltac:(done)) as Hs.
  rewrite slice_empty in Hs. destruct (scan _ _ _ _) as [[[sl|]| |] pos]; simpl in Hs; [| |done..].
  - left. destruct Hs as (? & ? & ?). eexists _, _. split_and!; [done..|simpl; lia|simpl; lia|done].
  - right. eauto.
Qed.

Lemma collect_spec : ∀ fuel p, length (input p) - position p < fuel → position p ≤ length (input p) →
  collect fuel p = Some (Ok (tokens (drop (position p) (input p)) [] false)).
Proof.
  induction fuel as [|fuel IH]; intros p Hf Hp; [lia|]. simpl.
  destruct (next_spec p Hp) as [(sl & p' & -> & Hin & _ & Hpos & ->)|(p' & -> & ->)]; [|done].
  rewrite IH by (rewrite Hin; lia). by rewrite Hin.
Qed.

(** ** Properties *)

(** Parsers reached from [new] by calls of [next]. *)
Inductive reaches (s : string) : t → Prop :=
  | reaches_new p : new s = Ok p → reaches s p
  | reaches_next p sl p' : reaches s p → next p = (Ok (Some sl), p') → reaches s p'.

Lemma reaches_ok s p : reaches s p →
  input p = String.list_byte_of_string s ∧ position p ≤ length (input p).
Proof.
  induction 1 as [p Hp|p sl p' _ [Hin Hp] Hn].
  - unfold new in Hp. destruct (is_ascii s); [|done]. injection Hp as <-. simpl. split; [done|lia].
  - destruct (next_spec p Hp) as [(sl' & p'' & Hn' & Hin' & _ & Hpos & _)|(p'' & Hn' & _)]; rewrite Hn in Hn';
      [|done]. injection Hn' as <- <-. rewrite Hin'. split; [done|lia].
Qed.

(** C38: the unsafe slices are sound: however often [next] is called, it does not
    panic, the slice it builds lies inside the input, and the position moves
    forward and stays within the input. *)
Theorem next_in_bounds s p : reaches s p →
  (∃ sl p', next p = (Ok (Some sl), p') ∧ sl.1 + sl.2 ≤ String.length s ∧
     position p < position p' ≤ String.length s) ∨
  (∃ p', next p = (Ok None, p')).
Proof.
  intros [Hin Hp]%reaches_ok.
  assert (Hlen : length (input p) = String.length s).
  { rewrite Hin. apply Fmt.length_bytes_of. }
  destruct (next_spec p Hp) as [(sl & p' & ? & _ & Hb & ? & _)|(p' & ? & _)]; [left|right; eauto].
  exists sl, p'. unfold in_bounds in Hb. rewrite <- Hlen. done.
Qed.

Lemma next_in_bounds_witness : ∃ p sl p', new "ls -l" = Ok p ∧ next p = (Ok (Some sl), p') ∧
  sl.1 + sl.2 ≤ String.length "ls -l".
Proof.
  destruct (next_in_bounds "ls -l" {| input := String.list_byte_of_string "ls -l"; position := 0 |})
    as [(sl & p' & Hn & Hb & _)|(p' & Hn)].
  - apply reaches_new. reflexivity.
  - eexists _, sl, p'. split; [reflexivity|]. split; [exact Hn|exact Hb].
  - vm_compute in Hn. discriminate.
Defined.

(** C9: collecting the tokens of an ASCII line terminates within its length plus
    one calls and gives what the one-pass reference tokenizer gives; a line
    with other bytes is rejected by the assertion. *)
Theorem collect_tokens s fuel : String.length s < fuel →
  match new s with
  | Ok p => collect fuel p = Some (Ok (tokens (String.list_byte_of_string s) [] false))
  | Err _ => False
  | Panic q => is_ascii s = false ∧ q = AssertFailed
  end.
Proof.
  intros Hf. unfold new. destruct (is_ascii s); [|done].
  pose proof (Fmt.length_bytes_of s) as Hlen. unfold Fmt.bytes_of in Hlen.
  rewrite collect_spec; simpl; [done|lia..].
Qed.

Lemma collect_tokens_witness : collect 20 {| input := String.list_byte_of_string "echo  hi there"; position := 0 |} =
  Some (Ok (String.list_byte_of_string <$> ["echo"; "hi"; "there"])).
Proof.
  assert (H : String.length "echo  hi there" < 20) by (vm_compute; lia).
  pose proof (collect_tokens "echo  hi there" 20 H) as Hc. exact Hc.
Defined.

(** Quoting every argument. *)
Fixpoint quote_args (args : list (list byte)) : list byte :=
  match args with
  | [] => []
  | a :: rest => quote :: a ++ quote :: x20 :: quote_args rest
  end.

Lemma tokens_string a rest cur : quote ∉ a →
  tokens (a ++ quote :: rest) cur true = (cur ++ a) :: tokens rest [] false.
Proof.
  revert cur. induction a as [|c a IH]; intros cur Hq; simpl.
  - by rewrite app_nil_r.
  - apply not_elem_of_cons in Hq as [Hc Hq]. rewrite decide_False by congruence.
    rewrite IH by done. by rewrite <- app_assoc.
Qed.

Lemma tokens_quoted args : Forall (λ a, quote ∉ a) args → tokens (quote_args args) [] false = args.
Proof.
  induction 1 as [|a args Ha _ IH]; [done|]. cbn [quote_args]. simpl.
  rewrite tokens_string by done. simpl. by rewrite IH.
Qed.

Lemma is_ascii_app s1 s2 : is_ascii (s1 +:+ s2) = is_ascii s1 && is_ascii s2.
Proof. induction s1 as [|c s1 IH]; [done|]. simpl. by rewrite IH, andb_assoc. Qed.

(** The line that quotes each argument, with a blank after it. *)
Definition quote_line (args : list string) : string := Fmt.str (quote_args (Fmt.bytes_of <$> args)).
Lemma quote_line_cons a args :
  quote_line (a :: args) = Fmt.str [quote] +:+ a +:+ Fmt.str [quote; x20] +:+ quote_line args.
Proof.
  rewrite <- (Fmt.str_bytes_of (_ +:+ _)). rewrite !Fmt.bytes_of_app, !Fmt.bytes_of_str.
  unfold quote_line. by rewrite Fmt.bytes_of_str.
Qed.
Lemma quote_line_ascii args : Forall (λ a, is_ascii a = true) args → is_ascii (quote_line args) = true.
Proof.
  induction 1 as [|a args Ha _ IH]; [done|]. rewrite quote_line_cons, !is_ascii_app, Ha, IH. done.
Qed.

(** C39: quoting is a round trip: any ASCII arguments free of quote characters,
    empty ones and ones with blanks included, are what the parser yields on the
    line that quotes each of them. *)
Theorem collect_quoted args : Forall (λ a, is_ascii a = true ∧ quote ∉ Fmt.bytes_of a) args →
  ∃ p, new (quote_line args) = Ok p ∧
    collect (S (String.length (quote_line args))) p = Some (Ok (Fmt.bytes_of <$> args)).
Proof.
  intros [Ha Hq]%Forall_and. unfold new. rewrite quote_line_ascii by done. eexists. split; [done|].
  fold (Fmt.bytes_of (quote_line args)). rewrite <- Fmt.length_bytes_of. unfold quote_line. rewrite Fmt.bytes_of_str.
  rewrite collect_spec; simpl; [|lia..]. rewrite drop_0, tokens_quoted; [done|]. by apply Forall_fmap.
Qed.

Lemma collect_quoted_witness : ∃ p, new (quote_line ["touch"; "my file"; ""]) = Ok p ∧
  collect 22 p = Some (Ok (Fmt.bytes_of <$> ["touch"; "my file"; ""])).
Proof.
  assert (Ha : Forall (λ a, is_ascii a = true ∧ quote ∉ Fmt.bytes_of a) ["touch"; "my file"; ""]).
  { repeat (constructor; [split; [reflexivity|apply (bool_decide_unpack _); vm_compute; exact I]|]). constructor. }
  destruct (collect_quoted _ Ha) as (p & Hp & Hc). exists p. split; [exact Hp|exact Hc].
Defined.
End Parser.
