(* ===== verification/Vga.v ===== *)
(** * [vga.rs]: the text-mode screen

    The writer keeps a column and a color and writes into an array of 25 rows of
    80 cells; a new line copies the rows up one by one, cell by cell.  Array
    accesses are checked, as in Rust.  The cursor is moved by writes to two I/O
    ports, which the state records in order.  The theorems show that the writer
    is a window on an unbounded sequence of rows and never indexes outside the
    array. *)

From Stdlib Require Import Init.Byte.
From S2P Require Import Prelude.

Module Vga.

Definition BUFFER_HEIGHT : nat := 25.
Definition BUFFER_WIDTH : nat := 80.

(** ** Colors *)

Inductive Color :=
  | Black | Blue | Green | Cyan | Red | Magenta | Brown | LightGray
  | DarkGray | LightBlue | LightGreen | LightCyan | LightRed | Pink | Yellow | White.
Definition color_u8 (c : Color) : Z :=
  match c with
  | Black => 0 | Blue => 1 | Green => 2 | Cyan => 3 | Red => 4 | Magenta => 5
  | Brown => 6 | LightGray => 7 | DarkGray => 8 | LightBlue => 9 | LightGreen => 10
  | LightCyan => 11 | LightRed => 12 | Pink => 13 | Yellow => 14 | White => 15
  end.
(** [ColorCode(u8)] *)
Definition ColorCode_new (foreground background : Color) : Z :=
  Z.lor (Z.land (Z.shiftl (color_u8 background) 4) 255) (color_u8 foreground).
Definition ColorCode_from (value : Color) : Z := ColorCode_new value Black.

(** ** The state *)

Record ScreenChar := { ascii_character : byte; char_color : Z }.

(** [Writer], its [Buffer], and the writes made to the cursor's ports (port and
    byte, latest first). *)
Record t := {
  column_position : nat;
  color_code : Z;
  chars : list (list ScreenChar);
  ports : list (Z * Z);
}.
Definition set_column (c : nat) (v : t) : t :=
  {| column_position := c; color_code := color_code v; chars := chars v; ports := ports v |}.
Definition set_color (c : Z) (v : t) : t :=
  {| column_position := column_position v; color_code := c; chars := chars v; ports := ports v |}.
Definition set_chars (b : list (list ScreenChar)) (v : t) : t :=
  {| column_position := column_position v; color_code := color_code v; chars := b; ports := ports v |}.
Definition add_port (p b : Z) (v : t) : t :=
  {| column_position := column_position v; color_code := color_code v; chars := chars v;
     ports := (p, b) :: ports v |}.

(** Nothing here returns an error. *)
Abbreviation VM := (M t Empty_set).

(** [chars[row][col].read()] and [.write(c)], with the bounds checks. *)
Definition cell (v : t) (row col : nat) : option ScreenChar := r ← chars v !! row; r !! col.
Definition read_cell (row col : nat) : VM ScreenChar :=
  o ← gets (λ v, cell v row col); unwrap OutOfBounds o.
Definition write_cell (row col : nat) (c : ScreenChar) : VM unit :=
  o ← gets (λ v, cell v row col);
  _ ← unwrap OutOfBounds o;
  modify (λ v, set_chars (alter <[col := c]> row (chars v)) v).

(** [for i in ixs { f(i) }] *)
Fixpoint for_each (ixs : list nat) (f : nat → VM unit) : VM unit :=
  match ixs with
  | [] => mret tt
  | i :: ixs' => _ ← f i; for_each ixs' f
  end.

(** ** [impl Writer] *)

Definition clear_row (row : nat) : VM unit :=
  color ← gets color_code;
  let blank := {| ascii_character := x20; char_color := color |} in
  for_each (seq 0 BUFFER_WIDTH) (λ col, write_cell row col blank).

Definition new_line : VM unit :=
  _ ← for_each (seq 1 (BUFFER_HEIGHT - 1)) (λ row,
        for_each (seq 0 BUFFER_WIDTH) (λ col,
          character ← read_cell row col;
          write_cell (row - 1) col character));
  _ ← clear_row (BUFFER_HEIGHT - 1);
  modify (set_column 0).

Definition write_byte (b : byte) : VM unit :=
  if decide (b = x0a) then new_line
  else
    col ← gets column_position;
    _ ← (if decide (BUFFER_WIDTH ≤ col) then new_line else mret tt);
    let row := BUFFER_HEIGHT - 1 in
    col ← gets column_position;
    color ← gets color_code;
    _ ← write_cell row col {| ascii_character := b; char_color := color |};
    modify (λ v, set_column (S (column_position v)) v).

(** [0x20..=0x7e] *)
Definition is_printable (b : byte) : bool := (0x20 <=? Byte.to_N b)%N && (Byte.to_N b <=? 0x7e)%N.

Fixpoint write_bytes (bs : list byte) : VM unit :=
  match bs with
  | [] => mret tt
  | b :: bs' =>
      _ ← write_byte (if is_printable b || bool_decide (b = x0a) then b else xfe);
      write_bytes bs'
  end.
Definition write_string (s : string) : VM unit := write_bytes (String.list_byte_of_string s).

(** ** Module functions *)

(** [_print] of a formatted string. *)
Definition print (s : string) : VM unit := write_string s.
Definition println (s : string) : VM unit := _ ← write_string s; write_string (String "010"%char "").

Definition set_color_code (c : Z) : VM unit := modify (set_color c).

(** [with_color]: the local [color_code] is swapped with the writer's. *)
Definition swap_color (local : Z) : VM Z := c ← gets color_code; _ ← modify (set_color local); mret c.
Definition with_color {A} (color : Z) (f : VM A) : VM A :=
  saved ← swap_color color;
  res ← f;
  _ ← swap_color saved;
  mret res.

(** [position] is a [u8]. *)
Definition set_column_position (position : Z) : VM unit :=
  modify (set_column (Nat.min (Z.to_nat position) BUFFER_WIDTH)).

Definition VGA_CMD_PORT : Z := 0x3D4.
Definition VGA_DATA_PORT : Z := 0x3D5.

(** [y as u16 * BUFFER_WIDTH as u16 + x as u16] under overflow checks. *)
Definition u16_max : Z := 65535.
Definition checked_u16 (z : Z) : VM Z := if decide (0 ≤ z ≤ u16_max)%Z then mret z else panic ArithOverflow.
Definition set_cursor_position (x y : Z) : VM unit :=
  row ← checked_u16 (y * Z.of_nat BUFFER_WIDTH);
  pos ← checked_u16 (row + x);
  _ ← modify (add_port VGA_CMD_PORT 0x0F);
  _ ← modify (add_port VGA_DATA_PORT (Z.land pos 0xFF));
  _ ← modify (add_port VGA_CMD_PORT 0x0E);
  modify (add_port VGA_DATA_PORT (Z.land (Z.shiftr pos 8) 0xFF)).

(** The values read back from the data port are the hardware's. *)
Definition enable_cursor (data_read : list (Z * Z) → Z) (start end_ : Z) : VM unit :=
  _ ← modify (add_port VGA_CMD_PORT 0x0A);
  s ← gets (λ v, data_read (ports v));
  _ ← modify (add_port VGA_DATA_PORT (Z.lor (Z.land s 0xC0) start));
  _ ← modify (add_port VGA_CMD_PORT 0x0B);
  e ← gets (λ v, data_read (ports v));
  modify (add_port VGA_DATA_PORT (Z.lor (Z.land e 0xE0) end_)).
Definition disable_cursor : VM unit :=
  _ ← modify (add_port VGA_CMD_PORT 0x0A);
  modify (add_port VGA_DATA_PORT 0x20).

(** ** The shape of the screen *)

Definition grid (b : list (list ScreenChar)) : Prop :=
  length b = BUFFER_HEIGHT ∧ Forall (λ r, length r = BUFFER_WIDTH) b.
Record wf (v : t) : Prop := {
  wf_grid : grid (chars v);
  wf_column : column_position v ≤ BUFFER_WIDTH;
}.

Definition blank (color : Z) : ScreenChar := {| ascii_character := x20; char_color := color |}.
Definition blank_row (color : Z) : list ScreenChar := replicate BUFFER_WIDTH (blank color).

(** ** Filling a row from left to right *)

Lemma for_each_app l1 l2 f v : for_each (l1 ++ l2) f v = (_ ← for_each l1 f; for_each l2 f) v.
Proof.
  revert v. induction l1 as [|i l1 IH]; intros v; [done|]. simpl.
  unfold mbind, M_bind in *. destruct (f i v) as [[] v1]; [|done..]. apply IH.
Qed.

(** A loop that sets the cells of row [r] to those of [src], in order; [P] is
    what the body relies on besides, and may not depend on row [r]. *)
Section fill_row.
Context (r : nat) (src : list ScreenChar) (f : nat → VM unit) (P : t → Prop).
Context (Hsrc : length src = BUFFER_WIDTH).
Context (HP : ∀ v row, P v → P (set_chars (<[r := row]> (chars v)) v)).
Context (Hf : ∀ col c v row, P v → col < BUFFER_WIDTH → src !! col = Some c → chars v !! r = Some row →
  length row = BUFFER_WIDTH → f col v = (Ok tt, set_chars (<[r := <[col := c]> row]> (chars v)) v)).

Lemma fill_row_run v row n : P v → chars v !! r = Some row → length row = BUFFER_WIDTH →
  n ≤ BUFFER_WIDTH →
  for_each (seq 0 n) f v = (Ok tt, set_chars (<[r := take n src ++ drop n row]> (chars v)) v).
Proof.
  intros Hv Hr Hrow. induction n as [|n IH]; intros Hn.
  { simpl. unfold mret, M_ret. rewrite drop_0. simpl. rewrite list_insert_id by done. by destruct v. }
  rewrite seq_S, for_each_app. rewrite (mbind_run _ _ _ _ _ (IH ltac:(lia))). simpl.
  destruct (lookup_lt_is_Some_2 src n) as [c Hc]; [lia|].
  set (v1 := set_chars _ v). assert (Hv1 : P v1) by (by apply HP).
  assert (Hr1 : chars v1 !! r = Some (take n src ++ drop n row)).
  { simpl. apply list_lookup_insert_eq. by eapply lookup_lt_Some. }
  assert (Hl1 : length (take n src ++ drop n row) = BUFFER_WIDTH).
  { rewrite length_app, length_take, length_drop. lia. }
  rewrite (mbind_run _ _ _ _ _ (Hf n c v1 _ Hv1 ltac:(lia) Hc Hr1 Hl1)). unfold mret, M_ret. f_equal.
  unfold v1. simpl. unfold set_chars. simpl. f_equal. rewrite list_insert_insert_eq. f_equal.
  rewrite (take_S_r _ _ _ Hc), <- app_assoc. simpl.
  rewrite insert_app_r_alt by (rewrite length_take; lia). f_equal.
  replace (n - length (take n src)) with 0 by (rewrite length_take; lia).
  destruct (lookup_lt_is_Some_2 row n) as [x Hx]; [lia|]. by rewrite (drop_S _ _ _ Hx).
Qed.

Lemma fill_row_all v row : P v → chars v !! r = Some row → length row = BUFFER_WIDTH →
  for_each (seq 0 BUFFER_WIDTH) f v = (Ok tt, set_chars (<[r := src]> (chars v)) v).
Proof.
  intros Hv Hr Hrow. rewrite (fill_row_run v row BUFFER_WIDTH) by done.
  by rewrite take_ge, drop_ge, app_nil_r by lia.
Qed.
End fill_row.

Lemma write_cell_run v r row col c : chars v !! r = Some row → length row = BUFFER_WIDTH →
  col < BUFFER_WIDTH → write_cell r col c v = (Ok tt, set_chars (<[r := <[col := c]> row]> (chars v)) v).
Proof.
  intros Hr Hrow Hc. unfold write_cell. rewrite mbind_gets.
  destruct (lookup_lt_is_Some_2 row col) as [x Hx]; [lia|].
  assert (cell v r col = Some x) as -> by (unfold cell; by rewrite Hr).
  simpl. unfold mbind, M_bind, mret, M_ret, modify. do 2 f_equal.
  by apply list_alter_as_insert.
Qed.

Lemma read_cell_run v r row col c : chars v !! r = Some row → row !! col = Some c →
  read_cell r col v = (Ok c, v).
Proof. intros Hr Hc. unfold read_cell. rewrite mbind_gets. unfold cell. rewrite Hr. simpl. by rewrite Hc. Qed.

Lemma clear_row_run v r row : chars v !! r = Some row → length row = BUFFER_WIDTH →
  clear_row r v = (Ok tt, set_chars (<[r := blank_row (color_code v)]> (chars v)) v).
Proof.
  intros Hr Hrow. unfold clear_row. rewrite mbind_gets. cbv zeta.
  apply (fill_row_all r (blank_row (color_code v)) _ (λ _, True)) with (row := row); [|done| |done..].
  - apply length_replicate.
  - intros col c v' row' _ Hcol Hc Hr' Hrow'.
    assert (c = blank (color_code v)) as -> by (by apply lookup_replicate in Hc as [-> _]).
    by apply write_cell_run.
Qed.

(** One step of the scroll: row [S r] is copied over row [r]. *)
Lemma copy_row_run v r row src : chars v !! r = Some row → length row = BUFFER_WIDTH →
  chars v !! S r = Some src → length src = BUFFER_WIDTH →
  for_each (seq 0 BUFFER_WIDTH) (λ col, c ← read_cell (S r) col; write_cell (S r - 1) col c) v =
    (Ok tt, set_chars (<[r := src]> (chars v)) v).
Proof.
  intros Hr Hrow Hs Hsrc.
  apply (fill_row_all r src _ (λ v', chars v' !! S r = Some src)) with (row := row); [done|..|done|done|done].
  - intros v' row' Hv'. simpl. by rewrite list_lookup_insert_ne by lia.
  - intros col c v' row' Hv' Hcol Hc Hr' Hrow'. rewrite (mbind_run _ _ _ _ _ (read_cell_run _ _ _ _ _ Hv' Hc)).
    replace (S r - 1) with r by lia. by apply write_cell_run.
Qed.

(** The scroll: every row but the last takes the contents of the next. *)
Lemma scroll_run v n : grid (chars v) → n < BUFFER_HEIGHT →
  for_each (seq 1 n) (λ row, for_each (seq 0 BUFFER_WIDTH) (λ col,
    c ← read_cell row col; write_cell (row - 1) col c)) v =
  (Ok tt, set_chars (take n (drop 1 (chars v)) ++ drop n (chars v)) v).
Proof.
  intros [Hh Hw] . induction n as [|n IH]; intros Hn.
  { simpl. unfold mret, M_ret. rewrite drop_0. by destruct v. }
  rewrite seq_S, for_each_app. rewrite (mbind_run _ _ _ _ _ (IH ltac:(lia))). clear IH.
  destruct (lookup_lt_is_Some_2 (chars v) n) as [row Hrow]; [lia|].
  destruct (lookup_lt_is_Some_2 (chars v) (S n)) as [src Hsrc]; [lia|].
  rewrite Forall_lookup in Hw. set (b := take n (drop 1 (chars v)) ++ drop n (chars v)).
  assert (Hlen : length (take n (drop 1 (chars v))) = n) by (rewrite length_take, length_drop; lia).
  assert (H1 : b !! n = Some row).
  { unfold b. rewrite lookup_app_r, Hlen, lookup_drop by lia. by replace (n + (n - n)) with n by lia. }
  assert (H2 : b !! S n = Some src).
  { unfold b. rewrite lookup_app_r, Hlen, lookup_drop by lia. by replace (n + (S n - n)) with (S n) by lia. }
  simpl for_each at 1. replace (1 + n) with (S n) by lia.
  rewrite (mbind_run _ _ _ _ _ (copy_row_run (set_chars b v) n row src H1 (Hw _ _ Hrow) H2 (Hw _ _ Hsrc))).
  unfold mret, M_ret. f_equal. unfold set_chars. simpl. f_equal. unfold b.
  assert (Hs' : drop 1 (chars v) !! n = Some src) by (by rewrite lookup_drop).
  rewrite (take_S_r _ _ _ Hs'), <- app_assoc, insert_app_r_alt by lia. f_equal.
  rewrite Hlen, Nat.sub_diag, (drop_S _ _ _ Hrow). done.
Qed.

Lemma new_line_run v : grid (chars v) →
  new_line v = (Ok tt, set_column 0 (set_chars (drop 1 (chars v) ++ [blank_row (color_code v)]) v)).
Proof.
  intros Hg. pose proof Hg as [Hh Hw]. unfold new_line.
  rewrite (mbind_run _ _ _ _ _ (scroll_run v (BUFFER_HEIGHT - 1) Hg ltac:(unfold BUFFER_HEIGHT; lia))).
  destruct (lookup_lt_is_Some_2 (chars v) 24) as [row Hrow]; [unfold BUFFER_HEIGHT in *; lia|].
  assert (Hb : take (BUFFER_HEIGHT - 1) (drop 1 (chars v)) ++ drop (BUFFER_HEIGHT - 1) (chars v) =
    drop 1 (chars v) ++ [row]).
  { rewrite take_ge by (rewrite length_drop; lia). f_equal. unfold BUFFER_HEIGHT in *. simpl Nat.sub.
    rewrite (drop_S _ _ _ Hrow), drop_ge by lia. done. }
  rewrite Hb. assert (Hl : length (drop 1 (chars v)) = 24) by (rewrite length_drop; unfold BUFFER_HEIGHT in *; lia).
  assert (Hr : chars (set_chars (drop 1 (chars v) ++ [row]) v) !! (BUFFER_HEIGHT - 1) = Some row).
  { simpl. by rewrite lookup_app_r, Hl by (unfold BUFFER_HEIGHT; lia). }
  rewrite Forall_lookup in Hw.
  rewrite (mbind_run _ _ _ _ _ (clear_row_run _ _ row Hr (Hw _ _ Hrow))).
  unfold modify. f_equal. unfold set_column, set_chars. simpl. f_equal.
  rewrite insert_app_r_alt by (rewrite Hl; lia). by rewrite Hl.
Qed.

Lemma wf_new_line v : wf v → wf (set_column 0 (set_chars (drop 1 (chars v) ++ [blank_row (color_code v)]) v)).
Proof.
  intros [[Hh Hw] _]. split; [split|simpl; lia]; simpl.
  - rewrite length_app, length_drop. simpl. unfold BUFFER_HEIGHT in *. lia.
  - apply Forall_app. split; [by apply Forall_drop|]. apply Forall_singleton, length_replicate.
Qed.

(** ** The screen as a window

    The abstract terminal keeps every row ever started; the screen shows the
    last 25. *)

Record term := { rows : list (list ScreenChar); col : nat; color : Z }.

Definition abs_new_line (a : term) : term :=
  {| rows := rows a ++ [blank_row (color a)]; col := 0; color := color a |}.
Definition abs_put (b : byte) (a : term) : term :=
  {| rows := alter <[col a := {| ascii_character := b; char_color := color a |}]>
       (length (rows a) - 1) (rows a);
     col := S (col a); color := color a |}.
Definition abs_byte (b : byte) (a : term) : term :=
  if decide (b = x0a) then abs_new_line a
  else abs_put b (if decide (BUFFER_WIDTH ≤ col a) then abs_new_line a else a).
Definition shown (b : byte) : byte := if is_printable b || bool_decide (b = x0a) then b else xfe.
Definition abs_write (bs : list byte) (a : term) : term := foldl (λ a b, abs_byte (shown b) a) a bs.

Record shows (v : t) (a : term) : Prop := {
  sh_chars : chars v = drop (length (rows a) - BUFFER_HEIGHT) (rows a);
  sh_col : column_position v = col a;
  sh_color : color_code v = color a;
  sh_height : BUFFER_HEIGHT ≤ length (rows a);
  sh_width : Forall (λ r, length r = BUFFER_WIDTH) (rows a);
  sh_bound : col a ≤ BUFFER_WIDTH;
}.

Lemma shows_wf v a : shows v a → wf v.
Proof.
  intros [Hc Hcol _ Hh Hw Hb]. split; [split|by rewrite Hcol]; rewrite Hc.
  - rewrite length_drop. lia.
  - by apply Forall_drop.
Qed.

Lemma shows_new_line v a : shows v a →
  shows (set_column 0 (set_chars (drop 1 (chars v) ++ [blank_row (color_code v)]) v)) (abs_new_line a).
Proof.
  intros [Hc Hcol Hcc Hh Hw Hb]. split; simpl; try done.
  - rewrite length_app, Hc, Hcc, drop_drop. unfold BUFFER_HEIGHT in *. cbn [length].
    rewrite drop_app_le by lia. do 2 f_equal. lia.
  - rewrite length_app. simpl. lia.
  - apply Forall_app. split; [done|]. apply Forall_singleton, length_replicate.
  - lia.
Qed.

Lemma put_run v a b : shows v a → col a < BUFFER_WIDTH →
  ∃ v', (col ← gets column_position;
    color ← gets color_code;
    _ ← write_cell (BUFFER_HEIGHT - 1) col {| ascii_character := b; char_color := color |};
    modify (λ v, set_column (S (column_position v)) v)) v = (Ok tt, v') ∧
    shows v' (abs_put b a) ∧ ports v' = ports v.
Proof.
  intros Hs Hlt. pose proof (shows_wf _ _ Hs) as [[Hh Hw] _]. destruct Hs as [Hc Hcol Hcc Hhh Hww Hb].
  destruct (lookup_lt_is_Some_2 (chars v) (BUFFER_HEIGHT - 1)) as [row Hrow]; [unfold BUFFER_HEIGHT in *; lia|].
  rewrite Forall_lookup in Hw. pose proof (Hw _ _ Hrow) as Hlen.
  rewrite !mbind_gets. eexists. split; [|split; [split|]].
  - rewrite (mbind_run _ _ _ _ _ (write_cell_run v _ row (column_position v) _ Hrow Hlen ltac:(lia))).
    unfold modify. reflexivity.
  - simpl. rewrite length_alter. set (n := length (rows a) - BUFFER_HEIGHT) in *.
    assert (Hr : rows a !! (length (rows a) - 1) = Some row).
    { rewrite Hc, lookup_drop in Hrow. rewrite <- Hrow. f_equal. unfold n, BUFFER_HEIGHT in *. lia. }
    rewrite (list_alter_as_insert _ _ _ _ Hr), Hcol, Hcc, Hc.
    rewrite drop_insert_ge by (unfold n, BUFFER_HEIGHT in *; lia).
    f_equal. unfold n, BUFFER_HEIGHT in *. lia.
  - simpl. by rewrite Hcol.
  - done.
  - simpl. by rewrite length_alter.
  - simpl. apply Forall_alter; [done|]. intros r _ Hr. by rewrite length_insert.
  - simpl. lia.
  - done.
Qed.

Lemma write_byte_refines v a b : shows v a →
  ∃ v', write_byte b v = (Ok tt, v') ∧ shows v' (abs_byte b a) ∧ ports v' = ports v.
Proof.
  intros Hs. pose proof (new_line_run v (wf_grid _ (shows_wf _ _ Hs))) as Hnl.
  unfold write_byte, abs_byte. case_decide.
  { eexists. split; [exact Hnl|]. split; [by apply shows_new_line|done]. }
  rewrite mbind_gets, (sh_col _ _ Hs). case_decide.
  - rewrite (mbind_run _ _ _ _ _ Hnl).
    destruct (put_run _ _ b (shows_new_line _ _ Hs)) as (v' & Hrun & Hs' & Hp); [unfold BUFFER_WIDTH; simpl; lia|].
    exists v'. split; [exact Hrun|]. by split.
  - rewrite mbind_ret. apply put_run; [done|lia].
Qed.

Lemma write_bytes_refines bs : ∀ v a, shows v a →
  ∃ v', write_bytes bs v = (Ok tt, v') ∧ shows v' (abs_write bs a) ∧ ports v' = ports v.
Proof.
  induction bs as [|b bs IH]; intros v a Hs; [by exists v|]. simpl.
  destruct (write_byte_refines v a (shown b) Hs) as (v1 & H1 & Hs1 & Hp1).
  destruct (IH v1 _ Hs1) as (v2 & H2 & Hs2 & Hp2). exists v2.
  unfold shown in H1. rewrite (mbind_run _ _ _ _ _ H1). split_and!; [done..|congruence].
Qed.

(** ** Properties *)

(** C8: printing never panics and the screen is a window on the text: from a
    screen that shows the last 25 rows of a terminal, [write_string] leaves one
    that shows the last 25 rows after the same bytes, wrapping at column 80,
    starting a row at every newline and replacing unprintable bytes. *)
Theorem write_string_refines s v a : shows v a →
  ∃ v', write_string s v = (Ok tt, v') ∧
    shows v' (abs_write (String.list_byte_of_string s) a) ∧ ports v' = ports v.
Proof. apply write_bytes_refines. Qed.

(** The screen at boot: 25 blank rows. *)
Definition blank_screen : t := {|
  column_position := 0; color_code := ColorCode_new White Black;
  chars := replicate BUFFER_HEIGHT (blank_row (ColorCode_new White Black)); ports := [] |}.
Definition blank_term : term := {|
  rows := replicate BUFFER_HEIGHT (blank_row (ColorCode_new White Black)); col := 0;
  color := ColorCode_new White Black |}.
Lemma blank_shows : shows blank_screen blank_term.
Proof.
  split; try reflexivity.
  - apply Forall_replicate, length_replicate.
  - simpl. lia.
Qed.

Lemma write_string_refines_witness : shows blank_screen blank_term ∧
  ∃ v', write_string "RiptideOS" blank_screen = (Ok tt, v') ∧ column_position v' = 9.
Proof.
  split; [exact blank_shows|].
  destruct (write_string_refines "RiptideOS" blank_screen blank_term blank_shows) as (v' & Hr & Hs & _).
  exists v'. split; [exact Hr|]. rewrite (sh_col _ _ Hs). vm_compute. reflexivity.
Defined.

(** a new line scrolls by one: the loop over rows and columns is the same as
    dropping the first row and adding a blank one in the current color; no index
    is out of range. *)
Theorem new_line_scrolls v : length (chars v) = BUFFER_HEIGHT →
  Forall (λ r, length r = BUFFER_WIDTH) (chars v) →
  new_line v = (Ok tt, {| column_position := 0; color_code := color_code v;
    chars := drop 1 (chars v) ++ [replicate BUFFER_WIDTH (blank (color_code v))]; ports := ports v |}).
Proof. intros Hh Hw. by apply new_line_run. Qed.

Lemma new_line_scrolls_witness : new_line blank_screen = (Ok tt, blank_screen).
Proof.
  etransitivity; [apply (new_line_scrolls blank_screen)|vm_compute; reflexivity].
  - reflexivity.
  - repeat constructor.
Defined.

(** [with_color] runs its argument in the given color and, whatever the
    argument does to the color, leaves the color as it was. *)
Theorem with_color_restores {A} c (f : VM A) v r v' : with_color c f v = (Ok r, v') →
  color_code v' = color_code v ∧ ∃ v1, f (set_color c v) = (Ok r, v1) ∧ v' = set_color (color_code v) v1.
Proof.
  unfold with_color, swap_color, mbind, M_bind, gets, modify, mret, M_ret.
  destruct (f (set_color c v)) as [[a| |] v1]; intros [= <- <-]; simpl; eauto.
Qed.

Lemma with_color_restores_witness :
  ∃ v', with_color (ColorCode_from LightRed) (write_string "ERROR") blank_screen = (Ok tt, v') ∧
    color_code v' = ColorCode_new White Black.
Proof.
  destruct (with_color (ColorCode_from LightRed) (write_string "ERROR") blank_screen) as [r v'] eqn:H.
  assert (Hr : r = Ok tt) by (change r with (fst (r, v')); rewrite <- H; vm_compute; reflexivity).
  subst r. exists v'. split; [reflexivity|].
  destruct (with_color_restores _ _ _ _ _ H) as [Hc _]. exact Hc.
Defined.

(** moving the cursor never overflows for byte coordinates, and the two
    bytes written to the data port are the low and high byte of the cell's index
    [80 * y + x]. *)
Theorem set_cursor_position_bytes x y v : (0 ≤ x ≤ 255)%Z → (0 ≤ y ≤ 255)%Z →
  ∃ lo hi, set_cursor_position x y v = (Ok tt,
      {| column_position := column_position v; color_code := color_code v; chars := chars v;
         ports := (VGA_DATA_PORT, hi) :: (VGA_CMD_PORT, 0x0E%Z) :: (VGA_DATA_PORT, lo) ::
                  (VGA_CMD_PORT, 0x0F%Z) :: ports v |}) ∧
    (0 ≤ lo ≤ 255 ∧ 0 ≤ hi ≤ 255 ∧ hi * 256 + lo = 80 * y + x)%Z.
Proof.
  intros Hx Hy. eexists _, _. split.
  - unfold set_cursor_position, checked_u16, u16_max, BUFFER_WIDTH.
    rewrite !decide_True by lia. rewrite mbind_ret. rewrite decide_True by lia. rewrite mbind_ret.
    reflexivity.
  - change 255%Z with (Z.ones 8). rewrite !Z.land_ones, Z.shiftr_div_pow2 by lia.
    change (2 ^ 8)%Z with 256%Z. change (Z.ones 8) with 255%Z. unfold BUFFER_WIDTH.
    pose proof (Z.div_mod (y * 80 + x) 256 ltac:(lia)).
    assert ((y * 80 + x) / 256 < 256)%Z by (apply Z.div_lt_upper_bound; lia).
    assert (0 ≤ (y * 80 + x) / 256)%Z by (apply Z.div_pos; lia).
    pose proof (Z.mod_pos_bound (y * 80 + x) 256 ltac:(lia)).
    rewrite (Z.mod_small ((y * 80 + x) / 256)) by lia. lia.
Qed.

Lemma set_cursor_position_bytes_witness :
  ∃ lo hi, ports (set_cursor_position 14 24 blank_screen).2 =
    [(VGA_DATA_PORT, hi); (VGA_CMD_PORT, 14%Z); (VGA_DATA_PORT, lo); (VGA_CMD_PORT, 15%Z)] ∧
    (hi * 256 + lo = 80 * 24 + 14)%Z.
Proof.
  destruct (set_cursor_position_bytes 14 24 blank_screen) as (lo & hi & Hr & _ & _ & Hp); [lia|lia|].
  exists lo, hi. split; [rewrite Hr; reflexivity|exact Hp].
Defined.
End Vga.
