(* ===== verification/VgaText.v ===== *)
(** * Text on the screen

    What the users of [Vga] need of it: writing is total on a well-formed screen,
    a written byte appears in the bottom row at the column, a new line leaves an
    empty bottom row, and what is printed is text on the unbounded terminal of
    which the screen is a window. *)

From Stdlib Require Import Init.Byte.
From S2P Require Import Prelude Fmt Vga.

Module VgaText.
Import Vga.

(** The characters of the bottom row. *)
Definition text (v : t) : list byte := ascii_character <$> default [] (chars v !! 24).
Definition blank_text : list byte := replicate BUFFER_WIDTH x20.
(** An empty bottom row and the column at its start. *)
Record fresh (v : t) : Prop := {
  fr_wf : wf v;
  fr_text : text v = blank_text;
  fr_column : column_position v = 0;
}.

Lemma wf_bottom v : wf v → ∃ row, chars v !! 24 = Some row ∧ length row = BUFFER_WIDTH.
Proof.
  intros [[Hh Hw] _]. destruct (lookup_lt_is_Some_2 (chars v) 24) as [row Hrow].
  { rewrite Hh. unfold BUFFER_HEIGHT. lia. }
  exists row. split; [done|]. rewrite Forall_lookup in Hw. eauto.
Qed.
Lemma text_length v : wf v → length (text v) = BUFFER_WIDTH.
Proof. intros (row & Hr & Hl)%wf_bottom. unfold text. by rewrite Hr, length_fmap. Qed.

(** A well-formed screen shows the terminal made of its own rows. *)
Lemma wf_shows v : wf v → ∃ a, shows v a ∧ color a = color_code v.
Proof.
  intros [[Hh Hw] Hc]. exists {| rows := chars v; col := column_position v; color := color_code v |}.
  split; [|done]. split; simpl; try done; [by rewrite Hh|lia].
Qed.

Lemma abs_write_color bs : ∀ a, color (abs_write bs a) = color a.
Proof.
  induction bs as [|b bs IH]; intros a; [done|]. simpl. rewrite IH. unfold abs_byte.
  repeat case_decide; done.
Qed.

(** Printing is total, and keeps the color. *)
Lemma print_total s v : wf v → ∃ v', print s v = (Ok tt, v') ∧ wf v' ∧ color_code v' = color_code v.
Proof.
  intros (a & Ha & Hc)%wf_shows.
  destruct (write_bytes_refines (String.list_byte_of_string s) v a Ha) as (v' & Hr & Hs & _).
  exists v'. split; [exact Hr|]. split; [by eapply shows_wf|].
  by rewrite (sh_color _ _ Hs), abs_write_color.
Qed.

Lemma new_line_fresh v : wf v → ∃ v', write_byte x0a v = (Ok tt, v') ∧ fresh v' ∧ color_code v' = color_code v.
Proof.
  intros Hv. eexists. split; [apply new_line_run, Hv|]. split; [|done].
  split; [by apply wf_new_line| |done]. unfold text. simpl. destruct Hv as [[Hh _] _].
  rewrite lookup_app_r by (rewrite length_drop, Hh; unfold BUFFER_HEIGHT; lia).
  rewrite length_drop, Hh. reflexivity.
Qed.

Lemma println_fresh s v : wf v → ∃ v', println s v = (Ok tt, v') ∧ fresh v' ∧ color_code v' = color_code v.
Proof.
  intros (v1 & H1 & Hwf & Hc)%(print_total s). destruct (new_line_fresh v1 Hwf) as (v2 & H2 & Hf & Hc2).
  exists v2. split; [|split; [done|congruence]]. unfold println. unfold print in H1. rewrite (mbind_run _ _ _ _ _ H1).
  unfold write_string. simpl. by rewrite (mbind_run _ _ _ _ _ H2).
Qed.

(** ** Printing as text on the terminal *)

Definition recolor (c : Z) (a : term) : term := {| rows := rows a; col := col a; color := c |}.
Definition write (s : string) (a : term) : term := abs_write (Fmt.bytes_of s) a.
Definition line (s : string) (a : term) : term := write (s +:+ String "010"%char "") a.

Lemma write_app s1 s2 a : write (s1 +:+ s2) a = write s2 (write s1 a).
Proof. unfold write, abs_write. by rewrite Fmt.bytes_of_app, foldl_app. Qed.
Lemma write_color s a : color (write s a) = color a.
Proof. apply abs_write_color. Qed.
Lemma shows_recolor c v a : shows v a → shows (set_color c v) (recolor c a).
Proof. intros []. by split. Qed.
Lemma print_shows s v a : shows v a → ∃ v', print s v = (Ok tt, v') ∧ shows v' (write s a).
Proof. intros Hs. destruct (write_bytes_refines (Fmt.bytes_of s) v a Hs) as (v' & ? & ? & _). eauto. Qed.
Lemma println_shows s v a : shows v a → ∃ v', println s v = (Ok tt, v') ∧ shows v' (line s a).
Proof.
  intros (v1 & H1 & Hs1)%(print_shows s). destruct (print_shows (String "010"%char "") v1 _ Hs1) as (v2 & H2 & Hs2).
  exists v2. unfold line. rewrite write_app. split; [|done]. unfold println. unfold print in H1.
  by rewrite (mbind_run _ _ _ _ _ H1).
Qed.

(** After a line the bottom row is empty. *)
Lemma line_fresh s v a : shows v (line s a) → fresh v.
Proof.
  unfold line. rewrite write_app. change (write (String "010"%char "")) with abs_new_line. intros Hs.
  split; [by eapply shows_wf| |by rewrite (sh_col _ _ Hs)].
  pose proof (sh_height _ _ Hs) as Hh. unfold text. rewrite (sh_chars _ _ Hs). simpl in *.
  rewrite length_app in *. simpl in *. rewrite drop_app_le by (unfold BUFFER_HEIGHT in *; lia).
  rewrite lookup_app_r by (rewrite length_drop; unfold BUFFER_HEIGHT in *; lia).
  rewrite length_drop. unfold BUFFER_HEIGHT in *.
  replace (24 - _) with 0 by lia. reflexivity.
Qed.

(** ** The bottom row *)

(** A byte written within the row. *)
Lemma put_text v b : wf v → b ≠ x0a → column_position v < BUFFER_WIDTH →
  ∃ v', write_byte b v = (Ok tt, v') ∧ wf v' ∧ text v' = <[column_position v := b]> (text v) ∧
    column_position v' = S (column_position v) ∧ color_code v' = color_code v.
Proof.
  intros Hv Hb Hc. destruct (wf_bottom v Hv) as (row & Hr & Hl). destruct Hv as [[Hh Hw] _].
  unfold write_byte. rewrite decide_False by done. rewrite mbind_gets, decide_False by lia.
  rewrite mbind_ret, !mbind_gets. eexists. split.
  { rewrite (mbind_run _ _ _ _ _ (write_cell_run v (BUFFER_HEIGHT - 1) row _ _ Hr Hl Hc)). reflexivity. }
  split_and!; [|..|done|done].
  - split; [split|]; simpl; [by rewrite length_insert| |lia].
    apply Forall_insert; [done|]. by rewrite length_insert.
  - unfold text. simpl. rewrite list_lookup_insert_eq by (rewrite Hh; unfold BUFFER_HEIGHT; lia).
    rewrite Hr. simpl. by rewrite list_fmap_insert.
Qed.

Lemma shown_not_newline b : b ≠ x0a → shown b ≠ x0a.
Proof. unfold shown. intros Hb. destruct (is_printable b || _); done. Qed.

(** Bytes other than a newline that fit in the row are put in place. *)
Lemma print_in_row bs : ∀ v, wf v → Forall (λ b, b ≠ x0a) bs →
  column_position v + length bs ≤ BUFFER_WIDTH →
  ∃ v', write_bytes bs v = (Ok tt, v') ∧ wf v' ∧
    text v' = take (column_position v) (text v) ++ (shown <$> bs) ++
      drop (column_position v + length bs) (text v) ∧
    column_position v' = column_position v + length bs ∧ color_code v' = color_code v.
Proof.
  induction bs as [|b bs IH]; intros v Hv Hbs Hlen.
  { exists v. simpl. rewrite Nat.add_0_r, take_drop. done. }
  apply Forall_cons in Hbs as [Hb Hbs]. simpl in Hlen.
  destruct (put_text v (shown b) Hv (shown_not_newline _ Hb) ltac:(lia)) as (v1 & H1 & Hv1 & Ht1 & Hc1 & Hk1).
  destruct (IH v1 Hv1 Hbs ltac:(lia)) as (v2 & H2 & Hv2 & Ht2 & Hc2 & Hk2).
  exists v2. split_and!; [|done| |simpl; lia|congruence].
  - simpl. unfold shown in H1. rewrite (mbind_run _ _ _ _ _ H1). exact H2.
  - rewrite Ht2, Hc1, Ht1. pose proof (text_length v Hv) as Hl.
    destruct (lookup_lt_is_Some_2 (text v) (column_position v)) as [x Hx]; [lia|].
    rewrite (take_S_r _ _ (shown b)) by (apply list_lookup_insert_eq; lia).
    rewrite take_insert_ge by lia. rewrite drop_insert_lt by lia. simpl. rewrite <- app_assoc. simpl.
    do 3 f_equal. f_equal. lia.
Qed.
End VgaText.
