(* ===== verification/Memory.v ===== *)
(** * [memory.rs] and [allocator.rs]: physical frames and the kernel heap

    [BootInfoFrameAllocator] hands out the 4 KiB frames of the usable regions of
    the boot loader's memory map, in order, and never takes one back.
    [init_heap] maps the 32 pages of the heap, each to a frame of its own, with a
    page mapper that takes the frames of its page tables from the same allocator.

    The boot loader's memory map and the address, page and mapper types of the
    [x86_64] crate are interfaces: [MemoryMap], [PhysFrames], [Paging] and
    [Mapper] list the operations the code uses, and their [...Laws] the documented
    behaviour the theorems rely on. *)

From S2P Require Import Prelude.

Module Memory.

Definition FRAME_SIZE : Z := 4096.

(** ** The interfaces *)

(** [bootloader::bootinfo]: a region, whether it is [Usable], and its address
    range. *)
Class MemoryMap := {
  MemoryRegion : Type;
  is_usable : MemoryRegion → bool;
  start_addr : MemoryRegion → Z;
  end_addr : MemoryRegion → Z;
}.

(** [x86_64]: [PhysFrame::containing_address(PhysAddr::new(a))]; [PhysAddr::new]
    panics ([None]) when the address has more than 52 bits. *)
Class PhysFrames := {
  PhysFrame : Type;
  containing_address : Z → option PhysFrame;
  frame_start : PhysFrame → Z;
}.
Class PhysFramesLaws `{PhysFrames} := {
  containing_address_spec a : (0 ≤ a < 2 ^ 52)%Z →
    ∃ f, containing_address a = Some f ∧ frame_start f = (a - a mod FRAME_SIZE)%Z;
}.

(** ** [BootInfoFrameAllocator] *)

Section allocator.
Context `{!MemoryMap, !PhysFrames}.

Record BootInfoFrameAllocator := { memory_map : list MemoryRegion; next : Z }.

Definition init (m : list MemoryRegion) : BootInfoFrameAllocator := {| memory_map := m; next := 0 |}.

(** [(start..end).step_by(4096)] *)
Definition step_by_frames (s e : Z) : list Z :=
  (λ i, (s + FRAME_SIZE * Z.of_nat i)%Z) <$>
    seq 0 (Z.to_nat ((e - s + (FRAME_SIZE - 1)) / FRAME_SIZE)).

(** The frame addresses [usable_frames] iterates over. *)
Definition usable_addresses (m : list MemoryRegion) : list Z :=
  r ← filter (λ r, is_usable r = true) m; step_by_frames (start_addr r) (end_addr r).

(** [usable_frames().nth(n)]: the iterator makes the frame of every address up to
    the [n]-th, and each of them may panic. *)
Fixpoint usable_frames_nth (addrs : list Z) (n : nat) : outcome Empty_set (option PhysFrame) :=
  match addrs with
  | [] => Ok None
  | a :: rest =>
      match containing_address a with
      | None => Panic ExplicitPanic
      | Some f => match n with 0 => Ok (Some f) | S n' => usable_frames_nth rest n' end
      end
  end.

(** Nothing here returns an error. *)
Definition allocate_frame {E} : M BootInfoFrameAllocator E (option PhysFrame) := λ a,
  match usable_frames_nth (usable_addresses (memory_map a)) (Z.to_nat (next a)) with
  | Ok frame =>
      if decide (next a + 1 ≤ u64_max)%Z
      then (Ok frame, {| memory_map := memory_map a; next := next a + 1 |})
      else (Panic ArithOverflow, a)
  | Err e => match e with end
  | Panic p => (Panic p, a)
  end.

(** [n] calls in a row, with their results. *)
Fixpoint allocate_frames {E} (n : nat) : M BootInfoFrameAllocator E (list (option PhysFrame)) :=
  match n with
  | 0 => mret []
  | S n' => f ← allocate_frame; fs ← allocate_frames n'; mret (f :: fs)
  end.
End allocator.
Arguments BootInfoFrameAllocator _ : clear implicits.

(** ** [init_heap] *)

Definition HEAP_START : Z := 0x444444440000.
Definition HEAP_SIZE : Z := 128 * 1024.

(** [x86_64]: [VirtAddr] with its checked arithmetic ([None] is a panic), pages
    and page ranges. *)
Class Paging := {
  VirtAddr : Type;
  VirtAddr_new : Z → option VirtAddr;
  VirtAddr_add : VirtAddr → Z → option VirtAddr;
  VirtAddr_sub : VirtAddr → Z → option VirtAddr;
  as_u64 : VirtAddr → Z;
  Page : Type;
  page_containing : VirtAddr → Page;
  page_range_inclusive : Page → Page → list Page;
  page_start : Page → Z;
}.
(** Addresses of the lower half (47 bits) behave like integers; a page is
    determined by its start, and an inclusive range lists the pages between its
    ends in order. *)
Class PagingLaws `{Paging} := {
  VirtAddr_new_spec a : (0 ≤ a < 2 ^ 47)%Z → ∃ v, VirtAddr_new a = Some v ∧ as_u64 v = a;
  VirtAddr_add_spec v n : (0 ≤ n)%Z → (0 ≤ as_u64 v)%Z → (as_u64 v + n < 2 ^ 47)%Z →
    ∃ w, VirtAddr_add v n = Some w ∧ as_u64 w = (as_u64 v + n)%Z;
  VirtAddr_sub_spec v n : (0 ≤ n ≤ as_u64 v)%Z → (as_u64 v < 2 ^ 47)%Z →
    ∃ w, VirtAddr_sub v n = Some w ∧ as_u64 w = (as_u64 v - n)%Z;
  page_containing_spec v : page_start (page_containing v) = (as_u64 v - as_u64 v mod FRAME_SIZE)%Z;
  page_range_inclusive_spec p q : page_start <$> page_range_inclusive p q =
    (λ i, (page_start p + FRAME_SIZE * Z.of_nat i)%Z) <$>
      seq 0 (Z.to_nat ((page_start q - page_start p) / FRAME_SIZE + 1));
  page_start_inj p q : page_start p = page_start q → p = q;
  page_start_aligned p : (page_start p mod FRAME_SIZE = 0)%Z;
}.

(** [MapToError<Size4KiB>] *)
Inductive MapToError `{!PhysFrames} :=
  | FrameAllocationFailed
  | ParentEntryHugePage
  | PageAlreadyMapped (f : PhysFrame).

Definition PRESENT : Z := 1.
Definition WRITABLE : Z := 2.

(** [trait Mapper<Size4KiB>]: [map_to] followed by [flush]; it may call the
    allocator for page tables. *)
Class Mapper `{!MemoryMap, !PhysFrames, !Paging} := {
  mapper : Type;
  map_to : Page → PhysFrame → Z → M (mapper * BootInfoFrameAllocator _) MapToError unit;
  translate : mapper → Page → option (PhysFrame * Z);
}.
Class MapperLaws `{Mapper} := {
  (** A successful [map_to] maps the page to the frame and changes no other page;
      a failed one changes none; it only uses the allocator through
      [allocate_frame]. *)
  map_to_ok p f fl m a m' a' : map_to p f fl (m, a) = (Ok tt, (m', a')) →
    translate m' p = Some (f, fl) ∧ (∀ q, q ≠ p → translate m' q = translate m q);
  map_to_err p f fl m a e m' a' : map_to p f fl (m, a) = (Err e, (m', a')) →
    ∀ q, translate m' q = translate m q;
  map_to_alloc p f fl m a r m' a' : map_to p f fl (m, a) = (r, (m', a')) →
    ∃ n fs, allocate_frames (E:=Empty_set) n a = (Ok fs, a');
}.

Section heap.
Context `{!MemoryMap, !PhysFrames, !Paging, !Mapper}.

(** The mapper, the frame allocator, and the region given to the global heap. *)
Record state := {
  st_mapper : mapper;
  st_frames : BootInfoFrameAllocator _;
  st_heap : option (Z * Z);
}.
Abbreviation HM := (M state MapToError).

Definition on_frames {A} (m : M (BootInfoFrameAllocator _) MapToError A) : HM A := λ s,
  let '(r, a) := m (st_frames s) in
  (r, {| st_mapper := st_mapper s; st_frames := a; st_heap := st_heap s |}).
Definition on_mapper {A} (m : M (mapper * BootInfoFrameAllocator _) MapToError A) : HM A := λ s,
  let '(r, (mp, a)) := m (st_mapper s, st_frames s) in
  (r, {| st_mapper := mp; st_frames := a; st_heap := st_heap s |}).

(** The loop over the pages. *)
Fixpoint map_pages (pages : list Page) : HM unit :=
  match pages with
  | [] => mret tt
  | page :: rest =>
      o ← on_frames allocate_frame;
      frame ← ok_or FrameAllocationFailed o;
      let flags := Z.lor PRESENT WRITABLE in
      _ ← on_mapper (map_to page frame flags);
      map_pages rest
  end.

Definition init_heap : HM unit :=
  heap_start ← unwrap ExplicitPanic (VirtAddr_new HEAP_START);
  e ← unwrap ExplicitPanic (VirtAddr_add heap_start HEAP_SIZE);
  heap_end ← unwrap ExplicitPanic (VirtAddr_sub e 1);
  let page_range := page_range_inclusive (page_containing heap_start) (page_containing heap_end) in
  _ ← map_pages page_range;
  modify (λ s, {| st_mapper := st_mapper s; st_frames := st_frames s; st_heap := Some (HEAP_START, HEAP_SIZE) |}).
End heap.

(** ** What the allocator hands out *)

Section frames.
Context `{!MemoryMap, !PhysFrames}.
Implicit Types a : BootInfoFrameAllocator _.

(** The usable regions are made of whole frames, have 52-bit addresses and do not
    overlap. *)
Definition region_ok (r : MemoryRegion) : Prop :=
  (0 ≤ start_addr r ∧ start_addr r mod FRAME_SIZE = 0 ∧
   end_addr r ≤ 2 ^ 52 ∧ end_addr r mod FRAME_SIZE = 0)%Z.
Definition apart (r s : MemoryRegion) : Prop :=
  (end_addr r ≤ start_addr s ∨ end_addr s ≤ start_addr r)%Z.
Definition map_ok (m : list MemoryRegion) : Prop :=
  Forall region_ok (filter (λ r, is_usable r = true) m) ∧
  ForallOrdPairs apart (filter (λ r, is_usable r = true) m).

(** The frame number [i] of the usable memory. *)
Definition frame_at (m : list MemoryRegion) (i : nat) : option PhysFrame :=
  x ← usable_addresses m !! i; containing_address x.

Lemma elem_of_step_by_frames s e x : x ∈ step_by_frames s e ↔
  (s ≤ x < e ∧ (x - s) mod FRAME_SIZE = 0)%Z.
Proof.
  unfold step_by_frames, FRAME_SIZE. change (4096 - 1)%Z with 4095%Z. rewrite list_elem_of_fmap. split.
  - intros (i & -> & Hi%elem_of_seq). pose proof (Z.div_mod (e - s + 4095) 4096 ltac:(lia)).
    pose proof (Z.mod_pos_bound (e - s + 4095) 4096 ltac:(lia)). split; [lia|].
    replace (s + 4096 * Z.of_nat i - s)%Z with (Z.of_nat i * 4096)%Z by lia. apply Z.mod_mul. lia.
  - intros [Hx Hm]. pose proof (Z.div_mod (x - s) 4096 ltac:(lia)).
    assert (0 ≤ (x - s) / 4096)%Z by (apply Z.div_pos; lia).
    exists (Z.to_nat ((x - s) / 4096)). split; [lia|]. apply elem_of_seq.
    assert ((x - s) / 4096 < (e - s + 4095) / 4096)%Z; [|lia].
    apply Z.lt_le_trans with ((x - s) / 4096 + 1)%Z; [lia|].
    apply Z.div_le_lower_bound; lia.
Qed.

Lemma step_by_frames_nodup s e : NoDup (step_by_frames s e).
Proof.
  apply NoDup_fmap_2_strong; [|apply NoDup_seq]. intros i j _ _. unfold FRAME_SIZE. lia.
Qed.

Lemma elem_of_usable_addresses m x : x ∈ usable_addresses m →
  ∃ r, r ∈ m ∧ is_usable r = true ∧ x ∈ step_by_frames (start_addr r) (end_addr r).
Proof.
  unfold usable_addresses. intros (r & Hx & Hr)%list_elem_of_bind.
  apply list_elem_of_filter in Hr as [Hu Hr]. eauto.
Qed.

Lemma usable_addresses_nodup m : map_ok m → NoDup (usable_addresses m).
Proof.
  unfold map_ok, usable_addresses. generalize (filter (λ r, is_usable r = true) m).
  intros l [Hok Hap]. induction Hap as [|r l Hr Hap IH]; [constructor|].
  apply Forall_cons in Hok as [Hrok Hok]. simpl. apply NoDup_app. split_and!.
  - apply step_by_frames_nodup.
  - intros x Hx Hx'. apply list_elem_of_bind in Hx' as (r' & Hx' & Hr').
    apply elem_of_step_by_frames in Hx, Hx'. rewrite Forall_forall in Hr.
    destruct (Hr _ Hr'); lia.
  - by apply IH.
Qed.

(** A usable address is the start of a whole frame of a usable region. *)
Lemma usable_address_ok m x : map_ok m → x ∈ usable_addresses m →
  (0 ≤ x < 2 ^ 52 ∧ x mod FRAME_SIZE = 0)%Z ∧
  ∃ r, r ∈ m ∧ is_usable r = true ∧ (start_addr r ≤ x ∧ x + FRAME_SIZE ≤ end_addr r)%Z.
Proof.
  intros [Hok _] (r & Hr & Hu & [Hx Hm]%elem_of_step_by_frames)%elem_of_usable_addresses.
  rewrite Forall_forall in Hok. destruct (Hok r) as (Hs0 & Hs & He & Hem); [by apply list_elem_of_filter|].
  unfold FRAME_SIZE in *.
  apply Z.mod_divide in Hm as [q Hq]; [|lia]. apply Z.mod_divide in Hs as [q1 Hq1]; [|lia].
  apply Z.mod_divide in Hem as [q2 Hq2]; [|lia].
  assert (Hx4 : x = ((q + q1) * 4096)%Z) by lia. split.
  - split; [lia|]. rewrite Hx4. apply Z.mod_mul. lia.
  - exists r. split_and!; [done..|lia|]. nia.
Qed.

Lemma allocate_frame_inv {E} a o a' : allocate_frame (E:=E) a = (Ok o, a') → (0 ≤ next a)%Z →
  memory_map a' = memory_map a ∧ next a' = (next a + 1)%Z ∧
  o = frame_at (memory_map a) (Z.to_nat (next a)).
Proof.
  unfold allocate_frame, frame_at. destruct (usable_frames_nth _ _) as [f|[]|] eqn:Hn; [|done].
  case_decide; [|done]. intros [= <- <-] _. split_and!; [done..|].
  revert Hn. generalize (usable_addresses (memory_map a)), (Z.to_nat (next a)). clear.
  intros l. induction l as [|x l IH]; intros n; simpl; [by intros [= <-]|].
  destruct (containing_address x) as [g|] eqn:Hg; [|done].
  destruct n as [|n]; simpl; [intros [= <-]; by rewrite Hg|apply IH].
Qed.

Lemma allocate_frames_inv {E} n : ∀ a fs a', allocate_frames (E:=E) n a = (Ok fs, a') → (0 ≤ next a)%Z →
  memory_map a' = memory_map a ∧ next a' = (next a + Z.of_nat n)%Z ∧
  fs = frame_at (memory_map a) <$> seq (Z.to_nat (next a)) n.
Proof.
  induction n as [|n IH]; intros a fs a' Hrun Hn0; simpl in Hrun.
  { injection Hrun as <- <-. split_and!; [done|lia|done]. }
  apply mbind_Ok_inv in Hrun as (f & a1 & (Hm & Hn & ->)%allocate_frame_inv & Hrun); [|done].
  apply mbind_Ok_inv in Hrun as (gs & a2 & Hgs & Hrun). injection Hrun as <- <-.
  apply IH in Hgs as (Hm2 & Hn2 & ->); [|lia]. rewrite Hm2, Hm, Hn2, Hn. split_and!; [done|lia|].
  simpl. f_equal. do 2 f_equal. lia.
Qed.

Section laws.
Context `{!PhysFramesLaws}.

Lemma frame_at_start m i f : map_ok m → frame_at m i = Some f →
  usable_addresses m !! i = Some (frame_start f).
Proof.
  unfold frame_at. intros Hok Hf. destruct (usable_addresses m !! i) as [x|] eqn:Hx; [|done].
  destruct (usable_address_ok m x Hok) as [[Hb Ha] _]; [by eapply list_elem_of_lookup_2|].
  destruct (containing_address_spec x Hb) as (g & Hg & Hs). simpl in Hf.
  rewrite Hg in Hf. injection Hf as <-. rewrite Hs, Ha. f_equal. lia.
Qed.

Lemma frame_at_inj m i j f : map_ok m → frame_at m i = Some f → frame_at m j = Some f → i = j.
Proof.
  intros Hok Hi%frame_at_start Hj%frame_at_start; [|done..].
  eapply NoDup_lookup; [by apply usable_addresses_nodup|done..].
Qed.

Lemma frame_at_usable m i f : map_ok m → frame_at m i = Some f →
  ∃ r, r ∈ m ∧ is_usable r = true ∧
    (start_addr r ≤ frame_start f ∧ frame_start f + FRAME_SIZE ≤ end_addr r)%Z.
Proof.
  intros Hok Hi%frame_at_start; [|done]. apply usable_address_ok; [done|].
  by eapply list_elem_of_lookup_2.
Qed.

Lemma usable_frames_nth_ok m l n : map_ok m → l ⊆ usable_addresses m →
  usable_frames_nth l n = Ok (x ← l !! n; containing_address x).
Proof.
  intros Hok. revert n. induction l as [|x l IH]; intros n Hl; [done|]. simpl.
  destruct (usable_address_ok m x Hok) as [[Hb _] _]; [apply Hl; by left|].
  destruct (containing_address_spec x Hb) as (f & Hf & _). rewrite Hf.
  destruct n as [|n]; simpl; [by rewrite Hf|]. apply IH. intros y Hy. apply Hl. by right.
Qed.

Lemma allocate_frame_run {E} a : map_ok (memory_map a) → (0 ≤ next a)%Z → (next a + 1 ≤ u64_max)%Z →
  allocate_frame (E:=E) a = (Ok (frame_at (memory_map a) (Z.to_nat (next a))),
    {| memory_map := memory_map a; next := next a + 1 |}).
Proof.
  intros Hok Hn0 Hn. unfold allocate_frame. rewrite (usable_frames_nth_ok (memory_map a)) by done.
  by rewrite decide_True.
Qed.

Lemma allocate_frames_run {E} n : ∀ a, map_ok (memory_map a) → (0 ≤ next a)%Z →
  (next a + Z.of_nat n ≤ u64_max)%Z →
  allocate_frames (E:=E) n a = (Ok (frame_at (memory_map a) <$> seq (Z.to_nat (next a)) n),
    {| memory_map := memory_map a; next := next a + Z.of_nat n |}).
Proof.
  induction n as [|n IH]; intros a Hok Hn0 Hn; simpl.
  { destruct a as [m x]. unfold mret, M_ret. simpl. do 2 f_equal. lia. }
  rewrite (mbind_run _ _ _ _ _ (allocate_frame_run a Hok Hn0 ltac:(lia))).
  set (a1 := {| memory_map := _; next := (_ + 1)%Z |}).
  rewrite (mbind_run _ _ _ _ _ (IH a1 Hok ltac:(unfold a1; simpl; lia) ltac:(unfold a1; simpl; lia))).
  unfold mret, M_ret, a1. simpl. do 2 f_equal; [|lia].
  f_equal. change (list_fmap _ _ ?f) with (fmap (M:=list) f). do 2 f_equal. lia.
Qed.

(** the allocator hands out the usable frames in order and nothing else: [n]
    calls give the first [n] frames of the usable memory, then [None] for ever;
    no call panics while the counter fits [usize]. *)
Theorem allocate_frames_total n m : map_ok m → (Z.of_nat n ≤ u64_max)%Z →
  ∃ a', allocate_frames (E:=Empty_set) n (init m) = (Ok (frame_at m <$> seq 0 n), a') ∧
    ∀ i, is_Some (frame_at m i) ↔ i < length (usable_addresses m).
Proof.
  intros Hok Hn. eexists. split; [apply (allocate_frames_run n (init m)); simpl; [done|lia..]|].
  intros i. unfold frame_at. rewrite <- lookup_lt_is_Some. split.
  - intros [f Hf]. destruct (usable_addresses m !! i); [eauto|done].
  - intros [x Hx]. rewrite Hx. simpl. destruct (usable_address_ok m x Hok) as [[Hb _] _].
    + by eapply list_elem_of_lookup_2.
    + destruct (containing_address_spec x Hb) as (f & Hf & _). eauto.
Qed.

(** C36: a frame that is handed out lies in a usable region of the memory map and
    is never handed out again. *)
Theorem allocated_frames_distinct n m fs a' i f : map_ok m →
  allocate_frames (E:=Empty_set) n (init m) = (Ok fs, a') → fs !! i = Some (Some f) →
  (∃ r, r ∈ m ∧ is_usable r = true ∧
    start_addr r ≤ frame_start f ∧ frame_start f + FRAME_SIZE ≤ end_addr r)%Z ∧
  ∀ j, fs !! j = Some (Some f) → j = i.
Proof.
  intros Hok Hrun Hi. apply allocate_frames_inv in Hrun as (_ & _ & ->); [|simpl; lia].
  assert (Hat : ∀ j, (frame_at m <$> seq 0 n) !! j = Some (Some f) → frame_at m j = Some f).
  { intros j Hj. apply list_lookup_fmap_Some in Hj as (x & Hx & Hj).
    apply lookup_seq in Hj as [-> _]. done. }
  split; [eapply frame_at_usable; [done|by apply Hat]|].
  intros j Hj. eapply frame_at_inj; [done|by apply Hat..].
Qed.
End laws.
End frames.

(** ** What [init_heap] maps *)

Section heap_props.
Context `{!MemoryMap, !PhysFrames, !Paging, !Mapper}.
Context `{!PhysFramesLaws, !PagingLaws, !MapperLaws}.
Implicit Types s : state.

Definition HEAP_FLAGS : Z := Z.lor PRESENT WRITABLE.
Definition in_heap (p : Page) : Prop := (HEAP_START ≤ page_start p < HEAP_START + HEAP_SIZE)%Z.

(** After mapping [pages], page number [j] of them is mapped to the frame number
    [ids !! j], between the old and the new counter of the allocator. *)
Record mapped (pages : list Page) s s' (ids : list nat) : Prop := {
  mp_memory : memory_map (st_frames s') = memory_map (st_frames s);
  mp_next : (next (st_frames s) ≤ next (st_frames s'))%Z;
  mp_heap : st_heap s' = st_heap s;
  mp_nodup : NoDup ids;
  mp_range : Forall (λ i, next (st_frames s) ≤ Z.of_nat i < next (st_frames s'))%Z ids;
  mp_pages : Forall2 (λ p i, ∃ f, frame_at (memory_map (st_frames s)) i = Some f ∧
    translate (st_mapper s') p = Some (f, HEAP_FLAGS)) pages ids;
  mp_other : ∀ q, q ∉ pages → translate (st_mapper s') q = translate (st_mapper s) q;
}.

Lemma on_frames_inv {A} (m : M (BootInfoFrameAllocator _) MapToError A) s r s' :
  on_frames m s = (r, s') → m (st_frames s) = (r, st_frames s') ∧
  st_mapper s' = st_mapper s ∧ st_heap s' = st_heap s.
Proof. unfold on_frames. destruct (m (st_frames s)) as [r0 a]. by intros [= <- <-]. Qed.
Lemma on_mapper_inv {A} (m : M (mapper * BootInfoFrameAllocator _) MapToError A) s r s' :
  on_mapper m s = (r, s') → m (st_mapper s, st_frames s) = (r, (st_mapper s', st_frames s')) ∧
  st_heap s' = st_heap s.
Proof. unfold on_mapper. destruct (m _) as [r0 [mp a]]. by intros [= <- <-]. Qed.

Lemma map_pages_ok pages : ∀ s s', NoDup pages → (0 ≤ next (st_frames s))%Z →
  map_pages pages s = (Ok tt, s') → ∃ ids, mapped pages s s' ids.
Proof.
  induction pages as [|p pages IH]; intros s s' Hnd Hn0 Hrun.
  { injection Hrun as <-. exists []. split; try done; constructor. }
  apply NoDup_cons in Hnd as [Hp Hnd]. simpl in Hrun.
  apply mbind_Ok_inv in Hrun as (o & s1 & (Hal & Hm1 & Hh1)%on_frames_inv & Hrun).
  apply allocate_frame_inv in Hal as (Hmm1 & Hn1 & Ho); [|done].
  apply mbind_Ok_inv in Hrun as (f & s1' & Hok & Hrun).
  destruct o as [f'|]; [|done]. injection Hok as -> <-.
  apply mbind_Ok_inv in Hrun as ([] & s2 & (Hmap & Hh2)%on_mapper_inv & Hrun).
  destruct (map_to_ok _ _ _ _ _ _ _ Hmap) as [Htr Hoth].
  destruct (map_to_alloc _ _ _ _ _ _ _ _ Hmap) as (n & fs & Hal).
  apply allocate_frames_inv in Hal as (Hmm2 & Hn2 & _); [|lia].
  destruct (IH s2 s' Hnd ltac:(lia) Hrun) as (ids & [I1 I2 I3 I4 I5 I6 I7]).
  exists (Z.to_nat (next (st_frames s)) :: ids).
  assert (Hmm : memory_map (st_frames s2) = memory_map (st_frames s)) by congruence.
  split; [congruence|lia|congruence|..].
  - constructor; [|done]. intros Hin. rewrite Forall_forall in I5. specialize (I5 _ Hin). lia.
  - constructor; [lia|]. eapply Forall_impl; [exact I5|]. intros i Hi. simpl in *. lia.
  - constructor; [|by rewrite <- Hmm]. exists f. split; [done|]. by rewrite I7, Htr.
  - intros q [Hqp Hq]%not_elem_of_cons. rewrite I7 by done. rewrite Hoth by done. by rewrite Hm1.
Qed.

(** The pages [init_heap] loops over. *)
Lemma heap_pages : ∃ heap_start e heap_end,
  VirtAddr_new HEAP_START = Some heap_start ∧ VirtAddr_add heap_start HEAP_SIZE = Some e ∧
  VirtAddr_sub e 1 = Some heap_end ∧
  let pages := page_range_inclusive (page_containing heap_start) (page_containing heap_end) in
  NoDup pages ∧ length pages = 32 ∧ ∀ p, p ∈ pages ↔ in_heap p.
Proof.
  destruct (VirtAddr_new_spec HEAP_START ltac:(done)) as (hs & Hhs & Ehs).
  destruct (VirtAddr_add_spec hs HEAP_SIZE ltac:(done)) as (e & He & Ee);
    [by rewrite Ehs..|]. rewrite Ehs in Ee.
  destruct (VirtAddr_sub_spec e 1 ltac:(by rewrite Ee)) as (he & Hhe & Ehe); [by rewrite Ee|]. rewrite Ee in Ehe.
  exists hs, e, he. split_and!; [done..|]. intros pages.
  assert (Hp : page_start <$> pages = (λ i, (HEAP_START + FRAME_SIZE * Z.of_nat i)%Z) <$> seq 0 32).
  { unfold pages. rewrite page_range_inclusive_spec, !page_containing_spec, Ehs, Ehe. reflexivity. }
  split_and!.
  - apply (NoDup_fmap_1 page_start). rewrite Hp. apply NoDup_fmap_2_strong; [|apply NoDup_seq].
    unfold FRAME_SIZE. lia.
  - rewrite <- (length_fmap page_start), Hp. reflexivity.
  - intros p. unfold in_heap. split.
    + intros Hin. assert (Hs : page_start p ∈ page_start <$> pages) by (by apply list_elem_of_fmap_2).
      rewrite Hp in Hs. apply list_elem_of_fmap in Hs as (i & -> & Hi%elem_of_seq).
      unfold HEAP_SIZE, FRAME_SIZE. lia.
    + intros Hr. pose proof (page_start_aligned p) as Ha.
      assert (Hs : page_start p ∈ page_start <$> pages).
      { rewrite Hp. unfold FRAME_SIZE, HEAP_SIZE, HEAP_START in *. apply Z.mod_divide in Ha as [q Hq]; [|lia].
        apply list_elem_of_fmap. exists (Z.to_nat (q - 18325193792)). rewrite elem_of_seq. lia. }
      apply list_elem_of_fmap in Hs as (p' & Heq & Hin). by apply page_start_inj in Heq as ->.
Qed.

Lemma init_heap_run s : ∃ pages, NoDup pages ∧ length pages = 32 ∧ (∀ p, p ∈ pages ↔ in_heap p) ∧
  init_heap s = (_ ← map_pages pages; modify (λ s, {| st_mapper := st_mapper s;
    st_frames := st_frames s; st_heap := Some (HEAP_START, HEAP_SIZE) |})) s.
Proof.
  destruct heap_pages as (hs & e & he & Hhs & He & Hhe & Hnd & Hlen & Hin).
  eexists. split; [exact Hnd|]. split; [exact Hlen|]. split; [exact Hin|].
  unfold init_heap. rewrite Hhs. simpl. rewrite mbind_ret, He. simpl. rewrite mbind_ret, Hhe. simpl.
  by rewrite mbind_ret.
Qed.

(** C14: when [init_heap] succeeds, every page of the heap is mapped, present and
    writable, to a frame of usable memory, no two pages share a frame, no page
    outside the heap changed, the global allocator got exactly that region, and
    no later allocation returns a frame of the heap. *)
Theorem init_heap_maps s s' : map_ok (memory_map (st_frames s)) → (0 ≤ next (st_frames s))%Z →
  init_heap s = (Ok tt, s') →
  (∀ p, in_heap p → ∃ f r, translate (st_mapper s') p = Some (f, 3%Z) ∧
    r ∈ memory_map (st_frames s) ∧ is_usable r = true ∧
    (start_addr r ≤ frame_start f ∧ frame_start f + FRAME_SIZE ≤ end_addr r)%Z) ∧
  (∀ p q f fl fl', in_heap p → in_heap q → translate (st_mapper s') p = Some (f, fl) →
    translate (st_mapper s') q = Some (f, fl') → p = q) ∧
  (∀ p, ¬ in_heap p → translate (st_mapper s') p = translate (st_mapper s) p) ∧
  st_heap s' = Some (HEAP_START, HEAP_SIZE) ∧
  (∀ n fs a' p f fl, allocate_frames (E:=Empty_set) n (st_frames s') = (Ok fs, a') →
    in_heap p → translate (st_mapper s') p = Some (f, fl) → Some f ∉ fs).
Proof.
  intros Hok Hn0 Hrun. destruct (init_heap_run s) as (pages & Hnd & _ & Hin & Hrw). rewrite Hrw in Hrun.
  apply mbind_Ok_inv in Hrun as ([] & s1 & Hmp & Hrun). injection Hrun as <-. simpl.
  destruct (map_pages_ok pages s s1 Hnd Hn0 Hmp) as (ids & [Hmm Hnx Hhp Hid Hrg Hpg Hot]).
  assert (Hat : ∀ p, in_heap p → ∃ j i f, pages !! j = Some p ∧ ids !! j = Some i ∧
    frame_at (memory_map (st_frames s)) i = Some f ∧ translate (st_mapper s1) p = Some (f, HEAP_FLAGS)).
  { intros p [j Hj]%Hin%list_elem_of_lookup_1.
    destruct (Forall2_lookup_l _ _ _ _ _ Hpg Hj) as (i & Hi & f & Hf & Ht). eauto 8. }
  split_and!.
  - intros p (j & i & f & _ & _ & Hf & Ht)%Hat. exists f.
    destruct (frame_at_usable _ _ _ Hok Hf) as (r & Hr). by exists r.
  - intros p q f fl fl' (j & i & g & Hj & Hi & Hf & Ht)%Hat (j' & i' & g' & Hj' & Hi' & Hf' & Ht')%Hat Hp Hq.
    assert (g = f) by congruence. assert (g' = f) by congruence. subst g g'.
    pose proof (frame_at_inj _ _ _ _ Hok Hf Hf') as <-.
    pose proof (NoDup_lookup _ _ _ _ Hid Hi Hi') as <-. congruence.
  - intros p Hp. apply Hot. by rewrite Hin.
  - done.
  - intros n fs a' p f fl Hal (j & i & g & Hj & Hi & Hf & Ht)%Hat Hp Hfs.
    assert (g = f) by congruence. subst g.
    apply allocate_frames_inv in Hal as (_ & _ & ->); [|lia]. rewrite Hmm in Hfs.
    apply list_elem_of_fmap in Hfs as (i' & Hf' & Hi'%elem_of_seq).
    pose proof (frame_at_inj _ _ _ _ Hok Hf (eq_sym Hf')) as <-.
    rewrite Forall_forall in Hrg. specialize (Hrg i (list_elem_of_lookup_2 _ _ _ Hi)). lia.
Qed.

(** C37: with no usable frame left, [init_heap] reports [FrameAllocationFailed],
    maps nothing and does not hand the region to the global allocator. *)
Theorem init_heap_out_of_memory s : map_ok (memory_map (st_frames s)) →
  (Z.of_nat (length (usable_addresses (memory_map (st_frames s)))) ≤ next (st_frames s))%Z →
  (next (st_frames s) < u64_max)%Z →
  ∃ s', init_heap s = (Err FrameAllocationFailed, s') ∧
    st_mapper s' = st_mapper s ∧ st_heap s' = st_heap s.
Proof.
  intros Hok Hlen Hn. destruct (init_heap_run s) as (pages & _ & Hl & _ & ->).
  destruct pages as [|p pages]; [done|]. eexists. split; [|split].
  - unfold mbind at 1, M_bind at 1. simpl. unfold on_frames.
    unfold mbind at 1, M_bind at 1. rewrite allocate_frame_run by (done || lia).
    assert (frame_at (memory_map (st_frames s)) (Z.to_nat (next (st_frames s))) = None) as ->.
    { unfold frame_at. rewrite lookup_ge_None_2 by lia. done. }
    reflexivity.
  - done.
  - done.
Qed.
End heap_props.

(** ** A machine

    Regions as triples, frames and pages as numbers, a mapper that is a finite
    map and takes one frame for a page table when its map is empty. *)

Module Machine.
#[export] Instance map : MemoryMap := {
  MemoryRegion := bool * Z * Z;
  is_usable := λ r, r.1.1;
  start_addr := λ r, r.1.2;
  end_addr := λ r, r.2;
}.
#[export] Instance frames : PhysFrames := {
  PhysFrame := Z;
  containing_address := λ a, if decide (0 ≤ a < 2 ^ 52)%Z then Some (a / 4096)%Z else None;
  frame_start := λ f, (f * 4096)%Z;
}.
Definition canonical (a : Z) : option Z := if decide (0 ≤ a < 2 ^ 47)%Z then Some a else None.
#[export] Instance paging : Paging := {
  VirtAddr := Z;
  VirtAddr_new := canonical;
  VirtAddr_add := λ v n, canonical (v + n);
  VirtAddr_sub := λ v n, canonical (v - n);
  as_u64 := λ v, v;
  Page := Z;
  page_containing := λ v, (v / 4096)%Z;
  page_range_inclusive := λ p q, (λ i, (p + Z.of_nat i)%Z) <$> seq 0 (Z.to_nat (q - p + 1));
  page_start := λ p, (p * 4096)%Z;
}.
Definition insert_page (p f fl : Z) (m : gmap Z (Z * Z)) (a : BootInfoFrameAllocator _)
    : outcome MapToError unit * (gmap Z (Z * Z) * BootInfoFrameAllocator _) :=
  match m !! p with
  | Some (g, _) => (Err (PageAlreadyMapped g), (m, a))
  | None => (Ok tt, (<[p := (f, fl)]> m, a))
  end.
#[export] Instance page_mapper : Mapper := {
  mapper := gmap Z (Z * Z);
  map_to := λ p f fl s,
    if decide (s.1 = ∅) then
      match allocate_frame s.2 with
      | (Ok (Some _), a) => insert_page p f fl s.1 a
      | (Ok None, a) => (Err FrameAllocationFailed, (s.1, a))
      | (Err e, a) => (Err e, (s.1, a))
      | (Panic _, a) => (Err FrameAllocationFailed, s)
      end
    else insert_page p f fl s.1 s.2;
  translate := λ m p, m !! p;
}.

#[export] Instance frames_laws : PhysFramesLaws.
Proof.
  split. intros a Ha. exists (a / 4096)%Z. simpl. rewrite decide_True by done. split; [done|].
  unfold FRAME_SIZE. pose proof (Z.div_mod a 4096). lia.
Qed.

Lemma page_floor a : (a / 4096 * 4096 = a - a mod FRAME_SIZE)%Z.
Proof. unfold FRAME_SIZE. pose proof (Z.div_mod a 4096 ltac:(lia)). lia. Qed.

#[export] Instance paging_laws : PagingLaws.
Proof.
  split; simpl; unfold canonical.
  - intros a Ha. rewrite decide_True by done. eauto.
  - intros v n ???. rewrite decide_True by lia. eauto.
  - intros v n ??. rewrite decide_True by lia. eauto.
  - intros v. apply page_floor.
  - intros p q. unfold FRAME_SIZE. rewrite <- list_fmap_compose.
    replace (q * 4096 - p * 4096)%Z with ((q - p) * 4096)%Z by lia. rewrite Z.div_mul by lia.
    apply list_fmap_ext. intros _ i _. simpl. lia.
  - intros p q. lia.
  - intros p. apply Z.mod_mul. done.
Qed.

Lemma insert_page_spec p f fl m a r m' a' : insert_page p f fl m a = (r, (m', a')) →
  a' = a ∧ match r with
  | Ok _ => m' !! p = Some (f, fl) ∧ ∀ q, q ≠ p → m' !! q = m !! q
  | _ => m' = m
  end.
Proof.
  unfold insert_page. destruct (m !! p) as [[g ?]|]; intros [= <- <- <-]; [done|].
  split_and!; [done|by simpl_map|]. intros q Hq. by rewrite lookup_insert_ne.
Qed.

Lemma one_frame o (a a' : BootInfoFrameAllocator _) : allocate_frame (E:=MapToError) a = (Ok o, a') →
  allocate_frames (E:=Empty_set) 1 a = (Ok [o], a').
Proof.
  unfold allocate_frames, mbind, M_bind, mret, M_ret, allocate_frame.
  destruct (usable_frames_nth _ _) as [f|[]|]; [|done]. case_decide; [|done]. by intros [= <- <-].
Qed.

Lemma map_to_cases p f fl m a r m' a' : map_to p f fl (m, a) = (r, (m', a')) →
  (∃ a1, insert_page p f fl m a1 = (r, (m', a')) ∧ ∃ n fs, allocate_frames (E:=Empty_set) n a = (Ok fs, a1)) ∨
  (m' = m ∧ (∃ e, r = Err e) ∧ ∃ n fs, allocate_frames (E:=Empty_set) n a = (Ok fs, a')).
Proof.
  simpl. case_decide.
  - destruct (allocate_frame a) as [[[g|]|e|q] a1] eqn:Ha; intros Hr.
    + left. exists a1. split; [done|]. eexists 1, _. by apply one_frame.
    + right. injection Hr as <- <- <-. split_and!; [done|eauto|]. eexists 1, _. by apply one_frame.
    + exfalso. unfold allocate_frame in Ha. destruct (usable_frames_nth _ _) as [|[]|]; [|done]. by case_decide.
    + right. injection Hr as <- <- <-. split_and!; [done|eauto|]. by exists 0, [].
  - intros Hr. left. exists a. split; [done|]. by exists 0, [].
Qed.

#[export] Instance mapper_laws : MapperLaws.
Proof.
  split.
  - intros p f fl m a m' a' [(a1 & [_ Hr]%insert_page_spec & _)|(_ & [e He] & _)]%map_to_cases; [exact Hr|done].
  - intros p f fl m a e m' a' [(a1 & [_ Hr]%insert_page_spec & _)|(-> & _ & _)]%map_to_cases q; [|done].
    by rewrite Hr.
  - intros p f fl m a r m' a' [(a1 & [-> _]%insert_page_spec & Hal)|(_ & _ & Hal)]%map_to_cases; exact Hal.
Qed.

(** Two usable regions around a reserved one; 40 usable frames in all. *)
Definition regions : list MemoryRegion :=
  [(true, 0x1000, 0x9000); (false, 0x9000, 0x100000); (true, 0x100000, 0x120000)]%Z.
Lemma regions_ok : map_ok regions.
Proof.
  split.
  - by repeat constructor.
  - constructor; [|by repeat constructor]. constructor; [|done]. left. by vm_compute.
Qed.
Definition start : state := {| st_mapper := ∅ : gmap Z (Z * Z); st_frames := init regions; st_heap := None |}.
End Machine.
Import (hints) Machine.

Lemma allocate_frames_total_witness : map_ok Machine.regions ∧
  ∃ a', allocate_frames (E:=Empty_set) 41 (init Machine.regions) =
    (Ok (((λ i, Some (Z.of_nat i)) <$> seq 1 8 ++ seq 256 32) ++ [None]), a').
Proof.
  split; [exact Machine.regions_ok|].
  destruct (allocate_frames_total 41 Machine.regions Machine.regions_ok ltac:(done)) as (a' & Hrun & _).
  exists a'. exact Hrun.
Defined.

Lemma allocated_frames_distinct_witness : ∃ fs a', allocate_frames (E:=Empty_set) 9 (init Machine.regions) = (Ok fs, a') ∧
  fs !! 8 = Some (Some 256%Z) ∧ ∀ j, fs !! j = Some (Some 256%Z) → j = 8.
Proof.
  eexists _, _. split; [vm_compute; reflexivity|]. split; [reflexivity|].
  refine (proj2 (allocated_frames_distinct 9 Machine.regions _ _ 8 _ Machine.regions_ok _ _)).
  - vm_compute. reflexivity.
  - reflexivity.
Defined.

Lemma init_heap_maps_witness : ∃ s', init_heap Machine.start = (Ok tt, s') ∧
  (∃ f, translate (st_mapper s') (HEAP_START / 4096)%Z = Some (f, 3%Z)) ∧
  st_heap s' = Some (HEAP_START, HEAP_SIZE).
Proof.
  assert (Hn0 : (0 ≤ next (st_frames Machine.start))%Z) by done.
  assert (Hin : in_heap (HEAP_START / 4096)%Z) by (by vm_compute).
  assert (Hok : is_ok (fst (init_heap Machine.start)) = true) by (vm_compute; reflexivity).
  destruct (init_heap Machine.start) as [[[]|e|q] s'] eqn:Hrun; [|discriminate Hok..].
  exists s'. split; [reflexivity|].
  destruct (init_heap_maps Machine.start s' Machine.regions_ok Hn0 Hrun) as (Hmap & _ & _ & Hheap & _).
  destruct (Hmap (HEAP_START / 4096)%Z Hin) as (f & _ & Hf & _).
  split; [exists f; exact Hf|exact Hheap].
Defined.

Definition exhausted : state :=
  {| st_mapper := ∅ : gmap Z (Z * Z); st_frames := {| memory_map := Machine.regions; next := 40 |}; st_heap := None |}.
Lemma init_heap_out_of_memory_witness :
  ∃ s', init_heap exhausted = (Err FrameAllocationFailed, s') ∧ st_heap s' = None.
Proof.
  destruct (init_heap_out_of_memory exhausted Machine.regions_ok) as (s' & Hrun & _ & Hh).
  - by vm_compute.
  - by vm_compute.
  - exists s'. split; [exact Hrun|exact Hh].
Defined.
End Memory.
