(* ===== verification/Executor.v ===== *)
(** * [task/mod.rs] and [task/executor.rs]: the cooperative executor

    The executor keeps its tasks in a map, a queue of the ids of tasks to poll,
    and a cache of one waker per task; waking a task pushes its id onto the queue.
    [ArrayQueue] of [crossbeam-queue] is an interface: a bounded first-in
    first-out queue.  The tasks' futures are an interface too ([Future]). *)

From S2P Require Import Prelude.

(** [crossbeam_queue::ArrayQueue]; [push] is [None] when the queue is full. *)
Class ArrayQueue (A : Type) := {
  queue : Type;
  queue_new : nat → queue;
  queue_push : A → queue → option queue;
  queue_pop : queue → option (A * queue);
  queue_is_empty : queue → bool;
  (** What the queue holds, oldest first, and how much it can hold. *)
  contents : queue → list A;
  capacity : queue → nat;
}.
Arguments queue A {_}.
Class ArrayQueueLaws A `{ArrayQueue A} := {
  queue_new_spec n : contents (queue_new n) = [] ∧ capacity (queue_new n) = n;
  queue_push_spec x q : length (contents q) < capacity q →
    ∃ q', queue_push x q = Some q' ∧ contents q' = contents q ++ [x] ∧ capacity q' = capacity q;
  queue_push_full x q : capacity q ≤ length (contents q) → queue_push x q = None;
  queue_pop_nil q : contents q = [] → queue_pop q = None;
  queue_pop_cons q x l : contents q = x :: l →
    ∃ q', queue_pop q = Some (x, q') ∧ contents q' = l ∧ capacity q' = capacity q;
  queue_is_empty_spec q : queue_is_empty q = bool_decide (contents q = []);
  queue_bounded q : length (contents q) ≤ capacity q;
}.

Section queue_lemmas.
Context {A} `{ArrayQueueLaws A}.
Implicit Types q : queue A.

Lemma queue_push_Some x q q' : queue_push x q = Some q' →
  contents q' = contents q ++ [x] ∧ capacity q' = capacity q.
Proof.
  intros Hp. destruct (decide (length (contents q) < capacity q)) as [Hl|Hl].
  - destruct (queue_push_spec x q Hl) as (q0 & Hq0 & Hc). congruence.
  - rewrite queue_push_full in Hp by lia. done.
Qed.
Lemma queue_push_None x q : queue_push x q = None → capacity q ≤ length (contents q).
Proof.
  intros Hp. destruct (decide (length (contents q) < capacity q)) as [Hl|Hl]; [|lia].
  destruct (queue_push_spec x q Hl) as (q0 & Hq0 & Hc). congruence.
Qed.
Lemma queue_pop_Some q x q' : queue_pop q = Some (x, q') →
  contents q = x :: contents q' ∧ capacity q' = capacity q.
Proof.
  intros Hp. destruct (contents q) as [|y l] eqn:Hc; [by rewrite queue_pop_nil in Hp|].
  destruct (queue_pop_cons q y l Hc) as (q0 & Hq0 & Hq0c & Hcap). rewrite Hp in Hq0. by simplify_eq.
Qed.
Lemma queue_pop_None q : queue_pop q = None → contents q = [].
Proof.
  intros Hp. destruct (contents q) as [|y l] eqn:Hc; [done|].
  destruct (queue_pop_cons q y l Hc) as (q0 & Hq0 & _). congruence.
Qed.
End queue_lemmas.

Module Executor.
Section executor.
Context `{!ArrayQueue Z} {F : Type}.

(** [Task]: its id and its future. *)
Record Task := { task_id : Z; task_future : F }.
(** [TaskWaker]; the queue it pushes to is the executor's. *)
Record TaskWaker := { waker_task_id : Z }.

(** [TaskId::new], with the counter [NEXT_ID]. *)
Definition TaskId_new (next_id : Z) : Z * Z := (wrap64 next_id, (next_id + 1)%Z).
Definition Task_new (future : F) (next_id : Z) : Task * Z :=
  let '(i, n) := TaskId_new next_id in ({| task_id := i; task_future := future |}, n).

Record t := {
  tasks : gmap Z F;
  task_queue : queue Z;
  waker_cache : gmap Z TaskWaker;
}.
Definition upd_tasks (f : gmap Z F → gmap Z F) (e : t) : t :=
  {| tasks := f (tasks e); task_queue := task_queue e; waker_cache := waker_cache e |}.
Definition set_queue (q : queue Z) (e : t) : t :=
  {| tasks := tasks e; task_queue := q; waker_cache := waker_cache e |}.
Definition upd_cache (f : gmap Z TaskWaker → gmap Z TaskWaker) (e : t) : t :=
  {| tasks := tasks e; task_queue := task_queue e; waker_cache := f (waker_cache e) |}.

(** Nothing here returns an error. *)
Abbreviation EM := (M t Empty_set).

Definition new : t := {| tasks := ∅; task_queue := queue_new 100; waker_cache := ∅ |}.

(** [task_queue.push(id).expect(..)] *)
Definition push_task (i : Z) : EM unit :=
  q ← gets task_queue;
  q' ← unwrap UnwrapErr (queue_push i q);
  modify (set_queue q').

Definition spawn (task : Task) : EM unit :=
  old ← gets (λ e, tasks e !! task_id task);
  _ ← modify (upd_tasks <[task_id task := task_future task]>);
  _ ← (if decide (is_Some old) then panic ExplicitPanic else mret tt);
  push_task (task_id task).

(** [TaskWaker::create], and [wake_task], which both [Wake] methods call. *)
Definition create (i : Z) : TaskWaker := {| waker_task_id := i |}.
Definition wake_task (w : TaskWaker) : EM unit := push_task (waker_task_id w).

(** One turn of the loop of [run_ready_tasks], up to the poll: the queue is
    empty, the id is of a task that no longer exists, or a task is to be polled
    with its cached waker. *)
Inductive ready :=
  | QueueEmpty
  | NoTask (i : Z)
  | Poll (i : Z) (w : TaskWaker) (f : F).
Definition next_ready : EM ready :=
  q ← gets task_queue;
  match queue_pop q with
  | None => mret QueueEmpty
  | Some (i, q') =>
      _ ← modify (set_queue q');
      o ← gets (λ e, tasks e !! i);
      match o with
      | None => mret (NoTask i)
      | Some f =>
          c ← gets waker_cache;
          let w := default (create i) (c !! i) in
          _ ← modify (upd_cache <[i := w]>);
          mret (Poll i w f)
      end
  end.

(** After the poll: [Poll::Ready] removes the task and its waker, [Poll::Pending]
    keeps the future as the poll left it. *)
Definition poll_ready (i : Z) : EM unit :=
  _ ← modify (upd_tasks (delete i)); modify (upd_cache (delete i)).
Definition poll_pending (i : Z) (f : F) : EM unit := modify (upd_tasks <[i := f]>).
End executor.
Arguments Task F : clear implicits.
Arguments t {_} F.

(** ** [run_ready_tasks] over arbitrary futures

    Polling a future changes it and may wake tasks: its effect on the queue is
    the list of wakers it calls, in order. *)
Class Future (F : Type) := {
  poll : F → TaskWaker → bool * F * list TaskWaker;
}.

Section run.
Context `{!ArrayQueue Z} `{!Future F}.
Abbreviation EM := (M (t F) Empty_set).

Fixpoint wake_all (ws : list TaskWaker) : EM unit :=
  match ws with
  | [] => mret tt
  | w :: ws' => _ ← wake_task w; wake_all ws'
  end.

(** One turn of the loop; [false] when the loop ends. *)
Definition run_one : EM bool :=
  r ← next_ready;
  match r with
  | QueueEmpty => mret false
  | NoTask _ => mret true
  | Poll i w f =>
      let '(done, f', ws) := poll f w in
      _ ← wake_all ws;
      _ ← (if done : bool then poll_ready i else poll_pending i f');
      mret true
  end.

(** [n] turns. *)
Fixpoint run_turns (n : nat) : EM bool :=
  match n with
  | 0 => mret true
  | S n' => b ← run_one; if b : bool then run_turns n' else mret false
  end.
End run.

(** ** What each operation does *)

Section lemmas.
Context `{ArrayQueueLaws Z} {F : Type}.
Implicit Types e : t F.

Lemma push_task_run i e : push_task i e =
  match queue_push i (task_queue e) with
  | Some q => (Ok tt, set_queue q e)
  | None => (Panic UnwrapErr, e)
  end.
Proof.
  unfold push_task. rewrite mbind_gets. destruct (queue_push i (task_queue e)); reflexivity.
Qed.

Lemma push_task_Ok i e e' : push_task i e = (Ok tt, e') →
  ∃ q, e' = set_queue q e ∧ contents q = contents (task_queue e) ++ [i] ∧
    capacity q = capacity (task_queue e).
Proof.
  rewrite push_task_run. destruct (queue_push i (task_queue e)) as [q|] eqn:Hq; [|done].
  intros [= <-]. exists q. split; [done|]. by apply queue_push_Some.
Qed.

Lemma push_task_fits i e : length (contents (task_queue e)) < capacity (task_queue e) →
  ∃ e', push_task i e = (Ok tt, e').
Proof.
  intros Hl. rewrite push_task_run. destruct (queue_push_spec i _ Hl) as (q & -> & _). eauto.
Qed.

(** Every cached waker wakes its own task, which exists. *)
Record exec_ok e : Prop := {
  eo_cache i w : waker_cache e !! i = Some w → w = create i ∧ is_Some (tasks e !! i);
  eo_capacity : capacity (task_queue e) = 100;
}.

Lemma exec_ok_set_queue q e : exec_ok e → capacity q = capacity (task_queue e) → exec_ok (set_queue q e).
Proof. intros [Hc Hcap] Hq. split; [done|]. simpl. congruence. Qed.

Lemma exec_ok_push i e e' : exec_ok e → push_task i e = (Ok tt, e') → exec_ok e'.
Proof. intros Hok (q & -> & _ & Hcap)%push_task_Ok. by apply exec_ok_set_queue. Qed.

Lemma exec_ok_insert i f e : exec_ok e → exec_ok (upd_tasks <[i := f]> e).
Proof.
  intros [Hc Hcap]. split; [|done]. intros j w Hw. destruct (Hc j w Hw) as [-> Hj]. split; [done|].
  simpl. apply lookup_insert_is_Some. destruct (decide (i = j)); auto.
Qed.

Lemma exec_ok_poll_ready i e e' : exec_ok e → poll_ready i e = (Ok tt, e') → exec_ok e'.
Proof.
  intros [Hc Hcap] [= <-]. split; [|done]. intros j w. simpl.
  rewrite lookup_delete_Some. intros [Hne Hw]. destruct (Hc j w Hw) as [-> Hj].
  split; [done|]. by rewrite lookup_delete_ne.
Qed.

(** [next_ready], by what the queue and the task map hold. *)
Lemma next_ready_run e : exec_ok e → next_ready e =
  match queue_pop (task_queue e) with
  | None => (Ok QueueEmpty, e)
  | Some (i, q) =>
      match tasks e !! i with
      | None => (Ok (NoTask i), set_queue q e)
      | Some f => (Ok (Poll i (create i) f), upd_cache <[i := create i]> (set_queue q e))
      end
  end.
Proof.
  intros [Hc _]. unfold next_ready. rewrite mbind_gets.
  destruct (queue_pop (task_queue e)) as [[i q]|]; [|done].
  rewrite mbind_modify, mbind_gets. simpl. destruct (tasks e !! i) as [f|]; [|done].
  rewrite mbind_gets. simpl.
  assert (default (create i) (waker_cache e !! i) = create i) as ->; [|done].
  destruct (waker_cache e !! i) as [w|] eqn:Hw; [|done]. by destruct (Hc i w Hw) as [-> _].
Qed.

Lemma exec_ok_next_ready e r e' : exec_ok e → next_ready e = (Ok r, e') → exec_ok e'.
Proof.
  intros Hok. rewrite next_ready_run by done.
  destruct (queue_pop (task_queue e)) as [[i q]|] eqn:Hq; [|by intros [= _ <-]].
  apply queue_pop_Some in Hq as [_ Hcap]. pose proof (exec_ok_set_queue q e Hok Hcap) as [Hc Hcp].
  destruct (tasks e !! i) as [f|] eqn:Hi; intros [= _ <-]; [|done]. split; [|done].
  intros j w. simpl. rewrite lookup_insert_Some. intros [[-> <-]|[_ Hw]]; [|by apply Hc].
  split; [done|]. by rewrite Hi.
Qed.
End lemmas.

(** ** Runs *)

Section runs.
Context `{ArrayQueueLaws Z} `{!Future F}.
Implicit Types e : t F.

Lemma wake_all_Ok ws : ∀ e e', wake_all ws e = (Ok tt, e') →
  ∃ q, e' = set_queue q e ∧ contents q = contents (task_queue e) ++ (waker_task_id <$> ws) ∧
    capacity q = capacity (task_queue e).
Proof.
  induction ws as [|w ws IH]; intros e e' Hrun.
  { injection Hrun as <-. exists (task_queue e). destruct e. simpl. by rewrite app_nil_r. }
  simpl in Hrun. apply mbind_Ok_inv in Hrun as ([] & e1 & (q & -> & Hq & Hcap)%push_task_Ok & Hrun).
  destruct (IH _ _ Hrun) as (q' & -> & Hq' & Hcap'). exists q'. simpl in *.
  split_and!; [done| |congruence]. by rewrite Hq', Hq, <- app_assoc.
Qed.

Lemma exec_ok_run_one e b e' : exec_ok e → run_one e = (Ok b, e') → exec_ok e'.
Proof.
  intros Hok Hrun. apply mbind_Ok_inv in Hrun as (r & e1 & Hn & Hrun).
  apply exec_ok_next_ready in Hn; [|done]. destruct r as [|i|i w f]; [by injection Hrun as _ <-..|].
  destruct (poll f w) as [[dn f'] ws].
  apply mbind_Ok_inv in Hrun as ([] & e2 & (q & -> & _ & Hcap)%wake_all_Ok & Hrun).
  pose proof (exec_ok_set_queue q e1 Hn Hcap) as Hok2.
  apply mbind_Ok_inv in Hrun as ([] & e3 & Hfin & Hrun). injection Hrun as _ <-. destruct dn.
  - by eapply exec_ok_poll_ready.
  - injection Hfin as <-. by apply exec_ok_insert.
Qed.

(** The executor and the id counter, as the kernel can drive them. *)
Inductive reach : t F → Z → Prop :=
  | reach_new : reach new 0
  | reach_spawn e n f e' : reach e n →
      spawn (Task_new f n).1 e = (Ok tt, e') → reach e' (Task_new f n).2
  | reach_run e n b e' : reach e n → run_one e = (Ok b, e') → reach e' n
  | reach_wake e n i e' : reach e n → is_Some (waker_cache e !! i) →
      wake_task (create i) e = (Ok tt, e') → reach e' n.

(** Task ids are numbers the counter has passed. *)
Definition ids_below e (n : Z) : Prop := ∀ i, is_Some (tasks e !! i) → (0 ≤ i < n)%Z.

Lemma next_ready_tasks e r e' : next_ready e = (Ok r, e') → tasks e' = tasks e ∧
  ∀ i w f, r = Poll i w f → tasks e !! i = Some f.
Proof.
  unfold next_ready. rewrite mbind_gets. destruct (queue_pop (task_queue e)) as [[i q]|]; [|by intros [= <- <-]].
  rewrite mbind_modify, mbind_gets. simpl. destruct (tasks e !! i) as [f|] eqn:Hf.
  - rewrite mbind_gets. intros [= <- <-]. split; [done|]. intros j w g [= <- <- <-]. done.
  - by intros [= <- <-].
Qed.

Lemma run_one_tasks e b e' i : run_one e = (Ok b, e') → is_Some (tasks e' !! i) → is_Some (tasks e !! i).
Proof.
  intros Hrun. apply mbind_Ok_inv in Hrun as (r & e1 & (Ht & Hr)%next_ready_tasks & Hrun). rewrite <- Ht.
  destruct r as [|j|j w f]; [by injection Hrun as _ <-..|].
  specialize (Hr j w f eq_refl). rewrite <- Ht in Hr. destruct (poll f w) as [[dn f'] ws].
  apply mbind_Ok_inv in Hrun as ([] & e2 & (q & -> & _)%wake_all_Ok & Hrun).
  apply mbind_Ok_inv in Hrun as ([] & e3 & Hfin & Hrun). injection Hrun as _ <-.
  destruct dn; injection Hfin as <-; simpl.
  - rewrite lookup_delete_is_Some. tauto.
  - rewrite lookup_insert_is_Some'. intros [<-|]; [by rewrite Hr|done].
Qed.

Lemma spawn_run task e : spawn task e =
  let e1 := upd_tasks <[task_id task := task_future task]> e in
  match tasks e !! task_id task with
  | Some _ => (Panic ExplicitPanic, e1)
  | None => push_task (task_id task) e1
  end.
Proof.
  unfold spawn. rewrite mbind_gets, mbind_modify. case_decide as Hd.
  - destruct Hd as [x ->]. reflexivity.
  - apply eq_None_not_Some in Hd. by rewrite Hd, mbind_ret.
Qed.

Lemma reach_ok e n : reach e n → exec_ok e ∧ (0 ≤ n)%Z ∧ ((n ≤ two64)%Z → ids_below e n).
Proof.
  induction 1 as [|e n f e' _ (Hok & Hn & Hids) Hs|e n b e' _ (Hok & Hn & Hids) Hr|e n i e' _ (Hok & Hn & Hids) _ Hw].
  - split_and!; [|done|].
    + split; [by intros i w; simpl; simpl_map|]. apply queue_new_spec.
    + intros _ i [x Hx]. simpl in Hx. by simpl_map.
  - rewrite spawn_run in Hs. simpl in *. destruct (tasks e !! wrap64 n) eqn:Hold; [done|].
    split_and!; [|lia|].
    + eapply exec_ok_push; [|exact Hs]. by apply exec_ok_insert.
    + intros Hn' i. apply push_task_Ok in Hs as (q & -> & _). simpl.
      rewrite lookup_insert_is_Some'. assert (wrap64 n = n) as -> by (apply Z.mod_small; unfold two64 in *; lia).
      intros [<-|Hi]; [lia|]. specialize (Hids ltac:(lia) i Hi). lia.
  - split_and!; [by eapply exec_ok_run_one|done|]. intros Hn' i Hi.
    eapply Hids; [done|]. by eapply run_one_tasks.
  - split_and!; [by eapply exec_ok_push|done|]. intros Hn' j.
    apply push_task_Ok in Hw as (q & -> & _). by apply Hids.
Qed.

(** One turn with [i0] at the front of the queue: everything else in the queue
    moves up, at most one id is added, no task but [i0] changes. *)
Lemma run_one_front e i0 l : exec_ok e → (∀ f w, length (poll f w).2 ≤ 1) →
  contents (task_queue e) = i0 :: l →
  ∃ e' ws, run_one e = (Ok true, e') ∧ exec_ok e' ∧ contents (task_queue e') = l ++ ws ∧
    ∀ i, i ≠ i0 → tasks e' !! i = tasks e !! i.
Proof.
  intros Hok Hone Hc. destruct (queue_pop_cons _ _ _ Hc) as (q & Hq & Hql & Hqc).
  pose proof (queue_bounded (task_queue e)) as Hb. rewrite Hc in Hb. simpl in Hb.
  assert (Hrun : ∃ e' ws, run_one e = (Ok true, e') ∧ contents (task_queue e') = l ++ ws ∧
    ∀ i, i ≠ i0 → tasks e' !! i = tasks e !! i).
  { pose proof (next_ready_run e Hok) as Hn. rewrite Hq in Hn.
    destruct (tasks e !! i0) as [f|] eqn:Hf; unfold run_one; rewrite (mbind_run _ _ _ _ _ Hn).
    2:{ exists (set_queue q e), []. by rewrite app_nil_r. }
    specialize (Hone f (create i0)). destruct (poll f (create i0)) as [[dn f'] ws]. simpl in Hone.
    set (e1 := upd_cache _ _).
    assert (Hw : ∃ q', wake_all ws e1 = (Ok tt, set_queue q' e1) ∧ contents q' = l ++ (waker_task_id <$> ws)).
    { destruct ws as [|w [|]]; simpl in Hone; [|..|lia].
      - exists q. simpl. by rewrite app_nil_r.
      - destruct (push_task_fits (F:=F) (waker_task_id w) e1) as [e2 He2].
        { unfold e1. simpl. rewrite Hql, Hqc. lia. }
        pose proof He2 as (q' & -> & Hq' & _)%push_task_Ok. exists q'. split.
        + simpl. unfold wake_task. by rewrite (mbind_run _ _ _ _ _ He2).
        + rewrite Hq'. unfold e1. simpl. by rewrite Hql. }
    destruct Hw as (q' & Hw & Hq'). rewrite (mbind_run _ _ _ _ _ Hw).
    destruct dn; eexists _, _; (split; [reflexivity|split; [exact Hq'|]]); intros i Hi; simpl.
    - by rewrite lookup_delete_ne.
    - by rewrite lookup_insert_ne. }
  destruct Hrun as (e' & ws & Hrun & Hcont & Ht). exists e', ws. split_and!; [done| |done..].
  by eapply exec_ok_run_one.
Qed.

Lemma run_turns_prefix l1 : ∀ e l2 i f, exec_ok e → (∀ f w, length (poll f w).2 ≤ 1) →
  contents (task_queue e) = l1 ++ i :: l2 → i ∉ l1 → tasks e !! i = Some f →
  ∃ e' l', run_turns (length l1) e = (Ok true, e') ∧ exec_ok e' ∧
    contents (task_queue e') = i :: l' ∧ tasks e' !! i = Some f.
Proof.
  induction l1 as [|j l1 IH]; intros e l2 i f Hok Hone Hc Hni Hf; [by exists e, l2|].
  apply not_elem_of_cons in Hni as [Hij Hni].
  destruct (run_one_front e j (l1 ++ i :: l2) Hok Hone Hc) as (e1 & ws & Hrun & Hok1 & Hc1 & Ht1).
  rewrite <- app_assoc in Hc1. simpl in Hc1. rewrite <- Ht1 in Hf by done.
  destruct (IH e1 _ i f Hok1 Hone Hc1 Hni Hf) as (e' & l' & Hr & H').
  exists e', l'. split; [|exact H']. simpl. by rewrite (mbind_run _ _ _ _ _ Hrun).
Qed.

(** ** Properties *)

(** in every state the executor can reach, a cached waker wakes the task it
    is cached for, and that task still exists: finished tasks leave no waker. *)
Theorem executor_wakers e n i w : reach e n → waker_cache e !! i = Some w →
  waker_task_id w = i ∧ is_Some (tasks e !! i).
Proof. intros [[Hc _] _]%reach_ok Hw. by destruct (Hc i w Hw) as [-> ?]. Qed.

(** spawning a new task never finds its id taken (for the first 2^64 tasks):
    the task is added and queued last, or the queue holds 100 ids and the kernel
    panics. *)
Theorem spawn_new_task e n f : reach e n → (n < two64)%Z →
  let '(r, e') := spawn (Task_new f n).1 e in
  tasks e !! n = None ∧ tasks e' = <[n := f]> (tasks e) ∧ waker_cache e' = waker_cache e ∧
  if decide (length (contents (task_queue e)) < 100)
  then r = Ok tt ∧ contents (task_queue e') = contents (task_queue e) ++ [n]
  else r = Panic UnwrapErr ∧ task_queue e' = task_queue e.
Proof.
  intros (Hok & Hn0 & Hids)%reach_ok Hn. rewrite spawn_run. simpl.
  assert (wrap64 n = n) as -> by (apply Z.mod_small; unfold two64 in *; lia).
  assert (Hnone : tasks e !! n = None).
  { apply eq_None_not_Some. intros Hs. specialize (Hids ltac:(lia) n Hs). lia. }
  rewrite Hnone, push_task_run. simpl. pose proof (eo_capacity _ Hok) as Hcap. case_decide as Hl.
  - rewrite <- Hcap in Hl. destruct (queue_push_spec n _ Hl) as (q & -> & Hq & _). done.
  - rewrite queue_push_full by lia. done.
Qed.

(** C35: a queued task is polled: after one turn for each id ahead of it in the
    queue, the next turn polls it, with its own waker and its future untouched;
    no turn panics, if a poll wakes at most one task. *)
Theorem queued_task_polled e l1 l2 i f : exec_ok e → (∀ f w, length (poll f w).2 ≤ 1) →
  contents (task_queue e) = l1 ++ i :: l2 → i ∉ l1 → tasks e !! i = Some f →
  ∃ e' e'', run_turns (length l1) e = (Ok true, e') ∧
    next_ready e' = (Ok (Poll i (create i) f), e'').
Proof.
  intros Hok Hone Hc Hni Hf.
  destruct (run_turns_prefix l1 e l2 i f Hok Hone Hc Hni Hf) as (e' & l' & Hrun & Hok' & Hc' & Hf').
  destruct (queue_pop_cons _ _ _ Hc') as (q & Hq & _).
  eexists _, _. split; [exact Hrun|]. rewrite next_ready_run by done. rewrite Hq, Hf'. reflexivity.
Qed.
End runs.
End Executor.

(** ** A queue

    A list with its capacity. *)
Module ListQueue.
Record t A := { items : list A; room : nat; fits : bool_decide (length items ≤ room) }.
Arguments items {A} _.
Arguments room {A} _.
Lemma push_fits {A} (x : A) l n : length l < n → bool_decide (length (l ++ [x]) ≤ n).
Proof. rewrite bool_decide_spec, length_app. simpl. lia. Qed.
Lemma pop_fits {A} (x : A) l n : bool_decide (length (x :: l) ≤ n) → bool_decide (length l ≤ n).
Proof. rewrite !bool_decide_spec. simpl. lia. Qed.
#[export] Instance list_queue A : ArrayQueue A := {
  queue := t A;
  queue_new := λ n, {| items := []; room := n; fits := bool_decide_pack _ (Nat.le_0_l n) |};
  queue_push := λ x q,
    match decide (length (items q) < room q) with
    | left Hl => Some {| items := items q ++ [x]; room := room q; fits := push_fits x _ _ Hl |}
    | right _ => None
    end;
  queue_pop := λ q,
    match q with
    | {| items := x :: l; room := n; fits := Hf |} =>
        Some (x, {| items := l; room := n; fits := pop_fits x l n Hf |})
    | _ => None
    end;
  queue_is_empty := λ q, match items q with [] => true | _ => false end;
  contents := items;
  capacity := room;
}.
#[export] Instance list_queue_laws A : ArrayQueueLaws A.
Proof.
  split; simpl.
  - done.
  - intros x q Hl. case_decide; [|lia]. eauto.
  - intros x q Hl. case_decide; [lia|done].
  - intros [l n Hf] Hl. simpl in Hl. by subst.
  - intros [l n Hf] x l' Hl. simpl in Hl. subst. eauto.
  - intros [[|x l] n Hf]; done.
  - intros [l n Hf]. simpl. by apply bool_decide_spec in Hf.
Qed.
End ListQueue.
Import (hints) ListQueue.

(** ** Witnesses

    Futures that count down, waking themselves at every poll but the last. *)
Module ExecutorRun.
Import Executor.
#[export] Instance countdown : Future nat := {
  poll n w := match n with 0 => (true, 0, []) | S n' => (false, n', [w]) end;
}.
Lemma countdown_wakes (f : nat) w : length (poll f w).2 ≤ 1.
Proof. destruct f; simpl; lia. Qed.

(** Two tasks, of ids 0 and 1. *)
Definition two : Executor.t nat :=
  (snd (spawn (Task_new 1 1).1 (snd (spawn (Task_new 2 0).1 new)))).
Lemma reach_two : reach two 2.
Proof.
  apply (reach_spawn (snd (spawn (Task_new 2 0).1 new)) 1 1); [|reflexivity].
  apply (reach_spawn new 0 2); [constructor|reflexivity].
Qed.
(** Task 0 has been polled once. *)
Definition polled : Executor.t nat := snd (run_one two).
Lemma reach_polled : reach polled 2.
Proof. apply (reach_run two 2 true); [exact reach_two|reflexivity]. Qed.

Lemma executor_wakers_witness : waker_cache polled !! 0%Z = Some (create 0) ∧
  waker_task_id (create 0) = 0%Z ∧ is_Some (tasks polled !! 0%Z).
Proof.
  split; [reflexivity|]. apply (executor_wakers polled 2 0 (create 0) reach_polled). reflexivity.
Defined.

Lemma spawn_new_task_witness : tasks polled !! 2%Z = None ∧
  (spawn (Task_new 7 2).1 polled).1 = Ok tt.
Proof.
  pose proof (spawn_new_task polled 2 7 reach_polled ltac:(reflexivity)) as Hs.
  destruct (spawn (Task_new 7 2).1 polled) as [r e']. destruct Hs as (Hn & _ & _ & Hr).
  split; [exact Hn|]. destruct Hr as [Hr _]. exact Hr.
Defined.

Lemma queued_task_polled_witness : contents (task_queue polled) = [1; 0]%Z ∧
  ∃ e' e'', run_turns 1 polled = (Ok true, e') ∧ next_ready e' = (Ok (Poll 0 (create 0) 1), e'').
Proof.
  split; [reflexivity|].
  apply (queued_task_polled polled [1%Z] [] 0 1 (proj1 (reach_ok _ _ reach_polled)) countdown_wakes).
  - reflexivity.
  - apply not_elem_of_cons. split; [discriminate|apply not_elem_of_nil].
  - reflexivity.
Defined.
End ExecutorRun.
