(* ===== verification/Keyboard.v ===== *)
(** * [shell/keyboard.rs], [interrupts.rs] and the executor's sleep: keyboard input

    Scancodes travel from the keyboard interrupt to the shell's task through a
    bounded queue; the interrupt handler wakes the task through an [AtomicWaker],
    and the executor halts the processor when no task is ready.  An interrupt can
    come between any two accesses of the main program to shared state while
    interrupts are enabled, so the machine here takes one such access per step:
    the main program's next access, or a whole interrupt handler (handlers run
    with interrupts disabled).

    [AtomicWaker] of [futures-util] is an interface; its operations are atomic. *)

From S2P Require Import Prelude Executor.

Module Keyboard.
Export Executor.

(** [futures_util::task::AtomicWaker]: [register] replaces the stored waker,
    [take] removes it, [wake] is [take] and a call of the waker in one action. *)
Class AtomicWaker (W : Type) := {
  atomic_waker : Type;
  waker_new : atomic_waker;
  waker_register : W → atomic_waker → atomic_waker;
  waker_take : atomic_waker → option W * atomic_waker;
  registered : atomic_waker → option W;
}.
Arguments atomic_waker W {_}.
Class AtomicWakerLaws W `{AtomicWaker W} := {
  waker_new_spec : registered waker_new = None;
  waker_register_spec w a : registered (waker_register w a) = Some w;
  waker_take_spec a : (waker_take a).1 = registered a ∧ registered (waker_take a).2 = None;
}.

(** The shell's future: not polled yet, or suspended in [scancodes.next().await]. *)
Inductive future := Unstarted | AwaitScancode.

(** Where the shell's task is while it is polled:
    - [SInit]: before [ScancodeStream::new];
    - [SFirstPop], [SRegister], [SSecondPop], [STake]: the accesses of [poll_next];
    - [SProcess]: the shell handles a scancode. *)
Inductive stage :=
  | SInit
  | SFirstPop
  | SRegister
  | SSecondPop
  | STake (scancode : Z)
  | SProcess (scancode : Z).

(** Where the main program is:
    - [RunLoop]: before [task_queue.pop()] in [run_ready_tasks];
    - [Polling]: in the poll of a task, with the waker of its context;
    - [Sleep], [SleepCheck]: in [sleep_if_idle], before and after [disable];
    - [Halted]: in [hlt];
    - [Crashed]: after a panic. *)
Inductive pc :=
  | RunLoop
  | Polling (i : Z) (w : TaskWaker) (s : stage)
  | Sleep
  | SleepCheck
  | Halted
  | Crashed (p : PanicKind).

#[export] Instance stage_eq_dec : EqDecision stage.
Proof. solve_decision. Defined.
#[export] Instance TaskWaker_eq_dec : EqDecision TaskWaker.
Proof. solve_decision. Defined.
#[export] Instance pc_eq_dec : EqDecision pc.
Proof. solve_decision. Defined.

Inductive warning := QueueFull | QueueUninitialized.

Section machine.
Context `{!ArrayQueue Z, !AtomicWaker TaskWaker}.

(** [SCANCODE_QUEUE] is [None] until [try_init_once]; [accepted] and [delivered]
    record the scancodes that entered the queue and those the shell handled. *)
Record t := {
  executor : Executor.t future;
  SCANCODE_QUEUE : option (queue Z);
  WAKER : atomic_waker TaskWaker;
  interrupts : bool;
  at_pc : pc;
  warnings : list warning;
  accepted : list Z;
  delivered : list Z;
}.
Definition set_executor (e : Executor.t future) (m : t) : t :=
  {| executor := e; SCANCODE_QUEUE := SCANCODE_QUEUE m; WAKER := WAKER m; interrupts := interrupts m;
     at_pc := at_pc m; warnings := warnings m; accepted := accepted m; delivered := delivered m |}.
Definition set_scancodes (q : queue Z) (m : t) : t :=
  {| executor := executor m; SCANCODE_QUEUE := Some q; WAKER := WAKER m; interrupts := interrupts m;
     at_pc := at_pc m; warnings := warnings m; accepted := accepted m; delivered := delivered m |}.
Definition set_waker (a : atomic_waker TaskWaker) (m : t) : t :=
  {| executor := executor m; SCANCODE_QUEUE := SCANCODE_QUEUE m; WAKER := a; interrupts := interrupts m;
     at_pc := at_pc m; warnings := warnings m; accepted := accepted m; delivered := delivered m |}.
Definition set_interrupts (b : bool) (m : t) : t :=
  {| executor := executor m; SCANCODE_QUEUE := SCANCODE_QUEUE m; WAKER := WAKER m; interrupts := b;
     at_pc := at_pc m; warnings := warnings m; accepted := accepted m; delivered := delivered m |}.
Definition goto (p : pc) (m : t) : t :=
  {| executor := executor m; SCANCODE_QUEUE := SCANCODE_QUEUE m; WAKER := WAKER m; interrupts := interrupts m;
     at_pc := p; warnings := warnings m; accepted := accepted m; delivered := delivered m |}.
Definition warn (x : warning) (m : t) : t :=
  {| executor := executor m; SCANCODE_QUEUE := SCANCODE_QUEUE m; WAKER := WAKER m; interrupts := interrupts m;
     at_pc := at_pc m; warnings := x :: warnings m; accepted := accepted m; delivered := delivered m |}.
Definition accept (sc : Z) (m : t) : t :=
  {| executor := executor m; SCANCODE_QUEUE := SCANCODE_QUEUE m; WAKER := WAKER m; interrupts := interrupts m;
     at_pc := at_pc m; warnings := warnings m; accepted := accepted m ++ [sc]; delivered := delivered m |}.
Definition deliver (sc : Z) (m : t) : t :=
  {| executor := executor m; SCANCODE_QUEUE := SCANCODE_QUEUE m; WAKER := WAKER m; interrupts := interrupts m;
     at_pc := at_pc m; warnings := warnings m; accepted := accepted m; delivered := delivered m ++ [sc] |}.

(** Code of the executor run on the machine; a panic stops it. *)
Definition on_executor {A} (c : M (Executor.t future) Empty_set A) (k : A → t → t) (m : t) : t :=
  match c (executor m) with
  | (Ok a, e) => k a (set_executor e m)
  | (Err x, _) => match x with end
  | (Panic p, e) => goto (Crashed p) (set_executor e m)
  end.

(** ** [shell/keyboard.rs] *)

(** [WAKER.wake()] *)
Definition wake (m : t) : t :=
  let '(o, a) := waker_take (WAKER m) in
  match o with
  | Some w => on_executor (wake_task w) (λ _ m, m) (set_waker a m)
  | None => set_waker a m
  end.

Definition add_scancode (scancode : Z) (m : t) : t :=
  match SCANCODE_QUEUE m with
  | Some q =>
      match queue_push scancode q with
      | None => warn QueueFull m
      | Some q' => wake (accept scancode (set_scancodes q' m))
      end
  | None => warn QueueUninitialized m
  end.

(** [ScancodeStream::new] *)
Definition ScancodeStream_new (k : t → t) (m : t) : t :=
  match SCANCODE_QUEUE m with
  | Some _ => goto (Crashed UnwrapErr) m
  | None => k (set_scancodes (queue_new 100) m)
  end.

(** [SCANCODE_QUEUE.try_get().expect(..)] and [queue.pop()] *)
Definition pop_scancode (k : option Z → t → t) (m : t) : t :=
  match SCANCODE_QUEUE m with
  | None => goto (Crashed UnwrapErr) m
  | Some q =>
      match queue_pop q with
      | Some (sc, q') => k (Some sc) (set_scancodes q' m)
      | None => k None m
      end
  end.

(** ** The main program *)

(** What the shell does with a scancode: wait for the next, return from [run]
    (the command was [exit]), or panic. *)
Inductive key_result := Continue | Exit | Crash (p : PanicKind).

(** One access of the shell's task while it is polled with the waker [w]. *)
Definition poll_step (c : key_result) (i : Z) (w : TaskWaker) (s : stage) (m : t) : t :=
  match s with
  | SInit => ScancodeStream_new (goto (Polling i w SFirstPop)) m
  | SFirstPop =>
      pop_scancode (λ o m, match o with
        | Some sc => goto (Polling i w (SProcess sc)) m
        | None => goto (Polling i w SRegister) m
        end) m
  | SRegister => goto (Polling i w SSecondPop) (set_waker (waker_register w (WAKER m)) m)
  | SSecondPop =>
      pop_scancode (λ o m, match o with
        | Some sc => goto (Polling i w (STake sc)) m
        | None => on_executor (poll_pending i AwaitScancode) (λ _, goto RunLoop) m
        end) m
  | STake sc => goto (Polling i w (SProcess sc)) (set_waker (waker_take (WAKER m)).2 m)
  | SProcess sc =>
      match c with
      | Continue => goto (Polling i w SFirstPop) (deliver sc m)
      | Exit => on_executor (poll_ready i) (λ _, goto RunLoop) (deliver sc m)
      | Crash p => goto (Crashed p) (deliver sc m)
      end
  end.

(** One step of [Executor::run]; [c] is the shell's answer to a scancode. *)
Definition main_step (c : key_result) (m : t) : option t :=
  match at_pc m with
  | RunLoop =>
      Some (on_executor next_ready (λ r, goto match r with
        | QueueEmpty => Sleep
        | NoTask _ => RunLoop
        | Poll i w f => Polling i w (match f with Unstarted => SInit | AwaitScancode => SFirstPop end)
        end) m)
  | Polling i w s => Some (poll_step c i w s m)
  | Sleep => Some (goto SleepCheck (set_interrupts false m))
  | SleepCheck =>
      Some (goto (if queue_is_empty (task_queue (executor m)) then Halted else RunLoop) (set_interrupts true m))
  | Halted | Crashed _ => None
  end.

(** ** Interrupts

    [keyboard_interrupt_handler] and [timer_interrupt_handler]; the latter only
    prints.  An interrupt ends a [hlt]. *)
Definition resume (m : t) : t := match at_pc m with Halted => goto RunLoop m | _ => m end.
Definition keyboard_interrupt_handler (sc : Z) (m : t) : t := add_scancode sc (resume m).
Definition timer_interrupt_handler (m : t) : t := resume m.

Definition running (m : t) : bool := match at_pc m with Crashed _ => false | _ => true end.

Inductive step (m : t) : t → Prop :=
  | step_main c m' : main_step c m = Some m' → step m m'
  | step_keyboard sc : interrupts m = true → running m = true → step m (keyboard_interrupt_handler sc m)
  | step_timer : interrupts m = true → running m = true → step m (timer_interrupt_handler m).

(** The machine around an executor before the shell's task runs; interrupts are
    enabled. *)
Definition machine_at (p : pc) (e : Executor.t future) : t := {|
  executor := e; SCANCODE_QUEUE := None; WAKER := waker_new; interrupts := true; at_pc := p;
  warnings := []; accepted := []; delivered := [] |}.
(** [Executor::new] and [spawn] of the shell's task, the first to take an id, as
    [kernel_main] calls them: the run starts, or [spawn] panics. *)
Definition spawn_shell_task : outcome Empty_set unit * Executor.t future := spawn (Task_new Unstarted 0).1 new.
Definition start : t :=
  match spawn_shell_task with
  | (Ok _, e) => machine_at RunLoop e
  | (Err x, _) => match x with end
  | (Panic p, e) => machine_at (Crashed p) e
  end.

Inductive reach : t → Prop :=
  | reach_start : reach start
  | reach_step m m' : reach m → step m m' → reach m'.
End machine.

(** ** The invariant *)

Section invariant.
Context `{ArrayQueueLaws Z} `{AtomicWakerLaws TaskWaker}.
Implicit Types m : t.

Abbreviation ready_ids m := (contents (task_queue (executor m))).
Definition waiting m : list Z := match SCANCODE_QUEUE m with Some q => contents q | None => [] end.

(** The shell's task will be polled: its id is queued, or its waker is
    registered. *)
Definition woken m : Prop := 0%Z ∈ ready_ids m ∨ registered (WAKER m) = Some (create 0).

(** The shell's task when it is not being polled: a waiting scancode means that
    it is queued. *)
Definition suspended_ok m : Prop :=
  match tasks (executor m) !! 0%Z with
  | Some Unstarted => SCANCODE_QUEUE m = None ∧ 0%Z ∈ ready_ids m
  | Some AwaitScancode => is_Some (SCANCODE_QUEUE m) ∧ woken m ∧ (waiting m ≠ [] → 0%Z ∈ ready_ids m)
  | None => is_Some (SCANCODE_QUEUE m)
  end.
Definition polling_ok (s : stage) m : Prop :=
  is_Some (tasks (executor m) !! 0%Z) ∧
  match s with
  | SInit => SCANCODE_QUEUE m = None
  | SSecondPop => is_Some (SCANCODE_QUEUE m) ∧ woken m
  | _ => is_Some (SCANCODE_QUEUE m)
  end.
Definition pc_ok m : Prop :=
  match at_pc m with
  | Polling i w s => i = 0%Z ∧ w = create 0 ∧ polling_ok s m
  | Halted => suspended_ok m ∧ ready_ids m = []
  | Crashed _ => True
  | _ => suspended_ok m
  end.

(** The scancode the shell has taken and not handled yet. *)
Definition in_flight m : list Z :=
  match at_pc m with
  | Polling _ _ (STake sc) | Polling _ _ (SProcess sc) => [sc]
  | _ => []
  end.

Record inv m : Prop := {
  iv_exec : exec_ok (executor m);
  iv_tasks i : is_Some (tasks (executor m) !! i) → i = 0%Z;
  iv_ids : Forall (λ i, i = 0%Z) (ready_ids m);
  iv_waker w : registered (WAKER m) = Some w → w = create 0;
  iv_capacity q : SCANCODE_QUEUE m = Some q → capacity q = 100;
  iv_interrupts : interrupts m = negb (bool_decide (at_pc m = SleepCheck));
  iv_pc : pc_ok m;
  iv_log : accepted m = delivered m ++ in_flight m ++ waiting m;
}.

(** What holds unless the kernel panicked. *)
Definition inv_running m : Prop := running m = true → inv m.

Lemma inv_warn x m : inv m → inv (warn x m).
Proof. intros [E T I W C N P L]. by split. Qed.

Lemma inv_resume m : inv m → inv (resume m).
Proof.
  intros [E T I W C N P L]. unfold resume. unfold pc_ok, in_flight in *.
  destruct (at_pc m) eqn:Hpc; try (by split; unfold pc_ok, in_flight; rewrite ?Hpc).
  split; try done. exact (proj1 P).
Qed.

(** A scancode entered the queue and the waker was called. *)
Lemma inv_arrived m m' sc q q' : inv m → at_pc m ≠ Halted →
  SCANCODE_QUEUE m = Some q → contents q' = contents q ++ [sc] → capacity q' = capacity q →
  SCANCODE_QUEUE m' = Some q' → registered (WAKER m') = None →
  tasks (executor m') = tasks (executor m) → exec_ok (executor m') →
  Forall (λ i, i = 0%Z) (ready_ids m') → (woken m → 0%Z ∈ ready_ids m') →
  at_pc m' = at_pc m → interrupts m' = interrupts m →
  accepted m' = accepted m ++ [sc] → delivered m' = delivered m → inv m'.
Proof.
  intros [E T I W C N P L] Hh Hq Hc Hcap Hq' Hreg Ht E' I' Hw Hpc Hint Hacc Hdel.
  split; [done|..]; rewrite ?Ht, ?Hpc, ?Hint, ?Hdel, ?Hreg; try done.
  - intros q0. rewrite Hq'. intros [= <-]. rewrite Hcap. by apply C.
  - revert P. unfold pc_ok, suspended_ok, polling_ok. rewrite Hpc, Ht, Hq, Hq'.
    assert (Hwk : woken m → woken m') by (intros Hk; left; by apply Hw).
    destruct (at_pc m) as [|i w st| | | |]; try done;
      try (destruct (tasks (executor m) !! 0%Z) as [[]|]; [by intros [? _]| |done];
           intros (_ & Hk & _); split_and!; [done|by apply Hwk|by intros _; apply Hw]).
    intros (-> & -> & Ht0 & Hst). split_and!; [done..|].
    destruct st; try done. destruct Hst as [_ Hk]. split; [done|by apply Hwk].
  - rewrite Hacc, L. unfold in_flight, waiting. rewrite Hpc, Hq, Hq', Hc, <- !app_assoc. done.
Qed.

Lemma inv_add_scancode sc m : inv m → at_pc m ≠ Halted → inv_running (add_scancode sc m).
Proof.
  intros Hi Hh Hrun. unfold add_scancode in *. destruct (SCANCODE_QUEUE m) as [q|] eqn:Hq; [|by apply inv_warn].
  destruct (queue_push sc q) as [q'|] eqn:Hp; [|by apply inv_warn].
  apply queue_push_Some in Hp as [Hc Hcap]. revert Hrun. unfold wake. simpl.
  pose proof (waker_take_spec (WAKER m)) as [Ho Ha]. destruct (waker_take (WAKER m)) as [o a]. simpl in Ho, Ha.
  subst o. destruct (registered (WAKER m)) as [w|] eqn:Hw.
  - pose proof (iv_waker _ Hi w Hw) as ->. unfold on_executor, wake_task. simpl. rewrite push_task_run.
    destruct (queue_push 0%Z (task_queue (executor m))) as [tq|] eqn:Htq; [|done]. intros _.
    apply queue_push_Some in Htq as [Htc Htcap].
    apply (inv_arrived m _ sc q q' Hi Hh Hq Hc Hcap); try done; simpl.
    + apply exec_ok_set_queue; [apply Hi|done].
    + rewrite Htc. apply Forall_app. split; [apply Hi|by constructor].
    + intros _. rewrite Htc. apply elem_of_app. right. by left.
  - intros _. apply (inv_arrived m _ sc q q' Hi Hh Hq Hc Hcap); try done; simpl; [apply Hi..|].
    intros [Hin|Hr]; [done|congruence].
Qed.

Lemma inv_keyboard sc m : inv m → inv_running (keyboard_interrupt_handler sc m).
Proof.
  intros Hi. apply inv_add_scancode; [by apply inv_resume|]. unfold resume. by destruct (at_pc m) eqn:E; simpl; rewrite ?E.
Qed.

Lemma inv_run_loop c m m' : inv m → at_pc m = RunLoop → main_step c m = Some m' → inv m'.
Proof.
  intros Hi Hpc. pose proof Hi as [E T I W C N P L]. unfold main_step, on_executor, pc_ok, in_flight in *. rewrite Hpc in *.
  destruct (next_ready (executor m)) as [r e'] eqn:Hn.
  pose proof (next_ready_run (executor m) E) as Hr. rewrite Hn in Hr.
  destruct (queue_pop (task_queue (executor m))) as [[i q]|] eqn:Hp.
  2:{ injection Hr as -> ->. intros [= <-]. by split. }
  apply queue_pop_Some in Hp as [Hq _]. rewrite Hq in I. apply Forall_cons in I as [-> I].
  unfold suspended_ok in P. destruct (tasks (executor m) !! 0%Z) as [f|] eqn:Hf; injection Hr as -> ->;
    apply exec_ok_next_ready in Hn; try done; intros [= <-].
  - split; try done.
    + unfold pc_ok. simpl. do 2 (split; [done|]). split; [simpl; by rewrite Hf|]. destruct f; apply P.
    + simpl. unfold in_flight, waiting. simpl. destruct f; exact L.
  - split; try done. unfold pc_ok, suspended_ok. simpl. by rewrite Hf.
Qed.

(** A step of the poll that keeps the executor and the interrupt flag. *)
Lemma inv_polling m m' s' : inv m → (∃ s, at_pc m = Polling 0 (create 0) s) →
  executor m' = executor m → interrupts m' = interrupts m → at_pc m' = Polling 0 (create 0) s' →
  (∀ w, registered (WAKER m') = Some w → w = create 0) →
  (∀ q, SCANCODE_QUEUE m' = Some q → capacity q = 100) →
  polling_ok s' m' → accepted m' = delivered m' ++ in_flight m' ++ waiting m' → inv m'.
Proof.
  intros [E T I W C N P L] [s Hs] He Hint Hpc HW HC Hp HL. rewrite Hs in N.
  split; rewrite ?He, ?Hint, ?Hpc; try done. unfold pc_ok. by rewrite Hpc.
Qed.

Lemma inv_poll_first c m : inv m → at_pc m = Polling 0 (create 0) SFirstPop →
  inv (poll_step c 0 (create 0) SFirstPop m).
Proof.
  intros Hi Hpc. pose proof Hi as [E T I W C N P L]. unfold pc_ok, in_flight in *. rewrite Hpc in *.
  destruct P as (_ & _ & Ht & [q Hq]). simpl. unfold pop_scancode. rewrite Hq.
  unfold waiting in L. rewrite Hq in L. destruct (queue_pop q) as [[sc q']|] eqn:Hp.
  - apply queue_pop_Some in Hp as [Hc Hcap]. eapply inv_polling; eauto; simpl.
    + intros q0 [= <-]. rewrite Hcap. by apply C.
    + done.
    + unfold waiting. simpl. by rewrite L, Hc.
  - eapply inv_polling; eauto; simpl.
    + split; [done|]. simpl. by rewrite Hq.
    + unfold waiting. simpl. by rewrite L, Hq.
Qed.

Lemma inv_poll_second c m : inv m → at_pc m = Polling 0 (create 0) SSecondPop →
  inv (poll_step c 0 (create 0) SSecondPop m).
Proof.
  intros Hi Hpc. pose proof Hi as [E T I W C N P L]. unfold pc_ok, in_flight in *. rewrite Hpc in *.
  destruct P as (_ & _ & Ht & [q Hq] & Hw). simpl. unfold pop_scancode. rewrite Hq.
  unfold waiting in L. rewrite Hq in L. destruct (queue_pop q) as [[sc q']|] eqn:Hp.
  - apply queue_pop_Some in Hp as [Hc Hcap]. eapply inv_polling; eauto; simpl.
    + intros q0 [= <-]. rewrite Hcap. by apply C.
    + done.
    + unfold waiting. simpl. by rewrite L, Hc.
  - apply queue_pop_None in Hp. unfold on_executor, poll_pending, modify. split; simpl; try done.
    + by apply exec_ok_insert.
    + intros i. rewrite lookup_insert_is_Some'. intros [<-|Hs]; [done|by apply T].
    + unfold pc_ok, suspended_ok. simpl. rewrite lookup_insert_eq. split_and!; [by rewrite Hq|exact Hw|].
      unfold waiting. simpl. by rewrite Hq, Hp.
    + unfold waiting. simpl. by rewrite Hq.
Qed.

Lemma inv_poll_other c m s : inv m → at_pc m = Polling 0 (create 0) s →
  s ≠ SFirstPop → s ≠ SSecondPop → inv_running (poll_step c 0 (create 0) s m).
Proof.
  intros Hi Hpc Hs1 Hs2 Hrun. pose proof Hi as [E T I W C N P L]. unfold pc_ok, in_flight in *. rewrite Hpc in *.
  destruct P as (_ & _ & Ht & Hst). destruct s as [| | | |sc|sc]; try done; simpl in *.
  - unfold ScancodeStream_new in *. rewrite Hst in *. pose proof (queue_new_spec (A:=Z) 100) as [Hn Hcap].
    eapply inv_polling; eauto; simpl.
    + by intros q [= <-].
    + done.
    + rewrite L. unfold waiting. simpl. by rewrite Hst, Hn.
  - eapply inv_polling; eauto; simpl.
    + intros w. rewrite waker_register_spec. by intros [= <-].
    + split; [done|]. split; [done|]. right. simpl. apply waker_register_spec.
  - pose proof (waker_take_spec (WAKER m)) as [_ Hr]. eapply inv_polling; eauto; simpl.
    + intros w. by rewrite Hr.
    + done.
  - destruct c; [|..|done].
    + eapply inv_polling; eauto; simpl; [done|]. rewrite L. unfold waiting. simpl. by rewrite <- app_assoc.
    + unfold on_executor. destruct (poll_ready 0 (executor (deliver sc m))) as [r e'] eqn:Hr.
      pose proof Hr as Hr'. injection Hr as <- <-. split; simpl; try done.
      * eapply exec_ok_poll_ready; [|exact Hr']. done.
      * intros i. rewrite lookup_delete_is_Some. intros [_ Hs]. by apply T.
      * unfold pc_ok, suspended_ok. simpl. by rewrite lookup_delete_eq.
      * rewrite L. unfold waiting. simpl. by rewrite <- app_assoc.
Qed.

Lemma inv_main c m m' : inv m → main_step c m = Some m' → inv_running m'.
Proof.
  intros Hi. destruct (at_pc m) as [|i w s| | | |] eqn:Hpc.
  - intros Hs _. by eapply inv_run_loop.
  - unfold main_step. rewrite Hpc. intros [= <-]. pose proof (iv_pc _ Hi) as P. unfold pc_ok in P. rewrite Hpc in P.
    destruct P as (-> & -> & _). destruct (decide (s = SFirstPop)) as [->|Hs1]; [by intros _; apply inv_poll_first|].
    destruct (decide (s = SSecondPop)) as [->|Hs2]; [by intros _; apply inv_poll_second|]. by apply inv_poll_other.
  - unfold main_step. rewrite Hpc. intros [= <-] _. destruct Hi as [E T I W C N P L].
    unfold pc_ok, in_flight in *. rewrite Hpc in *. by split.
  - unfold main_step. rewrite Hpc. intros [= <-] _. destruct Hi as [E T I W C N P L].
    unfold pc_ok, in_flight in *. rewrite Hpc in *. rewrite queue_is_empty_spec.
    destruct (bool_decide_reflect (ready_ids m = [])) as [Hc|Hc].
    + by split.
    + by split.
  - unfold main_step. by rewrite Hpc.
  - unfold main_step. by rewrite Hpc.
Qed.

(** [spawn] succeeds: the one task is queued. *)
Lemma spawn_shell_task_run : ∃ e, spawn_shell_task = (Ok tt, e) ∧ tasks e = {[0%Z := Unstarted]} ∧
  contents (task_queue e) = [0%Z] ∧ capacity (task_queue e) = 100 ∧ waker_cache e = ∅.
Proof.
  unfold spawn_shell_task. rewrite spawn_run. simpl. rewrite lookup_empty.
  pose proof (queue_new_spec (A:=Z) 100) as [Hn Hcap].
  destruct (push_task_fits 0 (upd_tasks <[0%Z := Unstarted]> (new (F:=future)))) as [e He].
  { simpl. rewrite Hn, Hcap. simpl. lia. }
  exists e. split; [exact He|]. apply push_task_Ok in He as (q & -> & Hq & Hqc). simpl in *. rewrite Hn in Hq.
  by rewrite Hqc.
Qed.
Lemma inv_start : inv start.
Proof.
  destruct spawn_shell_task_run as (e & He & Ht & Hq & Hcap & Hc). unfold start. rewrite He.
  split; simpl; rewrite ?Ht, ?Hq; try done.
  - split; rewrite ?Hc; [|done]. intros i w. by rewrite lookup_empty.
  - intros i [x Hx]. by apply lookup_singleton_Some in Hx as [<- _].
  - by constructor.
  - intros w. by rewrite waker_new_spec.
  - unfold pc_ok, suspended_ok. simpl. rewrite Ht, Hq, lookup_singleton_eq. split; [done|by left].
Qed.

Lemma reach_inv m : reach m → inv_running m.
Proof.
  induction 1 as [|m m' _ IH Hs]; [intros _; exact inv_start|].
  destruct Hs as [c m' Hm|sc _ Hr|_ Hr].
  - destruct (running m) eqn:Hr; [by eapply inv_main; [apply IH|]|].
    unfold running, main_step in *. by destruct (at_pc m).
  - by apply inv_keyboard, IH.
  - intros _. by apply inv_resume, IH.
Qed.

(** ** Where the machine can panic, and what it does with a waiting scancode *)

Lemma add_scancode_crash sc m p : inv m → running m = true → at_pc (add_scancode sc m) = Crashed p →
  p = UnwrapErr ∧ length (ready_ids m) = 100.
Proof.
  intros Hi Hr. unfold add_scancode, running in *. destruct (SCANCODE_QUEUE m) as [q|]; [|simpl; by destruct (at_pc m)].
  destruct (queue_push sc q) as [q'|]; [|simpl; by destruct (at_pc m)]. unfold wake. simpl.
  destruct (waker_take (WAKER m)) as [[w|] a]; [|simpl; by destruct (at_pc m)].
  unfold on_executor, wake_task. rewrite push_task_run. simpl.
  destruct (queue_push _ _) eqn:Hp; [simpl; by destruct (at_pc m)|]. simpl. intros [= <-]. split; [done|].
  apply queue_push_None in Hp. pose proof (queue_bounded (task_queue (executor m))).
  pose proof (eo_capacity _ (iv_exec _ Hi)). lia.
Qed.

Lemma main_step_crash c m m' p : inv m → running m = true → main_step c m = Some m' → at_pc m' = Crashed p →
  ∃ i w sc, at_pc m = Polling i w (SProcess sc).
Proof.
  intros Hi Hr. pose proof (iv_pc _ Hi) as P. unfold main_step, running, pc_ok in *.
  destruct (at_pc m) as [|i w s| | | |] eqn:Hpc; try done.
  - intros [= <-]. unfold on_executor. rewrite next_ready_run by apply Hi.
    destruct (queue_pop _) as [[i q]|]; [|done]. by destruct (tasks (executor m) !! i) as [[]|].
  - intros [= <-]. destruct P as (_ & _ & _ & Hst). destruct s as [| | | |sc|sc]; simpl; try done.
    + unfold ScancodeStream_new. by rewrite Hst.
    + unfold pop_scancode. destruct Hst as [q ->]. by destruct (queue_pop q) as [[]|].
    + unfold pop_scancode. destruct Hst as [[q ->] _]. by destruct (queue_pop q) as [[]|].
    + eauto.
  - by intros [= <-].
  - intros [= <-]. by destruct (queue_is_empty _).
Qed.

Lemma run_loop_processes c m sc l : inv m → at_pc m = RunLoop →
  is_Some (tasks (executor m) !! 0%Z) → waiting m = sc :: l →
  ∃ m1 m2, main_step c m = Some m1 ∧ main_step c m1 = Some m2 ∧
    at_pc m2 = Polling 0 (create 0) (SProcess sc) ∧ waiting m2 = l.
Proof.
  intros Hi Hpc [f Hf] Hw. pose proof (iv_pc _ Hi) as P. unfold pc_ok, suspended_ok in P. rewrite Hpc, Hf in P.
  destruct f. { unfold waiting in Hw. destruct P as [Hn _]. by rewrite Hn in Hw. }
  destruct P as ([q Hq] & _ & Hin). specialize (Hin ltac:(by rewrite Hw)).
  destruct (ready_ids m) as [|i ids] eqn:Hids; [by apply not_elem_of_nil in Hin|].
  pose proof (iv_ids _ Hi) as I. rewrite Hids in I. apply Forall_cons in I as [-> _].
  destruct (queue_pop_cons _ _ _ Hids) as (tq & Htq & _). unfold waiting in Hw. rewrite Hq in Hw.
  destruct (queue_pop_cons _ _ _ Hw) as (q' & Hq' & Hl & _).
  unfold main_step at 1. rewrite Hpc. unfold on_executor. rewrite next_ready_run by apply Hi. rewrite Htq, Hf.
  eexists _, _. split; [reflexivity|]. unfold main_step. simpl. unfold pop_scancode. simpl. rewrite Hq, Hq'.
  split; [reflexivity|]. split; [done|exact Hl].
Qed.

Lemma halted_idle m : inv m → at_pc m = Halted → is_Some (tasks (executor m) !! 0%Z) →
  waiting m = [] ∧ registered (WAKER m) = Some (create 0).
Proof.
  intros Hi Hpc [f Hf]. pose proof (iv_pc _ Hi) as P. unfold pc_ok, suspended_ok, woken in P. rewrite Hpc, Hf in P.
  destruct P as [P Hids]. rewrite Hids in P. destruct f.
  - destruct P as [_ Hin]. by apply not_elem_of_nil in Hin.
  - destruct P as (_ & [Hin|Hreg] & Hw); [by apply not_elem_of_nil in Hin|]. split; [|done].
    destruct (waiting m); [done|]. exfalso. by apply not_elem_of_nil in Hw.
Qed.

(** ** Without interrupts the main program comes to rest

    A queued task and a waiting scancode cost less than ten steps each; the rest
    depends on where the program is. *)
Definition pc_weight (ready : bool) (p : pc) : nat :=
  match p with
  | RunLoop => 3
  | Polling _ _ SInit => 7
  | Polling _ _ SFirstPop => 6
  | Polling _ _ SRegister => 5
  | Polling _ _ SSecondPop => 4
  | Polling _ _ (STake _) => 8
  | Polling _ _ (SProcess _) => 7
  | Sleep => if ready then 5 else 2
  | SleepCheck => if ready then 4 else 1
  | Halted | Crashed _ => 0
  end.
Definition weight m : nat :=
  10 * length (ready_ids m) + 10 * length (waiting m) + pc_weight (negb (bool_decide (ready_ids m = []))) (at_pc m).

Lemma poll_step_weight c i w s m : polling_ok s m → at_pc m = Polling i w s → weight (poll_step c i w s m) < weight m.
Proof.
  intros [_ Hst] Hpc. unfold weight. rewrite Hpc.
  destruct s as [| | | |sc|sc]; simpl in *; unfold waiting, ScancodeStream_new, pop_scancode; simpl; try lia.
  - rewrite Hst. simpl. pose proof (queue_new_spec (A:=Z) 100) as [-> _]. simpl. lia.
  - destruct Hst as [q Hq]. rewrite Hq. destruct (queue_pop q) as [[sc q']|] eqn:Hp; simpl; [|rewrite Hq; lia].
    apply queue_pop_Some in Hp as [-> _]. simpl. lia.
  - destruct Hst as [[q Hq] _]. rewrite Hq. destruct (queue_pop q) as [[sc q']|] eqn:Hp; simpl; [|rewrite Hq; lia].
    apply queue_pop_Some in Hp as [-> _]. simpl. lia.
  - destruct c; simpl; lia.
Qed.

Lemma main_step_weight c m m' : inv m → main_step c m = Some m' → weight m' < weight m.
Proof.
  intros Hi. pose proof (iv_pc _ Hi) as P. unfold main_step, pc_ok in *.
  destruct (at_pc m) as [|i w s| | | |] eqn:Hpc; intros [= <-].
  - unfold on_executor. rewrite next_ready_run by apply Hi. unfold weight. rewrite Hpc.
    destruct (queue_pop (task_queue (executor m))) as [[i q]|] eqn:Hp; simpl.
    + apply queue_pop_Some in Hp as [-> _]. destruct (tasks (executor m) !! i) as [[]|]; simpl; unfold waiting; simpl; lia.
    + apply queue_pop_None in Hp as ->. unfold waiting. simpl. lia.
  - destruct P as (_ & _ & P). by apply poll_step_weight.
  - unfold weight, waiting. rewrite Hpc. simpl. case_bool_decide; simpl; lia.
  - unfold weight, waiting. rewrite Hpc. simpl. rewrite queue_is_empty_spec. case_bool_decide; simpl; lia.
Qed.

(** ** Properties *)

(** C13: no keystroke is lost, duplicated or reordered: whatever interrupts come
    when, the scancodes that entered the queue are those the shell has handled,
    then the one it is handling, then those in the queue, in order. *)
Theorem keystrokes_in_order m : reach m → running m = true →
  accepted m = delivered m ++ in_flight m ++ waiting m.
Proof. intros Hm Hr. by apply (reach_inv _ Hm). Qed.

(** C3: no wake-up is lost: when the processor is halted and the shell has not
    exited, no scancode is waiting, and the shell's waker is registered, so that
    the next keyboard interrupt wakes it. *)
Theorem no_lost_wakeup m : reach m → at_pc m = Halted → is_Some (tasks (executor m) !! 0%Z) →
  waiting m = [] ∧ registered (WAKER m) = Some (create 0).
Proof. intros Hm Hpc. apply halted_idle; [|done]. apply (reach_inv _ Hm). unfold running. by rewrite Hpc. Qed.

(** a waiting scancode is handled: when the executor is about to take the next
    ready task, and the shell has not exited, two steps later the shell handles
    the oldest scancode of the queue. *)
Theorem pending_key_processed c m sc l : reach m → at_pc m = RunLoop →
  is_Some (tasks (executor m) !! 0%Z) → waiting m = sc :: l →
  ∃ m1 m2, main_step c m = Some m1 ∧ main_step c m1 = Some m2 ∧
    at_pc m2 = Polling 0 (create 0) (SProcess sc) ∧ waiting m2 = l.
Proof.
  intros Hm Hpc. apply run_loop_processes; [|done]. apply (reach_inv _ Hm). unfold running. by rewrite Hpc.
Qed.

(** a key pressed while the processor is halted is handled: the interrupt
    queues the shell's task, and two steps later the shell handles that key. *)
Theorem key_press_processed c m sc : reach m → at_pc m = Halted →
  is_Some (tasks (executor m) !! 0%Z) →
  ∃ m1 m2, main_step c (keyboard_interrupt_handler sc m) = Some m1 ∧ main_step c m1 = Some m2 ∧
    at_pc m2 = Polling 0 (create 0) (SProcess sc).
Proof.
  intros Hm Hpc [f Hf]. pose proof (reach_inv _ Hm ltac:(unfold running; by rewrite Hpc)) as Hi.
  pose proof (iv_pc _ Hi) as P. unfold pc_ok, suspended_ok, woken in P. rewrite Hpc, Hf in P.
  destruct P as [P Hids]. rewrite Hids in P. destruct f.
  { destruct P as [_ Hin]. by apply not_elem_of_nil in Hin. }
  destruct P as ([q Hq] & [Hin|Hreg] & Hw); [by apply not_elem_of_nil in Hin|].
  assert (Hqe : contents q = []).
  { destruct (contents q) eqn:Hc; [done|]. exfalso. unfold waiting in Hw. rewrite Hq, Hc in Hw.
    by apply not_elem_of_nil in Hw. }
  assert (Hm' : ∃ e q', keyboard_interrupt_handler sc m =
    set_executor e (set_waker (waker_take (WAKER m)).2 (accept sc (set_scancodes q' (goto RunLoop m)))) ∧
    tasks e = tasks (executor m) ∧ contents q' = [sc]).
  { unfold keyboard_interrupt_handler, resume, add_scancode. rewrite Hpc. simpl. rewrite Hq.
    destruct (queue_push_spec sc q) as (q' & Hp & Hc' & _).
    { rewrite Hqe, (iv_capacity _ Hi q Hq). simpl. lia. }
    rewrite Hp. unfold wake. simpl. pose proof (waker_take_spec (WAKER m)) as [Ho _].
    destruct (waker_take (WAKER m)) as [o a]. simpl in Ho. rewrite Ho, Hreg. unfold on_executor, wake_task. simpl.
    destruct (push_task_fits (F:=future) 0 (executor m)) as [e He].
    { rewrite Hids, (eo_capacity _ (iv_exec _ Hi)). simpl. lia. }
    rewrite He. eexists _, q'. split; [reflexivity|]. apply push_task_Ok in He as (tq & -> & _).
    split; [done|]. by rewrite Hc', Hqe. }
  destruct Hm' as (e & q' & Heq & Ht & Hc). pose proof (inv_keyboard sc m Hi) as Hi'. rewrite Heq in *.
  destruct (run_loop_processes c _ sc [] (Hi' eq_refl)) as (m1 & m2 & H1' & H2' & H3' & _); simpl.
  - done.
  - rewrite Ht, Hf. eauto.
  - by unfold waiting.
  - eauto.
Qed.

(** C34: while keystrokes are moved to the shell nothing panics but the shell's own
    handling of a key, except a wake-up when the executor's queue already holds
    100 ids: the scancode queue is initialised once and before it is used. *)
Theorem keyboard_panics m m' p : reach m → running m = true → step m m' → at_pc m' = Crashed p →
  (∃ i w sc, at_pc m = Polling i w (SProcess sc)) ∨
  (p = UnwrapErr ∧ length (contents (task_queue (executor m))) = 100).
Proof.
  intros Hm Hr Hs Hc. pose proof (reach_inv _ Hm Hr) as Hi. destruct Hs as [c m' Hs|sc _ _|_ _].
  - left. by eapply main_step_crash.
  - right. apply add_scancode_crash in Hc; [|by apply inv_resume|unfold resume, running in *; destruct (at_pc m) eqn:E; simpl; rewrite ?E; done].
    unfold resume in Hc. by destruct (at_pc m).
  - exfalso. unfold timer_interrupt_handler, resume, running in *. destruct (at_pc m) eqn:E; simpl in *; congruence.
Qed.
End invariant.
End Keyboard.

(** ** Witnesses

    The atomic waker as an optional waker, and the machine run from the start:
    after eight steps without an interrupt the processor is halted. *)
Module KeyboardRun.
Import Keyboard.
Import (hints) ListQueue.
#[export] Instance option_waker W : AtomicWaker W := {
  atomic_waker := option W;
  waker_new := None;
  waker_register := λ w _, Some w;
  waker_take := λ a, (a, None);
  registered := λ a, a;
}.
#[export] Instance option_waker_laws W : AtomicWakerLaws W.
Proof. by split. Qed.

Fixpoint mains (n : nat) (m : t) : t :=
  match n with
  | 0 => m
  | S n' => match main_step Continue m with Some m' => mains n' m' | None => m end
  end.
Lemma reach_mains n : ∀ m, reach m → reach (mains n m).
Proof.
  induction n as [|n IH]; intros m Hm; [done|]. simpl. destruct (main_step Continue m) eqn:Hs; [|done].
  apply IH. eapply reach_step; [done|]. by eapply step_main.
Qed.

Definition idle : t := mains 8 start.
Lemma reach_idle : reach idle.
Proof. apply reach_mains, reach_start. Qed.
(** A key pressed while the processor is halted. *)
Definition pressed : t := keyboard_interrupt_handler 30 idle.
Lemma reach_pressed : reach pressed.
Proof. eapply reach_step; [exact reach_idle|]. by apply step_keyboard. Qed.
Definition handling : t := mains 2 pressed.
Lemma reach_handling : reach handling.
Proof. apply reach_mains, reach_pressed. Qed.

Lemma keystrokes_in_order_witness : accepted handling = [30%Z] ∧
  accepted handling = delivered handling ++ in_flight handling ++ waiting handling ∧ in_flight handling = [30%Z].
Proof.
  split; [reflexivity|]. split; [|reflexivity].
  apply (keystrokes_in_order handling reach_handling). reflexivity.
Defined.

Lemma no_lost_wakeup_witness : at_pc idle = Halted ∧
  waiting idle = [] ∧ registered (WAKER idle) = Some (create 0).
Proof.
  split; [reflexivity|]. apply (no_lost_wakeup idle reach_idle); [reflexivity|].
  exists AwaitScancode. reflexivity.
Defined.

Lemma pending_key_processed_witness : ∃ m1 m2, main_step Continue pressed = Some m1 ∧
  main_step Continue m1 = Some m2 ∧ at_pc m2 = Polling 0 (create 0) (SProcess 30) ∧ waiting m2 = [].
Proof.
  apply (pending_key_processed Continue pressed 30 [] reach_pressed); [reflexivity| |reflexivity].
  exists AwaitScancode. reflexivity.
Defined.

Lemma key_press_processed_witness : ∃ m1 m2,
  main_step Continue (keyboard_interrupt_handler 30 idle) = Some m1 ∧ main_step Continue m1 = Some m2 ∧
  at_pc m2 = Polling 0 (create 0) (SProcess 30).
Proof.
  apply (key_press_processed Continue idle 30 reach_idle); [reflexivity|].
  exists AwaitScancode. reflexivity.
Defined.

Lemma keyboard_panics_witness : ∃ m', step handling m' ∧ at_pc m' = Crashed Todo ∧
  ∃ i w sc, at_pc handling = Polling i w (SProcess sc).
Proof.
  exists (poll_step (Crash Todo) 0 (create 0) (SProcess 30) handling).
  assert (Hs : step handling (poll_step (Crash Todo) 0 (create 0) (SProcess 30) handling))
    by (apply (step_main _ (Crash Todo)); reflexivity).
  split; [exact Hs|]. split; [reflexivity|].
  destruct (keyboard_panics handling _ Todo reach_handling eq_refl Hs eq_refl) as [Hl|[Hp _]].
  - exact Hl.
  - discriminate Hp.
Defined.
End KeyboardRun.
