(* ===== verification/Interrupts.v ===== *)
(** * [interrupts.rs] and [gdt.rs]: descriptor tables and handlers

    [gdt::init] builds the segment table and the task state segment with the
    stack of the double-fault handler; [init_idt] installs the handlers.  The
    tables live in [StaticCell]s, which can be initialized once.  The tables and
    the registers that select them belong to the [x86_64] crate and the interrupt
    controller to [pic8259]: they are the interfaces [Tables] and [Pics]. *)

From Stdlib Require Import Init.Byte.
From S2P Require Import Prelude Fmt Vga VgaText Memory.

Module Interrupts.

(** ** Vectors *)

Definition PIC_1_OFFSET : Z := 32.
Definition PIC_2_OFFSET : Z := PIC_1_OFFSET + 8.
Inductive InterruptIndex := Timer | Keyboard.
Definition as_u8 (i : InterruptIndex) : Z :=
  match i with Timer => PIC_1_OFFSET | Keyboard => PIC_1_OFFSET + 1 end.

(** The functions [init_idt] installs. *)
Inductive handler :=
  | breakpoint_handler | page_fault_handler | double_fault_handler
  | timer_interrupt_handler | keyboard_interrupt_handler.
(** An entry of the IDT: the handler and the index of its stack. *)
Record entry := { handler_fn : handler; stack_index : option nat }.
#[export] Instance handler_eq_dec : EqDecision handler.
Proof. solve_decision. Defined.
#[export] Instance entry_eq_dec : EqDecision entry.
Proof. solve_decision. Defined.

(** ** The interfaces *)

(** [InterruptDescriptorTable] (a vector is a field or an index of it),
    [GlobalDescriptorTable] and the selectors [append] returns, and
    [TaskStateSegment] with its interrupt stack table. *)
Class Tables `{!Memory.Paging} := {
  idt : Type;
  idt_new : idt;
  set_entry : Z → entry → idt → idt;
  idt_entry : idt → Z → option entry;
  tss : Type;
  tss_new : tss;
  set_stack : nat → Memory.VirtAddr → tss → option tss;
  stack_of : tss → nat → option Memory.VirtAddr;
  selector : Type;
  gdt : Type;
  gdt_new : gdt;
  append_code : gdt → option (selector * gdt);
  append_tss : tss → gdt → option (selector * gdt);
  gdt_tss : gdt → selector → option tss;
  gdt_is_code : gdt → selector → bool;
}.
Class TablesLaws `{Tables} := {
  idt_new_entry v : idt_entry idt_new v = None;
  idt_set_entry v e i w : idt_entry (set_entry v e i) w = if decide (w = v) then Some e else idt_entry i w;
  set_stack_spec n a s : n < 7 → ∃ s', set_stack n a s = Some s' ∧ stack_of s' n = Some a;
  append_new : ∃ c g, append_code gdt_new = Some (c, g) ∧ ∀ s, ∃ d g', append_tss s g = Some (d, g') ∧
    gdt_is_code g' c = true ∧ gdt_tss g' d = Some s;
}.

(** [ChainedPics]: the state of the two controllers. *)
Class Pics := {
  pics : Type;
  pics_new : Z → Z → pics;
  pics_initialize : pics → pics;
  notify_end_of_interrupt : Z → pics → pics;
}.

(** The vectors of the exceptions, as the processor numbers them. *)
Definition BREAKPOINT : Z := 3.
Definition DOUBLE_FAULT : Z := 8.
Definition PAGE_FAULT : Z := 14.

Section machine.
Context `{!Memory.Paging, !Tables, !Pics}.

(** The statics ([None] before their [try_init]), the registers and the screen. *)
Record t := {
  IDT : option idt;
  GDT : option gdt;
  TSS : option tss;
  idtr : option idt;
  gdtr : option gdt;
  cs : option selector;
  tr : option selector;
  PICS : pics;
  screen : Vga.t;
}.
Abbreviation IM := (M t Empty_set).
Definition set_screen (v : Vga.t) (m : t) : t :=
  {| IDT := IDT m; GDT := GDT m; TSS := TSS m; idtr := idtr m; gdtr := gdtr m; cs := cs m; tr := tr m;
     PICS := PICS m; screen := v |}.
Definition set_pics (p : pics) (m : t) : t :=
  {| IDT := IDT m; GDT := GDT m; TSS := TSS m; idtr := idtr m; gdtr := gdtr m; cs := cs m; tr := tr m;
     PICS := p; screen := screen m |}.
Definition set_idt (i : idt) (m : t) : t :=
  {| IDT := Some i; GDT := GDT m; TSS := TSS m; idtr := idtr m; gdtr := gdtr m; cs := cs m; tr := tr m;
     PICS := PICS m; screen := screen m |}.
Definition load_idt (i : idt) (m : t) : t :=
  {| IDT := IDT m; GDT := GDT m; TSS := TSS m; idtr := Some i; gdtr := gdtr m; cs := cs m; tr := tr m;
     PICS := PICS m; screen := screen m |}.
Definition set_gdt (g : gdt) (m : t) : t :=
  {| IDT := IDT m; GDT := Some g; TSS := TSS m; idtr := idtr m; gdtr := gdtr m; cs := cs m; tr := tr m;
     PICS := PICS m; screen := screen m |}.
Definition set_tss (s : tss) (m : t) : t :=
  {| IDT := IDT m; GDT := GDT m; TSS := Some s; idtr := idtr m; gdtr := gdtr m; cs := cs m; tr := tr m;
     PICS := PICS m; screen := screen m |}.
Definition load_gdt (g : gdt) (code task : selector) (m : t) : t :=
  {| IDT := IDT m; GDT := GDT m; TSS := TSS m; idtr := idtr m; gdtr := Some g; cs := Some code; tr := Some task;
     PICS := PICS m; screen := screen m |}.

(** [StaticCell::try_init(..).expect(..)]; [try_init] returns an [Option]. *)
Definition try_init {A} (cell : t → option A) (set : A → t → t) (a : A) : IM unit :=
  c ← gets cell;
  match c with Some _ => panic UnwrapNone | None => modify (set a) end.

(** ** [gdt.rs] *)

Definition DOUBLE_FAULT_IST_INDEX : nat := 0.
Definition STACK_SIZE : Z := 4096 * 5.

(** [STACK] is the address of the static stack. *)
Definition gdt_init (STACK : Memory.VirtAddr) : IM unit :=
  _ ← try_init GDT set_gdt gdt_new;
  cg ← unwrap ExplicitPanic (append_code gdt_new);
  let '(code_segment, g) := cg in
  _ ← modify (set_gdt g);
  _ ← try_init TSS set_tss tss_new;
  stack_end ← unwrap ExplicitPanic (Memory.VirtAddr_add STACK STACK_SIZE);
  s ← unwrap OutOfBounds (set_stack DOUBLE_FAULT_IST_INDEX stack_end tss_new);
  _ ← modify (set_tss s);
  dg ← unwrap ExplicitPanic (append_tss s g);
  let '(tss_segment, g) := dg in
  _ ← modify (set_gdt g);
  modify (load_gdt g code_segment tss_segment).

(** ** [interrupts.rs] *)

Definition plain (h : handler) : entry := {| handler_fn := h; stack_index := None |}.
Definition handlers (i : idt) : idt :=
  let i := set_entry BREAKPOINT (plain breakpoint_handler) i in
  let i := set_entry PAGE_FAULT (plain page_fault_handler) i in
  let i := set_entry DOUBLE_FAULT
    {| handler_fn := double_fault_handler; stack_index := Some DOUBLE_FAULT_IST_INDEX |} i in
  let i := set_entry (as_u8 Timer) (plain timer_interrupt_handler) i in
  set_entry (as_u8 Keyboard) (plain keyboard_interrupt_handler) i.
Definition init_idt : IM unit :=
  _ ← try_init IDT set_idt idt_new;
  let i := handlers idt_new in
  _ ← modify (set_idt i);
  modify (load_idt i).

Definition init_pics : IM unit := modify (λ m, set_pics (pics_initialize (PICS m)) m).
Definition acknowledge_interrupt (index : InterruptIndex) : IM unit :=
  modify (λ m, set_pics (notify_end_of_interrupt (as_u8 index) (PICS m)) m).

Definition on_screen {A} (c : M Vga.t Empty_set A) : IM A := λ m,
  let '(r, v) := c (screen m) in (r, set_screen v m).

(** What a handler does to the interrupted program: it returns, or the processor
    halts in it for good. *)
Inductive continuation := Returns | Hangs.

(** The printed forms of the stack frame, of [Cr2::read()] and of the error code
    are the crate's. *)
Definition breakpoint (stack_frame : string) : IM continuation :=
  _ ← on_screen (Vga.println ("EXCEPTION: BREAKPOINT" +:+ String "010"%char stack_frame));
  mret Returns.
Definition page_fault (stack_frame cr2 error_code : string) : IM continuation :=
  _ ← on_screen (Vga.println "EXCEPTION: PAGE FAULT");
  _ ← on_screen (Vga.println ("Accessed Address: " +:+ cr2));
  _ ← on_screen (Vga.println ("Error Code: " +:+ error_code));
  _ ← on_screen (Vga.println stack_frame);
  mret Hangs.
Definition double_fault : IM continuation := panic ExplicitPanic.
(** What [timer_interrupt_handler] prints. *)
Definition timer_print : M Vga.t Empty_set unit := Vga.print ".".
Definition timer_interrupt : IM continuation :=
  _ ← on_screen timer_print;
  _ ← acknowledge_interrupt Timer;
  mret Returns.

(** The machine [kernel_main] starts on; the first line it prints is on [v]. *)
Definition boot (v : Vga.t) : t :=
  {| IDT := None; GDT := None; TSS := None; idtr := None; gdtr := None; cs := None; tr := None;
     PICS := pics_new PIC_1_OFFSET PIC_2_OFFSET; screen := v |}.
End machine.

(** ** What interrupts print *)

(** The output of an interrupt: the timer's dot, or a warning of [add_scancode]
    ([shell/keyboard.rs]) from the keyboard's handler. *)
Inductive irq := Tick | QueueFull | QueueUninitialized.
Definition irq_print (i : irq) : M Vga.t Empty_set unit :=
  match i with
  | Tick => timer_print
  | QueueFull => Vga.println "WARNING: scancode queue full; dropping keyboard input"
  | QueueUninitialized => Vga.println "WARNING: scancode queue uninitialized"
  end.
Fixpoint irqs_print (l : list irq) : M Vga.t Empty_set unit :=
  match l with [] => mret tt | i :: l' => _ ← irq_print i; irqs_print l' end.

Lemma irqs_print_total l : ∀ v, Vga.wf v →
  ∃ v', irqs_print l v = (Ok tt, v') ∧ Vga.wf v' ∧ Vga.color_code v' = Vga.color_code v.
Proof.
  induction l as [|i l IH]; intros v Hv; [by exists v|]. simpl.
  assert (∃ v1, irq_print i v = (Ok tt, v1) ∧ Vga.wf v1 ∧ Vga.color_code v1 = Vga.color_code v)
    as (v1 & H1 & Hv1 & Hc1).
  { destruct i; [by apply VgaText.print_total| |];
      simpl; (edestruct VgaText.println_fresh as (v' & H & [] & ?); [done|]; by eauto). }
  destruct (IH v1 Hv1) as (v2 & H2 & Hv2 & Hc2). exists v2. rewrite (mbind_run _ _ _ _ _ H1).
  split_and!; [done|done|congruence].
Qed.

(** The same as text on the terminal. *)
Definition irq_text (i : irq) : Vga.term → Vga.term :=
  match i with
  | Tick => VgaText.write "."
  | QueueFull => VgaText.line "WARNING: scancode queue full; dropping keyboard input"
  | QueueUninitialized => VgaText.line "WARNING: scancode queue uninitialized"
  end.
Definition irqs_text (l : list irq) (a : Vga.term) : Vga.term := foldl (λ a i, irq_text i a) a l.
Lemma irqs_text_color l : ∀ a, Vga.color (irqs_text l a) = Vga.color a.
Proof. induction l as [|i l IH]; intros a; [done|]. simpl. rewrite IH. destruct i; apply VgaText.write_color. Qed.
Lemma irqs_print_shows l : ∀ v a, Vga.shows v a → ∃ v', irqs_print l v = (Ok tt, v') ∧ Vga.shows v' (irqs_text l a).
Proof.
  induction l as [|i l IH]; intros v a Hs; [by exists v|]. simpl.
  assert (∃ v1, irq_print i v = (Ok tt, v1) ∧ Vga.shows v1 (irq_text i a)) as (v1 & H1 & Hs1).
  { destruct i; [by apply VgaText.print_shows|by apply VgaText.println_shows..]. }
  destruct (IH v1 _ Hs1) as (v2 & H2 & Hs2). exists v2. by rewrite (mbind_run _ _ _ _ _ H1).
Qed.

(** ** Interrupts before the shell runs

    [SCANCODE_QUEUE] does not exist yet, so the keyboard's handler only warns. *)
Section early.
Context `{Pg : !Memory.Paging, Tb : !Tables, Pc : !Pics}.

Definition early_irq (i : InterruptIndex) : irq :=
  match i with Timer => Tick | Keyboard => QueueUninitialized end.
Definition early_interrupt (i : InterruptIndex) : M t Empty_set continuation :=
  match i with
  | Timer => timer_interrupt
  | Keyboard =>
      _ ← on_screen (irq_print QueueUninitialized);
      _ ← acknowledge_interrupt Keyboard;
      mret Returns
  end.
Fixpoint early_interrupts (l : list InterruptIndex) : M t Empty_set unit :=
  match l with [] => mret tt | i :: l' => _ ← early_interrupt i; early_interrupts l' end.

(** The controllers after the interrupts have been acknowledged. *)
Definition acknowledged (l : list InterruptIndex) (p : pics) : pics :=
  foldl (λ p i, notify_end_of_interrupt match i with Timer => 32 | Keyboard => 33 end p) p l.
Lemma early_interrupts_run l : ∀ m a, Vga.shows (screen m) a →
  ∃ v, early_interrupts l m = (Ok tt, set_screen v (set_pics (acknowledged l (PICS m)) m)) ∧
    Vga.shows v (irqs_text (early_irq <$> l) a).
Proof.
  induction l as [|i l IH]; intros m a Hs; [by exists (screen m); destruct m|].
  destruct (irqs_print_shows [early_irq i] (screen m) a Hs) as (v1 & Hr1 & Hs1). simpl in Hr1.
  assert (Hp : irq_print (early_irq i) (screen m) = (Ok tt, v1)).
  { unfold mbind, M_bind in Hr1. destruct (irq_print _ _) as [[[]| |] ?]; simplify_eq; done. }
  set (m1 := set_pics (acknowledged [i] (PICS m)) (set_screen v1 m)).
  assert (Hi : early_interrupt i m = (Ok Returns, m1)).
  { destruct i; [change (timer_print (screen m) = (Ok tt, v1)) in Hp|change (irq_print QueueUninitialized (screen m) = (Ok tt, v1)) in Hp];
      unfold early_interrupt, timer_interrupt, mbind at 1, M_bind at 1, on_screen; by rewrite Hp. }
  destruct (IH m1 _ Hs1) as (v2 & Hr2 & Hs2). exists v2. split; [|done].
  simpl. rewrite (mbind_run _ _ _ _ _ Hi), Hr2. done.
Qed.
End early.

(** ** The tables the kernel runs with *)

(** The handler of a vector and the stack it runs on. *)
Definition vector_handler (v : Z) : option (handler * option nat) :=
  if decide (v = 3)%Z then Some (breakpoint_handler, None)
  else if decide (v = 14)%Z then Some (page_fault_handler, None)
  else if decide (v = 8)%Z then Some (double_fault_handler, Some 0)
  else if decide (v = 32)%Z then Some (timer_interrupt_handler, None)
  else if decide (v = 33)%Z then Some (keyboard_interrupt_handler, None)
  else None.

Section properties.
Context `{Pg : !Memory.Paging, PgL : !Memory.PagingLaws, Tb : !Tables, TbL : !TablesLaws, Pc : !Pics}.

Lemma handlers_spec v : (λ e, (handler_fn e, stack_index e)) <$> idt_entry (handlers idt_new) v = vector_handler v.
Proof.
  unfold handlers, vector_handler. cbn zeta. rewrite !idt_set_entry, idt_new_entry.
  unfold BREAKPOINT, PAGE_FAULT, DOUBLE_FAULT. change (as_u8 Timer) with 32%Z. change (as_u8 Keyboard) with 33%Z.
  repeat case_decide; subst; done || lia.
Qed.

(** The tables are loaded. *)
Record tables_loaded (STACK : Memory.VirtAddr) (m : t) : Prop := {
  tl_idt : ∃ i, IDT m = Some i ∧ idtr m = Some i ∧
    ∀ v, (λ e, (handler_fn e, stack_index e)) <$> idt_entry i v = vector_handler v;
  tl_gdt : ∃ g c d s top, GDT m = Some g ∧ gdtr m = Some g ∧ cs m = Some c ∧ gdt_is_code g c = true ∧
    tr m = Some d ∧ gdt_tss g d = Some s ∧ TSS m = Some s ∧ stack_of s DOUBLE_FAULT_IST_INDEX = Some top ∧
    Memory.as_u64 top = (Memory.as_u64 STACK + 20480)%Z;
}.

Lemma gdt_init_run STACK v : (0 ≤ Memory.as_u64 STACK)%Z → (Memory.as_u64 STACK + 20480 < 2 ^ 47)%Z →
  ∃ g c d s top, gdt_init STACK (boot v) =
      (Ok tt, {| IDT := None; GDT := Some g; TSS := Some s; idtr := None; gdtr := Some g; cs := Some c; tr := Some d;
         PICS := pics_new PIC_1_OFFSET PIC_2_OFFSET; screen := v |}) ∧
    gdt_is_code g c = true ∧ gdt_tss g d = Some s ∧ stack_of s DOUBLE_FAULT_IST_INDEX = Some top ∧
    Memory.as_u64 top = (Memory.as_u64 STACK + 20480)%Z.
Proof.
  intros Hs He. destruct append_new as (c & g0 & Hc & Ht).
  destruct (Memory.VirtAddr_add_spec STACK STACK_SIZE) as (top & Htop & Hv); [done..|].
  destruct (set_stack_spec DOUBLE_FAULT_IST_INDEX top tss_new) as (s & Hset & Hst); [unfold DOUBLE_FAULT_IST_INDEX; lia|].
  destruct (Ht s) as (d & g & Hd & Hcode & Htss).
  exists g, c, d, s, top. split; [|done].
  unfold gdt_init, try_init, mbind, M_bind, gets, modify, unwrap. cbn [GDT TSS boot].
  rewrite Hc. cbn. rewrite Htop. cbn. rewrite Hset. cbn. rewrite Hd. done.
Qed.

(** C22: after [gdt::init] and [init_idt] the processor runs with the tables the
    kernel built: the IDT it loads dispatches breakpoints, page faults, double
    faults, the timer and the keyboard to their handlers and no other vector to
    any, and the double-fault handler runs on the 20 KiB stack that [gdt::init]
    put in the loaded task state segment; calling either again panics. *)
Theorem tables_ready STACK v : (0 ≤ Memory.as_u64 STACK)%Z → (Memory.as_u64 STACK + 20480 < 2 ^ 47)%Z →
  ∃ m, (_ ← gdt_init STACK; init_idt) (boot v) = (Ok tt, m) ∧ tables_loaded STACK m ∧ screen m = v ∧
    (gdt_init STACK m).1 = Panic UnwrapNone ∧ (init_idt m).1 = Panic UnwrapNone.
Proof.
  intros Hs He. destruct (gdt_init_run STACK v Hs He) as (g & c & d & s & top & Hrun & Hcode & Htss & Hst & Hv).
  eexists. split.
  { rewrite (mbind_run _ _ _ _ _ Hrun). unfold init_idt, try_init, mbind, M_bind, gets, modify.
    cbn -[handlers]. reflexivity. }
  split_and!; [|done..]. split.
  - eexists. split_and!; [done..|]. apply handlers_spec.
  - by exists g, c, d, s, top.
Qed.
End properties.

(** ** Concrete tables *)

Module Descriptors.
Import (hints) Memory.Machine.
(** A segment table is the list of its task state segments, [None] for code. *)
#[export] Instance tables : Tables := {
  idt := gmap Z entry;
  idt_new := ∅;
  set_entry := λ v e i, <[v := e]> i;
  idt_entry := λ i v, i !! v;
  tss := gmap nat Z;
  tss_new := ∅;
  set_stack := λ n a s, if decide (n < 7) then Some (<[n := a]> s) else None;
  stack_of := λ s n, s !! n;
  selector := nat;
  gdt := list (option (gmap nat Z));
  gdt_new := [];
  append_code := λ g, Some (length g, g ++ [None]);
  append_tss := λ s g, Some (length g, g ++ [Some s]);
  gdt_tss := λ g d, mjoin (g !! d);
  gdt_is_code := λ g c, bool_decide (g !! c = Some None);
}.
#[export] Instance tables_laws : TablesLaws.
Proof.
  split; simpl.
  - done.
  - intros v e i w. rewrite lookup_insert. by repeat case_decide; subst.
  - intros n a s Hn. rewrite decide_True by done. eexists. split; [done|]. by simpl_map.
  - exists 0, [None]. split; [done|]. intros s. by exists 1, [None; Some s].
Qed.
(** The commands sent to the controllers. *)
#[export] Instance pic_log : Pics := {
  pics := list Z;
  pics_new := λ a b, [a; b];
  pics_initialize := λ l, 0x11%Z :: l;
  notify_end_of_interrupt := λ v l, v :: l;
}.
Definition static_stack : @Memory.VirtAddr Memory.Machine.paging := 0x200000%Z.
End Descriptors.
Import (hints) Descriptors Memory.Machine.

Lemma tables_ready_witness : ∃ m, (_ ← gdt_init Descriptors.static_stack; init_idt) (boot Vga.blank_screen) = (Ok tt, m) ∧
  (gdt_init Descriptors.static_stack m).1 = Panic UnwrapNone.
Proof.
  destruct (tables_ready Descriptors.static_stack Vga.blank_screen) as (m & Hrun & _ & _ & Hg & _); [by vm_compute..|].
  exists m. split; [exact Hrun|exact Hg].
Defined.
End Interrupts.
