(* ===== verification/Block.v ===== *)
(** * [device/block.rs] and [drivers/block]: block devices

    The interface has no client yet and its drivers no working transfer: the
    floppy driver announces its geometry and stops at [todo!()], and an
    implementation that leaves out an operation inherits one that refuses it. *)

From Stdlib Require Import Init.Byte.
From S2P Require Import Prelude.

Module Block.

Record BlockDeviceMetadata := { block_size : Z; total_blocks : Z }.
Inductive BlockDeviceIoError := OperationNotSupported | UnalignedOffset | OffsetOutOfBounds | MismatchedBlockSize.

(** [trait BlockDevice] for a device with the state [S]: a read gives the count and
    the buffer after it. *)
Class BlockDevice (S : Type) := {
  metadata : S → BlockDeviceMetadata;
  read : Z → list byte → M S BlockDeviceIoError (Z * list byte);
  write : Z → list byte → M S BlockDeviceIoError Z;
}.
(** The provided methods. *)
Definition default_read {S} (offset : Z) (buf : list byte) : M S BlockDeviceIoError (Z * list byte) :=
  fail OperationNotSupported.
Definition default_write {S} (offset : Z) (buf : list byte) : M S BlockDeviceIoError Z :=
  fail OperationNotSupported.

Record FloppyDisk := { drive_id : Z; direction : bool; step_index : Z }.
Definition FloppyDisk_new (drive_id : Z) : FloppyDisk :=
  {| drive_id := drive_id; direction := false; step_index := 0 |}.
Definition reset : M FloppyDisk BlockDeviceIoError unit := mret tt.
#[export] Instance floppy : BlockDevice FloppyDisk := {
  metadata := λ _, {| block_size := 512; total_blocks := 2880 |};
  read := λ _ _, panic Todo;
  write := λ _ _, panic Todo;
}.
End Block.
