(* ===== verification/Shell.v ===== *)
(** * [shell/mod.rs]: the line editor and the commands

    The shell keeps a line being typed, a history of lines and the decoder of the
    keyboard; it writes to the screen ([Vga]) and calls the virtual file system
    ([Vfs]).  Interfaces: the bounded string and deque of [heapless], the scancode
    decoder of [pc_keyboard], and [Debug] of characters outside ASCII
    ([Fmt.Unicode]). *)

From Stdlib Require Import Init.Byte.
From S2P Require Import Prelude Util Fmt FsTypes Fs Registry RamFs DevFs DirCache Path Vfs.
From S2P Require Import Parser Vga Interrupts.

(** ** [fs/mod.rs]: how a kind of node is displayed *)

(** [Display for FsNodeKind] *)
Definition display_kind (k : FsNodeKind.t) : string :=
  match k with
  | FsNodeKind.Directory => "d"
  | FsNodeKind.File => "-"
  | FsNodeKind.CharDevice => "c"
  | FsNodeKind.BlockDevice => "d"
  end.
(** [FsNodeKind::color_code] *)
Definition kind_color_code (k : FsNodeKind.t) : Z :=
  Vga.ColorCode_from match k with
  | FsNodeKind.Directory => Vga.LightBlue
  | FsNodeKind.File => Vga.White
  | FsNodeKind.CharDevice => Vga.Yellow
  | FsNodeKind.BlockDevice => Vga.LightCyan
  end.

Module Shell.

(** ** What the shell acts on: the file subsystem and the screen *)

(** [w_irqs] are the interrupts that print on the screen while the shell runs: those
    that come before each of its next accesses to the screen, none once the list is
    used up.  An access is atomic (it runs with interrupts disabled), and the rest
    of the shell does not look at the screen. *)
Record world := { w_fs : kernel; w_vga : Vga.t; w_irqs : list (list Interrupts.irq) }.
Abbreviation SM := (M world Empty_set).

Definition on_vga {A} (m : M Vga.t Empty_set A) : SM A := λ w,
  let '(r, v) := (_ ← Interrupts.irqs_print (default [] (head (w_irqs w))); m) (w_vga w) in
  (r, {| w_fs := w_fs w; w_vga := v; w_irqs := tail (w_irqs w) |}).
(** A call of the file system; its [Result] is a value for the caller to match. *)
Definition on_fs {A} (m : KM A) : SM (A + IoError) := λ w,
  match m (w_fs w) with
  | (Ok a, k) => (Ok (inl a), {| w_fs := k; w_vga := w_vga w; w_irqs := w_irqs w |})
  | (Err e, k) => (Ok (inr e), {| w_fs := k; w_vga := w_vga w; w_irqs := w_irqs w |})
  | (Panic p, k) => (Panic p, {| w_fs := k; w_vga := w_vga w; w_irqs := w_irqs w |})
  end.
(** [vfs::get().m(..)] *)
Definition vfs_call {A} (m : KM A) : SM (A + IoError) := on_fs (_ ← vfs_get; m).
(** [Result::unwrap] *)
Definition unwrap_result {A} (r : A + IoError) : SM A :=
  match r with inl a => mret a | inr _ => panic UnwrapErr end.
(** Reads of shared objects, and the drop of a reference, which cannot fail. *)
Definition peek {A} (m : KM A) : SM A := r ← on_fs m; unwrap_result r.

Definition print (s : string) : SM unit := on_vga (Vga.print s).
Definition println (s : string) : SM unit := on_vga (Vga.println s).
Definition with_color {A} (c : Z) (f : SM A) : SM A :=
  saved ← on_vga (Vga.swap_color c);
  res ← f;
  _ ← on_vga (Vga.swap_color saved);
  mret res.

(** ** Options *)

Definition starts_with (p s : string) : bool := String.prefix p s.

(** The loop over [arg.chars().skip(1)]; the flag is an ASCII character. *)
Fixpoint has_char (s : string) (flag : Ascii.ascii) : bool :=
  match s with
  | EmptyString => false
  | String c s' => bool_decide (c = flag) || has_char s' flag
  end.
Definition skip_char (s : string) : string := match s with EmptyString => "" | String _ s' => s' end.

Fixpoint has_boolean_option (args : list string) (flag : Ascii.ascii) : outcome Empty_set bool :=
  match args with
  | [] => Ok false
  | arg :: rest =>
      if negb (starts_with "-" arg) then has_boolean_option rest flag
      else if starts_with "--" arg then Panic Todo
      else if has_char (skip_char arg) flag then Ok true
      else has_boolean_option rest flag
  end.

Definition without_flags (args : list string) : list string :=
  filter (λ a, starts_with "-" a = false) args.

Definition lift_outcome {A} (r : outcome Empty_set A) : SM A := λ w,
  match r with Ok a => (Ok a, w) | Err e => match e with end | Panic p => (Panic p, w) end.

(** ** The commands *)

(** [for (i, arg) in args.iter().enumerate()] of [echo]. *)
Fixpoint echo_args (i len : nat) (args : list string) : SM unit :=
  match args with
  | [] => mret tt
  | arg :: rest =>
      _ ← print arg;
      _ ← (if decide (i < len - 1) then print " " else mret tt);
      echo_args (S i) len rest
  end.
Definition cmd_echo (args : list string) : SM unit :=
  _ ← echo_args 0 (length args) args; println "".

Definition CARGO_PKG_VERSION : string := "0.1.0".
Definition cmd_uname (args : list string) : SM unit :=
  _ ← print "Riptide";
  _ ← (if decide (head args = Some "-a") then print (" riptide " +:+ CARGO_PKG_VERSION +:+ " x86_64") else mret tt);
  println "".

Definition format_entry_short (show_node_ids : bool) (entry : DirectoryIterationEntry) : SM unit :=
  _ ← (if show_node_ids then print (Fmt.display_u64 (die_id entry) +:+ " ") else mret tt);
  with_color (kind_color_code (die_kind entry)) (println (die_name entry)).

Definition format_entry_long (show_node_ids : bool) (entry : loc) : SM unit :=
  de ← peek (get_entry entry);
  n ← peek (get_node (de_node de));
  _ ← (if show_node_ids then print (Fmt.display_u64 (node_id n) +:+ " ") else mret tt);
  let meta := node_metadata n in
  println (display_kind (node_kind n) +:+ "rw-r--r--@ 1 root root " +:+
    Fmt.pad_left 3 (Fmt.display_u64 (node_size meta)) +:+ " " +:+
    Fmt.pad_left 2 (Fmt.display_u64 (modified_at meta)) +:+ " " +:+ de_name de).

(** [for child in entries] of [ls], in the directory named [dir_name]. *)
Fixpoint ls_children (long show_node_ids : bool) (dir_name : string)
    (entries : list DirectoryIterationEntry) : SM unit :=
  match entries with
  | [] => mret tt
  | child :: rest =>
      _ ← (if long then
             let child_path :=
               if decide (dir_name = "/") then "/" +:+ die_name child
               else dir_name +:+ "/" +:+ die_name child in
             r ← vfs_call (stat child_path);
             c ← unwrap_result r;
             _ ← format_entry_long show_node_ids c;
             peek (arc_drop c)
           else format_entry_short show_node_ids child);
      ls_children long show_node_ids dir_name rest
  end.

Definition cmd_ls (args : list string) : SM unit :=
  let path := default "/" (last (without_flags args)) in
  all ← lift_outcome (has_boolean_option args "a"%char);
  long ← lift_outcome (has_boolean_option args "l"%char);
  human_readable ← lift_outcome (has_boolean_option args "h"%char);
  show_node_ids ← lift_outcome (has_boolean_option args "i"%char);
  r ← vfs_call (stat path);
  match r with
  | inr EntryNotFound => println ("ls: " +:+ path +:+ ": No such file or directory")
  | inr _ => panic Todo
  | inl e =>
      de ← peek (get_entry e);
      n ← peek (get_node (de_node de));
      _ ← (if is_directory n then
             r ← vfs_call (read_directory path);
             match r with
             | inl ctx => ls_children long show_node_ids (de_name de) (DirectoryIterationContext_into_iter ctx)
             | inr _ => panic Todo
             end
           else if long : bool then format_entry_long show_node_ids e
           else d ← peek (DirectoryIterationEntry_from e); format_entry_short show_node_ids d);
      peek (arc_drop e)
  end.

Definition cmd_cat (args : list string) : SM unit :=
  match head args with
  | None => println "error: no path provided"
  | Some path =>
      r ← vfs_call (open path FileMode.Read);
      f ← unwrap_result r;
      r ← vfs_call (read f (replicate 512 x00));
      b ← unwrap_result r;
      data ← (if decide (Z.to_nat b.1 ≤ length b.2) then mret (take (Z.to_nat b.1) b.2) else panic OutOfBounds);
      println (Fmt.str (Fmt.from_utf8_lossy data))
  end.

Definition cmd_touch (args : list string) : SM unit :=
  match head args with
  | None => println "error: no path provided"
  | Some path =>
      r ← vfs_call (open path FileMode.Write);
      f ← unwrap_result r;
      r ← vfs_call (close f);
      unwrap_result r
  end.

Definition cmd_mkdir (args : list string) : SM unit :=
  match last (without_flags args) with
  | None => println "error: no path provided"
  | Some path =>
      r ← vfs_call (create_directory path);
      match r with
      | inl e => peek (arc_drop e)
      | inr _ => panic ExplicitPanic
      end
  end.

(** The [match args.pop_front()]; [true] is [return true]. *)
Definition execute (args : list string) : SM bool :=
  match args with
  | [] => mret false
  | cmd :: args =>
      if decide (cmd = "help") then _ ← println "TODO: insert a help message here"; mret false
      else if decide (cmd = "whoami") then _ ← println "root"; mret false
      else if decide (cmd = "echo" ∨ cmd = "print") then _ ← cmd_echo args; mret false
      else if decide (cmd = "pwd") then _ ← println "/"; mret false
      else if decide (cmd = "uname") then _ ← cmd_uname args; mret false
      else if decide (cmd = "ls") then _ ← cmd_ls args; mret false
      else if decide (cmd = "cat") then _ ← cmd_cat args; mret false
      else if decide (cmd = "touch") then _ ← cmd_touch args; mret false
      else if decide (cmd = "mkdir") then _ ← cmd_mkdir args; mret false
      else if decide (cmd = "rm" ∨ cmd = "realpath" ∨ cmd = "basename" ∨ cmd = "cd") then
        _ ← println "error: not implemented yet"; mret false
      else if decide (cmd = "exit") then mret true
      else _ ← println ("command not found: " +:+ cmd); mret false
  end.

(** [for token in Parser::new(input)]; the fuel is enough for any line. *)
Definition parse_args (input : string) : SM (list string) := λ w,
  match Parser.new input with
  | Ok p =>
      match Parser.collect (S (String.length input)) p with
      | Some (Ok toks) => (Ok (Fmt.str <$> toks), w)
      | Some (Panic q) => (Panic q, w)
      | Some (Err _) | None => (Panic Unreachable, w)
      end
  | Err _ => (Panic Unreachable, w)
  | Panic q => (Panic q, w)
  end.

Section commands.
Context `{!Fmt.Unicode}.

Definition light_gray : Z := Vga.ColorCode_from Vga.LightGray.
(** The characters of the line are given; [input] is their UTF-8 encoding. *)
Definition parse_and_execute (line : list Z) : SM bool :=
  let input := Fmt.str (Fmt.utf8 line) in
  _ ← with_color light_gray (println ("input: " +:+ Fmt.debug_str line));
  args ← parse_args input;
  _ ← with_color light_gray (println ("args: " +:+ Fmt.debug_list args));
  execute args.
End commands.

(** ** The line editor *)

Definition get_prompt : string := "root@riptide> ".
Definition INPUT_BUFFER_LEN : nat := Vga.BUFFER_WIDTH - String.length get_prompt - 1.
Definition HISTORY_LEN : nat := 16.

(** [heapless::String<N>] *)
Class HeaplessString := {
  hstring : Type;
  hs_new : nat → hstring;
  hs_push : Z → hstring → option hstring;
  hs_pop : hstring → hstring;
  hs_clear : hstring → hstring;
  hs_chars : hstring → list Z;
  hs_capacity : hstring → nat;
}.
Class HeaplessStringLaws `{HeaplessString} := {
  hs_new_spec n : hs_chars (hs_new n) = [] ∧ hs_capacity (hs_new n) = n;
  hs_push_spec c s : length (Fmt.utf8 (hs_chars s)) + Fmt.len_utf8 c ≤ hs_capacity s →
    ∃ s', hs_push c s = Some s' ∧ hs_chars s' = hs_chars s ++ [c] ∧ hs_capacity s' = hs_capacity s;
  hs_push_full c s : hs_capacity s < length (Fmt.utf8 (hs_chars s)) + Fmt.len_utf8 c → hs_push c s = None;
  hs_pop_spec s : hs_chars (hs_pop s) = take (length (hs_chars s) - 1) (hs_chars s) ∧
    hs_capacity (hs_pop s) = hs_capacity s;
  hs_clear_spec s : hs_chars (hs_clear s) = [] ∧ hs_capacity (hs_clear s) = hs_capacity s;
}.

(** [heapless::Deque<T, N>] *)
Class Deque (T : Type) := {
  deque : Type;
  dq_new : nat → deque;
  dq_is_full : deque → bool;
  dq_pop_back : deque → deque;
  dq_push_front : T → deque → option deque;
  dq_items : deque → list T;
  dq_capacity : deque → nat;
}.
Arguments deque T {_}.
Class DequeLaws T `{Deque T} := {
  dq_new_spec n : dq_items (dq_new n) = [] ∧ dq_capacity (dq_new n) = n;
  dq_is_full_spec d : dq_is_full d = bool_decide (length (dq_items d) = dq_capacity d);
  dq_pop_back_spec d : dq_items (dq_pop_back d) = take (length (dq_items d) - 1) (dq_items d) ∧
    dq_capacity (dq_pop_back d) = dq_capacity d;
  dq_push_front_spec x d : length (dq_items d) < dq_capacity d →
    ∃ d', dq_push_front x d = Some d' ∧ dq_items d' = x :: dq_items d ∧ dq_capacity d' = dq_capacity d;
  dq_bounded d : length (dq_items d) ≤ dq_capacity d;
}.

(** [pc_keyboard]: [add_byte] ([Ok(Some(..))] or not), [process_keyevent] and
    [get_modifiers().is_ctrl()]. *)
Inductive DecodedKey := Unicode (character : Z) | RawKey.
Class KeyDecoder := {
  decoder : Type;
  KeyEvent : Type;
  kd_new : decoder;
  add_byte : Z → decoder → option KeyEvent * decoder;
  process_keyevent : KeyEvent → decoder → option DecodedKey * decoder;
  is_ctrl : decoder → bool;
}.

Section editor.
Context `{!Fmt.Unicode, !HeaplessString, !Deque hstring, !KeyDecoder}.

(** The locals of [run]. *)
Record t := {
  keyboard : decoder;
  history : deque hstring;
  input_buffer : hstring;
  cursor_position : Z;
  sys : world;
}.
Abbreviation RM := (M t Empty_set).
Definition set_keyboard (k : decoder) (s : t) : t :=
  {| keyboard := k; history := history s; input_buffer := input_buffer s;
     cursor_position := cursor_position s; sys := sys s |}.
Definition set_history (h : deque hstring) (s : t) : t :=
  {| keyboard := keyboard s; history := h; input_buffer := input_buffer s;
     cursor_position := cursor_position s; sys := sys s |}.
Definition set_input (i : hstring) (s : t) : t :=
  {| keyboard := keyboard s; history := history s; input_buffer := i;
     cursor_position := cursor_position s; sys := sys s |}.
Definition set_cursor (c : Z) (s : t) : t :=
  {| keyboard := keyboard s; history := history s; input_buffer := input_buffer s;
     cursor_position := c; sys := sys s |}.
Definition on_sys {A} (m : SM A) : RM A := λ s,
  let '(r, w) := m (sys s) in
  (r, {| keyboard := keyboard s; history := history s; input_buffer := input_buffer s;
         cursor_position := cursor_position s; sys := w |}).

(** Addition of [u8] under overflow checks. *)
Definition checked_add_u8 {S} (a b : Z) : M S Empty_set Z :=
  if decide (a + b ≤ 255)%Z then mret (a + b)%Z else panic ArithOverflow.

Definition prompt_len : Z := Z.of_nat (String.length get_prompt).
Definition bottom_row : Z := Z.of_nat Vga.BUFFER_HEIGHT - 1.
Definition print_prompt : SM unit :=
  _ ← print get_prompt;
  on_vga (Vga.set_cursor_position prompt_len bottom_row).

(** [if history.is_full() { pop_back } push_front(..).unwrap()] *)
Definition push_history : RM unit :=
  h ← gets history;
  _ ← (if dq_is_full h then modify (set_history (dq_pop_back h)) else mret tt);
  h ← gets history;
  line ← gets input_buffer;
  h' ← unwrap UnwrapErr (dq_push_front line h);
  modify (set_history h').

Definition key_enter : RM bool :=
  _ ← on_sys (println "");
  line ← gets input_buffer;
  exit ← on_sys (parse_and_execute (hs_chars line));
  if exit : bool then _ ← on_sys (on_vga Vga.disable_cursor); mret true
  else
    _ ← on_sys print_prompt;
    _ ← push_history;
    _ ← modify (λ s, set_input (hs_clear (input_buffer s)) s);
    _ ← modify (set_cursor 0);
    mret false.

(** [for _ in start..BUFFER_WIDTH { print!(" ") }] *)
Fixpoint print_spaces (n : nat) : SM unit :=
  match n with 0 => mret tt | S n' => _ ← print " "; print_spaces n' end.

Definition key_backspace : RM bool :=
  k ← gets keyboard;
  _ ← (if is_ctrl k then
         _ ← modify (λ s, set_input (hs_clear (input_buffer s)) s); modify (set_cursor 0)
       else
         _ ← modify (λ s, set_input (hs_pop (input_buffer s)) s);
         modify (λ s, set_cursor (Z.max 0 (cursor_position s - 1)) s));
  cursor ← gets cursor_position;
  col ← checked_add_u8 prompt_len cursor;
  _ ← on_sys (on_vga (Vga.set_column_position col));
  _ ← on_sys (print_spaces (Vga.BUFFER_WIDTH - (String.length get_prompt + Z.to_nat cursor)));
  _ ← on_sys (on_vga (Vga.set_column_position col));
  _ ← on_sys (on_vga (Vga.set_cursor_position col bottom_row));
  mret false.

Definition key_character (character : Z) : RM bool :=
  line ← gets input_buffer;
  match hs_push character line with
  | None => mret false
  | Some line' =>
      _ ← modify (set_input line');
      cursor ← gets cursor_position;
      cursor ← checked_add_u8 cursor 1;
      _ ← modify (set_cursor cursor);
      _ ← on_sys (print (Fmt.str (Fmt.encode_utf8 character)));
      col ← checked_add_u8 prompt_len cursor;
      _ ← on_sys (on_vga (Vga.set_cursor_position col bottom_row));
      mret false
  end.

Definition handle_key (key : DecodedKey) : RM bool :=
  match key with
  | Unicode character =>
      if decide (character = 10)%Z then key_enter
      else if decide (character = 8)%Z then key_backspace
      else key_character character
  | RawKey => mret false
  end.

(** The body of [while let Some(scancode) = scancodes.next().await]. *)
Definition handle_scancode (scancode : Z) : RM bool :=
  k ← gets keyboard;
  let '(oe, k') := add_byte scancode k in
  _ ← modify (set_keyboard k');
  match oe with
  | None => mret false
  | Some key_event =>
      let '(ok, k'') := process_keyevent key_event k' in
      _ ← modify (set_keyboard k'');
      match ok with
      | None => mret false
      | Some key => handle_key key
      end
  end.

(** [run] up to its loop; [data_read] is what the cursor's data port returns. *)
Definition run_start (data_read : list (Z * Z) → Z) (w : world) : outcome Empty_set unit * t :=
  (_ ← on_sys (on_vga (Vga.enable_cursor data_read 13 15)); on_sys print_prompt)
    {| keyboard := kd_new; history := dq_new HISTORY_LEN; input_buffer := hs_new INPUT_BUFFER_LEN;
       cursor_position := 0; sys := w |}.

(** The scancodes of a session, until the shell returns. *)
Fixpoint run_scancodes (scs : list Z) : RM bool :=
  match scs with
  | [] => mret false
  | sc :: scs' => exit ← handle_scancode sc; if exit : bool then mret true else run_scancodes scs'
  end.
End editor.
End Shell.
