(* ===== verification/ShellFs.v ===== *)
(** * The commands keep the system in order

    [SmSpec pre m post] is what running a piece of the shell guarantees: from a
    file subsystem that satisfies its invariants and a well-formed screen, it ends
    in such a state or in one of the panics a command can cause.  [pre] and [post]
    are the entry references the code holds before and after, so that nothing
    leaks.  File-system calls enter through the interface [FsCall]. *)

From Stdlib Require Import Init.Byte.
From S2P Require Import Prelude Util Fmt FsTypes Fs Registry RamFs DevFs DirCache Path Vfs.
From S2P Require Import VfsFrame VfsInv VfsDirs VfsFiles VfsReach VfsCalls Parser Vga VgaText Interrupts Shell.

Module ShellFs.
Import Shell.

(** The panics a command can cause: those of a file-system call, an unwrapped
    error, and [panic!] in [mkdir]. *)
Definition shell_panic (p : PanicKind) : Prop := known_panic p ∨ p = UnwrapErr ∨ p = ExplicitPanic.

Record world_ok (w : world) : Prop := {
  wo_fs : sys_ok (w_fs w);
  wo_vga : Vga.wf (w_vga w);
}.

Class SmSpec {A} (pre : list loc) (m : SM A) (post : A → list loc) : Prop := {
  sm_counts w r w' : m w = (r, w') → counts_le (w_fs w) (w_fs w');
  sm_ok w r w' h : world_ok w → held (w_fs w) = pre ++ h → m w = (r, w') → no_wrap (w_fs w') →
    match r with
    | Ok a => world_ok w' ∧ held (w_fs w') = post a ++ h
    | Err e => False
    | Panic p => shell_panic p
    end;
}.

(** ** Composition *)

#[export] Instance sm_ret {A} pre (a : A) : SmSpec pre (mret a) (λ _, pre).
Proof. split; [by intros w r w' [= _ <-]|]. by intros w r w' h Hw Hh [= <- <-]. Qed.

Lemma sm_panic {A} pre p (post : A → list loc) : shell_panic p → SmSpec pre (panic p) post.
Proof. intros Hp. split; [by intros w r w' [= _ <-]|]. by intros w r w' h Hw Hh [= <- <-]. Qed.

Lemma sm_bind {A B} pre (m : SM A) mid (f : A → SM B) post :
  SmSpec pre m mid → (∀ a, SmSpec (mid a) (f a) post) → SmSpec pre (m ≫= f) post.
Proof.
  intros [Hmc Hm] Hf. split.
  - intros w r w' [(a & w1 & H1 & H2)|[([] & _)|(p & H1 & _)]]%mbind_ok; [|by eapply Hmc].
    etrans; [by eapply Hmc|by eapply (sm_counts (SmSpec := Hf a))].
  - intros w r w' h Hw Hh [(a & w1 & H1 & H2)|[([] & _)|(p & H1 & ->)]]%mbind_ok Hwrap.
    + assert (Hwrap1 : no_wrap (w_fs w1)).
      { eapply counts_le_no_wrap; [|done]. by eapply (sm_counts (SmSpec := Hf a)). }
      destruct (Hm w (Ok a) w1 h Hw Hh H1 Hwrap1) as [Hw1 Hh1]. by eapply (sm_ok (SmSpec := Hf a)).
    + exact (Hm w (Panic p) w' h Hw Hh H1 Hwrap).
Qed.

(** A continuation that ignores a result without references. *)
Lemma sm_seq {A B} pre (m : SM A) (f : A → SM B) post :
  SmSpec pre m (λ _, pre) → (∀ a, SmSpec pre (f a) post) → SmSpec pre (m ≫= f) post.
Proof. apply sm_bind. Qed.

(** ** The screen *)

(** An access to the screen, with the interrupts before it. *)
Lemma on_vga_total {A} (m : M Vga.t Empty_set A) w : Vga.wf (w_vga w) →
  (∀ v, Vga.wf v → ∃ a v', m v = (Ok a, v') ∧ Vga.wf v') →
  ∃ a v, on_vga m w = (Ok a, {| w_fs := w_fs w; w_vga := v; w_irqs := tail (w_irqs w) |}) ∧ Vga.wf v.
Proof.
  intros Hv Hm. unfold on_vga.
  destruct (Interrupts.irqs_print_total (default [] (head (w_irqs w))) _ Hv) as (v1 & H1 & Hv1 & _).
  destruct (Hm _ Hv1) as (a & v & H2 & Hv2). exists a, v. by rewrite (mbind_run _ _ _ _ _ H1), H2.
Qed.

Lemma sm_vga {A} pre (m : M Vga.t Empty_set A) :
  (∀ v, Vga.wf v → ∃ a v', m v = (Ok a, v') ∧ Vga.wf v') → SmSpec pre (on_vga m) (λ _, pre).
Proof.
  intros Hm. split.
  - intros w r w'. unfold on_vga. destruct ((_ ← Interrupts.irqs_print _; m) (w_vga w)) as [o v]. by intros [= _ <-].
  - intros w r w' h [Hfs Hv] Hh Hrun _. destruct (on_vga_total m w Hv Hm) as (a & v & Ha & Hv').
    rewrite Ha in Hrun. by injection Hrun as <- <-.
Qed.
#[export] Instance sm_print pre s : SmSpec pre (print s) (λ _, pre).
Proof. apply sm_vga. intros v (v' & ? & ? & _)%(VgaText.print_total s). eauto. Qed.
#[export] Instance sm_println pre s : SmSpec pre (println s) (λ _, pre).
Proof. apply sm_vga. intros v (v' & ? & Hf & _)%(VgaText.println_fresh s). exists tt, v'. split; [done|apply Hf]. Qed.
#[export] Instance sm_swap_color pre c : SmSpec pre (on_vga (Vga.swap_color c)) (λ _, pre).
Proof. apply sm_vga. intros v [Hg Hc]. eexists _, _. split; [reflexivity|]. by split. Qed.

Lemma sm_with_color {A} pre c (f : SM A) : SmSpec pre f (λ _, pre) → SmSpec pre (with_color c f) (λ _, pre).
Proof. intros Hf. apply sm_seq; [apply _|]. intros s. apply sm_seq; [done|]. intros a. apply sm_seq; apply _. Qed.

(** ** The file system *)

Lemma on_fs_counts {A} (m : KM A) w r w' : Respects counts_le m → on_fs m w = (r, w') →
  counts_le (w_fs w) (w_fs w').
Proof.
  intros Hm. unfold on_fs. destruct (m (w_fs w)) as [o k] eqn:Hk. apply Hm in Hk.
  by destruct o; intros [= _ <-].
Qed.

Definition keep_result {A} (keep : A → list loc) (r : A + IoError) : list loc :=
  match r with inl a => keep a | inr _ => [] end.

Lemma sm_vfs_call {A} pre (m : KM A) keep : FsCall m keep →
  SmSpec pre (vfs_call m) (λ r, keep_result keep r ++ pre).
Proof.
  intros [Hc Hm]. split.
  - intros w r w'. apply on_fs_counts. apply _.
  - intros w r w' h [Hfs Hv] Hh. unfold vfs_call, on_fs.
    assert (Hget : (_ ← vfs_get; m) (w_fs w) = m (w_fs w)).
    { unfold vfs_get, mbind, M_bind, gets. by rewrite (inv_ready _ (vo_inv _ (so_vfs _ Hfs))). }
    rewrite Hget. destruct (m (w_fs w)) as [o k] eqn:Hk. specialize (Hm _ _ _ Hfs Hk).
    destruct o as [a|e|p]; intros [= <- <-] Hwrap; specialize (Hm Hwrap); simpl in *.
    + destruct Hm as [? ->]. rewrite Hh, <- app_assoc. by split.
    + destruct Hm as [? ->]. by split.
    + by left.
Qed.


(** Reads of a held entry. *)
Lemma peek_run {A} (m : KM A) a w : m (w_fs w) = (Ok a, w_fs w) → peek m w = (Ok a, w).
Proof.
  intros Hm. unfold peek, on_fs, mbind, M_bind. rewrite Hm. simpl. by destruct w.
Qed.

Lemma peek_counts {A} (m : KM A) w r w' : Respects counts_le m → peek m w = (r, w') →
  counts_le (w_fs w) (w_fs w').
Proof.
  intros Hm Hrun. unfold peek in Hrun. apply mbind_ok in Hrun as [(a & w1 & H1 & H2)|[([] & _)|(p & H1 & _)]].
  - apply on_fs_counts in H1; [|done]. destruct a; injection H2 as _ <-; done.
  - by apply on_fs_counts in H1.
Qed.

Lemma sm_entry_node {A} pre e (f : DirectoryEntry → FsNode → SM A) post : e ∈ pre →
  (∀ de n, SmSpec pre (f de n) post) →
  SmSpec pre (de ← peek (get_entry e); n ← peek (get_node (de_node de)); f de n) post.
Proof.
  intros Hin Hf. split.
  - intros w r w' [(de & w1 & H1 & H2)|[([] & _)|(p & H1 & _)]]%mbind_ok.
    + apply peek_counts in H1; [|apply _]. etrans; [done|].
      apply mbind_ok in H2 as [(n & w2 & H2 & H3)|[([] & _)|(p & H2 & _)]].
      * apply peek_counts in H2; [|apply _]. etrans; [done|]. by eapply (sm_counts (SmSpec := Hf de n)).
      * by apply peek_counts in H2; [|apply _].
    + by apply peek_counts in H1; [|apply _].
  - intros w r w' h Hw Hh Hrun Hwrap.
    destruct (held_entry (w_fs w) e) as (de & n & He & Hn); [apply Hw|rewrite Hh; set_solver|].
    assert (H1 : peek (get_entry e) w = (Ok de, w)).
    { apply peek_run. unfold get_entry. rewrite mbind_gets, He. done. }
    assert (H2 : peek (get_node (de_node de)) w = (Ok n, w)).
    { apply peek_run. unfold get_node. rewrite mbind_gets, Hn. done. }
    rewrite (mbind_run _ _ _ _ _ H1), (mbind_run _ _ _ _ _ H2) in Hrun.
    by eapply (sm_ok (SmSpec := Hf de n)).
Qed.

Lemma sm_iteration_entry pre e : e ∈ pre → SmSpec pre (peek (DirectoryIterationEntry_from e)) (λ _, pre).
Proof.
  intros Hin. split.
  - intros w r w' Hrun. eapply peek_counts; [|done]. unfold DirectoryIterationEntry_from. apply _.
  - intros w r w' h Hw Hh Hrun Hwrap.
    destruct (held_entry (w_fs w) e) as (de & n & He & Hn); [apply Hw|rewrite Hh; set_solver|].
    assert (H1 : ∃ d, peek (DirectoryIterationEntry_from e) w = (Ok d, w)).
    { eexists. apply peek_run. unfold DirectoryIterationEntry_from, get_entry, get_node.
      unfold mbind, M_bind, gets, unwrap. rewrite He. simpl. by rewrite Hn. }
    destruct H1 as [d H1]. rewrite H1 in Hrun. by injection Hrun as <- <-.
Qed.

Lemma sm_drop pre e : SmSpec (e :: pre) (peek (arc_drop e)) (λ _, pre).
Proof.
  split.
  - intros w r w' Hrun. eapply peek_counts; [|done]. apply respects_modify. intros k. unfold counts_le. simpl. lia.
  - intros w r w' h [Hfs Hv] Hh Hrun Hwrap. destruct (arc_drop_ok _ _ _ Hfs Hh) as (k' & Hk & Hok & Hh' & _).
    unfold peek, on_fs, mbind, M_bind in Hrun. rewrite Hk in Hrun. by injection Hrun as <- <-.
Qed.

Lemma sm_ext {A} pre (m m' : SM A) post : (∀ w, m' w = m w) → SmSpec pre m post → SmSpec pre m' post.
Proof. intros Heq [Hc Hm]. split; intros w r w'; rewrite Heq; [apply Hc|apply Hm]. Qed.

(** [vfs::get().m(..).unwrap()] *)
Lemma sm_vfs_unwrap {A B} pre (m : KM A) keep (f : A → SM B) post : FsCall m keep →
  (∀ a, SmSpec (keep a ++ pre) (f a) post) →
  SmSpec pre (r ← vfs_call m; a ← unwrap_result r; f a) post.
Proof.
  intros Hm Hf. eapply sm_bind; [by apply sm_vfs_call|]. intros [a|e]; simpl.
  - by apply (sm_ext _ (f a)).
  - apply (sm_ext _ (panic UnwrapErr)); [done|]. apply sm_panic. right. by left.
Qed.

(** ** The commands *)

Lemma shell_panic_todo : shell_panic Todo.
Proof. left. by left. Qed.

Lemma sm_option pre args flag : SmSpec pre (lift_outcome (has_boolean_option args flag)) (λ _, pre).
Proof.
  assert (Hp : ∀ p, has_boolean_option args flag = Panic p → p = Todo).
  { induction args as [|arg args IH]; intros p; simpl; [done|].
    destruct (negb _); [by apply IH|]. destruct (starts_with "--" arg); [by intros [= <-]|].
    destruct (has_char _ _); [done|by apply IH]. }
  unfold lift_outcome. split.
  - intros w r w'. by destruct (has_boolean_option args flag) as [|[]|]; intros [= _ <-].
  - intros w r w' h Hw Hh. destruct (has_boolean_option args flag) as [b|[]|p]; intros [= <- <-] _; [done|].
    rewrite (Hp p) by done. apply shell_panic_todo.
Qed.

Lemma sm_echo_args pre args : ∀ i len, SmSpec pre (echo_args i len args) (λ _, pre).
Proof.
  induction args as [|arg args IH]; intros i len; simpl; [apply _|].
  apply sm_seq; [apply _|]. intros _. apply sm_seq; [case_decide; apply _|]. intros _. apply IH.
Qed.
Lemma sm_echo pre args : SmSpec pre (cmd_echo args) (λ _, pre).
Proof. apply sm_seq; [apply sm_echo_args|]. intros _. apply _. Qed.
Lemma sm_uname pre args : SmSpec pre (cmd_uname args) (λ _, pre).
Proof. apply sm_seq; [apply _|]. intros _. apply sm_seq; [case_decide; apply _|]. intros _. apply _. Qed.

Lemma sm_entry_short pre ids d : SmSpec pre (format_entry_short ids d) (λ _, pre).
Proof.
  apply sm_seq; [destruct ids; apply _|]. intros _. apply sm_with_color. apply _.
Qed.
Lemma sm_entry_long pre ids e : e ∈ pre → SmSpec pre (format_entry_long ids e) (λ _, pre).
Proof.
  intros Hin. apply sm_entry_node; [done|]. intros de n.
  apply sm_seq; [destruct ids; apply _|]. intros _. apply _.
Qed.

Lemma sm_ls_children pre long ids dir l : SmSpec pre (ls_children long ids dir l) (λ _, pre).
Proof.
  induction l as [|d l IH]; simpl; [apply _|]. apply sm_seq; [|by intros _].
  destruct long; [|apply sm_entry_short].
  apply (sm_vfs_unwrap _ _ (λ e, [e])); [apply _|]. intros c. simpl.
  apply sm_seq; [apply sm_entry_long; by left|]. intros _. apply sm_drop.
Qed.

(** The rest of [ls], once its argument has been found. *)
Definition ls_entry (long ids : bool) (path : string) (e : loc) : SM unit :=
  de ← peek (get_entry e);
  n ← peek (get_node (de_node de));
  _ ← (if is_directory n then
         r ← vfs_call (read_directory path);
         match r with
         | inl ctx => ls_children long ids (de_name de) (DirectoryIterationContext_into_iter ctx)
         | inr _ => panic Todo
         end
       else if long : bool then format_entry_long ids e
       else d ← peek (DirectoryIterationEntry_from e); format_entry_short ids d);
  peek (arc_drop e).
Lemma sm_ls_entry long ids path e : SmSpec [e] (ls_entry long ids path e) (λ _, []).
Proof.
  apply sm_entry_node; [by left|]. intros de n. apply (sm_bind _ _ (λ _, [e])); [|intros _; apply sm_drop].
  destruct (is_directory n).
  - eapply sm_bind; [apply (sm_vfs_call _ _ (λ _, [])), _|]. intros [ctx|e']; simpl.
    + apply sm_ls_children.
    + apply sm_panic, shell_panic_todo.
  - destruct long; [apply sm_entry_long; by left|].
    apply sm_seq; [apply sm_iteration_entry; by left|]. intros d. apply sm_entry_short.
Qed.
Lemma sm_ls args : SmSpec [] (cmd_ls args) (λ _, []).
Proof.
  unfold cmd_ls. do 4 (apply sm_seq; [apply sm_option|]; intros ?).
  eapply sm_bind; [apply (sm_vfs_call _ _ (λ e, [e])), _|]. intros [e|e]; simpl; [apply sm_ls_entry|].
  destruct e; try apply _; apply sm_panic, shell_panic_todo.
Qed.

Lemma sm_call_unwrap {A} pre (m : KM A) : FsCall m (λ _, []) →
  SmSpec pre (r ← vfs_call m; unwrap_result r) (λ _, pre).
Proof.
  intros Hm. apply (sm_ext _ (r ← vfs_call m; a ← unwrap_result r; mret a)).
  - intros w. unfold mbind, M_bind. destruct (vfs_call m w) as [[[a|e]| |] w1]; done.
  - apply (sm_vfs_unwrap _ _ (λ _, [])); apply _.
Qed.

Lemma sm_touch args : SmSpec [] (cmd_touch args) (λ _, []).
Proof.
  unfold cmd_touch. destruct (head args) as [path|]; [|apply _].
  apply (sm_vfs_unwrap _ _ (λ _, [])); [apply _|]. intros f. apply sm_call_unwrap, _.
Qed.

Lemma sm_mkdir args : SmSpec [] (cmd_mkdir args) (λ _, []).
Proof.
  unfold cmd_mkdir. destruct (last (without_flags args)) as [path|]; [|apply _].
  eapply sm_bind; [apply (sm_vfs_call _ _ (λ e, [e])), _|]. intros [e|e]; simpl.
  - apply sm_drop.
  - apply sm_panic. right. by right.
Qed.

(** A continuation that relies on a fact about the result. *)
Lemma sm_bind_pure {A B} pre (m : SM A) mid (Q : A → Prop) (f : A → SM B) post :
  SmSpec pre m mid → (∀ w a w', world_ok w → m w = (Ok a, w') → Q a) →
  (∀ a w r w', f a w = (r, w') → counts_le (w_fs w) (w_fs w')) →
  (∀ a, Q a → SmSpec (mid a) (f a) post) → SmSpec pre (m ≫= f) post.
Proof.
  intros [Hmc Hm] HQ Hfc Hf. split.
  - intros w r w' [(a & w1 & H1 & H2)|[([] & _)|(p & H1 & _)]]%mbind_ok; [|by eapply Hmc].
    etrans; [by eapply Hmc|by eapply Hfc].
  - intros w r w' h Hw Hh [(a & w1 & H1 & H2)|[([] & _)|(p & H1 & ->)]]%mbind_ok Hwrap.
    + assert (Hwrap1 : no_wrap (w_fs w1)) by (eapply counts_le_no_wrap; [by eapply Hfc|done]).
      destruct (Hm w (Ok a) w1 h Hw Hh H1 Hwrap1) as [Hw1 Hh1].
      by eapply (sm_ok (SmSpec := Hf a (HQ _ _ _ Hw H1))).
    + exact (Hm w (Panic p) w' h Hw Hh H1 Hwrap).
Qed.

(** The rest of [cat], after the read. *)
Definition cat_print (r : (Z * list byte) + IoError) : SM unit :=
  b ← unwrap_result r;
  data ← (if decide (Z.to_nat b.1 ≤ length b.2) then mret (take (Z.to_nat b.1) b.2) else panic OutOfBounds);
  println (Fmt.str (Fmt.from_utf8_lossy data)).

Lemma cat_print_ok r : (∀ b, r = inl b → Z.to_nat b.1 ≤ length b.2) → SmSpec [] (cat_print r) (λ _, []).
Proof.
  intros Hb. destruct r as [b|e].
  - apply (sm_ext _ (println (Fmt.str (Fmt.from_utf8_lossy (take (Z.to_nat b.1) b.2))))); [|apply _].
    intros w. unfold cat_print. simpl. rewrite mbind_ret. by rewrite decide_True by (by apply Hb).
  - apply (sm_ext _ (panic UnwrapErr)); [done|]. apply sm_panic. right. by left.
Qed.

Definition cat_read (f : Z) : SM unit := r ← vfs_call (read f (replicate 512 x00)); cat_print r.
Lemma sm_cat_read f : SmSpec [] (cat_read f) (λ _, []).
Proof.
  apply (sm_bind_pure _ _ (λ r, keep_result (λ _, []) r ++ []) (λ r, ∀ b, r = inl b → Z.to_nat b.1 ≤ length b.2)
    cat_print).
  - apply sm_vfs_call, _.
  - intros w r w' [Hfs _] Hrun b ->. unfold vfs_call, on_fs in Hrun.
    destruct ((_ ← vfs_get; read f _) (w_fs w)) as [[r|e|p] k] eqn:Hr; [|done..].
    assert (Hr' : read f (replicate 512 x00) (w_fs w) = (Ok r, k)).
    { unfold vfs_get, mbind at 1, M_bind at 1, mbind at 1, M_bind at 1, gets at 1 in Hr.
      by rewrite (inv_ready _ (vo_inv _ (so_vfs _ Hfs))) in Hr. }
    injection Hrun as <- _. destruct r as [c out]. apply read_fits in Hr' as [Hl Hc]; [|done].
    simpl. rewrite Hl. lia.
  - intros r w o w' Hrun. unfold cat_print in Hrun. destruct r as [b|e]; [|by injection Hrun as _ <-].
    simpl in Hrun. rewrite mbind_ret in Hrun. case_decide; [|by injection Hrun as _ <-].
    rewrite mbind_ret in Hrun. by eapply (sm_counts (SmSpec := sm_println [] _)).
  - intros [b|e] Hb; simpl; by apply cat_print_ok.
Qed.

Lemma sm_cat args : SmSpec [] (cmd_cat args) (λ _, []).
Proof.
  unfold cmd_cat. destruct (head args) as [path|]; [|apply _].
  apply (sm_vfs_unwrap _ _ (λ _, [])); [apply _|]. intros f. apply sm_cat_read.
Qed.

Lemma sm_execute args : SmSpec [] (execute args) (λ _, []).
Proof.
  destruct args as [|cmd args]; [apply _|]. unfold execute.
  repeat case_decide; try (apply sm_seq; [|by intros _; apply _]);
    first [apply _|apply sm_echo|apply sm_uname|apply sm_ls|apply sm_cat|apply sm_touch|apply sm_mkdir].
Qed.

(** The tokens of an ASCII line; [Parser::new] refuses any other. *)
Lemma parse_args_run input w : parse_args input w =
  (if is_ascii input then Ok (Fmt.str <$> Parser.tokens (Fmt.bytes_of input) [] false) else Panic AssertFailed, w).
Proof.
  unfold parse_args, Parser.new. destruct (is_ascii input); [|done].
  fold (Fmt.bytes_of input). pose proof (Fmt.length_bytes_of input) as Hl.
  rewrite Parser.collect_spec; [|cbn [Parser.input Parser.position]; lia..]. by rewrite drop_0.
Qed.

#[export] Instance sm_parse_args pre input : SmSpec pre (parse_args input) (λ _, pre).
Proof.
  destruct (is_ascii input) eqn:Ha.
  - eapply sm_ext; [|apply sm_ret]. intros w. by rewrite parse_args_run, Ha.
  - eapply sm_ext; [|apply (sm_panic _ AssertFailed); left; unfold known_panic; auto].
    intros w. by rewrite parse_args_run, Ha.
Qed.

Lemma sm_parse_and_execute `{!Fmt.Unicode} line : SmSpec [] (parse_and_execute line) (λ _, []).
Proof.
  apply sm_seq; [apply sm_with_color, _|]. intros _. apply sm_seq; [apply _|]. intros args.
  apply sm_seq; [apply sm_with_color, _|]. intros _. apply sm_execute.
Qed.
End ShellFs.
