(* ===== verification/ShellScreen.v ===== *)
(** * What the commands leave on the screen

    [Screen b m b'] says that a piece of the shell that returns keeps the screen
    well-formed and its color while no interrupt prints; [b] and [b'] say whether
    the bottom row is empty with the column at its start before and after.  Every
    command ends on an empty row, so that the next prompt starts one. *)

From Stdlib Require Import Init.Byte.
From S2P Require Import Prelude Util Fmt FsTypes Fs Registry RamFs DevFs DirCache Path Vfs.
From S2P Require Import Parser Vga VgaText Interrupts Shell.

Module ShellScreen.
Import Shell.

(** No interrupt prints from here on. *)
Definition quiet (w : world) : Prop := w_irqs w = [].
Lemma on_vga_quiet {A} (m : M Vga.t Empty_set A) w : quiet w →
  on_vga m w = (let '(r, v) := m (w_vga w) in (r, {| w_fs := w_fs w; w_vga := v; w_irqs := [] |})).
Proof. intros Hq. unfold on_vga. rewrite Hq. cbn -[mret]. by rewrite mbind_ret. Qed.

Definition screen_at (b : bool) (w : world) : Prop :=
  quiet w ∧ if b then VgaText.fresh (w_vga w) else Vga.wf (w_vga w).

Lemma screen_wf b w : screen_at b w → quiet w ∧ Vga.wf (w_vga w).
Proof. intros [Hq Hw]. split; [done|]. by destruct b; [destruct Hw|]. Qed.
Lemma screen_weak b w : screen_at b w → screen_at false w.
Proof. apply screen_wf. Qed.
Lemma screen_color b c w w' : screen_at b w → w_vga w' = Vga.set_color c (w_vga w) → w_irqs w' = [] → screen_at b w'.
Proof.
  intros [Hq Hw] Hv Hi. split; [done|]. rewrite Hv.
  destruct b; [destruct Hw as [[] ??]; split; [by split|done..]|destruct Hw; by split].
Qed.

Class Screen {A} (b : bool) (m : SM A) (b' : bool) : Prop :=
  screen w a w' : screen_at b w → m w = (Ok a, w') →
    screen_at b' w' ∧ Vga.color_code (w_vga w') = Vga.color_code (w_vga w).

#[export] Instance screen_ret {A} b (a : A) : Screen b (mret a) b.
Proof. intros w a' w' Hw [= _ <-]. done. Qed.
#[export] Instance screen_panic {A} b b' p : Screen (A := A) b (panic p) b'.
Proof. by intros w a w' Hw [= ]. Qed.
Lemma screen_bind {A B} b b1 b' (m : SM A) (f : A → SM B) :
  Screen b m b1 → (∀ a, Screen b1 (f a) b') → Screen b (m ≫= f) b'.
Proof.
  intros Hm Hf w a w' Hw [(x & w1 & H1 & H2)|[([] & _)|(p & _ & [=])]]%mbind_ok.
  destruct (Hm _ _ _ Hw H1) as [Hw1 Hc1]. destruct (Hf x _ _ _ Hw1 H2) as [? Hc2]. split; [done|congruence].
Qed.

#[export] Instance screen_print b s : Screen b (print s) false.
Proof.
  intros w a w' [Hq Hw]%screen_wf. unfold print. rewrite on_vga_quiet by done.
  destruct (VgaText.print_total s _ Hw) as (v & -> & Hv & Hc). by intros [= _ <-].
Qed.
#[export] Instance screen_println b s : Screen b (println s) true.
Proof.
  intros w a w' [Hq Hw]%screen_wf. unfold println. rewrite on_vga_quiet by done.
  destruct (VgaText.println_fresh s _ Hw) as (v & -> & Hv & Hc). by intros [= _ <-].
Qed.
Lemma screen_with_color {A} b b' c (f : SM A) : Screen b f b' → Screen b (with_color c f) b'.
Proof.
  intros Hf w a w' Hw. unfold with_color. unfold mbind at 1, M_bind at 1. rewrite on_vga_quiet by apply Hw. simpl.
  intros [(x & w1 & H1 & H2)|[([] & _)|(p & _ & [=])]]%mbind_ok.
  apply Hf in H1 as [Hw1 _]; [|by eapply screen_color]. unfold mbind, M_bind in H2.
  rewrite on_vga_quiet in H2 by apply Hw1. injection H2 as _ <-. split; [by eapply screen_color|done].
Qed.

#[export] Instance screen_fs {A} b (m : KM A) : Screen b (on_fs m) b.
Proof. intros w a w' Hw. unfold on_fs. by destruct (m (w_fs w)) as [[] k]; intros [= _ <-]. Qed.
#[export] Instance screen_call {A} b (m : KM A) : Screen b (vfs_call m) b.
Proof. apply screen_fs. Qed.
#[export] Instance screen_unwrap {A} b (r : A + IoError) : Screen b (unwrap_result r) b.
Proof. destruct r; apply _. Qed.
#[export] Instance screen_peek {A} b (m : KM A) : Screen b (peek m) b.
Proof. eapply screen_bind; apply _. Qed.
#[export] Instance screen_option {A} b (r : outcome Empty_set A) : Screen b (lift_outcome r) b.
Proof. intros w a w' Hw. unfold lift_outcome. by destruct r as [|[]|]; intros [= _ <-]. Qed.
#[export] Instance screen_parse b input : Screen b (parse_args input) b.
Proof. intros w a w' Hw. unfold parse_args. by repeat case_match; intros [= _ <-]. Qed.

(** One step through a command. *)
Ltac screen_step := first
  [ apply _
  | apply screen_with_color
  | eapply screen_bind; [|intros ?]
  | match goal with
    | |- ∀ _, Screen _ _ _ => intros ?
    | |- Screen _ (if ?x then _ else _) _ => destruct x
    | |- Screen _ (match ?x with _ => _ end) _ => destruct x
    end ].
Ltac screen := repeat screen_step.

(** Forgetting that the row is empty. *)
Lemma screen_weaken {A} b b' (m : SM A) : Screen b m b' → Screen b m false.
Proof. intros Hm w a w' Hw [Hr ?]%Hm; [|done]. split; [by eapply screen_weak|done]. Qed.

Lemma screen_echo_args args : ∀ b i len, Screen b (echo_args i len args) false.
Proof.
  induction args as [|arg args IH]; intros b i len; simpl; [eapply screen_weaken, _|].
  eapply screen_bind; [apply _|]. intros _. eapply (screen_bind _ false); [screen|]. done.
Qed.
Lemma screen_echo b args : Screen b (cmd_echo args) true.
Proof. eapply screen_bind; [apply screen_echo_args|apply _]. Qed.
Lemma screen_uname b args : Screen b (cmd_uname args) true.
Proof. unfold cmd_uname. screen. Qed.

Lemma screen_entry_short b ids d : Screen b (format_entry_short ids d) true.
Proof.
  unfold format_entry_short. eapply (screen_bind _ false); [|screen]. destruct ids; eapply screen_weaken; apply _.
Qed.
Lemma screen_entry_long b ids e : Screen b (format_entry_long ids e) true.
Proof.
  unfold format_entry_long. do 2 (eapply screen_bind; [apply _|]; intros ?).
  eapply (screen_bind _ false); [|screen]. destruct ids; eapply screen_weaken; apply _.
Qed.

Lemma screen_ls_children long ids dir l : Screen true (ls_children long ids dir l) true.
Proof.
  induction l as [|d l IH]; simpl; [apply _|]. eapply screen_bind; [|done].
  destruct long; [|apply screen_entry_short]. do 2 (eapply screen_bind; [apply _|]; intros ?).
  eapply screen_bind; [apply screen_entry_long|]. apply _.
Qed.
#[export] Existing Instances screen_echo screen_uname screen_entry_short screen_entry_long screen_ls_children.

Lemma screen_ls args : Screen true (cmd_ls args) true.
Proof. unfold cmd_ls. screen. Qed.
Lemma screen_cat args : Screen true (cmd_cat args) true.
Proof. unfold cmd_cat. screen. Qed.
Lemma screen_touch args : Screen true (cmd_touch args) true.
Proof. unfold cmd_touch. screen. Qed.
Lemma screen_mkdir args : Screen true (cmd_mkdir args) true.
Proof. unfold cmd_mkdir. screen. Qed.
#[export] Existing Instances screen_ls screen_cat screen_touch screen_mkdir.

Lemma screen_execute args : Screen true (execute args) true.
Proof. destruct args; [apply _|]. unfold execute. screen. Qed.

Lemma screen_parse_and_execute `{!Fmt.Unicode} line : Screen true (parse_and_execute line) true.
Proof.
  unfold parse_and_execute. screen. apply screen_execute.
Qed.
End ShellScreen.
