(* ===== verification/ShellText.v ===== *)
(** * What the shell prints, as text

    A display is the unbounded terminal of which the screen is a window, and the
    interrupts that print before each of the next accesses to it.  A text is a
    function on displays.  [writes m t] says that a piece of code always returns
    and has the effect of [t] on what the screen shows, interrupts included. *)

From Stdlib Require Import Init.Byte.
From S2P Require Import Prelude Fmt FsTypes Fs Vga VgaText Interrupts Shell.

Module ShellText.
Import Shell.

Record display := { d_term : Vga.term; d_irqs : list (list Interrupts.irq) }.
Abbreviation text := (display → display).

(** One access: first the interrupts that come before it print. *)
Definition access (f : Vga.term → Vga.term) : text := λ d,
  {| d_term := f (Interrupts.irqs_text (default [] (head (d_irqs d))) (d_term d)); d_irqs := tail (d_irqs d) |}.
Definition write (s : string) : text := access (VgaText.write s).
Definition line (s : string) : text := access (VgaText.line s).
Definition recolor (c : Z) : text := access (VgaText.recolor c).
(** Text in another color. *)
Definition colored (c : Z) (t : text) : text := λ d, recolor (Vga.color (d_term d)) (t (recolor c d)).

Record shown (w : world) (d : display) : Prop := {
  sn_term : Vga.shows (w_vga w) (d_term d);
  sn_irqs : w_irqs w = d_irqs d;
}.

(** Something has been printed between two states. *)
Definition said (w w' : world) (t : text) : Prop := ∀ d, shown w d → shown w' (t d).
Lemma said_trans w1 w2 w3 t u : said w1 w2 t → said w2 w3 u → said w1 w3 (λ d, u (t d)).
Proof. intros H12 H23 d Hd. by apply H23, H12. Qed.
(** Only the file subsystem has changed. *)
Lemma said_nothing w w' : w_vga w' = w_vga w → w_irqs w' = w_irqs w → said w w' id.
Proof. intros Hv Hi d [Hs Hd]. split; simpl; [by rewrite Hv|congruence]. Qed.

(** What is said does not depend on the file subsystem. *)
Definition set_fs (k : kernel) (w : world) : world :=
  {| w_fs := k; w_vga := w_vga w; w_irqs := w_irqs w |}.
Lemma said_fs_l k w w' t : said (set_fs k w) w' t → said w w' t.
Proof. intros Hs d [? ?]. by apply Hs. Qed.
Lemma said_fs_r k w w' t : said w w' t → said w (set_fs k w') t.
Proof. intros Hs d [? ?]%Hs. by split. Qed.

Definition writes {A} (m : SM A) (t : text) : Prop := ∀ w d, shown w d →
  ∃ x w', m w = (Ok x, w') ∧ shown w' (t d) ∧ w_fs w' = w_fs w.
(** On a well-formed screen, such code returns and leaves the file subsystem alone. *)
Lemma writes_run {A} (m : SM A) t w r w' : writes m t → Vga.wf (w_vga w) → m w = (r, w') →
  ∃ x, r = Ok x ∧ w_fs w' = w_fs w ∧ Vga.wf (w_vga w') ∧ said w w' t.
Proof.
  intros Hm (a & Ha & _)%VgaText.wf_shows Hrun.
  assert (Hd : shown w {| d_term := a; d_irqs := w_irqs w |}) by done.
  destruct (Hm w _ Hd) as (x & w1 & H1 & [Hs _] & Hf). rewrite Hrun in H1. injection H1 as -> <-.
  exists x. split_and!; [done|done|by eapply Vga.shows_wf|]. intros d (x1 & w1 & H1 & Hd1 & _)%Hm.
  rewrite Hrun in H1. by injection H1 as <- <-.
Qed.
Lemma writes_said {A} (m : SM A) t w x w' : writes m t → m w = (Ok x, w') → said w w' t.
Proof. intros Hm Hrun d (x1 & w1 & H1 & Hd & _)%Hm. rewrite Hrun in H1. by injection H1 as <- <-. Qed.

Lemma writes_ret {A} (x : A) : writes (mret x) id.
Proof. intros w d Hd. by exists x, w. Qed.
Lemma writes_bind {A B} (m : SM A) (k : A → SM B) t u : writes m t → (∀ x, writes (k x) u) →
  writes (m ≫= k) (λ d, u (t d)).
Proof.
  intros Hm Hk w d Hd. destruct (Hm w d Hd) as (x & w1 & H1 & Hd1 & Hf1).
  destruct (Hk x w1 _ Hd1) as (y & w2 & H2 & Hd2 & Hf2). exists y, w2.
  rewrite (mbind_run _ _ _ _ _ H1). split_and!; [done..|congruence].
Qed.
Lemma writes_ext {A} (m : SM A) t u : writes m t → (∀ d, t d = u d) → writes m u.
Proof. intros Hm Heq w d Hd. rewrite <- Heq. by apply Hm. Qed.

(** An access to the screen that has an effect on the terminal. *)
Lemma on_vga_shown {A} (m : M Vga.t Empty_set A) (Q : A → Vga.t → Prop) (f : Vga.term → Vga.term) w d : shown w d →
  (∀ v a, Vga.shows v a → Vga.color a = Vga.color (d_term d) → ∃ x v', m v = (Ok x, v') ∧ Vga.shows v' (f a) ∧ Q x v) →
  ∃ x w' v, on_vga m w = (Ok x, w') ∧ shown w' (access f d) ∧ w_fs w' = w_fs w ∧ Q x v.
Proof.
  intros [Hs Hi] Hm. destruct (Interrupts.irqs_print_shows (default [] (head (w_irqs w))) _ _ Hs) as (v1 & H1 & Hs1).
  destruct (Hm v1 _ Hs1) as (x & v2 & H2 & Hs2 & HQ); [apply Interrupts.irqs_text_color|].
  unfold on_vga. rewrite (mbind_run _ _ _ _ _ H1), H2. eexists _, _, v1. split; [done|].
  split; [|done]. rewrite Hi in Hs2. split; [exact Hs2|simpl; by rewrite Hi].
Qed.
Lemma writes_vga {A} (m : M Vga.t Empty_set A) f :
  (∀ v a, Vga.shows v a → ∃ x v', m v = (Ok x, v') ∧ Vga.shows v' (f a)) → writes (on_vga m) (access f).
Proof.
  intros Hm w d Hd. destruct (on_vga_shown m (λ _ _, True) f w d Hd) as (x & w' & _ & ? & ? & ? & _); [|by eauto].
  intros v a Hs _. destruct (Hm v a Hs) as (x & v' & ? & ?). by exists x, v'.
Qed.
Lemma writes_print s : writes (print s) (write s).
Proof. apply writes_vga. intros v a (v' & ? & ?)%(VgaText.print_shows s). eauto. Qed.
Lemma writes_println s : writes (println s) (line s).
Proof. apply writes_vga. intros v a (v' & ? & ?)%(VgaText.println_shows s). eauto. Qed.
Lemma writes_set_color c : writes (on_vga (Vga.set_color_code c)) (recolor c).
Proof. apply writes_vga. intros v a Hs. eexists _, _. split; [reflexivity|by apply VgaText.shows_recolor]. Qed.

Lemma swap_color_shown c w d : shown w d → ∃ w', on_vga (Vga.swap_color c) w = (Ok (Vga.color (d_term d)), w') ∧
  shown w' (recolor c d) ∧ w_fs w' = w_fs w.
Proof.
  intros Hd. destruct (on_vga_shown (Vga.swap_color c) (λ x v, x = Vga.color (d_term d)) (VgaText.recolor c) w d Hd)
    as (x & w' & v & H1 & Hd1 & Hf & ->); [|by exists w'].
  intros v a Hs Hc. eexists _, _. split; [reflexivity|]. split; [by apply VgaText.shows_recolor|].
  by rewrite (Vga.sh_color _ _ Hs).
Qed.
Lemma writes_with_color {A} c (m : SM A) t : writes m t → writes (with_color c m) (colored c t).
Proof.
  intros Hm w d Hd. destruct (swap_color_shown c w d Hd) as (w1 & H1 & Hd1 & Hf1).
  destruct (Hm w1 _ Hd1) as (x & w2 & H2 & Hd2 & Hf2).
  destruct (swap_color_shown (Vga.color (d_term d)) w2 _ Hd2) as (w3 & H3 & Hd3 & Hf3).
  exists x, w3. unfold with_color. rewrite (mbind_run _ _ _ _ _ H1), (mbind_run _ _ _ _ _ H2), (mbind_run _ _ _ _ _ H3).
  split_and!; [done..|congruence].
Qed.
End ShellText.
