(* ===== verification/ShellRef.v ===== *)
(** * What a command line means

    A reference for the commands: [ran args k k' t] says that the command line
    [args] may take the file subsystem from [k] to [k'] and print the text [t].  It is
    written with the name space ([walk]), the references of the file-system calls
    and texts, and not with the code of the commands. *)

From Stdlib Require Import Init.Byte.
From S2P Require Import Prelude Util Fmt FsTypes Fs Registry RamFs DevFs DirCache Path Vfs.
From S2P Require Import VfsFrame VfsInv VfsLookup VfsWalk VfsResolve VfsCreate VfsDirs.
From S2P Require Import VfsMount VfsFiles VfsIo VfsReadDir VfsReach Vga VgaText Interrupts Shell ShellText.

Module ShellRef.
Import ShellText.

(** ** Options *)

(** The arguments that are not options. *)
Definition operands (args : list string) : list string := filter (λ a, String.get 0 a ≠ Some "-"%char) args.
(** The option letter [c] is in one of the options. *)
Definition gives (c : Ascii.ascii) (arg : string) : bool :=
  match arg with
  | String x s => bool_decide (x = "-"%char ∧ c ∈ String.list_ascii_of_string s)
  | EmptyString => false
  end.
Definition given (c : Ascii.ascii) (args : list string) : bool := existsb (gives c) args.

(** ** Lines of [ls] *)

Definition entry_color (kind : FsNodeKind.t) : Z :=
  match kind with
  | FsNodeKind.Directory => 9
  | FsNodeKind.File => 15
  | FsNodeKind.CharDevice => 14
  | FsNodeKind.BlockDevice => 11
  end.
Definition id_text (ids : bool) (i : Z) : text := if ids then write (Fmt.display_u64 i +:+ " ") else id.
(** A name in the color of its kind, after its node number if asked for. *)
Definition entry_text (ids : bool) (e : DirectoryIterationEntry) : text := λ d,
  colored (entry_color (die_kind e)) (line (die_name e)) (id_text ids (die_id e) d).
Definition entries_text (ids : bool) (es : list DirectoryIterationEntry) : text := λ d,
  foldl (λ d e, entry_text ids e d) d es.

Definition kind_letter (kind : FsNodeKind.t) : string :=
  match kind with FsNodeKind.File => "-" | FsNodeKind.CharDevice => "c" | _ => "d" end.
(** The long line of a node. *)
Definition long_text (ids : bool) (name : string) (n : FsNode) : text := λ d,
  line (kind_letter (node_kind n) +:+ "rw-r--r--@ 1 root root " +:+
    Fmt.pad_left 3 (Fmt.display_u64 (node_size (node_metadata n))) +:+ " " +:+
    Fmt.pad_left 2 (Fmt.display_u64 (modified_at (node_metadata n))) +:+ " " +:+ name) (id_text ids (node_id n) d).
Definition long_texts (ids : bool) (ns : list (string * FsNode)) : text := λ d,
  foldl (λ d x, long_text ids x.1 x.2 d) d ns.

(** ** What the commands do to the file subsystem *)

(** The last name of a path; the root is displayed as a slash. *)
Definition last_name (rp : list string) : string := default "/" (head rp).
(** The node a path names. *)
Definition node_at (k : kernel) (rp : list string) (n : FsNode) : Prop :=
  ∃ l, nodes k !! l = Some n ∧ walk k rp = Some (node_view k l).

(** No path, no descriptor and no file content has changed. *)
Record unchanged (k k' : kernel) : Prop := {
  un_walk q : walk k' q = walk k q;
  un_files : files k' = files k;
  un_data : data_kept k k';
}.

(** The entries of the directory [rp], each once, in alphabetical order. *)
Record listing (k : kernel) (rp : list string) (es : list DirectoryIterationEntry) : Prop := {
  li_sorted : StronglySorted String.le (die_name <$> es);
  li_nodup : NoDup (die_name <$> es);
  li_names s : s ∈ die_name <$> es ↔ is_Some (walk k (s :: rp));
  li_entry e : e ∈ es → ∃ v, walk k (die_name e :: rp) = Some v ∧ view_kind k v = Some (die_kind e) ∧
    ∀ i, view_id k v = Some i → die_id e = i;
}.

(** The path by which [ls -l] asks for a name in a directory. *)
Definition long_path (dir name : string) : string :=
  if decide (dir = "/") then "/" +:+ name else dir +:+ "/" +:+ name.

(** [ls]: a path that names nothing, a directory, or something else. *)
Inductive listed (path : string) (long ids : bool) (k k' : kernel) : text → Prop :=
  | listed_missing : ref_resolve_path k path = Ok None →
      listed path long ids k k' (line ("ls: " +:+ path +:+ ": No such file or directory"))
  | listed_file rp n : ref_resolve_path k path = Ok (Some rp) → node_at k' rp n →
      ref_read_directory k path = Err NotADirectory → long = false →
      listed path long ids k k'
        (entry_text ids {| die_name := last_name rp; die_id := node_id n; die_kind := node_kind n |})
  | listed_directory rp es : ref_read_directory k path = Ok rp → listing k rp es → long = false →
      listed path long ids k k' (entries_text ids es)
  | listed_file_long rp n : ref_resolve_path k path = Ok (Some rp) → node_at k' rp n →
      ref_read_directory k path = Err NotADirectory → long = true →
      listed path long ids k k' (long_text ids (last_name rp) n)
  | listed_directory_long rp es ns : ref_read_directory k path = Ok rp → listing k rp es → long = true →
      Forall2 (λ e x, ∃ q, ref_resolve_path k (long_path (last_name rp) (die_name e)) = Ok (Some q) ∧
        x.1 = last_name q ∧ node_at k' q x.2) es ns →
      listed path long ids k k' (long_texts ids ns).

(** [touch]: the path names a file, a new empty one if there was none. *)
Definition touched (path : string) (k k' : kernel) : Prop :=
  ∃ cr rp l, ref_open k path FileMode.Write = Ok (cr, rp) ∧
    (∀ q, walk k' q = if decide (cr = true ∧ q = rp) then Some (VNode l) else walk k q) ∧
    is_Some (walk k' rp) ∧
    (cr = true → ∃ n, nodes k' !! l = Some n ∧ node_private_data n = Some (RamFileNode [])) ∧
    files k' = files k ∧ data_kept k k'.

(** [mkdir]: the path names a new empty directory. *)
Definition made (path : string) (k k' : kernel) : Prop :=
  ∃ rp c n, ref_create_directory k path = Ok rp ∧ walk k rp = None ∧
    (∀ q, walk k' q = if decide (q = rp) then Some (VNode c) else walk k q) ∧
    nodes k' !! c = Some n ∧ node_kind n = FsNodeKind.Directory ∧
    node_private_data n = Some (RamDirectoryNode ∅) ∧ files k' = files k ∧ data_kept k k'.

(** What [cat] prints of a node: at most 512 bytes. *)
Definition cat_bytes (n : FsNode) : option (list byte) :=
  match node_private_data n with
  | Some (RamFileNode data) => Some (take 512 data)
  | Some (CharDeviceNode ZeroDevice) => Some (replicate 512 x00)
  | _ => None
  end.
(** [cat]: the path names something that can be read; a descriptor stays open. *)
Definition catted (path : string) (k k' : kernel) (data : list byte) : Prop :=
  ∃ fd f rp n, ref_open k path FileMode.Read = Ok (false, rp) ∧
    walk k' rp = Some (node_view k' (file_node f)) ∧ nodes k' !! file_node f = Some n ∧ cat_bytes n = Some data ∧
    file_position f = Z.of_nat (length data) ∧ (∀ q, walk k' q = walk k q) ∧ data_kept k k' ∧
    files k !! fd = None ∧ files k' = <[fd := f]> (files k).

(** ** Command lines *)

(** Commands that print a fixed line. *)
Definition reply (cmd : string) : option string :=
  if decide (cmd = "help") then Some "TODO: insert a help message here"
  else if decide (cmd = "whoami") then Some "root"
  else if decide (cmd = "pwd") then Some "/"
  else if decide (cmd ∈ ["rm"; "realpath"; "basename"; "cd"]) then Some "error: not implemented yet"
  else None.
Definition commands : list string :=
  ["help"; "whoami"; "echo"; "print"; "pwd"; "uname"; "ls"; "cat"; "touch"; "mkdir"; "rm"; "realpath"; "basename"; "cd"; "exit"].

(** The arguments with blanks between them. *)
Fixpoint echo_text (args : list string) : text :=
  match args with
  | [] => line ""
  | [a] => λ d, line "" (write a d)
  | a :: args' => λ d, echo_text args' (write " " (write a d))
  end.
Definition uname_text (args : list string) : text := λ d,
  line "" ((if decide (head args = Some "-a") then write " riptide 0.1.0 x86_64" else id) (write "Riptide" d)).

Inductive ran : list string → kernel → kernel → text → Prop :=
  | ran_nothing k : ran [] k k id
  | ran_exit args k : ran ("exit" :: args) k k id
  | ran_reply cmd s args k : reply cmd = Some s → ran (cmd :: args) k k (line s)
  | ran_echo cmd args k : cmd = "echo" ∨ cmd = "print" → ran (cmd :: args) k k (echo_text args)
  | ran_uname args k : ran ("uname" :: args) k k (uname_text args)
  | ran_ls args k k' t : listed (default "/" (last (operands args))) (given "l"%char args) (given "i"%char args) k k' t →
      unchanged k k' → ran ("ls" :: args) k k' t
  | ran_cat path args k k' data : catted path k k' data →
      ran ("cat" :: path :: args) k k' (line (Fmt.str (Fmt.from_utf8_lossy data)))
  | ran_touch path args k k' : touched path k k' → ran ("touch" :: path :: args) k k' id
  | ran_mkdir path args k k' : last (operands args) = Some path → made path k k' → ran ("mkdir" :: args) k k' id
  | ran_no_path cmd args k :
      (cmd = "cat" ∨ cmd = "touch") ∧ args = [] ∨ cmd = "mkdir" ∧ operands args = [] →
      ran (cmd :: args) k k (line "error: no path provided")
  | ran_unknown cmd args k : cmd ∉ commands → ran (cmd :: args) k k (line ("command not found: " +:+ cmd)).
End ShellRef.
