(* ===== verification/ShellEdit.v ===== *)
(** * The line editor

    [buffer_ok s line] relates the locals of [run] to the line being typed,
    whatever interrupts print on the screen; [edit_ok] adds that, as long as none
    prints, the bottom row shows the prompt, the line and blanks, with the column
    and the hardware cursor after the line.  Each key other than Enter acts on the
    line as on a list of characters. *)

From Stdlib Require Import Init.Byte.
From S2P Require Import Prelude Util Fmt FsTypes Fs Registry RamFs DevFs DirCache Path Vfs.
From S2P Require Import Parser Vga VgaText Interrupts Shell ShellFs ShellScreen.

Module ShellEdit.
Import Shell ShellFs ShellScreen.

(** ** The line *)

(** A key that types into a line: an ASCII character other than Enter. *)
Definition ascii_char (c : Z) : Prop := (0 ≤ c < 128)%Z ∧ c ≠ 10%Z.
#[export] Instance ascii_char_dec c : Decision (ascii_char c) := ltac:(unfold ascii_char; apply _).
Definition typed_key (key : DecodedKey) : Prop :=
  match key with Unicode c => ascii_char c | RawKey => True end.
#[export] Instance typed_key_dec key : Decision (typed_key key) := ltac:(destruct key; apply _).

(** The effect of a key, pressed with or without control, on the line. *)
Definition edit_key (line : list Z) (key : DecodedKey * bool) : list Z :=
  match key.1 with
  | RawKey => line
  | Unicode c =>
      if decide (c = 8)%Z then (if key.2 then [] else take (length line - 1) line)
      else if decide (length line < INPUT_BUFFER_LEN) then line ++ [c]
      else line
  end.
Definition edit_line (line : list Z) (keys : list (DecodedKey * bool)) : list Z := foldl edit_key line keys.

(** The bottom row while [line] is typed. *)
Definition line_text (line : list Z) : list byte :=
  Fmt.bytes_of get_prompt ++ (Vga.shown <$> Fmt.utf8 line) ++
    replicate (Vga.BUFFER_WIDTH - (String.length get_prompt + length line)) x20.
(** The last writes to the cursor's ports put it at column [x] of the bottom row. *)
Definition cursor_at (x : Z) (v : Vga.t) : Prop :=
  let pos := (bottom_row * Z.of_nat Vga.BUFFER_WIDTH + x)%Z in
  ∃ earlier, Vga.ports v =
    (Vga.VGA_DATA_PORT, Z.land (Z.shiftr pos 8) 0xFF) :: (Vga.VGA_CMD_PORT, 0x0E%Z) ::
    (Vga.VGA_DATA_PORT, Z.land pos 0xFF) :: (Vga.VGA_CMD_PORT, 0x0F%Z) :: earlier.

Record line_shown (line : list Z) (v : Vga.t) : Prop := {
  ls_wf : Vga.wf v;
  ls_text : VgaText.text v = line_text line;
  ls_column : Vga.column_position v = String.length get_prompt + length line;
  ls_cursor : cursor_at (prompt_len + Z.of_nat (length line)) v;
}.

Lemma ascii_utf8 line : Forall ascii_char line → Fmt.utf8 line = Fmt.byte_of <$> line.
Proof. intros Hl. apply Fmt.utf8_ascii. eapply Forall_impl; [done|]. by intros c []. Qed.
Lemma length_ascii line : Forall ascii_char line → length (Fmt.utf8 line) = length line.
Proof. intros Hl. by rewrite ascii_utf8, length_fmap. Qed.
Lemma len_utf8_ascii c : ascii_char c → Fmt.len_utf8 c = 1.
Proof. intros [Hc _]. unfold Fmt.len_utf8. by rewrite Fmt.encode_ascii. Qed.

Lemma line_text_take line n : Forall ascii_char line → n ≤ length line →
  take (String.length get_prompt + n) (line_text line) = Fmt.bytes_of get_prompt ++ (Vga.shown <$> Fmt.utf8 (take n line)).
Proof.
  intros Hl Hn. unfold line_text. rewrite take_app. change (length (Fmt.bytes_of get_prompt)) with 14.
  change (String.length get_prompt) with 14. rewrite take_ge by (change (length _) with 14; lia). f_equal.
  replace (14 + n - 14) with n by lia. rewrite take_app_le by (rewrite length_fmap, length_ascii; done).
  rewrite !ascii_utf8 by (try apply Forall_take; done). by rewrite <- !fmap_take.
Qed.
Lemma line_text_length line : Forall ascii_char line → length line ≤ INPUT_BUFFER_LEN →
  length (line_text line) = Vga.BUFFER_WIDTH.
Proof.
  intros Hl. unfold line_text. rewrite !length_app, length_fmap, length_replicate, length_ascii by done.
  change (length (Fmt.bytes_of get_prompt)) with 14. change (String.length get_prompt) with 14.
  change INPUT_BUFFER_LEN with 65. unfold Vga.BUFFER_WIDTH. lia.
Qed.
Lemma edit_key_ascii line key : Forall ascii_char line → typed_key key.1 → Forall ascii_char (edit_key line key).
Proof.
  intros Hl Hk. unfold edit_key. destruct key as [[c|] ctrl]; [|done]. simpl in *.
  repeat case_decide; [|by apply Forall_app; split; auto|done].
  destruct ctrl; [done|by apply Forall_take].
Qed.
Lemma edit_key_fits line key : length line ≤ INPUT_BUFFER_LEN → length (edit_key line key) ≤ INPUT_BUFFER_LEN.
Proof.
  intros Hl. unfold edit_key. destruct key as [[c|] ctrl]; [|done]. simpl.
  repeat case_decide; [destruct ctrl; simpl; [lia|]; rewrite length_take; lia|rewrite length_app; simpl; lia|done].
Qed.

(** ** The screen under the keys *)

Lemma set_cursor_shown x v : (0 ≤ x ≤ 255)%Z →
  ∃ v', Vga.set_cursor_position x bottom_row v = (Ok tt, v') ∧ cursor_at x v' ∧
    Vga.column_position v' = Vga.column_position v ∧ Vga.color_code v' = Vga.color_code v ∧
    Vga.chars v' = Vga.chars v.
Proof.
  intros Hx. change bottom_row with 24%Z. unfold Vga.set_cursor_position, Vga.checked_u16, Vga.u16_max.
  change (Z.of_nat Vga.BUFFER_WIDTH) with 80%Z. rewrite decide_True by lia. rewrite mbind_ret.
  rewrite decide_True by lia. rewrite mbind_ret, !mbind_modify. eexists. split; [reflexivity|].
  split; [|done]. by eexists.
Qed.

Lemma print_spaces_run n : ∀ w, quiet w → print_spaces n w = on_vga (Vga.write_bytes (replicate n x20)) w.
Proof.
  induction n as [|n IH]; intros w Hq; [rewrite on_vga_quiet by done; unfold quiet in Hq; destruct w; simpl in *; by subst|].
  change (print_spaces (S n)) with (_ ← print " "; print_spaces n). unfold print, mbind, M_bind.
  rewrite !on_vga_quiet by done. change (replicate (S n) x20) with (x20 :: replicate n x20).
  unfold Vga.print, Vga.write_string. cbn -[Vga.write_byte print_spaces]. unfold mbind, M_bind.
  destruct (Vga.write_byte x20 (w_vga w)) as [[[]|[]|] v1]; [|done]. simpl.
  rewrite IH by done. by rewrite on_vga_quiet.
Qed.

Lemma wf_same v v' : Vga.chars v' = Vga.chars v → Vga.column_position v' = Vga.column_position v → Vga.wf v → Vga.wf v'.
Proof. intros Hc Hp [Hg Hw]. split; [by rewrite Hc|by rewrite Hp]. Qed.
Lemma text_same v v' : Vga.chars v' = Vga.chars v → VgaText.text v' = VgaText.text v.
Proof. unfold VgaText.text. by intros ->. Qed.

Lemma shown_bytes_not_newline line : Forall ascii_char line → Forall (λ b, b ≠ x0a) (Fmt.utf8 line).
Proof.
  intros Hl. rewrite ascii_utf8 by done. apply Forall_fmap. eapply Forall_impl; [done|].
  intros c [Hc Hn] Hb. simpl in Hb. apply Hn. rewrite <- (Fmt.byte_Z_of c) by lia. by rewrite Hb.
Qed.

(** Writing a character at the end of the line. *)
Lemma type_shown line c v : line_shown line v → Forall ascii_char line → ascii_char c →
  length line < INPUT_BUFFER_LEN →
  ∃ v1 v2, Vga.print (Fmt.str (Fmt.encode_utf8 c)) v = (Ok tt, v1) ∧
    Vga.set_cursor_position (prompt_len + Z.of_nat (S (length line))) bottom_row v1 = (Ok tt, v2) ∧
    line_shown (line ++ [c]) v2 ∧ Vga.color_code v2 = Vga.color_code v.
Proof.
  intros [Hwf Ht Hcol _] Hl Hc Hlen. change INPUT_BUFFER_LEN with 65 in Hlen. change (String.length get_prompt) with 14 in *.
  assert (He : Fmt.encode_utf8 c = [Fmt.byte_of c]) by (by apply Fmt.encode_ascii; destruct Hc).
  assert (Hnl : Forall (λ b, b ≠ x0a) [Fmt.byte_of c]).
  { pose proof (shown_bytes_not_newline [c]) as H. rewrite ascii_utf8 in H; auto. }
  destruct (VgaText.print_in_row [Fmt.byte_of c] v Hwf Hnl) as (v1 & H1 & Hwf1 & Ht1 & Hc1 & Hk1).
  { rewrite Hcol. unfold Vga.BUFFER_WIDTH. simpl. lia. }
  destruct (set_cursor_shown (prompt_len + Z.of_nat (S (length line))) v1) as (v2 & H2 & Hcur & Hc2 & Hk2 & Hch).
  { change prompt_len with 14%Z. lia. }
  exists v1, v2. split_and!; [|done| |congruence].
  { unfold Vga.print, Vga.write_string. rewrite He. fold (Fmt.bytes_of (Fmt.str [Fmt.byte_of c])).
    by rewrite Fmt.bytes_of_str. }
  split.
  - by eapply wf_same.
  - rewrite (text_same _ _ Hch), Ht1, Ht, Hcol. pose proof (line_text_take line (length line) Hl ltac:(done)) as Htk.
    change (String.length get_prompt) with 14 in Htk. rewrite Htk, take_ge by lia. unfold line_text.
    rewrite Fmt.utf8_app, fmap_app, <- !app_assoc. do 2 f_equal.
    change (Fmt.utf8 [c]) with (Fmt.encode_utf8 c ++ []). rewrite He. simpl. f_equal.
    rewrite drop_app_ge; rewrite length_fmap, length_ascii by done; [|lia].
    rewrite drop_replicate, length_app. f_equal. simpl. lia.
  - rewrite Hc2, Hc1, Hcol, length_app. simpl. lia.
  - by rewrite length_app, Nat.add_1_r.
Qed.

(** Blanking the row after the first [n] characters of the line. *)
Lemma redraw_shown line n v : line_shown line v → Forall ascii_char line →
  length line ≤ INPUT_BUFFER_LEN → n ≤ length line →
  let col := (prompt_len + Z.of_nat n)%Z in
  ∃ v1 v2, Vga.write_bytes (replicate (Vga.BUFFER_WIDTH - (String.length get_prompt + n)) x20)
      (Vga.set_column (Nat.min (Z.to_nat col) Vga.BUFFER_WIDTH) v) = (Ok tt, v1) ∧
    Vga.set_cursor_position col bottom_row (Vga.set_column (Nat.min (Z.to_nat col) Vga.BUFFER_WIDTH) v1) = (Ok tt, v2) ∧
    line_shown (take n line) v2 ∧ Vga.color_code v2 = Vga.color_code v.
Proof.
  intros [Hwf Ht Hcol _] Hl Hlen Hn col. change INPUT_BUFFER_LEN with 65 in Hlen.
  assert (Hc : Nat.min (Z.to_nat col) Vga.BUFFER_WIDTH = 14 + n).
  { unfold col. change prompt_len with 14%Z. unfold Vga.BUFFER_WIDTH. lia. }
  rewrite Hc. change (String.length get_prompt) with 14 in *. set (v0 := Vga.set_column (14 + n) v).
  assert (Hwf0 : Vga.wf v0) by (destruct Hwf; split; [done|simpl; unfold Vga.BUFFER_WIDTH; lia]).
  destruct (VgaText.print_in_row (replicate (Vga.BUFFER_WIDTH - (14 + n)) x20) v0 Hwf0) as (v1 & H1 & Hwf1 & Ht1 & Hc1 & Hk1).
  { by apply Forall_replicate. }
  { rewrite length_replicate. simpl. unfold Vga.BUFFER_WIDTH. lia. }
  destruct (set_cursor_shown col (Vga.set_column (14 + n) v1)) as (v2 & H2 & Hcur & Hc2 & Hk2 & Hch).
  { unfold col. change prompt_len with 14%Z. lia. }
  exists v1, v2. split_and!; [done|done| |etrans; [exact Hk2|exact Hk1]]. split.
  - eapply (wf_same (Vga.set_column (14 + n) v1)); [done..|]. destruct Hwf1. split; [done|].
    simpl. unfold Vga.BUFFER_WIDTH. lia.
  - rewrite (text_same v1 v2) by done. rewrite Ht1. change (VgaText.text v0) with (VgaText.text v).
    change (Vga.column_position v0) with (14 + n). rewrite Ht, length_replicate.
    pose proof (line_text_take line n Hl Hn) as Htk. change (String.length get_prompt) with 14 in Htk. rewrite Htk.
    rewrite drop_ge by (rewrite line_text_length by done; unfold Vga.BUFFER_WIDTH; lia).
    unfold line_text. rewrite app_nil_r, fmap_replicate, <- app_assoc, length_take_le by done. done.
  - rewrite Hc2, length_take_le by done. done.
  - by rewrite length_take_le by done.
Qed.

(** The prompt on an empty row. *)
Lemma prompt_shown w : quiet w → VgaText.fresh (w_vga w) →
  ∃ v, print_prompt w = (Ok tt, {| w_fs := w_fs w; w_vga := v; w_irqs := [] |}) ∧ line_shown [] v ∧
    Vga.color_code v = Vga.color_code (w_vga w).
Proof.
  intros Hq [Hwf Ht Hcol].
  destruct (VgaText.print_in_row (Fmt.bytes_of get_prompt) (w_vga w) Hwf) as (v1 & H1 & Hwf1 & Ht1 & Hc1 & Hk1).
  { apply (bool_decide_unpack _). vm_compute. exact I. }
  { rewrite Hcol. apply (bool_decide_unpack _). vm_compute. exact I. }
  destruct (set_cursor_shown prompt_len v1) as (v2 & H2 & Hcur & Hc2 & Hk2 & Hch).
  { change prompt_len with 14%Z. lia. }
  exists v2. split_and!; [| |congruence].
  { unfold print_prompt, print, mbind, M_bind, Vga.print, Vga.write_string.
    rewrite on_vga_quiet by done. unfold Fmt.bytes_of in H1. rewrite H1.
    cbn -[Vga.set_cursor_position prompt_len bottom_row on_vga]. rewrite on_vga_quiet by done. simpl w_vga.
    by rewrite H2. }
  split; [by eapply wf_same| |by rewrite Hc2, Hc1, Hcol|done].
  rewrite (text_same _ _ Hch), Ht1, Ht, Hcol. vm_compute. reflexivity.
Qed.

(** ** The state of the editor *)

Section editor.
Context {Uc : Fmt.Unicode} {Hs : HeaplessString} {HsL : HeaplessStringLaws} {Dq : Deque hstring} {Kd : KeyDecoder}.

Record buffer_ok (s : t) (line : list Z) : Prop := {
  bo_chars : hs_chars (input_buffer s) = line;
  bo_capacity : hs_capacity (input_buffer s) = INPUT_BUFFER_LEN;
  bo_ascii : Forall ascii_char line;
  bo_fits : length line ≤ INPUT_BUFFER_LEN;
  bo_cursor : cursor_position s = Z.of_nat (length line);
  bo_wf : Vga.wf (w_vga (sys s));
}.
Record edit_ok (s : t) (line : list Z) : Prop := {
  eo_buffer : buffer_ok s line;
  eo_quiet : quiet (sys s);
  eo_shown : line_shown line (w_vga (sys s));
}.
(** What editing leaves alone. *)
Record same_rest (s s' : t) : Prop := {
  sr_keyboard : keyboard s' = keyboard s;
  sr_history : history s' = history s;
  sr_fs : w_fs (sys s') = w_fs (sys s);
}.

(** *** Under interrupts *)

Definition set_sys (w : world) (s : t) : t :=
  {| keyboard := keyboard s; history := history s; input_buffer := input_buffer s;
     cursor_position := cursor_position s; sys := w |}.
(** A piece of the editor that only uses the screen. *)
Definition on_screen {A} (m : SM A) : Prop := ∀ w, Vga.wf (w_vga w) →
  ∃ a w', m w = (Ok a, w') ∧ w_fs w' = w_fs w ∧ Vga.wf (w_vga w') ∧ (quiet w → quiet w').

Lemma on_screen_vga {A} (m : M Vga.t Empty_set A) :
  (∀ v, Vga.wf v → ∃ a v', m v = (Ok a, v') ∧ Vga.wf v') → on_screen (on_vga m).
Proof.
  intros Hm w Hw. destruct (on_vga_total m w Hw Hm) as (a & v & Hr & Hv). eexists _, _.
  split_and!; [done..|]. unfold quiet. simpl. by intros ->.
Qed.
Lemma on_screen_bind {A B} (m : SM A) (f : A → SM B) : on_screen m → (∀ a, on_screen (f a)) → on_screen (m ≫= f).
Proof.
  intros Hm Hf w Hw. destruct (Hm w Hw) as (a & w1 & H1 & Hfs1 & Hw1 & Hq1).
  destruct (Hf a w1 Hw1) as (b & w2 & H2 & Hfs2 & Hw2 & Hq2). exists b, w2.
  rewrite (mbind_run _ _ _ _ _ H1). split_and!; [done|congruence|done|auto].
Qed.
Lemma on_screen_print text : on_screen (print text).
Proof. apply on_screen_vga. intros v (v' & ? & ? & _)%(VgaText.print_total text). eauto. Qed.
Lemma on_screen_spaces n : on_screen (print_spaces n).
Proof.
  induction n; [by intros w Hw; eexists _, _|]. apply on_screen_bind; [apply on_screen_print|done].
Qed.
Lemma on_screen_column c : on_screen (on_vga (Vga.set_column_position c)).
Proof.
  apply on_screen_vga. intros v [Hg _]. eexists _, _. split; [reflexivity|]. split; [done|]. simpl. lia.
Qed.
Lemma on_screen_cursor x : (0 ≤ x ≤ 255)%Z → on_screen (on_vga (Vga.set_cursor_position x bottom_row)).
Proof.
  intros Hx. apply on_screen_vga. intros v [Hg Hc].
  destruct (set_cursor_shown x v Hx) as (v' & H & _ & Hc' & _ & Hch). exists tt, v'.
  split; [done|]. split; congruence.
Qed.
Lemma on_screen_prompt : on_screen print_prompt.
Proof. apply on_screen_bind; [apply on_screen_print|]. intros _. by apply on_screen_cursor. Qed.
Lemma on_sys_run {A B} (m : SM A) (f : A → M t Empty_set B) s : on_screen m → Vga.wf (w_vga (sys s)) →
  ∃ a w, (on_sys m ≫= f) s = f a (set_sys w s) ∧ w_fs w = w_fs (sys s) ∧ Vga.wf (w_vga w).
Proof.
  intros Hm Hw. destruct (Hm _ Hw) as (a & w & H & Hfs & Hv & _). exists a, w. split; [|done].
  assert (Hon : on_sys m s = (Ok a, set_sys w s)) by (unfold on_sys; by rewrite H).
  by rewrite (mbind_run _ _ _ _ _ Hon).
Qed.

(** Runs the next access to the screen. *)
Ltac run_screen := match goal with |- context [ (mbind ?f (on_sys ?m)) ?s ] =>
    let w := fresh "w" in let Hf := fresh "Hfs" in let Hw := fresh "Hw" in
    destruct (on_sys_run m f s) as (? & w & -> & Hf & Hw);
    [ first [ apply on_screen_print | apply on_screen_column | apply on_screen_spaces
            | apply on_screen_cursor; change prompt_len with 14%Z; lia ] | done |] end.

Lemma key_character_buffer s line c : buffer_ok s line → ascii_char c → c ≠ 8%Z →
  ∃ s', key_character c s = (Ok false, s') ∧ buffer_ok s' (edit_key line (Unicode c, is_ctrl (keyboard s))) ∧ same_rest s s'.
Proof.
  intros [Hch Hcap Hasc Hfit Hcur Hwf] Hc H8. unfold key_character. rewrite mbind_gets.
  unfold edit_key. cbn [fst snd]. rewrite (decide_False (P := c = 8%Z)) by done. case_decide as Hlt.
  - destruct (hs_push_spec c (input_buffer s)) as (l' & -> & Hl' & Hcap').
    { rewrite Hch, Hcap, length_ascii, len_utf8_ascii by done. lia. }
    rewrite mbind_modify, mbind_gets. simpl cursor_position. rewrite Hcur.
    change INPUT_BUFFER_LEN with 65 in Hlt, Hfit. unfold checked_add_u8. rewrite decide_True by lia. rewrite mbind_ret, mbind_modify.
    run_screen.
    rewrite decide_True by (change prompt_len with 14%Z; lia). rewrite mbind_ret.
    run_screen.
    eexists. split; [reflexivity|]. split; [|split; [done..|simpl in *; congruence]].
    split; simpl; [by rewrite Hl', Hch|by rewrite Hcap', Hcap|apply Forall_app; auto|..|done];
      rewrite length_app; simpl; [change INPUT_BUFFER_LEN with 65|]; lia.
  - rewrite hs_push_full; [|rewrite Hch, Hcap, length_ascii, len_utf8_ascii by done; lia].
    exists s. split; [reflexivity|]. by split.
Qed.

(** The part of Backspace after the buffer and the cursor have been updated. *)
Definition redraw : M t Empty_set bool :=
  cursor ← gets cursor_position;
  col ← checked_add_u8 prompt_len cursor;
  _ ← on_sys (on_vga (Vga.set_column_position col));
  _ ← on_sys (print_spaces (Vga.BUFFER_WIDTH - (String.length get_prompt + Z.to_nat cursor)));
  _ ← on_sys (on_vga (Vga.set_column_position col));
  _ ← on_sys (on_vga (Vga.set_cursor_position col bottom_row));
  mret false.

(** Backspace keeps the first [n] characters of the line. *)
Lemma key_backspace_cut s line : buffer_ok s line →
  ∃ n i, n ≤ length line ∧ hs_chars i = take n line ∧ hs_capacity i = INPUT_BUFFER_LEN ∧
    edit_key line (Unicode 8, is_ctrl (keyboard s)) = take n line ∧
    key_backspace s = redraw (set_cursor (Z.of_nat n) (set_input i s)).
Proof.
  intros He. unfold key_backspace. rewrite mbind_gets. unfold edit_key. cbn [fst snd].
  rewrite (decide_True (P := 8%Z = 8%Z)) by done. pose proof (bo_cursor _ _ He) as Hcur.
  pose proof (bo_capacity _ _ He) as Hcap. destruct (is_ctrl (keyboard s)).
  - destruct (hs_clear_spec (input_buffer s)) as [Hc1 Hc2].
    exists 0, (hs_clear (input_buffer s)). split_and!; [lia|done|congruence|done|].
    by rewrite (mbind_run _ _ _ tt (set_cursor 0 (set_input (hs_clear (input_buffer s)) s))).
  - destruct (hs_pop_spec (input_buffer s)) as [Hc1 Hc2]. rewrite (bo_chars _ _ He) in Hc1.
    exists (length line - 1), (hs_pop (input_buffer s)). split_and!; [lia|done|congruence|done|].
    rewrite (mbind_run _ _ _ tt (set_cursor (Z.of_nat (length line - 1)) (set_input (hs_pop (input_buffer s)) s))); [done|].
    rewrite mbind_modify. unfold modify. simpl. rewrite Hcur. do 2 f_equal. lia.
Qed.

Lemma redraw_buffer s line n i : buffer_ok s line → n ≤ length line →
  hs_chars i = take n line → hs_capacity i = INPUT_BUFFER_LEN →
  ∃ s', redraw (set_cursor (Z.of_nat n) (set_input i s)) = (Ok false, s') ∧ buffer_ok s' (take n line) ∧ same_rest s s'.
Proof.
  intros [Hch Hcap Hasc Hfit Hcur Hwf] Hn Hi Hicap. unfold redraw. rewrite mbind_gets. simpl cursor_position.
  change INPUT_BUFFER_LEN with 65 in Hfit. unfold checked_add_u8.
  rewrite decide_True by (change prompt_len with 14%Z; lia). rewrite mbind_ret.
  do 4 run_screen.
  eexists. split; [reflexivity|]. split; [|split; [done..|simpl in *; congruence]].
  split; simpl; [done|done|by apply Forall_take|..|by rewrite length_take_le|done].
  rewrite length_take. change INPUT_BUFFER_LEN with 65. lia.
Qed.

Lemma handle_key_buffer s line key : buffer_ok s line → typed_key key →
  ∃ s', handle_key key s = (Ok false, s') ∧ buffer_ok s' (edit_key line (key, is_ctrl (keyboard s))) ∧ same_rest s s'.
Proof.
  intros He Hk. destruct key as [c|]; [|exists s; split; [done|by split]].
  unfold handle_key. destruct Hk as [Hr Hn]. rewrite decide_False by done. case_decide as H8.
  - subst. destruct (key_backspace_cut s line He) as (n & i & Hle & Hi & Hic & -> & ->). by apply redraw_buffer.
  - by apply key_character_buffer.
Qed.

(** *** Without interrupts *)

(** Replacing the screen. *)
Definition set_vga (v : Vga.t) (s : t) : t :=
  set_sys {| w_fs := w_fs (sys s); w_vga := v; w_irqs := [] |} s.
Lemma on_vga_run {A} (m : M Vga.t Empty_set A) s a v : quiet (sys s) → m (w_vga (sys s)) = (Ok a, v) →
  on_sys (on_vga m) s = (Ok a, set_vga v s).
Proof. intros Hq Hm. unfold on_sys. rewrite on_vga_quiet by done. by rewrite Hm. Qed.

Lemma key_character_shown s line c : edit_ok s line → ascii_char c → c ≠ 8%Z →
  ∃ s', key_character c s = (Ok false, s') ∧ quiet (sys s') ∧
    line_shown (edit_key line (Unicode c, is_ctrl (keyboard s))) (w_vga (sys s')).
Proof.
  intros [[Hch Hcap Hasc Hfit Hcur _] Hq Hsh] Hc H8. unfold key_character. rewrite mbind_gets.
  unfold edit_key. cbn [fst snd]. rewrite (decide_False (P := c = 8%Z)) by done. case_decide as Hlt.
  - destruct (hs_push_spec c (input_buffer s)) as (l' & -> & Hl' & Hcap').
    { rewrite Hch, Hcap, length_ascii, len_utf8_ascii by done. lia. }
    destruct (type_shown line c (w_vga (sys s)) Hsh Hasc Hc Hlt) as (v1 & v2 & H1 & H2 & Hsh' & Hk).
    rewrite mbind_modify, mbind_gets. simpl cursor_position. rewrite Hcur.
    unfold checked_add_u8. change INPUT_BUFFER_LEN with 65 in *. change prompt_len with 14%Z in *.
    rewrite decide_True by lia. rewrite mbind_ret, mbind_modify.
    rewrite (mbind_run _ _ _ _ _ (on_vga_run _ (set_cursor _ (set_input l' s)) _ _ Hq H1)).
    rewrite decide_True by lia. rewrite mbind_ret. replace (Z.of_nat (length line) + 1)%Z with (Z.of_nat (S (length line))) by lia.
    rewrite (mbind_run _ _ _ _ _ (on_vga_run _ (set_vga v1 _) _ _ eq_refl H2)).
    eexists. split; [reflexivity|done].
  - rewrite hs_push_full; [|rewrite Hch, Hcap, length_ascii, len_utf8_ascii by done; lia].
    exists s. split; [reflexivity|]. by split.
Qed.

Lemma redraw_line_shown s line n i : edit_ok s line → n ≤ length line →
  ∃ s', redraw (set_cursor (Z.of_nat n) (set_input i s)) = (Ok false, s') ∧ quiet (sys s') ∧
    line_shown (take n line) (w_vga (sys s')).
Proof.
  intros [[Hch Hcap Hasc Hfit Hcur _] Hq Hsh] Hn. set (s1 := set_cursor _ _). unfold redraw.
  destruct (redraw_shown line n (w_vga (sys s)) Hsh Hasc Hfit Hn) as (v1 & v2 & H1 & H2 & Hsh' & Hk).
  rewrite mbind_gets. simpl cursor_position. unfold checked_add_u8. change INPUT_BUFFER_LEN with 65 in Hfit.
  rewrite decide_True by (change prompt_len with 14%Z; lia). rewrite mbind_ret.
  set (col := (prompt_len + Z.of_nat n)%Z) in *. set (c := Nat.min (Z.to_nat col) Vga.BUFFER_WIDTH) in *.
  assert (Hset : ∀ s0, quiet (sys s0) → on_sys (on_vga (Vga.set_column_position col)) s0 =
    (Ok tt, set_vga (Vga.set_column c (w_vga (sys s0))) s0)) by (intros; by apply on_vga_run).
  rewrite (mbind_run _ _ _ _ _ (Hset s1 Hq)), Nat2Z.id.
  rewrite (mbind_run _ _ _ tt (set_vga v1 s1)).
  2: { etrans; [|exact (on_vga_run _ (set_vga _ s1) _ _ eq_refl H1)]. unfold on_sys. by rewrite print_spaces_run. }
  rewrite (mbind_run _ _ _ _ _ (Hset (set_vga v1 s1) eq_refl)).
  rewrite (mbind_run _ _ _ _ _ (on_vga_run _ (set_vga (Vga.set_column c v1) _) _ _ eq_refl H2)).
  eexists. split; [reflexivity|done].
Qed.

Lemma handle_key_edit s line key : edit_ok s line → typed_key key →
  ∃ s', handle_key key s = (Ok false, s') ∧ edit_ok s' (edit_key line (key, is_ctrl (keyboard s))) ∧ same_rest s s'.
Proof.
  intros He Hk. destruct (handle_key_buffer s line key (eo_buffer _ _ He) Hk) as (s' & Hrun & Hb & Hr).
  exists s'. split; [done|]. split; [|done].
  destruct key as [c|]; [|injection Hrun as <-; split; [done|by destruct He..]].
  assert (∃ s2, handle_key (Unicode c) s = (Ok false, s2) ∧ quiet (sys s2) ∧
    line_shown (edit_key line (Unicode c, is_ctrl (keyboard s))) (w_vga (sys s2))) as (s2 & Hrun2 & Hq & Hsh).
  { unfold handle_key. destruct Hk as [? Hn]. rewrite decide_False by done. case_decide as H8.
    - subst. destruct (key_backspace_cut s line (eo_buffer _ _ He)) as (n & i & Hle & _ & _ & -> & ->).
      by apply redraw_line_shown.
    - by apply key_character_shown. }
  rewrite Hrun in Hrun2. injection Hrun2 as <-. done.
Qed.
End editor.
End ShellEdit.
