(* ===== verification/ShellCmds.v ===== *)
(** * What the commands do

    [touch], [cat], [mkdir] and [ls] implement their references ([ShellRef]): what
    they do to the file subsystem and what they print. *)

From Stdlib Require Import Init.Byte.
From S2P Require Import Prelude Util Fmt FsTypes Fs Registry RamFs DevFs DirCache Path Vfs.
From S2P Require Import VfsFrame VfsInv VfsLookup VfsWalk VfsResolve VfsCreate VfsDirs.
From S2P Require Import VfsMount VfsFiles VfsIo VfsReadDir VfsReach VfsCalls VfsProps.
From S2P Require Import Parser Vga VgaText Interrupts Shell ShellFs ShellText ShellRef.

Module ShellCmds.
Import Shell ShellFs ShellText ShellRef.

(** A call of a ready file system. *)
Lemma vfs_call_run {A} (m : KM A) w : sys_ok (w_fs w) →
  vfs_call m w =
    match m (w_fs w) with
    | (Ok a, k) => (Ok (inl a), set_fs k w)
    | (Err e, k) => (Ok (inr e), set_fs k w)
    | (Panic p, k) => (Panic p, set_fs k w)
    end.
Proof.
  intros Hs. unfold vfs_call, on_fs.
  assert (Hget : (_ ← vfs_get; m) (w_fs w) = m (w_fs w)).
  { unfold vfs_get, mbind, M_bind, gets. by rewrite (inv_ready _ (vo_inv _ (so_vfs _ Hs))). }
  by rewrite Hget.
Qed.
(** A call whose result is unwrapped. *)
Lemma vfs_unwrap_run {A B} (m : KM A) (f : A → SM B) w : sys_ok (w_fs w) →
  (r ← vfs_call m; a ← unwrap_result r; f a) w =
    match m (w_fs w) with
    | (Ok a, k) => f a (set_fs k w)
    | (Err _, k) => (Panic UnwrapErr, set_fs k w)
    | (Panic p, k) => (Panic p, set_fs k w)
    end.
Proof.
  intros Hs. unfold mbind at 1, M_bind at 1. rewrite vfs_call_run by done. by destruct (m (w_fs w)) as [[] k].
Qed.

(** ** [touch] *)

Lemma touch_effect path rest w r w' : sys_ok (w_fs w) → cmd_touch (path :: rest) w = (r, w') →
  no_wrap (w_fs w') →
  match r with
  | Ok _ => touched path (w_fs w) (w_fs w') ∧ sys_ok (w_fs w') ∧ w' = set_fs (w_fs w') w
  | Err _ => False
  | Panic p => (p = UnwrapErr ∧ ∃ e, ref_open (w_fs w) path FileMode.Write = Err e) ∨
      ref_open (w_fs w) path FileMode.Write = Panic p ∨ p = ArithOverflow
  end.
Proof.
  intros Hs Hrun Hwrap. unfold cmd_touch in Hrun. change (head (path :: rest)) with (Some path) in Hrun.
  cbv iota beta in Hrun. rewrite vfs_unwrap_run in Hrun by done.
  destruct (open path FileMode.Write (w_fs w)) as [[fd|e|p] k1] eqn:Hopen.
  2: { injection Hrun as <- <-. simpl in Hwrap. left. split; [done|]. exists e.
       by destruct (open_spec _ _ _ _ _ (so_vfs _ Hs) Hopen Hwrap) as (_ & _ & _ & ?). }
  2: { injection Hrun as <- <-. destruct (open_spec _ _ _ _ _ (so_vfs _ Hs) Hopen Hwrap); auto. }
  assert (Hwrap1 : no_wrap k1).
  { eapply counts_le_no_wrap; [|exact Hwrap]. change k1 with (w_fs (set_fs k1 w)).
    revert Hrun. apply (sm_counts (SmSpec := sm_call_unwrap [] (close fd) _)). }
  destruct (fc_ok (FsCall := open_call path FileMode.Write) _ _ _ Hs Hopen Hwrap1) as [Hs1 _].
  destruct (open_spec _ _ _ _ _ (so_vfs _ Hs) Hopen Hwrap1) as (_ & _ & cr & rp & l & Href & Hopd).
  destruct (opd_fd _ _ _ _ _ _ _ Hopd) as [_ Hnone]. pose proof (opd_files _ _ _ _ _ _ _ Hopd) as Hfiles.
  assert (Hf : files k1 !! fd = Some (File_new l FileMode.Write)) by (rewrite Hfiles; apply lookup_insert_eq).
  destruct (fo_file _ (vo_files _ (so_vfs _ Hs1)) _ _ Hf) as (_ & [n Hn] & _).
  pose proof (close_run _ _ _ _ (so_vfs _ Hs1) Hf Hn) as Hclose.
  assert (Htail : (r ← vfs_call (close fd); unwrap_result r) (set_fs k1 w) =
    (Ok tt, set_fs (closed_state fd (File_new l FileMode.Write) n k1) w)).
  { pose proof (vfs_unwrap_run (close fd) mret (set_fs k1 w) Hs1) as Hu. simpl w_fs in Hu. rewrite Hclose in Hu.
    etrans; [|exact Hu]. unfold mbind, M_bind. by destruct (vfs_call _ _) as [[[]| |] ?]. }
  rewrite Htail in Hrun. injection Hrun as <- <-.
  split; [|split; [by destruct (fc_ok (FsCall := close_call fd) _ _ _ Hs1 Hclose Hwrap)|done]].
  exists cr, rp, l. simpl w_fs.
  assert (Hw : ∀ q, walk (closed_state fd (File_new l FileMode.Write) n k1) q = walk k1 q).
  { intros q. by apply closed_walk. }
  split_and!; [done|intros q; by rewrite Hw, (opd_walk _ _ _ _ _ _ _ Hopd)| | | |].
  - rewrite Hw, (opd_node _ _ _ _ _ _ _ Hopd). by eexists.
  - intros Hcr. destruct (opd_new _ _ _ _ _ _ _ Hopd Hcr) as (n' & Hn' & Hp).
    assert (n' = n) as -> by (apply (inj Some); by rewrite <- Hn', <- Hn). eexists. split; [apply lookup_insert_eq|done].
  - simpl. rewrite Hfiles. by apply delete_insert_id.
  - etrans; [apply Hopd|]. by apply (put_data_kept k1 l n).
Qed.

(** C19: [touch] makes sure that a file exists and does nothing else.  When it
    returns, the path names a file: a new empty one if there was none, which is
    then the only change of the name space; the descriptor table, the contents of
    every other file and the screen are as before.  It panics if and only if the
    file cannot be opened for writing. *)
Theorem touch_creates path rest w r w' : sys_ok (w_fs w) → cmd_touch (path :: rest) w = (r, w') →
  no_wrap (w_fs w') →
  match r with
  | Ok _ => ∃ cr rp l, ref_open (w_fs w) path FileMode.Write = Ok (cr, rp) ∧
      (∀ q, walk (w_fs w') q = if decide (cr = true ∧ q = rp) then Some (VNode l) else walk (w_fs w) q) ∧
      is_Some (walk (w_fs w') rp) ∧
      (cr = true → ∃ n, nodes (w_fs w') !! l = Some n ∧ node_private_data n = Some (RamFileNode [])) ∧
      files (w_fs w') = files (w_fs w) ∧ data_kept (w_fs w) (w_fs w') ∧ sys_ok (w_fs w') ∧
      w_vga w' = w_vga w
  | Err _ => False
  | Panic p => (p = UnwrapErr ∧ ∃ e, ref_open (w_fs w) path FileMode.Write = Err e) ∨
      ref_open (w_fs w) path FileMode.Write = Panic p ∨ p = ArithOverflow
  end.
Proof.
  intros Hs Hrun Hwrap. pose proof (touch_effect _ _ _ _ _ Hs Hrun Hwrap) as H. destruct r; [|done..].
  destruct H as ((cr & rp & l & ? & ? & ? & ? & ? & ?) & ? & ->). exists cr, rp, l. by split_and!.
Qed.

(** ** [cat] *)

Lemma on_vga_fs {A} (m : M Vga.t Empty_set A) w r w' : on_vga m w = (r, w') → w_fs w' = w_fs w.
Proof. unfold on_vga. destruct ((_ ← Interrupts.irqs_print _; m) (w_vga w)) as [o v]. by intros [= _ <-]. Qed.

(** A successful read of 512 bytes from the start of a file. *)
Lemma read_moves k fd l n b k' : vfs_ok k → files k !! fd = Some (File_new l FileMode.Read) →
  nodes k !! l = Some n → read fd (replicate 512 x00) k = (Ok b, k') →
  k' = moved_state fd (File_new l FileMode.Read) b.1 k ∧ Z.to_nat b.1 ≤ length b.2 ∧
  ∃ data, cat_bytes n = Some data ∧ b.1 = Z.of_nat (length data) ∧ take (Z.to_nat b.1) b.2 = data.
Proof.
  intros Hok Hf Hn Hread. rewrite (read_run _ _ _ _ _ Hok Hf Hn) in Hread.
  set (buffer := replicate 512 x00) in *. assert (Hlen : length buffer = 512) by done.
  destruct (ref_read n (File_new l FileMode.Read) buffer) as [r|e|p] eqn:Hr; [|done..].
  case_decide; [|done]. injection Hread as -> <-. split; [done|]. unfold cat_bytes.
  unfold ref_read in Hr. repeat case_decide; try done. simpl file_position in Hr.
  destruct (node_private_data n) as [[data| |[]]|]; [|done..| |done]; injection Hr as <-.
  - destruct (read_at_spec data 0 buffer ltac:(done)) as (Hc & Hc1 & Hc2).
    rewrite Hc in Hc1, Hc2. rewrite Hc1, Hc2, Hlen. change (Z.to_nat 0) with 0. rewrite drop_0, Nat.sub_0_r, Nat2Z.id. split.
    + rewrite length_app, length_take, length_drop. lia.
    + eexists. split; [done|]. split; [by rewrite length_take|].
      rewrite take_app_le, take_take by (rewrite length_take; lia).
      rewrite Nat.min_id. destruct (Nat.min_spec 512 (length data)) as [[? ->]|[? ->]]; [done|].
      by rewrite !take_ge by lia.
  - split; [by vm_compute|]. eexists. split; [done|]. split; reflexivity.
Qed.

Lemma cat_effect path rest w w' : sys_ok (w_fs w) → cmd_cat (path :: rest) w = (Ok tt, w') →
  no_wrap (w_fs w') →
  ∃ data, catted path (w_fs w) (w_fs w') data ∧ sys_ok (w_fs w') ∧
    println (Fmt.str (Fmt.from_utf8_lossy data)) (set_fs (w_fs w') w) = (Ok tt, w').
Proof.
  intros Hs Hrun Hwrap. unfold cmd_cat in Hrun. change (head (path :: rest)) with (Some path) in Hrun.
  cbv iota beta in Hrun. rewrite vfs_unwrap_run in Hrun by done.
  destruct (open path FileMode.Read (w_fs w)) as [[fd|e|p] k1] eqn:Hopen; [|done..].
  assert (Hwrap1 : no_wrap k1).
  { eapply counts_le_no_wrap; [|exact Hwrap]. change k1 with (w_fs (set_fs k1 w)).
    revert Hrun. apply (sm_counts (SmSpec := sm_cat_read fd)). }
  destruct (fc_ok (FsCall := open_call path FileMode.Read) _ _ _ Hs Hopen Hwrap1) as [Hs1 _].
  destruct (open_spec _ _ _ _ _ (so_vfs _ Hs) Hopen Hwrap1) as (_ & _ & cr & rp & l & Href & Hopd).
  assert (cr = false) as ->.
  { unfold ref_open in Href. repeat case_match; simplify_eq; done. }
  destruct (opd_fd _ _ _ _ _ _ _ Hopd) as [_ Hnone]. pose proof (opd_files _ _ _ _ _ _ _ Hopd) as Hfiles.
  assert (Hf : files k1 !! fd = Some (File_new l FileMode.Read)) by (rewrite Hfiles; apply lookup_insert_eq).
  destruct (fo_file _ (vo_files _ (so_vfs _ Hs1)) _ _ Hf) as (_ & [n Hn] & _). simpl in Hn.
  rewrite vfs_unwrap_run in Hrun by done. simpl w_fs in Hrun.
  destruct (read fd (replicate 512 x00) k1) as [[b|e|p] k2] eqn:Hread; [|done..].
  destruct (read_moves _ _ _ _ _ _ (so_vfs _ Hs1) Hf Hn Hread) as (-> & Hlen & data & Hcb & Hb & Ht).
  rewrite (mbind_run _ _ _ (take (Z.to_nat b.1) b.2) (set_fs (moved_state fd (File_new l FileMode.Read) b.1 k1) w)) in Hrun
    by (by rewrite decide_True).
  pose proof (on_vga_fs _ _ _ _ Hrun) as Hfs. simpl w_fs in Hfs. rewrite Hfs in *.
  destruct (fc_ok (FsCall := read_call fd _) _ _ _ Hs1 Hread Hwrap) as [Hs2 _].
  exists data. rewrite Ht in Hrun. split; [|by split].
  exists fd, (set_position (0 + b.1) (File_new l FileMode.Read)), rp, n.
  assert (Hw : ∀ q, walk (moved_state fd (File_new l FileMode.Read) b.1 k1) q = walk k1 q).
  { intros q. apply walk_upd_files. }
  split_and!; [done| |done|done|done| |exact (opd_data _ _ _ _ _ _ _ Hopd)|done|].
  - rewrite Hw, (opd_node _ _ _ _ _ _ _ Hopd). done.
  - intros q. rewrite Hw, (opd_walk _ _ _ _ _ _ _ Hopd). by rewrite decide_False by naive_solver.
  - simpl. by rewrite Hfiles, insert_insert_eq.
Qed.

(** C20: when [cat] returns, the path names a file that could be read; if it is a
    RAM file, exactly its first 512 bytes have been printed, decoded, on a line.
    No path and no file content changes, but the descriptor that [cat] opened is
    never closed: the table has one more entry than before. *)
Theorem cat_prints path rest w w' : sys_ok (w_fs w) → cmd_cat (path :: rest) w = (Ok tt, w') →
  no_wrap (w_fs w') →
  ∃ fd f rp n, ref_open (w_fs w) path FileMode.Read = Ok (false, rp) ∧
    walk (w_fs w') rp = Some (node_view (w_fs w') (file_node f)) ∧ nodes (w_fs w') !! file_node f = Some n ∧
    (∀ q, walk (w_fs w') q = walk (w_fs w) q) ∧ data_kept (w_fs w) (w_fs w') ∧ sys_ok (w_fs w') ∧
    files (w_fs w) !! fd = None ∧ files (w_fs w') = <[fd := f]> (files (w_fs w)) ∧
    ∀ data, node_private_data n = Some (RamFileNode data) →
      file_position f = Z.of_nat (Nat.min 512 (length data)) ∧
      println (Fmt.str (Fmt.from_utf8_lossy (take 512 data))) (set_fs (w_fs w') w) = (Ok tt, w').
Proof.
  intros Hs Hrun Hwrap. destruct (cat_effect _ _ _ _ Hs Hrun Hwrap)
    as (bytes & (fd & f & rp & n & ? & ? & ? & Hcb & Hpos & ? & ? & ? & ?) & ? & Hp).
  exists fd, f, rp, n. split_and!; try done. intros data Hd. unfold cat_bytes in Hcb. rewrite Hd in Hcb.
  injection Hcb as <-. by rewrite Hpos, length_take.
Qed.

(** ** [ls] *)

(** The options. *)
Lemma starts_with_dash c a : starts_with "-" (String c a) = bool_decide (c = "-"%char).
Proof.
  unfold starts_with. change (String.prefix "-" (String c a)) with
    (if Ascii.ascii_dec "-"%char c then String.prefix "" a else false).
  destruct (Ascii.ascii_dec "-"%char c) as [<-|Hc]; [by destruct a|]. by rewrite bool_decide_eq_false_2 by congruence.
Qed.
Lemma operands_spec args : without_flags args = operands args.
Proof.
  unfold without_flags, operands. apply list_filter_iff. intros [|c a]; [done|].
  rewrite starts_with_dash, bool_decide_eq_false. change (String.get 0 (String c a)) with (Some c). naive_solver.
Qed.
Lemma has_char_elem s c : has_char s c = bool_decide (c ∈ String.list_ascii_of_string s).
Proof.
  induction s as [|x s IH]; simpl; [done|]. rewrite IH. apply eq_bool_prop_intro.
  rewrite orb_True, !bool_decide_spec, elem_of_cons. naive_solver.
Qed.
Lemma has_boolean_option_given args c b : has_boolean_option args c = Ok b → b = given c args.
Proof.
  induction args as [|a args IH]; [by intros [= <-]|]. cbn [has_boolean_option]. unfold given in *. cbn [existsb].
  destruct a as [|x a]; [by apply IH|]. rewrite starts_with_dash. unfold gives at 1. rewrite has_char_elem.
  change (skip_char (String x a)) with a. case_bool_decide as Hx; cbn [negb].
  - destruct (starts_with "--" _); [done|]. rewrite (bool_decide_ext (x = _ ∧ _) (c ∈ String.list_ascii_of_string a)) by naive_solver.
    case_bool_decide; [by intros [= <-]|apply IH].
  - rewrite bool_decide_eq_false_2 by naive_solver. apply IH.
Qed.

(** The lines. *)
Lemma entry_color_spec kind : kind_color_code kind = entry_color kind.
Proof. by destruct kind. Qed.
Lemma writes_id ids i : writes (if ids : bool then print (Fmt.display_u64 i +:+ " ") else mret tt) (id_text ids i).
Proof. destruct ids; [apply writes_print|apply writes_ret]. Qed.
Lemma writes_entry_short ids e : writes (format_entry_short ids e) (entry_text ids e).
Proof.
  unfold format_entry_short. rewrite entry_color_spec.
  apply (writes_bind _ _ (id_text ids (die_id e)) (colored (entry_color (die_kind e)) (line (die_name e)))); [apply writes_id|].
  intros _. apply writes_with_color, writes_println.
Qed.
Lemma writes_entries ids dir es : writes (ls_children false ids dir es) (entries_text ids es).
Proof.
  induction es as [|e es IH]; [apply writes_ret|]. simpl.
  apply (writes_bind _ _ (entry_text ids e) (entries_text ids es)); [apply writes_entry_short|by intros _].
Qed.

(** The entries of a listing in order. *)
Lemma into_iter_names k f ctx : lists_fun k f ctx →
  StronglySorted String.le (die_name <$> DirectoryIterationContext_into_iter ctx) ∧
  NoDup (die_name <$> DirectoryIterationContext_into_iter ctx) ∧
  ∀ d, d ∈ DirectoryIterationContext_into_iter ctx ↔ ctx !! die_name d = Some d.
Proof.
  intros Hl.
  assert (Hname : ∀ s d, ctx !! s = Some d → die_name d = s).
  { intros s d Hd. specialize (Hl s). destruct (f s); [|congruence]. destruct Hl as (d' & ? & ? & _). congruence. }
  assert (Heq : die_name <$> DirectoryIterationContext_into_iter ctx = (btree_iter String.le ctx).*1).
  { unfold DirectoryIterationContext_into_iter, btree_values. rewrite <- list_fmap_compose.
    apply list_fmap_ext. intros i [s d] Hin. simpl. apply Hname.
    apply (elem_of_btree_iter String.le). by eapply list_elem_of_lookup_2. }
  rewrite Heq. split_and!; [apply (btree_iter_sorted String.le)|apply btree_iter_nodup|].
  intros d. etrans; [apply (elem_of_btree_values String.le)|]. split; [|by eauto].
  intros [s Hs]. by rewrite (Hname _ _ Hs).
Qed.

Lemma resolved_dir k k1 path e de n : inv k → inv k1 → ext k k1 → entries k1 !! e = Some de →
  nodes k1 !! de_node de = Some n → ref_resolve_path k path = Ok (Some (rpath k1 e)) →
  ref_read_directory k path = if is_directory n then Ok (rpath k1 e) else Err NotADirectory.
Proof.
  intros Hinv Hinv1 Hext He Hn Href. unfold ref_read_directory. rewrite Href.
  assert (Hdir : from_option (view_is_dir k) false (walk k (rpath k1 e)) = is_directory n); [|by rewrite Hdir].
  rewrite <- (ext_walk k k1), (walk_entry _ _ _ Hinv1 He) by done. simpl.
  rewrite <- (ext_view_is_dir k k1 (rpath k1 e)); [by apply view_is_dir_node|done..|].
  by rewrite <- (ext_walk k k1), (walk_entry _ _ _ Hinv1 He) by done.
Qed.

(** A read of the file subsystem that does not change it. *)
Lemma peek_step {A B} (m : KM A) (f : A → SM B) a w : m (w_fs w) = (Ok a, w_fs w) → (peek m ≫= f) w = f a w.
Proof. intros Hm. by rewrite (mbind_run _ _ _ _ _ (peek_run _ _ _ Hm)). Qed.

(** ** What [ls] finds *)

Lemma ext_unchanged k k' : inv k → inv k' → ext k k' → unchanged k k'.
Proof. intros Hk Hk' Hext. split; [intros q; by apply ext_walk|apply Hext|by apply ext_data_kept]. Qed.
Lemma node_at_ext k k' rp n : inv k → inv k' → ext k k' → node_at k rp n → node_at k' rp n.
Proof.
  intros Hk Hk' Hext (l & Hn & Hw). pose proof (ext_node _ _ _ _ Hk Hext Hn) as Hn'. exists l. split; [done|].
  rewrite (ext_walk k k'), Hw by done. unfold node_view. by rewrite Hn, Hn'.
Qed.

Lemma listing_of k k2 rp ctx : inv k → ext k k2 → lists_fun k2 (λ s, walk k (s :: rp)) ctx →
  listing k rp (DirectoryIterationContext_into_iter ctx).
Proof.
  intros Hinv Hext Hl. destruct (into_iter_names _ _ _ Hl) as (Hsort & Hnd & Hin). split; [done|done| |].
  - intros s. specialize (Hl s). cbv beta in Hl. rewrite list_elem_of_fmap. split.
    + intros (d & -> & Hd%Hin). destruct (walk k (die_name d :: rp)); [by eexists|congruence].
    + intros [v Hv]. rewrite Hv in Hl. destruct Hl as (d & Hd & Hn & _). exists d. split; [done|]. apply Hin. by rewrite Hn.
  - intros d Hd%Hin. specialize (Hl (die_name d)). cbv beta in Hl.
    destruct (walk k (die_name d :: rp)) as [v|] eqn:Hv; [|congruence]. destruct Hl as (d' & Hd' & _ & Hk & Hi).
    rewrite Hd in Hd'. injection Hd' as <-. exists v. split; [done|]. destruct v as [l|]; [|done]. cbn [view_kind view_id] in *.
    destruct (walk_node _ _ _ Hinv Hv) as [n Hn]. rewrite (ext_node _ _ _ _ Hinv Hext Hn) in Hk, Hi. by rewrite Hn.
Qed.

(** [stat] has found an entry, to which the caller has a reference. *)
Record found_entry (path : string) (k k1 : kernel) (e : loc) (rp : list string) (de : DirectoryEntry) (n : FsNode) : Prop := {
  fe_ok : sys_ok k1;
  fe_ext : ext k k1;
  fe_held : held k1 = e :: held k;
  fe_resolve : ref_resolve_path k path = Ok (Some rp);
  fe_entry : entries k1 !! e = Some de;
  fe_node : nodes k1 !! de_node de = Some n;
  fe_at : node_at k1 rp n;
  fe_name : de_name de = last_name rp;
  fe_dir : ref_read_directory k path = if is_directory n then Ok rp else Err NotADirectory;
}.
Lemma stat_found path k e k1 : sys_ok k → stat path k = (Ok e, k1) → no_wrap k1 →
  ∃ rp de n, found_entry path k k1 e rp de n.
Proof.
  intros Hs Hst Hwrap. destruct (stat_spec _ _ _ _ (vo_inv _ (so_vfs _ Hs)) Hst Hwrap) as (Hinv1 & Hext & Hh & Hr).
  destruct (fc_ok (FsCall := stat_call path) _ _ _ Hs Hst Hwrap) as [Hs1 _].
  destruct (held_entry _ e Hs1) as (de & n & He & Hn); [rewrite Hh; by left|].
  exists (rpath k1 e), de, n. split; try done.
  - exists (de_node de). split; [done|]. by apply walk_entry.
  - unfold last_name. destruct (de_parent de) as [p|] eqn:Hp; [by rewrite (rpath_child _ _ _ _ Hinv1 He Hp)|].
    rewrite (rpath_top _ _ _ He Hp). by destruct (inv_root _ Hinv1 _ _ He Hp).
  - apply (resolved_dir k k1 path e de n); try done. apply Hs.
Qed.

(** The reference is dropped. *)
Lemma drop_run e hs w r w' : sys_ok (w_fs w) → held (w_fs w) = e :: hs → peek (arc_drop e) w = (r, w') →
  ∃ k', r = Ok tt ∧ w' = set_fs k' w ∧ sys_ok k' ∧ ext (w_fs w) k' ∧ held k' = hs.
Proof.
  intros Hs Hh Hrun. destruct (arc_drop_ok _ _ _ Hs Hh) as (k' & Hk & Hs' & Hh' & _).
  unfold peek, on_fs, mbind, M_bind in Hrun. rewrite Hk in Hrun. injection Hrun as <- <-. exists k'. split_and!; try done.
  rewrite (arc_drop_run _ _ _ Hh) in Hk. injection Hk as <-. apply ext_gc_held.
Qed.

Lemma entry_long_run ids e de n w r w' : Vga.wf (w_vga w) → entries (w_fs w) !! e = Some de →
  nodes (w_fs w) !! de_node de = Some n → format_entry_long ids e w = (r, w') →
  r = Ok tt ∧ w_fs w' = w_fs w ∧ Vga.wf (w_vga w') ∧ said w w' (long_text ids (de_name de) n).
Proof.
  intros Hv He Hn Hrun. unfold format_entry_long in Hrun.
  rewrite (peek_step _ _ de) in Hrun by (by apply get_entry_run).
  rewrite (peek_step _ _ n) in Hrun by (by apply get_node_run). cbv zeta in Hrun.
  assert (Hkind : display_kind (node_kind n) = kind_letter (node_kind n)) by (by destruct (node_kind n)).
  rewrite Hkind in Hrun. eapply (writes_run _ (long_text ids (de_name de) n)) in Hrun as ([] & -> & ? & ? & ?); [done| |done].
  apply (writes_bind _ _ (id_text ids (node_id n)) (line _)); [apply writes_id|intros _; apply writes_println].
Qed.
(** A step of [ls] from [w] to [w'] that leaves the file subsystem as it is, up to its
    caches, and keeps its references. *)
Record quietly (w w' : world) (hs : list loc) : Prop := {
  qt_ok : sys_ok (w_fs w');
  qt_ext : ext (w_fs w) (w_fs w');
  qt_held : held (w_fs w') = hs;
  qt_wf : Vga.wf (w_vga w');
}.

(** The children of a directory in long form. *)
Lemma ls_children_long ids dir es : ∀ w w', sys_ok (w_fs w) → Vga.wf (w_vga w) →
  ls_children true ids dir es w = (Ok tt, w') → no_wrap (w_fs w') →
  quietly w w' (held (w_fs w)) ∧
  ∃ ns, said w w' (long_texts ids ns) ∧ Forall2 (λ e x, ∃ q,
    ref_resolve_path (w_fs w) (long_path dir (die_name e)) = Ok (Some q) ∧ x.1 = last_name q ∧
    node_at (w_fs w') q x.2) es ns.
Proof.
  induction es as [|d es IH]; intros w w' Hs Hv Hrun Hwrap.
  { injection Hrun as <-. split; [by split|]. exists []. by split; [apply said_nothing|]. }
  cbn [ls_children] in Hrun. fold (long_path dir (die_name d)) in Hrun. set (path := long_path dir (die_name d)) in *.
  apply mbind_Ok_inv in Hrun as ([] & w3 & Hrun & Hrest).
  assert (Hwrap3 : no_wrap (w_fs w3)).
  { eapply counts_le_no_wrap; [|exact Hwrap]. revert Hrest. apply (sm_counts (SmSpec := sm_ls_children [] true ids dir es)). }
  rewrite vfs_unwrap_run in Hrun by done. destruct (stat path (w_fs w)) as [[c|e|p] k1] eqn:Hst; [|done..].
  apply mbind_Ok_inv in Hrun as ([] & w2 & Hlong & Hdrop).
  assert (Hwrap2 : no_wrap (w_fs w2)).
  { eapply counts_le_no_wrap; [|exact Hwrap3]. revert Hdrop. apply (sm_counts (SmSpec := sm_drop [] c)). }
  assert (Hwrap1 : no_wrap k1).
  { eapply counts_le_no_wrap; [|exact Hwrap2]. change k1 with (w_fs (set_fs k1 w)). revert Hlong.
    apply (sm_counts (SmSpec := sm_entry_long [c] ids c ltac:(by left))). }
  destruct (stat_found _ _ _ _ Hs Hst Hwrap1) as (q & de & n & Hf).
  destruct (entry_long_run ids c de n _ _ _ (Hv : Vga.wf (w_vga (set_fs k1 w))) (fe_entry _ _ _ _ _ _ _ Hf)
    (fe_node _ _ _ _ _ _ _ Hf) Hlong) as (_ & Hfs2 & Hv2 & Hsaid%said_fs_l). simpl in Hfs2.
  destruct (drop_run c (held (w_fs w)) w2 _ _ ltac:(rewrite Hfs2; apply Hf) ltac:(rewrite Hfs2; apply Hf) Hdrop)
    as (k3 & _ & -> & Hs3 & Hext3 & Hh3). rewrite Hfs2 in Hext3.
  assert (Hext : ext (w_fs w) k3) by (etrans; [apply Hf|done]).
  destruct (IH (set_fs k3 w2) w' Hs3 Hv2 Hrest Hwrap) as ([Hs' Hext' Hh' Hv'] & ns & Hsaid' & Hall). simpl w_fs in *.
  pose proof (vo_inv _ (so_vfs _ Hs)) as Hi. pose proof (vo_inv _ (so_vfs _ Hs3)) as Hi3.
  pose proof (vo_inv _ (so_vfs _ Hs')) as Hi'. pose proof (vo_inv _ (so_vfs _ (fe_ok _ _ _ _ _ _ _ Hf))) as Hi1.
  split; [split; [done|by etrans|by rewrite Hh'|done]|]. exists ((de_name de, n) :: ns). split.
  - exact (said_trans _ _ _ _ _ (said_fs_r k3 _ _ _ Hsaid) Hsaid').
  - constructor.
    + exists q. split_and!; [apply Hf|apply Hf|]. apply (node_at_ext k3), (node_at_ext k1); try done. apply Hf.
    + eapply Forall2_impl; [exact Hall|]. intros e x (q' & Hr & ?). exists q'. by rewrite <- (ext_ref_resolve_path (w_fs w) k3).
Qed.

(** [ls] of a directory that [stat] has found. *)
Lemma ls_entry_dir long ids path rp de e k w w' : sys_ok k → Vga.wf (w_vga w) → sys_ok (w_fs w) → ext k (w_fs w) →
  held (w_fs w) = e :: held k → ref_read_directory k path = Ok rp → de_name de = last_name rp →
  (r ← vfs_call (read_directory path);
   match r with
   | inl ctx => ls_children long ids (de_name de) (DirectoryIterationContext_into_iter ctx)
   | inr _ => panic Todo
   end) w = (Ok tt, w') → no_wrap (w_fs w') →
  quietly w w' (e :: held k) ∧ ∃ t, said w w' t ∧ listed path long ids k (w_fs w') t.
Proof.
  intros Hs Hv Hs1 Hext1 Hh1 Hrd Hname Hbody Hwrap.
  unfold mbind at 1, M_bind at 1 in Hbody. rewrite vfs_call_run in Hbody by done.
  destruct (read_directory path (w_fs w)) as [[ctx|e'|p] k2] eqn:Hread; [|done..].
  assert (Hwrap2 : no_wrap k2).
  { eapply counts_le_no_wrap; [|exact Hwrap]. change k2 with (w_fs (set_fs k2 w)). revert Hbody.
    apply (sm_counts (SmSpec := sm_ls_children [] long ids (de_name de) _)). }
  pose proof (vo_inv _ (so_vfs _ Hs)) as Hi. pose proof (vo_inv _ (so_vfs _ Hs1)) as Hi1.
  destruct (read_directory_spec _ _ _ _ Hi1 Hread Hwrap2) as (Hi2 & Hext2 & Hh2 & rp' & Hrd' & Hlist).
  destruct (fc_ok (FsCall := read_directory_call path) _ _ _ Hs1 Hread Hwrap2) as [Hs2 _].
  assert (Hext : ext k k2) by (by etrans).
  rewrite (ext_ref_read_directory k (w_fs w)), Hrd in Hrd' by done. injection Hrd' as <-.
  assert (Hli : listing k rp (DirectoryIterationContext_into_iter ctx)).
  { apply (listing_of k k2); [done..|]. intros s. specialize (Hlist s). cbv beta in Hlist.
    by rewrite (ext_walk k (w_fs w)) in Hlist. }
  destruct long.
  - destruct (ls_children_long ids (de_name de) _ (set_fs k2 w) w' Hs2 Hv Hbody Hwrap) as ([Hs' Hext' Hh' Hv'] & ns & Hsaid & Hall).
    simpl w_fs in *. split; [split; [done|by etrans|by rewrite Hh', Hh2|done]|].
    exists (long_texts ids ns). split; [by eapply said_fs_l|]. eapply listed_directory_long; [done..|].
    eapply Forall2_impl; [exact Hall|]. intros d x (q & Hr & ?). exists q. rewrite <- Hname.
    by rewrite <- (ext_ref_resolve_path k k2).
  - eapply writes_run in Hbody as (_ & _ & Hfs & Hv' & Hsaid); [|apply writes_entries|done]. simpl in Hfs.
    split; [split; rewrite ?Hfs; [done|done|by rewrite Hh2|done]|].
    exists (entries_text ids (DirectoryIterationContext_into_iter ctx)). split; [by eapply said_fs_l|].
    by eapply listed_directory.
Qed.
(** Something else than a directory. *)
Lemma ls_entry_file (long ids : bool) path e w w' k rp de n : Vga.wf (w_vga w) →
  found_entry path k (w_fs w) e rp de n → node_kind n ≠ FsNodeKind.Directory →
  (if long then format_entry_long ids e else d ← peek (DirectoryIterationEntry_from e); format_entry_short ids d) w = (Ok tt, w') →
  w_fs w' = w_fs w ∧ Vga.wf (w_vga w') ∧ ∃ t, said w w' t ∧ listed path long ids k (w_fs w) t.
Proof.
  intros Hv [Hs1 Hext1 Hh1 Hres He Hn Hat Hname Hdir] Hkind Hrun.
  unfold is_directory in Hdir. rewrite bool_decide_eq_false_2 in Hdir by done. destruct long.
  - destruct (entry_long_run ids e de n w _ w' Hv He Hn Hrun) as (_ & ? & ? & Hsaid). split_and!; [done..|].
    eexists. split; [exact Hsaid|]. rewrite Hname. by apply listed_file_long.
  - rewrite (peek_step _ _ {| die_name := de_name de; die_id := node_id n; die_kind := node_kind n |}) in Hrun.
    2: { unfold DirectoryIterationEntry_from, get_entry, get_node, mbind, M_bind, gets, unwrap. rewrite He. simpl. by rewrite Hn. }
    eapply writes_run in Hrun as (_ & _ & ? & ? & Hsaid); [|apply writes_entry_short|done]. split_and!; [done..|].
    eexists. split; [exact Hsaid|]. rewrite Hname. by apply listed_file.
Qed.
Lemma listed_ext path long ids k k1 k' t : inv k1 → inv k' → ext k1 k' → listed path long ids k k1 t → listed path long ids k k' t.
Proof.
  intros Hi Hi' Hext [|rp n ? Hn|rp es|rp n ? Hn|rp es ns ? ? ? Hall].
  - by apply listed_missing.
  - apply listed_file; try done. by apply (node_at_ext k1).
  - by eapply listed_directory.
  - apply listed_file_long; try done. by apply (node_at_ext k1).
  - eapply listed_directory_long; [done..|]. eapply Forall2_impl; [exact Hall|].
    intros d x (q & ? & ? & ?). exists q. split_and!; [done..|by apply (node_at_ext k1)].
Qed.

(** What [stat] has found, listed. *)
Lemma ls_entry_run long ids path e w w' k rp de n : sys_ok k → Vga.wf (w_vga w) →
  found_entry path k (w_fs w) e rp de n → ls_entry long ids path e w = (Ok tt, w') → no_wrap (w_fs w') →
  ∃ t, listed path long ids k (w_fs w') t ∧ said w w' t ∧ sys_ok (w_fs w') ∧ ext k (w_fs w').
Proof.
  intros Hs Hv Hf Hrun Hwrap. pose proof Hf as [Hs1 Hext1 Hh1 Hres He Hn Hat Hname Hdir].
  unfold ls_entry in Hrun. rewrite (peek_step _ _ de) in Hrun by (by apply get_entry_run).
  rewrite (peek_step _ _ n) in Hrun by (by apply get_node_run).
  apply mbind_Ok_inv in Hrun as ([] & w2 & Hbody & Hdrop).
  assert (Hwrap2 : no_wrap (w_fs w2)).
  { eapply counts_le_no_wrap; [|exact Hwrap]. revert Hdrop. apply (sm_counts (SmSpec := sm_drop [] e)). }
  assert (quietly w w2 (e :: held k) ∧ ∃ t, said w w2 t ∧ listed path long ids k (w_fs w2) t)
    as ([Hs2 Hext2 Hh2 Hv2] & t & Hsaid & Hl).
  { unfold is_directory in Hbody, Hdir. case_bool_decide as Hkind.
    - by apply (ls_entry_dir long ids path rp de e).
    - destruct (ls_entry_file _ _ _ _ _ _ _ _ _ _ Hv Hf Hkind Hbody) as (Hfs & ? & ?).
      split; [split; by rewrite ?Hfs|by rewrite Hfs]. }
  destruct (drop_run e (held k) w2 _ _ Hs2 Hh2 Hdrop) as (k3 & _ & -> & Hs3 & Hext3 & _).
  exists t. split_and!; [|by apply said_fs_r|done|].
  - eapply listed_ext; [apply Hs2|apply Hs3|done..].
  - etrans; [exact Hext1|]. by etrans.
Qed.

Lemma ref_resolve_path_found k path : ref_resolve_path k path ≠ Err EntryNotFound.
Proof.
  assert (Hr : ∀ segs cur, ref_resolve k cur segs ≠ Err EntryNotFound).
  { induction segs as [|seg segs IH]; intros cur; cbn [ref_resolve]; [done|]. by repeat case_match. }
  unfold ref_resolve_path, path_segments. repeat case_match; simplify_eq; first [done|apply Hr].
Qed.

Lemma lift_run {A B} (o : outcome Empty_set A) (f : A → SM B) w b w' : (x ← lift_outcome o; f x) w = (Ok b, w') →
  ∃ x, o = Ok x ∧ f x w = (Ok b, w').
Proof. intros (x & w1 & H1 & H2)%mbind_Ok_inv. exists x. unfold lift_outcome in H1. destruct o as [|[]|]; by simplify_eq. Qed.

Lemma ls_effect args w w' : sys_ok (w_fs w) → Vga.wf (w_vga w) → cmd_ls args w = (Ok tt, w') → no_wrap (w_fs w') →
  ∃ t, listed (default "/" (last (operands args))) (given "l"%char args) (given "i"%char args) (w_fs w) (w_fs w') t ∧
    said w w' t ∧ unchanged (w_fs w) (w_fs w') ∧ sys_ok (w_fs w').
Proof.
  intros Hs Hv Hrun Hwrap. unfold cmd_ls in Hrun. rewrite operands_spec in Hrun. cbv zeta in Hrun.
  set (path := default "/" (last (operands args))) in *. pose proof (vo_inv _ (so_vfs _ Hs)) as Hi.
  apply lift_run in Hrun as (_ & _ & Hrun). apply lift_run in Hrun as (long & Hl%has_boolean_option_given & Hrun).
  apply lift_run in Hrun as (_ & _ & Hrun). apply lift_run in Hrun as (ids & Hids%has_boolean_option_given & Hrun).
  rewrite <- Hl, <- Hids. unfold mbind at 1, M_bind at 1 in Hrun. rewrite vfs_call_run in Hrun by done.
  destruct (stat path (w_fs w)) as [[e|e|p] k1] eqn:Hst; [| |done].
  - fold (ls_entry long ids path e) in Hrun.
    assert (Hwrap1 : no_wrap k1).
    { eapply counts_le_no_wrap; [|exact Hwrap]. change k1 with (w_fs (set_fs k1 w)). revert Hrun.
      apply (sm_counts (SmSpec := sm_ls_entry long ids path e)). }
    destruct (stat_found _ _ _ _ Hs Hst Hwrap1) as (rp & de & n & Hf).
    destruct (ls_entry_run long ids path e (set_fs k1 w) w' (w_fs w) rp de n Hs Hv Hf Hrun Hwrap) as (t & ? & Hsaid & Hs' & ?).
    exists t. split_and!; [done|by eapply said_fs_l|apply ext_unchanged; [done|apply Hs'|done]|done].
  - destruct e; try done. eapply writes_run in Hrun as (_ & _ & Hfs & _ & Hsaid); [|apply writes_println|done].
    simpl in Hfs. rewrite Hfs in Hwrap |- *.
    destruct (stat_spec _ _ _ _ Hi Hst Hwrap) as (Hi1 & Hext & _ & Hr).
    destruct (fc_ok (FsCall := stat_call path) _ _ _ Hs Hst Hwrap) as [Hs1 _].
    destruct Hr as [Hr|[Hr _]]; [by destruct (ref_resolve_path_found (w_fs w) path)|].
    eexists. split; [by apply listed_missing|]. split_and!; [by eapply said_fs_l|by apply ext_unchanged|done].
Qed.

(** Without a named option and of a directory, [ls] panics only for want of ids. *)
Definition named_option (arg : string) : Prop := String.prefix "--" arg = true.
Lemma option_panic args c p : has_boolean_option args c = Panic p → p = Todo ∧ Exists named_option args.
Proof.
  induction args as [|a args IH]; [done|]. cbn [has_boolean_option]. unfold named_option, starts_with in *.
  destruct (negb _); [intros [? ?]%IH; eauto|]. destruct (String.prefix "--" a) eqn:Hp; [intros [= <-]; eauto|].
  destruct (has_char _ _); [done|]. intros [? ?]%IH; eauto.
Qed.
Lemma lift_panic {A B} (o : outcome Empty_set A) (f : A → SM B) w p w' : (x ← lift_outcome o; f x) w = (Panic p, w') →
  o = Panic p ∨ ∃ x, o = Ok x ∧ f x w = (Panic p, w').
Proof.
  unfold mbind, M_bind, lift_outcome. destruct o as [x|[]|q]; [|by intros [= ->]; left]. right. eauto.
Qed.
Lemma writes_no_panic {A} (m : SM A) t w p w' : writes m t → Vga.wf (w_vga w) → m w ≠ (Panic p, w').
Proof. intros Hm Hv Hrun. by destruct (writes_run _ _ _ _ _ Hm Hv Hrun) as (? & ? & _). Qed.

Lemma ls_entry_panics ids path e rp k k1 w p w' : sys_ok k → stat path k = (Ok e, k1) → no_wrap k1 → Vga.wf (w_vga w) →
  ref_read_directory k path = Ok rp → ls_entry false ids path e (set_fs k1 w) = (Panic p, w') → no_wrap (w_fs w') → p = ArithOverflow.
Proof.
  intros Hs Hst Hwrap1 Hv Hrd Hrun Hwrap.
  destruct (stat_found _ _ _ _ Hs Hst Hwrap1) as (rp' & de & n & [Hs1 Hext1 Hh1 Hres He Hn Hat Hname Hdir]).
  rewrite Hrd in Hdir. destruct (is_directory n) eqn:Hd; [|done]. injection Hdir as ->.
  unfold ls_entry in Hrun. rewrite (peek_step _ _ de) in Hrun by (by apply get_entry_run).
  rewrite (peek_step _ _ n), Hd in Hrun by (by apply get_node_run).
  pose proof (vo_inv _ (so_vfs _ Hs)) as Hi. pose proof (vo_inv _ (so_vfs _ Hs1)) as Hi1.
  unfold mbind at 1, M_bind at 1 in Hrun. unfold mbind at 1, M_bind at 1 in Hrun. rewrite vfs_call_run in Hrun by done.
  simpl w_fs in Hrun. destruct (read_directory path k1) as [[ctx|x|q] k2] eqn:Hread.
  - destruct (ls_children _ _ _ _ _) as [o w2] eqn:Hc.
    eapply writes_run in Hc as (? & -> & Hfs & _ & _); [|apply writes_entries|exact Hv]. simpl in Hfs.
    exfalso. revert Hrun. unfold peek, on_fs, arc_drop, modify, mbind, M_bind. done.
  - cbv iota beta in Hrun. injection Hrun as <- <-. 
    destruct (read_directory_spec _ _ _ _ Hi1 Hread Hwrap) as (_ & _ & _ & Hr).
    by rewrite (ext_ref_read_directory k k1), Hrd in Hr.
  - injection Hrun as <- <-. destruct (read_directory_spec _ _ _ _ Hi1 Hread Hwrap) as [?|Hr]; [done|].
    by rewrite (ext_ref_read_directory k k1), Hrd in Hr.
Qed.

Lemma ls_panics args rp w p w' : sys_ok (w_fs w) → Vga.wf (w_vga w) →
  ref_read_directory (w_fs w) (default "/" (last (operands args))) = Ok rp → given "l"%char args = false →
  cmd_ls args w = (Panic p, w') → no_wrap (w_fs w') → p = ArithOverflow ∨ p = Todo ∧ Exists named_option args.
Proof.
  intros Hs Hv Hrd Hl Hrun Hwrap. unfold cmd_ls in Hrun. rewrite operands_spec in Hrun. cbv zeta in Hrun.
  set (path := default "/" (last (operands args))) in *. pose proof (vo_inv _ (so_vfs _ Hs)) as Hi.
  apply lift_panic in Hrun as [Hp%option_panic|(_ & _ & Hrun)]; [by right|].
  apply lift_panic in Hrun as [Hp%option_panic|(long & Hlong%has_boolean_option_given & Hrun)]; [by right|].
  apply lift_panic in Hrun as [Hp%option_panic|(_ & _ & Hrun)]; [by right|].
  apply lift_panic in Hrun as [Hp%option_panic|(ids & _ & Hrun)]; [by right|]. left. rewrite Hl in Hlong. subst long.
  unfold mbind at 1, M_bind at 1 in Hrun. rewrite vfs_call_run in Hrun by done.
  destruct (stat path (w_fs w)) as [[e|e|q] k1] eqn:Hst.
  - fold (ls_entry false ids path e) in Hrun. eapply ls_entry_panics; [exact Hs|exact Hst| |exact Hv|exact Hrd|exact Hrun|exact Hwrap].
    eapply counts_le_no_wrap; [|exact Hwrap]. change k1 with (w_fs (set_fs k1 w)). revert Hrun.
    apply (sm_counts (SmSpec := sm_ls_entry false ids path e)).
  - assert (Hwrap1 : no_wrap k1).
    { eapply counts_le_no_wrap; [|exact Hwrap]. change k1 with (w_fs (set_fs k1 w)).
      destruct e; try (by injection Hrun as _ <-). by destruct (writes_no_panic _ _ (set_fs k1 w) _ _ (writes_println _) Hv Hrun). }
    destruct (stat_spec _ _ _ _ Hi Hst Hwrap1) as (_ & _ & _ & Hr).
    unfold ref_read_directory in Hrd. destruct Hr as [Hr|[Hr _]]; by rewrite Hr in Hrd.
  - injection Hrun as <- <-. destruct (stat_spec _ _ _ _ Hi Hst Hwrap) as [?|Hr]; [done|].
    unfold ref_read_directory in Hrd. by rewrite Hr in Hrd.
Qed.

(** C18: [ls] lists a directory exactly.  When the last argument that is not an option
    names a directory and [-l] is not given, [ls] prints one line for each name in
    the directory, and for no other, in alphabetical order: its name in the color of
    the node's kind, and before it the node's number if [-i] is given.  What
    interrupts print meanwhile comes between the lines.  No path, no descriptor and
    no file content changes.  It does not return only if there is a named option
    (which is a [todo!()]) or a 64-bit count is exhausted. *)
Theorem ls_lists args rp w r w' : sys_ok (w_fs w) → Vga.wf (w_vga w) →
  ref_read_directory (w_fs w) (default "/" (last (operands args))) = Ok rp → given "l"%char args = false →
  cmd_ls args w = (r, w') → no_wrap (w_fs w') →
  match r with
  | Ok _ => ∃ es, StronglySorted String.le (die_name <$> es) ∧ NoDup (die_name <$> es) ∧
      (∀ s, s ∈ die_name <$> es ↔ is_Some (walk (w_fs w) (s :: rp))) ∧
      (∀ e, e ∈ es → ∃ v, walk (w_fs w) (die_name e :: rp) = Some v ∧ view_kind (w_fs w) v = Some (die_kind e) ∧
        ∀ i, view_id (w_fs w) v = Some i → die_id e = i) ∧
      (∀ d, shown w d → shown w' (entries_text (given "i"%char args) es d)) ∧
      (∀ q, walk (w_fs w') q = walk (w_fs w) q) ∧ files (w_fs w') = files (w_fs w) ∧
      data_kept (w_fs w) (w_fs w') ∧ sys_ok (w_fs w')
  | Err _ => False
  | Panic p => p = ArithOverflow ∨ p = Todo ∧ Exists named_option args
  end.
Proof.
  intros Hs Hv Hrd Hl Hrun Hwrap. destruct r as [[]|[]|p]; [|by eapply ls_panics].
  destruct (ls_effect _ _ _ Hs Hv Hrun Hwrap) as (t & Hlist & Hsaid & [] & Hs').
  destruct Hlist as [Hr|rp1 n Hr Hn Hk _|rp1 es Hr [] _|? ? ? ? ? ?|? ? ? ? ? ? ?]; [| | |congruence..].
  - unfold ref_read_directory in Hrd. by rewrite Hr in Hrd.
  - by rewrite Hrd in Hk.
  - rewrite Hrd in Hr. injection Hr as <-. exists es. by split_and!.
Qed.

(** ** [mkdir] *)

Lemma mkdir_effect path args w w' : sys_ok (w_fs w) → last (operands args) = Some path →
  cmd_mkdir args w = (Ok tt, w') → no_wrap (w_fs w') →
  made path (w_fs w) (w_fs w') ∧ sys_ok (w_fs w') ∧ w' = set_fs (w_fs w') w.
Proof.
  intros Hs Hp Hrun Hwrap. unfold cmd_mkdir in Hrun. rewrite operands_spec, Hp in Hrun. cbv iota beta in Hrun.
  unfold mbind at 1, M_bind at 1 in Hrun. rewrite vfs_call_run in Hrun by done.
  destruct (create_directory path (w_fs w)) as [[e|e|p] k1] eqn:Hc; [|done..]. cbv iota beta in Hrun.
  assert (Hwrap1 : no_wrap k1).
  { eapply counts_le_no_wrap; [|exact Hwrap]. change k1 with (w_fs (set_fs k1 w)). revert Hrun.
    apply (sm_counts (SmSpec := sm_drop [] e)). }
  pose proof (vo_inv _ (so_vfs _ Hs)) as Hi.
  destruct (create_directory_spec _ _ _ _ Hi Hc Hwrap1) as (rp & c & de & Href & Hcr & Hh & _).
  destruct (fc_ok (FsCall := create_directory_call path) _ _ _ Hs Hc Hwrap1) as [Hs1 _].
  destruct (drop_run e (held (w_fs w)) (set_fs k1 w) _ _ Hs1 Hh Hrun) as (k2 & _ & -> & Hs2 & Hext & _). simpl w_fs in *.
  split; [|done]. destruct (cr_node _ _ _ _ _ _ Hcr) as (n & Hn & Hk & Hd & _).
  pose proof (cr_inv _ _ _ _ _ _ Hcr) as Hi1. pose proof (vo_inv _ (so_vfs _ Hs2)) as Hi2.
  exists rp, c, n. split_and!; try done.
  - by apply (ref_create_directory_None (w_fs w) path).
  - intros q. by rewrite (ext_walk k1 k2), (cr_walk _ _ _ _ _ _ Hcr) by done.
  - by apply (ext_node k1).
  - rewrite (ext_files _ _ Hext). apply Hcr.
  - etrans; [by eapply created_data_kept|by apply ext_data_kept].
Qed.

(** ** On the kernel after boot *)

(** The screen after the kernel's first line, and the kernel after [fs::init]. *)
Definition start_world : world := {| w_fs := boot_close; w_vga := Vga.blank_screen; w_irqs := [] |}.

(** [run_cmd m H w'] runs a command on [start_world]: [H] states its result, [w'] is
    the world after it, and [Hwrap] says no counter wrapped. *)
Ltac run_cmd m H w' :=
  let Ho := fresh in
  let Hw := fresh "Hwrap" in
  let o := eval vm_compute in (m start_world).1 in
  assert (Hw : no_wrap (w_fs (m start_world).2)) by (vm_compute; repeat split; discriminate);
  assert (Ho : (m start_world).1 = o) by (vm_compute; reflexivity);
  pose proof (surjective_pairing (m start_world)) as H; rewrite Ho in H; clear Ho;
  revert H Hw; generalize ((m start_world).2); intros w' H Hw.

Lemma touch_creates_witness : ∃ w', cmd_touch ["/notes"] start_world = (Ok tt, w') ∧
  is_Some (walk (w_fs w') ["notes"]) ∧ files (w_fs w') = files boot_close.
Proof.
  run_cmd (cmd_touch ["/notes"]) H w'. exists w'. split; [exact H|].
  destruct (touch_creates "/notes" [] start_world _ _ boot_close_ok H Hwrap) as (cr & rp & l & Href & _ & Hs & _ & Hf & _).
  assert (Hc : ref_open (w_fs start_world) "/notes" FileMode.Write = Ok (true, ["notes"])) by (vm_compute; reflexivity).
  rewrite Hc in Href. injection Href as _ <-. split; [exact Hs|exact Hf].
Defined.

Lemma cat_prints_witness : ∃ w' fd f, cmd_cat ["/test.txt"] start_world = (Ok tt, w') ∧
  files boot_close !! fd = None ∧ files (w_fs w') = <[fd := f]> (files boot_close).
Proof.
  run_cmd (cmd_cat ["/test.txt"]) H w'. exists w'.
  destruct (cat_prints "/test.txt" [] start_world w' boot_close_ok H Hwrap)
    as (fd & f & rp & n & _ & _ & _ & _ & _ & _ & Hn & Hf & _).
  exists fd, f. split; [exact H|]. split; [exact Hn|exact Hf].
Defined.

Lemma ls_lists_witness : ∃ w' es, cmd_ls ["-i"; "/"] start_world = (Ok tt, w') ∧
  ("dev" ∈ die_name <$> es) ∧ ("etc" ∉ die_name <$> es) ∧
  Vga.shows (w_vga w') (d_term (entries_text true es {| d_term := Vga.blank_term; d_irqs := [] |})).
Proof.
  run_cmd (cmd_ls ["-i"; "/"]) H w'. exists w'.
  assert (Hrd : ref_read_directory boot_close (default "/" (last (operands ["-i"; "/"]))) = Ok []) by (vm_compute; reflexivity).
  destruct (ls_lists ["-i"; "/"] [] start_world (Ok tt) w' boot_close_ok (Vga.shows_wf _ _ Vga.blank_shows) Hrd eq_refl H Hwrap)
    as (es & _ & _ & Hin & _ & Hshow & _).
  assert (H1 : is_Some (walk boot_close ["dev"])) by (eexists; vm_compute; reflexivity).
  assert (H2 : walk boot_close ["etc"] = None) by (vm_compute; reflexivity).
  exists es. split; [exact H|]. split; [|split].
  - apply Hin. exact H1.
  - intros Hetc. apply Hin in Hetc. change (is_Some (walk boot_close ["etc"])) in Hetc. rewrite H2 in Hetc.
    destruct Hetc as [? Hx]. discriminate Hx.
  - refine (sn_term _ _ (Hshow {| d_term := Vga.blank_term; d_irqs := [] |} _)). split; [exact Vga.blank_shows|reflexivity].
Defined.

(** [ls -l] of a directory below the root asks for the children of a relative
    path. *)
Lemma ls_long_panics : (cmd_ls ["-l"; "/dev"] start_world).1 = Panic Todo.
Proof. vm_compute. reflexivity. Qed.
(** The null device does not support reading, and [cat] unwraps the error. *)
Lemma cat_null_panics : (cmd_cat ["/dev/null"] start_world).1 = Panic UnwrapErr.
Proof. vm_compute. reflexivity. Qed.
(** A named option is not implemented. *)
Lemma ls_named_option_panics : (cmd_ls ["--all"] start_world).1 = Panic Todo.
Proof. vm_compute. reflexivity. Qed.
End ShellCmds.
