(* ===== verification/ShellExec.v ===== *)
(** * Running a command line

    Every command that returns implements the reference of the command line
    ([ShellRef.ran]), and Enter prints what it should. *)

From Stdlib Require Import Init.Byte.
From S2P Require Import Prelude Util Fmt FsTypes Fs Registry RamFs DevFs DirCache Path Vfs.
From S2P Require Import VfsFrame VfsInv VfsDirs VfsFiles VfsReach Parser Vga VgaText Interrupts Shell.
From S2P Require Import ShellFs ShellText ShellRef ShellCmds.

Module ShellExec.
Import Shell ShellFs ShellText ShellRef ShellCmds.

(** ** Commands that only print *)

(** A command line that prints [t] and leaves the file subsystem alone. *)
Lemma ran_writes {A} (m : SM A) t args w b w' : writes m t → Vga.wf (w_vga w) → m w = (Ok b, w') →
  ran args (w_fs w) (w_fs w) t → ∃ t, ran args (w_fs w) (w_fs w') t ∧ said w w' t.
Proof.
  intros Hm Hv Hrun Hr. destruct (writes_run _ _ _ _ _ Hm Hv Hrun) as (_ & _ & -> & _ & Hsaid). eauto.
Qed.

(** The words of [echo] without the end of the line. *)
Fixpoint words (args : list string) : text :=
  match args with
  | [] => id
  | [a] => write a
  | a :: args' => λ d, words args' (write " " (write a d))
  end.
Lemma words_line args : ∀ d, line "" (words args d) = echo_text args d.
Proof. induction args as [|a [|a' args] IH]; intros d; [done..|]. apply IH. Qed.
Lemma writes_words args : ∀ i, writes (echo_args i (i + length args) args) (words args).
Proof.
  induction args as [|a args IH]; intros i; [apply writes_ret|]. cbn [echo_args length].
  specialize (IH (S i)). replace (S i + length args) with (i + S (length args)) in IH by lia.
  destruct args as [|a' args].
  - apply (writes_ext _ (λ d, id (id (write a d)))); [|done]. apply (writes_bind _ _ (write a) (λ d, id (id d))); [apply writes_print|intros _].
    apply (writes_bind _ _ id id); [|intros _; exact IH]. rewrite decide_False by (simpl; lia). apply writes_ret.
  - apply (writes_bind _ _ (write a) (λ d, words (a' :: args) (write " " d))); [apply writes_print|intros _].
    apply (writes_bind _ _ (write " ") (words (a' :: args))); [|intros _; exact IH].
    rewrite decide_True by (simpl; lia). apply writes_print.
Qed.
Lemma writes_echo args : writes (cmd_echo args) (echo_text args).
Proof.
  apply (writes_ext _ (λ d, line "" (words args d))); [|apply words_line].
  apply writes_bind; [apply (writes_words args 0)|intros _; apply writes_println].
Qed.
Lemma writes_uname args : writes (cmd_uname args) (uname_text args).
Proof.
  unfold uname_text. set (t := if decide (head args = Some "-a") then write " riptide 0.1.0 x86_64" else id).
  apply (writes_bind _ _ (write "Riptide") (λ d, line "" (t d))); [apply writes_print|intros _].
  apply (writes_bind _ _ t (line "")); [|intros _; apply writes_println].
  unfold t. case_decide; [apply writes_print|apply writes_ret].
Qed.

(** ** Every command *)

Lemma run_ls args w w' : sys_ok (w_fs w) → Vga.wf (w_vga w) → cmd_ls args w = (Ok tt, w') → no_wrap (w_fs w') →
  ∃ t, ran ("ls" :: args) (w_fs w) (w_fs w') t ∧ said w w' t.
Proof.
  intros Hs Hv Hrun Hwrap. destruct (ls_effect _ _ _ Hs Hv Hrun Hwrap) as (t & ? & ? & ? & _).
  exists t. split; [by apply ran_ls|done].
Qed.
Lemma run_cat args w w' : sys_ok (w_fs w) → Vga.wf (w_vga w) → cmd_cat args w = (Ok tt, w') → no_wrap (w_fs w') →
  ∃ t, ran ("cat" :: args) (w_fs w) (w_fs w') t ∧ said w w' t.
Proof.
  intros Hs Hv Hrun Hwrap. destruct args as [|path args].
  { eapply ran_writes; [apply writes_println|done|exact Hrun|]. apply ran_no_path. auto. }
  destruct (cat_effect _ _ _ _ Hs Hrun Hwrap) as (data & Hc & _ & Hp). eexists. split; [by apply ran_cat|].
  eapply said_fs_l, writes_said; [apply writes_println|exact Hp].
Qed.
Lemma run_touch args w w' : sys_ok (w_fs w) → Vga.wf (w_vga w) → cmd_touch args w = (Ok tt, w') → no_wrap (w_fs w') →
  ∃ t, ran ("touch" :: args) (w_fs w) (w_fs w') t ∧ said w w' t.
Proof.
  intros Hs Hv Hrun Hwrap. destruct args as [|path args].
  { eapply ran_writes; [apply writes_println|done|exact Hrun|]. apply ran_no_path. auto. }
  destruct (touch_effect _ _ _ _ _ Hs Hrun Hwrap) as (Ht & _ & ->). exists id. split; [by apply ran_touch|].
  by apply said_nothing.
Qed.
Lemma run_mkdir args w w' : sys_ok (w_fs w) → Vga.wf (w_vga w) → cmd_mkdir args w = (Ok tt, w') → no_wrap (w_fs w') →
  ∃ t, ran ("mkdir" :: args) (w_fs w) (w_fs w') t ∧ said w w' t.
Proof.
  intros Hs Hv Hrun Hwrap. destruct (last (operands args)) as [path|] eqn:Hp.
  - destruct (mkdir_effect _ _ _ _ Hs Hp Hrun Hwrap) as (Ht & _ & ->). exists id. split; [by eapply ran_mkdir|].
    by apply said_nothing.
  - unfold cmd_mkdir in Hrun. rewrite operands_spec, Hp in Hrun.
    eapply ran_writes; [apply writes_println|done|exact Hrun|]. apply ran_no_path. right. split; [done|]. by apply last_None.
Qed.

Lemma execute_ran args w b w' : sys_ok (w_fs w) → Vga.wf (w_vga w) → execute args w = (Ok b, w') → no_wrap (w_fs w') →
  ∃ t, ran args (w_fs w) (w_fs w') t ∧ said w w' t.
Proof.
  intros Hs Hv Hrun Hwrap. destruct args as [|cmd args].
  { injection Hrun as _ <-. exists id. split; [apply ran_nothing|by apply said_nothing]. }
  unfold execute in Hrun.
  assert (Hthen : ∀ m : SM unit, (_ ← m; mret false) w = (Ok b, w') → m w = (Ok tt, w')).
  { intros m ([] & w1 & H1 & [= _ <-])%mbind_Ok_inv. exact H1. }
  assert (Hsay : ∀ (m : SM unit) t, writes m t → ran (cmd :: args) (w_fs w) (w_fs w) t → (_ ← m; mret false) w = (Ok b, w') →
    ∃ t, ran (cmd :: args) (w_fs w) (w_fs w') t ∧ said w w' t).
  { intros m t Hm Hr Hx%Hthen. by eapply ran_writes. }
  repeat case_decide; subst; try (apply Hthen in Hrun; first
    [by apply run_ls|by apply run_cat|by apply run_touch|by apply run_mkdir]).
  1, 2, 4: eapply Hsay; [apply writes_println|by apply ran_reply|exact Hrun].
  - eapply Hsay; [apply writes_echo|by apply ran_echo|exact Hrun].
  - eapply Hsay; [apply writes_uname|apply ran_uname|exact Hrun].
  - eapply Hsay; [apply writes_println| |exact Hrun]. apply ran_reply. naive_solver.
  - injection Hrun as _ <-. exists id. split; [apply ran_exit|by apply said_nothing].
  - eapply Hsay; [apply writes_println| |exact Hrun]. apply ran_unknown. intros Hin.
    repeat (apply elem_of_cons in Hin as [Hin|Hin]; [tauto|]). by apply not_elem_of_nil in Hin.
Qed.

(** The reference of [touch] with a path is that one rule. *)
Lemma touch_ran path args k k' t : ran ("touch" :: path :: args) k k' t → touched path k k' ∧ t = id.
Proof.
  inversion 1 as [| |? ? ? ? Hr|? ? ? Hc| | | | |?|? ? ? Hc|? ? ? Hc]; subst; try done.
  - by destruct Hc.
  - by destruct Hc as [[_ ?]|[? _]].
  - destruct Hc. unfold commands. set_solver.
Qed.

(** ** Enter *)

Section enter.
Context `{!Fmt.Unicode}.

(** The arguments of a line. *)
Definition line_args (line : list Z) : list string :=
  Fmt.str <$> Parser.tokens (Fmt.utf8 line) [] false.

(** What Enter prints: the line and its arguments, what the command prints, and a
    prompt unless the shell ends.  The cursor is moved or turned off last. *)
Definition enter_text (line : list Z) (exit : bool) (t : text) : text := λ d,
  let d := ShellText.line "" d in
  let d := colored 7 (ShellText.line ("input: " +:+ Fmt.debug_str line)) d in
  let d := colored 7 (ShellText.line ("args: " +:+ Fmt.debug_list (line_args line))) d in
  let d := t d in
  access id (if exit then d else write "root@riptide> " d).

Lemma parse_and_execute_ran line w b w' : sys_ok (w_fs w) → Vga.wf (w_vga w) → parse_and_execute line w = (Ok b, w') →
  no_wrap (w_fs w') → ∃ t, ran (line_args line) (w_fs w) (w_fs w') t ∧
    said w w' (λ d, t (colored 7 (ShellText.line ("args: " +:+ Fmt.debug_list (line_args line)))
      (colored 7 (ShellText.line ("input: " +:+ Fmt.debug_str line)) d))).
Proof.
  intros Hs Hv Hrun Hwrap. unfold parse_and_execute in Hrun.
  apply mbind_Ok_inv in Hrun as (? & w1 & H1 & Hrun).
  eapply writes_run in H1 as (_ & _ & Hf1 & Hv1 & Hsaid1); [|apply writes_with_color, writes_println|done].
  apply mbind_Ok_inv in Hrun as (args & w2 & Ha & Hrun). rewrite parse_args_run, Fmt.bytes_of_str in Ha.
  destruct (is_ascii _); [|done]. injection Ha as <- <-. fold (line_args line) in Hrun.
  apply mbind_Ok_inv in Hrun as (? & w3 & H3 & Hrun).
  eapply writes_run in H3 as (_ & _ & Hf3 & Hv3 & Hsaid3); [|apply writes_with_color, writes_println|done].
  destruct (execute_ran (line_args line) w3 b w') as (t & Hr & Hsaid); [by rewrite Hf3, Hf1|done..|].
  rewrite Hf3, Hf1 in Hr. exists t. split; [done|].
  exact (said_trans _ _ _ _ _ (said_trans _ _ _ _ _ Hsaid1 Hsaid3) Hsaid).
Qed.

Lemma writes_prompt : writes print_prompt (λ d, access id (write "root@riptide> " d)).
Proof.
  apply (writes_bind _ _ (write "root@riptide> ") (access id)); [apply writes_print|intros _].
  apply writes_vga. intros v a []. eexists _, _. split; [reflexivity|by split].
Qed.
Lemma writes_disable_cursor : writes (on_vga Vga.disable_cursor) (access id).
Proof. apply writes_vga. intros v a []. eexists _, _. split; [reflexivity|by split]. Qed.
End enter.
End ShellExec.
