(* ===== verification/ShellProps.v ===== *)
(** * The properties of the shell

    The editor refines a list of characters; Enter runs the line and comes back to
    an empty prompt; through a whole session the file subsystem and the screen
    keep their invariants. *)

From Stdlib Require Import Init.Byte.
From S2P Require Import Prelude Util Fmt FsTypes Fs Registry RamFs DevFs DirCache Path Vfs.
From S2P Require Import VfsFrame VfsInv VfsDirs VfsFiles VfsReach VfsCalls VfsProps.
From S2P Require Import Parser Vga VgaText Interrupts Shell ShellFs ShellScreen ShellText ShellRef ShellEdit ShellCmds ShellExec.

Module ShellProps.
Import Shell ShellFs ShellScreen ShellText ShellRef ShellEdit ShellExec.

(** ** Code that does not lower a counter *)

Section session.
Context {Uc : Fmt.Unicode} {Hs : HeaplessString} {HsL : HeaplessStringLaws}.
Context {Dq : Deque hstring} {DqL : DequeLaws hstring} {Kd : KeyDecoder}.
Abbreviation RM := (M t Empty_set).

Class FsLe {A} (m : RM A) : Prop :=
  fs_le s r s' : m s = (r, s') → counts_le (w_fs (sys s)) (w_fs (sys s')).

#[local] Instance le_ret {A} (a : A) : FsLe (mret a).
Proof. by intros s r s' [= _ <-]. Qed.
#[local] Instance le_gets {A} (f : t → A) : FsLe (gets f).
Proof. by intros s r s' [= _ <-]. Qed.
#[local] Instance le_unwrap {A} p (o : option A) : FsLe (unwrap p o).
Proof. intros s r s'. by destruct o; intros [= _ <-]. Qed.
#[local] Instance le_add a b : FsLe (checked_add_u8 a b).
Proof. intros s r s'. unfold checked_add_u8. by case_decide; intros [= _ <-]. Qed.
#[local] Instance le_set_keyboard k : FsLe (modify (set_keyboard k)).
Proof. by intros s r s' [= _ <-]. Qed.
#[local] Instance le_set_history k : FsLe (modify (set_history k)).
Proof. by intros s r s' [= _ <-]. Qed.
#[local] Instance le_set_input f : FsLe (modify (λ s, set_input (f s) s)).
Proof. by intros s r s' [= _ <-]. Qed.
#[local] Instance le_set_cursor f : FsLe (modify (λ s, set_cursor (f s) s)).
Proof. by intros s r s' [= _ <-]. Qed.
Lemma le_bind {A B} (m : RM A) (f : A → RM B) : FsLe m → (∀ a, FsLe (f a)) → FsLe (m ≫= f).
Proof.
  intros Hm Hf s r s' [(a & s1 & H1 & H2)|[([] & _)|(p & H1 & _)]]%mbind_ok; [|by apply Hm in H1].
  etrans; [by eapply Hm|by eapply Hf].
Qed.
Lemma le_sys {A} (m : SM A) pre post : SmSpec pre m post → FsLe (on_sys m).
Proof.
  intros Hm s r s'. unfold on_sys. destruct (m (sys s)) as [o w] eqn:Hw. intros [= _ <-].
  by eapply (sm_counts (SmSpec := Hm)).
Qed.
#[local] Instance le_vga {A} (m : M Vga.t Empty_set A) : FsLe (on_sys (on_vga m)).
Proof.
  intros s r s'. unfold on_sys, on_vga. destruct ((_ ← Interrupts.irqs_print _; m) _) as [o v].
  by intros [= _ <-].
Qed.
Lemma le_sys_bind {A B} (m : SM A) (f : A → SM B) : FsLe (on_sys m) → (∀ a, FsLe (on_sys (f a))) →
  FsLe (on_sys (m ≫= f)).
Proof.
  intros Hm Hf s r s' Hr. eapply (le_bind (on_sys m) (λ a, on_sys (f a)) Hm Hf s r s'). rewrite <- Hr.
  unfold on_sys, mbind, M_bind. by destruct (m (sys s)) as [[] w].
Qed.
#[local] Instance le_spaces n : FsLe (on_sys (print_spaces n)).
Proof. induction n; [by intros s r s' [= _ <-]; destruct s|]. apply le_sys_bind; [apply le_vga|done]. Qed.
#[local] Instance le_prompt : FsLe (on_sys print_prompt).
Proof. apply le_sys_bind; intros; apply le_vga. Qed.
#[local] Instance le_println text : FsLe (on_sys (println text)) := le_vga _.
#[local] Instance le_print text : FsLe (on_sys (print text)) := le_vga _.
#[local] Instance le_execute line : FsLe (on_sys (parse_and_execute line)).
Proof. eapply le_sys, sm_parse_and_execute. Qed.

Ltac fs_le := repeat first
  [ apply _ | apply le_set_input | apply (le_set_cursor (λ _, _)) | apply le_set_cursor
  | apply le_bind; [|intros ?] | case_match ].

Lemma le_key_enter : FsLe key_enter.
Proof. unfold key_enter, push_history. fs_le. Qed.
Lemma le_key_backspace : FsLe key_backspace.
Proof. unfold key_backspace. fs_le. Qed.
Lemma le_key_character c : FsLe (key_character c).
Proof. unfold key_character. fs_le. Qed.
#[local] Existing Instances le_key_enter le_key_backspace le_key_character.
#[local] Instance le_handle_scancode sc : FsLe (handle_scancode sc).
Proof. unfold handle_scancode, handle_key. fs_le. Qed.
Lemma le_run_scancodes scs : FsLe (run_scancodes scs).
Proof. induction scs; simpl; fs_le. Qed.

(** ** Running a line *)

Lemma execute_exit args w b w' : execute args w = (Ok b, w') → b = bool_decide (head args = Some "exit").
Proof.
  destruct args as [|cmd args]; [by intros [= <- _]|]. unfold execute. simpl head. intros Hrun.
  repeat (case_decide; [first
    [ apply mbind_Ok_inv in Hrun as (? & ? & _ & [= <- _]);
      by rewrite bool_decide_eq_false_2 by (intros [= ->]; intuition congruence)
    | subst; by injection Hrun as <- _ ]|]).
  apply mbind_Ok_inv in Hrun as (? & ? & _ & [= <- _]). by rewrite bool_decide_eq_false_2 by congruence.
Qed.

Lemma parse_and_execute_exit line w b w' : parse_and_execute line w = (Ok b, w') →
  b = bool_decide (head (line_args line) = Some "exit").
Proof.
  unfold parse_and_execute. intros (? & w1 & _ & (args & w2 & Ha & (? & w3 & _ & Hx)%mbind_Ok_inv)%mbind_Ok_inv)%mbind_Ok_inv.
  rewrite parse_args_run, Fmt.bytes_of_str in Ha. destruct (is_ascii _); [|done]. injection Ha as <- _.
  by apply execute_exit in Hx.
Qed.

Lemma push_history_ok s : dq_capacity (history s) = HISTORY_LEN →
  ∃ h, push_history s = (Ok tt, set_history h s) ∧
    dq_items h = take HISTORY_LEN (input_buffer s :: dq_items (history s)) ∧ dq_capacity h = HISTORY_LEN.
Proof.
  intros Hcap. unfold push_history. rewrite mbind_gets, dq_is_full_spec, Hcap.
  pose proof (dq_bounded (history s)) as Hb. unfold HISTORY_LEN in *. case_bool_decide as Hl.
  - destruct (dq_pop_back_spec (history s)) as [Hi Hc]. rewrite mbind_modify, !mbind_gets. simpl.
    destruct (dq_push_front_spec (input_buffer s) (dq_pop_back (history s))) as (h & -> & Hh & Hhc).
    { rewrite Hi, length_take, Hc. lia. }
    exists h. split_and!; [done| |congruence]. rewrite Hh, Hi, Hl. done.
  - rewrite mbind_ret, !mbind_gets.
    destruct (dq_push_front_spec (input_buffer s) (history s)) as (h & -> & Hh & Hhc); [lia|].
    exists h. split_and!; [by destruct s| |congruence]. rewrite Hh, take_ge; [done|simpl; lia].
Qed.

(** The part of Enter after the line has run. *)
Definition after_line (exit : bool) : RM bool :=
  if exit then _ ← on_sys (on_vga Vga.disable_cursor); mret true
  else
    _ ← on_sys print_prompt;
    _ ← push_history;
    _ ← modify (λ s, set_input (hs_clear (input_buffer s)) s);
    _ ← modify (set_cursor 0);
    mret false.

Lemma le_after_line exit : FsLe (after_line exit).
Proof. unfold after_line, push_history. fs_le. Qed.

(** A prompt with an empty line, and the line that was run in the history. *)
Record prompted (s s' : t) : Prop := {
  pr_buffer : buffer_ok s' [];
  pr_keyboard : keyboard s' = keyboard s;
  pr_history : dq_items (history s') = take HISTORY_LEN (input_buffer s :: dq_items (history s));
  pr_capacity : dq_capacity (history s') = HISTORY_LEN;
}.

Lemma after_line_ok exit s : Vga.wf (w_vga (sys s)) →
  hs_capacity (input_buffer s) = INPUT_BUFFER_LEN → dq_capacity (history s) = HISTORY_LEN →
  ∃ s', after_line exit s = (Ok exit, s') ∧ w_fs (sys s') = w_fs (sys s) ∧
    said (sys s) (sys s') (λ d, access id (if exit then d else write "root@riptide> " d)) ∧
    (exit = false → prompted s s' ∧
      (quiet (sys s) → VgaText.fresh (w_vga (sys s)) → edit_ok s' [])).
Proof.
  intros Hw Hi Hcap. destruct exit.
  { assert (Hd : on_screen (on_vga Vga.disable_cursor)).
    { apply on_screen_vga. intros v [Hg Hc]. eexists _, _. split; [reflexivity|by split]. }
    destruct (Hd _ Hw) as (a & w & H1 & Hfs & _). exists (set_sys w s).
    split; [|split; [done|split; [exact (writes_said _ _ _ _ _ writes_disable_cursor H1)|done]]].
    unfold after_line. rewrite (mbind_run _ _ _ a (set_sys w s)); [done|]. unfold on_sys. by rewrite H1. }
  destruct (on_screen_prompt (sys s) Hw) as ([] & w & H1 & Hfs & Hwf & Hq).
  unfold after_line. rewrite (mbind_run _ _ _ tt (set_sys w s)) by (unfold on_sys; by rewrite H1).
  destruct (push_history_ok (set_sys w s) Hcap) as (h & H2 & Hh & Hhc).
  rewrite (mbind_run _ _ _ _ _ H2), !mbind_modify.
  destruct (hs_clear_spec (input_buffer s)) as [Hcl Hclc].
  set (s' := set_cursor 0 _). assert (Hb : buffer_ok s' []).
  { split; simpl; [done|by rewrite Hclc|done|lia|done|done]. }
  exists s'. split; [reflexivity|]. split; [done|]. split; [exact (writes_said _ _ _ _ _ writes_prompt H1)|].
  intros _. split; [by split|]. intros Hqs Hf.
  destruct (prompt_shown (sys s) Hqs Hf) as (v & H3 & Hsh & _). rewrite H3 in H1. injection H1 as <-. by split.
Qed.

(** What Enter does to a line. *)
Lemma key_enter_ok s line r s' : buffer_ok s line → sys_ok (w_fs (sys s)) → dq_capacity (history s) = HISTORY_LEN →
  key_enter s = (r, s') → no_wrap (w_fs (sys s')) →
  match r with
  | Ok exit =>
      sys_ok (w_fs (sys s')) ∧ held (w_fs (sys s')) = held (w_fs (sys s)) ∧
      exit = bool_decide (head (line_args line) = Some "exit") ∧
      (∃ t, ran (line_args line) (w_fs (sys s)) (w_fs (sys s')) t ∧ said (sys s) (sys s') (enter_text line exit t)) ∧
      (exit = false → prompted s s' ∧ (edit_ok s line → edit_ok s' []))
  | Err _ => False
  | Panic p => shell_panic p
  end.
Proof.
  intros Hb Hsys Hcap Hrun Hwrap. unfold key_enter in Hrun.
  assert (Hln : on_screen (println "")).
  { apply on_screen_vga. intros v (v' & ? & [] & _)%(VgaText.println_fresh ""). eauto. }
  destruct (Hln (sys s) (bo_wf _ _ Hb)) as ([] & w1 & H1 & Hfs1 & Hwf1 & Hq1).
  rewrite (mbind_run _ _ _ tt (set_sys w1 s)), mbind_gets in Hrun by (unfold on_sys; by rewrite H1).
  change (input_buffer (set_sys w1 s)) with (input_buffer s) in Hrun. rewrite (bo_chars _ _ Hb) in Hrun.
  assert (Hw1 : world_ok w1) by (split; [by rewrite Hfs1|done]).
  destruct (parse_and_execute line w1) as [o w2] eqn:Hx.
  assert (Hon : on_sys (parse_and_execute line) (set_sys w1 s) = (o, set_sys w2 s)).
  { unfold on_sys. change (sys (set_sys w1 s)) with w1. by rewrite Hx. }
  pose proof (sm_ok (SmSpec := sm_parse_and_execute line) w1 o w2 (held (w_fs w1)) Hw1 eq_refl Hx) as Hspec.
  destruct o as [exit|[]|p].
  - rewrite (mbind_run _ _ _ _ _ Hon) in Hrun. fold (after_line exit) in Hrun.
    assert (Hwrap2 : no_wrap (w_fs w2)).
    { eapply counts_le_no_wrap; [|done]. by eapply (le_after_line exit (set_sys w2 s)). }
    destruct (Hspec Hwrap2) as [[Hsys2 Hwf2] Hheld].
    destruct (after_line_ok exit (set_sys w2 s) Hwf2 (bo_capacity _ _ Hb) Hcap) as (s3 & H3 & Hfs & Hsaid3 & Hend).
    rewrite H3 in Hrun. injection Hrun as <- <-. rewrite Hfs. split_and!; [done|etrans; [exact Hheld|by rewrite Hfs1]| | |].
    + by apply parse_and_execute_exit in Hx.
    + destruct (parse_and_execute_ran line w1 exit w2 ltac:(by rewrite Hfs1) Hwf1 Hx Hwrap2) as (t & Hr & Hsaid).
      rewrite Hfs1 in Hr. exists t. split; [exact Hr|].
      exact (said_trans _ _ _ _ _ (said_trans _ _ _ _ _ (writes_said _ _ _ _ _ (writes_println "") H1) Hsaid) Hsaid3).
    + intros Hex. destruct (Hend Hex) as [Hp Hq]. split; [by destruct Hp|]. intros [_ Hqs Hsh].
      assert (Hs1 : screen_at true w1).
      { pose proof (screen_println false "" (sys s) tt w1) as Hpr. apply Hpr; [split; [done|apply Hsh]|done]. }
      destruct (screen_parse_and_execute line w1 exit w2 Hs1 Hx) as [[Hq2 Hf2] _]. by apply Hq.
  - unfold mbind, M_bind in Hrun. rewrite Hon in Hrun. injection Hrun as <- <-. by apply Hspec.
Qed.

(** ** Scancodes *)

(** The key a scancode completes, if any. *)
Definition decode (sc : Z) (k : decoder) : option DecodedKey * decoder :=
  let '(oe, k') := add_byte sc k in
  match oe with None => (None, k') | Some key_event => process_keyevent key_event k' end.
(** The keys of a sequence of scancodes, each with the state of control. *)
Fixpoint decoded (scs : list Z) (k : decoder) : list (DecodedKey * bool) :=
  match scs with
  | [] => []
  | sc :: scs' =>
      let '(ok, k') := decode sc k in
      match ok with Some key => (key, is_ctrl k') :: decoded scs' k' | None => decoded scs' k' end
  end.

Lemma decoded_cons sc scs k : decoded (sc :: scs) k = decoded [sc] k ++ decoded scs (decode sc k).2.
Proof. simpl. by destruct (decode sc k) as [[] k']. Qed.
(** The decoder after a sequence of scancodes. *)
Definition decoder_after (scs : list Z) (k : decoder) : decoder := foldl (λ k sc, (decode sc k).2) k scs.
Lemma decoded_app scs1 scs2 : ∀ k, decoded (scs1 ++ scs2) k = decoded scs1 k ++ decoded scs2 (decoder_after scs1 k).
Proof.
  induction scs1 as [|sc scs1 IH]; intros k; [done|]. rewrite <- app_comm_cons.
  by rewrite (decoded_cons sc (scs1 ++ scs2)), (decoded_cons sc scs1), IH, app_assoc.
Qed.

Lemma handle_scancode_run sc s : handle_scancode sc s =
  let '(ok, k') := decode sc (keyboard s) in
  match ok with Some key => handle_key key (set_keyboard k' s) | None => (Ok false, set_keyboard k' s) end.
Proof.
  unfold handle_scancode, decode. rewrite mbind_gets. destruct (add_byte sc (keyboard s)) as [[e|] k1]; [|done].
  rewrite mbind_modify. destruct (process_keyevent e k1) as [[key|] k2]; by rewrite mbind_modify.
Qed.

Lemma buffer_keyboard s line k : buffer_ok s line → buffer_ok (set_keyboard k s) line.
Proof. intros []. by split. Qed.
Lemma edit_keyboard s line k : edit_ok s line → edit_ok (set_keyboard k s) line.
Proof. intros []. split; [by apply buffer_keyboard|done..]. Qed.

(** A key that types, seen from the state before its scancode. *)
Lemma handle_key_typed s line key : buffer_ok s line → typed_key key →
  ∃ s', handle_key key s = (Ok false, s') ∧ buffer_ok s' (edit_key line (key, is_ctrl (keyboard s))) ∧
    (edit_ok s line → edit_ok s' (edit_key line (key, is_ctrl (keyboard s)))) ∧ same_rest s s'.
Proof.
  intros Hb Hk. destruct (handle_key_buffer s line key Hb Hk) as (s' & Hrun & Hb' & Hr).
  exists s'. split_and!; [done..| |done]. intros He.
  destruct (handle_key_edit s line key He Hk) as (s2 & Hrun2 & He2 & _). congruence.
Qed.

(** C7: the line editor refines a list of characters.  While keys other than Enter
    are pressed, nothing panics and the input buffer holds what the keys make of
    the line: a character is appended while the line is shorter than 65
    characters and ignored otherwise, Backspace removes the last character, and
    with control the whole line.  The file subsystem and the history are not
    touched.  As long as no interrupt prints, the bottom row of the screen shows
    the prompt, the line and blanks, and the cursor is after the line. *)
Theorem typing_edits_line s line scs : buffer_ok s line →
  Forall (λ k, typed_key k.1) (decoded scs (keyboard s)) →
  ∃ s', run_scancodes scs s = (Ok false, s') ∧
    buffer_ok s' (edit_line line (decoded scs (keyboard s))) ∧
    (edit_ok s line → edit_ok s' (edit_line line (decoded scs (keyboard s)))) ∧
    history s' = history s ∧ w_fs (sys s') = w_fs (sys s).
Proof.
  revert s line. induction scs as [|sc scs IH]; intros s line Hb Hk; [by exists s|]. simpl in *.
  unfold mbind at 1, M_bind at 1. rewrite handle_scancode_run.
  destruct (decode sc (keyboard s)) as [[key|] k1]; simpl.
  - apply Forall_cons in Hk as [Hk Hks].
    destruct (handle_key_typed (set_keyboard k1 s) line key) as (s1 & -> & Hb1 & He1 & [Hkb Hh Hfs]); [by apply buffer_keyboard|done|].
    simpl in *. rewrite <- Hkb in Hks. destruct (IH s1 _ Hb1 Hks) as (s2 & Hrun & Hb2 & He2 & Hh2 & Hfs2).
    rewrite Hkb in Hb2, He2. exists s2. split_and!; [done|done| |congruence|congruence].
    intros He. by apply He2, He1, edit_keyboard.
  - destruct (IH (set_keyboard k1 s) line) as (s2 & Hrun & Hb2 & He2 & Hh2 & Hfs2); [by apply buffer_keyboard|done|].
    exists s2. split_and!; try done. intros He. by apply He2, edit_keyboard.
Qed.

(** C16: Enter runs the line and comes back.  If the command returns, what it has
    done is what the reference says of its arguments, the words of the line: [touch]
    has made sure that a file exists, [mkdir] has added one empty directory, [cat]
    has printed the first 512 bytes and left a descriptor open, [ls] has listed, the
    other commands have changed nothing, and each has printed its text; Enter prints
    the line, its arguments, this text and a prompt, with what interrupts print in
    between.  Every invariant of the file subsystem holds again and no reference to
    an entry is left behind; [run] ends exactly when the first word of the line is
    [exit]; otherwise the line is empty again and the line that was run heads the
    history, of which the latest 16 are kept, and as long as no interrupt prints the
    screen shows a new prompt on an empty row.  A command panics only at a [todo!()]
    or assertion of the file system or of the tokenizer, at an exhausted counter, at
    an [unwrap] of a file-system error, or in [mkdir]. *)
Theorem enter_runs_line s line r s' : buffer_ok s line → sys_ok (w_fs (sys s)) →
  dq_capacity (history s) = HISTORY_LEN → handle_key (Unicode 10) s = (r, s') → no_wrap (w_fs (sys s')) →
  match r with
  | Ok exit =>
      sys_ok (w_fs (sys s')) ∧ held (w_fs (sys s')) = held (w_fs (sys s)) ∧
      exit = bool_decide (head (line_args line) = Some "exit") ∧
      (∃ t, ran (line_args line) (w_fs (sys s)) (w_fs (sys s')) t ∧
        ∀ d, shown (sys s) d → shown (sys s') (enter_text line exit t d)) ∧
      (exit = false → prompted s s' ∧ (edit_ok s line → edit_ok s' []))
  | Err _ => False
  | Panic p => shell_panic p
  end.
Proof. apply key_enter_ok. Qed.

(** ** Sessions *)

Record session_ok (s : t) : Prop := {
  se_buffer : ∃ line, buffer_ok s line;
  se_fs : sys_ok (w_fs (sys s));
  se_history : dq_capacity (history s) = HISTORY_LEN;
}.
Definition ascii_key (key : DecodedKey) : Prop := match key with Unicode c => (0 ≤ c < 128)%Z | RawKey => True end.

(** The line after a key: Enter starts a new one. *)
Definition line_key (line : list Z) (key : DecodedKey * bool) : list Z :=
  match key.1 with
  | Unicode c => if decide (c = 10)%Z then [] else edit_key line key
  | RawKey => line
  end.

Lemma key_step s line key r s' : buffer_ok s line → sys_ok (w_fs (sys s)) → dq_capacity (history s) = HISTORY_LEN →
  ascii_key key → handle_key key s = (r, s') → no_wrap (w_fs (sys s')) →
  match r with
  | Ok exit => sys_ok (w_fs (sys s')) ∧ held (w_fs (sys s')) = held (w_fs (sys s)) ∧
      (exit = false → buffer_ok s' (line_key line (key, is_ctrl (keyboard s))) ∧ keyboard s' = keyboard s ∧
        dq_capacity (history s') = HISTORY_LEN)
  | Err _ => False
  | Panic p => shell_panic p
  end.
Proof.
  intros Hb Hfs Hh Hk Hrun Hwrap. destruct (decide (typed_key key)) as [Ht|Ht].
  - destruct (handle_key_buffer s line key Hb Ht) as (s2 & Hrun2 & Hb2 & [Hkb Hh2 Hfs2]).
    rewrite Hrun2 in Hrun. injection Hrun as <- <-. rewrite Hfs2, Hh2. split_and!; [done..|]. intros _.
    split_and!; [|done..]. destruct key as [c|]; [|done]. unfold line_key. cbn [fst snd].
    destruct Ht as [_ Ht]. by rewrite decide_False.
  - destruct key as [c|]; [|done]. assert (c = 10%Z) as ->.
    { apply dec_stable. intros Hc. apply Ht. by split. }
    pose proof (key_enter_ok s line r s' Hb Hfs Hh Hrun Hwrap) as Hspec. destruct r as [exit| |]; [|done..].
    destruct Hspec as (Hsy & Hheld & _ & _ & Hp). split_and!; [done..|]. intros Hex.
    by destruct (Hp Hex) as [[Hb' Hkb _ Hcap] _].
Qed.

(** One scancode. *)
Lemma scancode_step s line sc r s' : buffer_ok s line → sys_ok (w_fs (sys s)) →
  dq_capacity (history s) = HISTORY_LEN → Forall (λ k, ascii_key k.1) (decoded [sc] (keyboard s)) →
  handle_scancode sc s = (r, s') → no_wrap (w_fs (sys s')) →
  match r with
  | Ok exit => sys_ok (w_fs (sys s')) ∧ held (w_fs (sys s')) = held (w_fs (sys s)) ∧
      (exit = false → buffer_ok s' (foldl line_key line (decoded [sc] (keyboard s))) ∧
        keyboard s' = (decode sc (keyboard s)).2 ∧ dq_capacity (history s') = HISTORY_LEN)
  | Err _ => False
  | Panic p => shell_panic p
  end.
Proof.
  intros Hb Hfs Hh Hk Hrun Hwrap. rewrite handle_scancode_run in Hrun. simpl in Hk |- *.
  destruct (decode sc (keyboard s)) as [[key|] k1]; simpl in *.
  - apply Forall_cons in Hk as [Hk _].
    exact (key_step (set_keyboard k1 s) line key r s' (buffer_keyboard _ _ _ Hb) Hfs Hh Hk Hrun Hwrap).
  - injection Hrun as <- <-. split_and!; [done..|]. intros _. split_and!; [by apply buffer_keyboard|done..].
Qed.

Lemma session_run scs : ∀ s r s', session_ok s → Forall (λ k, ascii_key k.1) (decoded scs (keyboard s)) →
  run_scancodes scs s = (r, s') → no_wrap (w_fs (sys s')) →
  match r with
  | Ok exit => sys_ok (w_fs (sys s')) ∧ held (w_fs (sys s')) = held (w_fs (sys s)) ∧ (exit = false → session_ok s')
  | Err _ => False
  | Panic p => shell_panic p
  end.
Proof.
  induction scs as [|sc scs IH]; intros s r s' Hse Hk Hrun Hwrap.
  { injection Hrun as <- <-. split_and!; [apply Hse|done..]. }
  rewrite decoded_cons in Hk. apply Forall_app in Hk as [Hk Hks]. destruct Hse as [[line Hb] Hfs Hh].
  simpl in Hrun. unfold mbind at 1, M_bind at 1 in Hrun. destruct (handle_scancode sc s) as [o s2] eqn:H1.
  assert (Hwrap2 : no_wrap (w_fs (sys s2))).
  { eapply counts_le_no_wrap; [|done]. destruct o as [[]|[]|p]; [by injection Hrun as _ <-| |by injection Hrun as _ <-].
    by eapply le_run_scancodes. }
  pose proof (scancode_step s line sc o s2 Hb Hfs Hh Hk H1 Hwrap2) as Hkey. destruct o as [exit|[]|p].
  - destruct Hkey as (Hs2 & Hheld & Hc). destruct exit; [by injection Hrun as <- <-|].
    destruct (Hc eq_refl) as (Hb2 & Hkb & Hcap). rewrite <- Hkb in Hks.
    specialize (IH s2 r s' ltac:(split; eauto) Hks Hrun Hwrap). destruct r; [|done..].
    destruct IH as (? & -> & ?). done.
  - by injection Hrun as <- <-.
Qed.

Lemma run_start_ok data_read w : Vga.wf (w_vga w) →
  ∃ s, run_start data_read w = (Ok tt, s) ∧ buffer_ok s [] ∧ w_fs (sys s) = w_fs w ∧ keyboard s = kd_new ∧
    dq_items (history s) = [] ∧ dq_capacity (history s) = HISTORY_LEN ∧
    (quiet w → VgaText.fresh (w_vga w) → edit_ok s []).
Proof.
  intros Hw. unfold run_start. set (s0 := {| keyboard := kd_new |}).
  assert (He : on_screen (on_vga (Vga.enable_cursor data_read 13 15))).
  { apply on_screen_vga. intros v [Hg Hc]. eexists _, _. split; [reflexivity|by split]. }
  destruct (He w Hw) as ([] & w1 & H1 & Hfs1 & Hw1 & Hq1).
  rewrite (mbind_run _ _ _ tt (set_sys w1 s0)) by (unfold on_sys; change (sys s0) with w; by rewrite H1).
  destruct (on_screen_prompt w1 Hw1) as ([] & w2 & H2 & Hfs2 & Hw2 & _).
  exists (set_sys w2 s0). destruct (hs_new_spec INPUT_BUFFER_LEN) as [Hn1 Hn2].
  destruct (dq_new_spec HISTORY_LEN) as [Hd1 Hd2].
  assert (Hb : buffer_ok (set_sys w2 s0) []) by (split; simpl; (done || lia)).
  split_and!; [unfold on_sys; change (sys (set_sys w1 s0)) with w1; by rewrite H2|done|simpl; congruence|done..|].
  intros Hq Hf. pose proof (Hq1 Hq) as Hqw1. rewrite on_vga_quiet in H1 by done. injection H1 as <-.
  destruct (prompt_shown _ Hqw1 ltac:(destruct Hf as [[] ? ?]; split; [by split|done..])) as (v & H3 & Hsh & _).
  rewrite H3 in H2. injection H2 as <-. by split.
Qed.

(** C6: a session is safe.  The shell started on any well-formed screen, over a file
    subsystem that satisfies its invariants, and fed any scancodes that decode to
    ASCII characters, while interrupts print as they like: as long as no counter
    of the file subsystem wraps, it ends only by [exit] or by one of the panics a
    command can cause; in every other state the file subsystem satisfies its
    invariants, no reference to an entry is left behind, the line has at most 65
    characters and the history at most 16 lines. *)
Theorem session_safe data_read w scs : sys_ok (w_fs w) → Vga.wf (w_vga w) →
  Forall (λ k, ascii_key k.1) (decoded scs kd_new) →
  ∃ s, run_start data_read w = (Ok tt, s) ∧ ∀ r s', run_scancodes scs s = (r, s') → no_wrap (w_fs (sys s')) →
    match r with
    | Ok exit => sys_ok (w_fs (sys s')) ∧ held (w_fs (sys s')) = held (w_fs w) ∧
        (exit = false → Vga.wf (w_vga (sys s')) ∧ length (hs_chars (input_buffer s')) ≤ 65 ∧
          length (dq_items (history s')) ≤ 16)
    | Err _ => False
    | Panic p => shell_panic p
    end.
Proof.
  intros Hfs Hw Hk. destruct (run_start_ok data_read w Hw) as (s & Hrun & Hb & Hf & Hkb & _ & Hcap & _).
  exists s. split; [done|]. intros r s' Hr Hwrap.
  assert (Hse : session_ok s) by (split; [by exists []|by rewrite Hf|done]).
  rewrite <- Hkb in Hk. pose proof (session_run scs s r s' Hse Hk Hr Hwrap) as Hspec.
  destruct r as [exit| |]; [|done..]. rewrite Hf in Hspec. destruct Hspec as (Hs1 & Hs2 & Hs3).
  split_and!; [done..|]. intros Hex. destruct (Hs3 Hex) as [[line [Hch _ _ Hfit _ Hwf]] _ Hc].
  split_and!; [done|by rewrite Hch|]. pose proof (dq_bounded (history s')). by rewrite Hc in *.
Qed.
End session.
End ShellProps.

(** ** A concrete shell *)

Module ShellRun.
Import Shell ShellFs ShellScreen ShellText ShellRef ShellEdit ShellCmds ShellExec ShellProps.

#[export] Instance no_unicode : Fmt.Unicode := { escape_unicode := λ _, "" }.
(** The characters and the capacity. *)
#[export] Instance list_string : HeaplessString := {
  hstring := list Z * nat;
  hs_new := λ n, ([], n);
  hs_push := λ c s, if decide (length (Fmt.utf8 s.1) + Fmt.len_utf8 c ≤ s.2) then Some (s.1 ++ [c], s.2) else None;
  hs_pop := λ s, (take (length s.1 - 1) s.1, s.2);
  hs_clear := λ s, ([], s.2);
  hs_chars := fst;
  hs_capacity := snd;
}.
#[export] Instance list_string_laws : HeaplessStringLaws.
Proof.
  split; simpl; [done|..|done|done].
  - intros c s Hl. rewrite decide_True by done. by eexists.
  - intros c s Hl. by rewrite decide_False by lia.
Qed.
#[export] Instance list_deque T : Deque T := {
  deque := list T * nat;
  dq_new := λ n, ([], n);
  dq_is_full := λ d, bool_decide (d.2 ≤ length d.1);
  dq_pop_back := λ d, (take (length (take d.2 d.1) - 1) d.1, d.2);
  dq_push_front := λ x d, if decide (length d.1 < d.2) then Some (x :: d.1, d.2) else None;
  dq_items := λ d, take d.2 d.1;
  dq_capacity := snd;
}.
#[export] Instance list_deque_laws T : DequeLaws T.
Proof.
  split; simpl.
  - intros n. by destruct n.
  - intros [l n]. simpl. apply bool_decide_ext. rewrite length_take. lia.
  - intros [l n]. simpl. split; [|done]. rewrite !take_take. f_equal. rewrite length_take. lia.
  - intros x [l n] Hl. simpl in *. rewrite length_take in Hl. rewrite decide_True by lia. eexists.
    split; [done|]. split; [|done]. simpl. rewrite !take_ge by (simpl; lia). done.
  - intros [l n]. simpl. rewrite length_take. lia.
Qed.
(** Scancodes that are characters; 0 is a key that is not one. *)
#[export] Instance plain_decoder : KeyDecoder := {
  decoder := unit;
  KeyEvent := Z;
  kd_new := tt;
  add_byte := λ b k, (if decide (b = 255)%Z then None else Some b, k);
  process_keyevent := λ e k, (if decide (e = 0)%Z then Some RawKey else Some (Unicode e), k);
  is_ctrl := λ _, false;
}.

Lemma start_fresh : VgaText.fresh (w_vga start_world).
Proof. split; [exact (Vga.shows_wf _ _ Vga.blank_shows)|done..]. Qed.
Definition started : t := (run_start (λ _, 0%Z) start_world).2.
Lemma started_ok : run_start (λ _, 0%Z) start_world = (Ok tt, started) ∧ edit_ok started [] ∧
  w_fs (sys started) = boot_close ∧ dq_capacity (history started) = HISTORY_LEN.
Proof.
  destruct (run_start_ok (λ _, 0%Z) start_world (VgaText.fr_wf _ start_fresh)) as (s & Hr & Hb & Hf & Hk & Hi & Hc & He).
  unfold started. rewrite Hr. split; [reflexivity|]. split; [exact (He eq_refl start_fresh)|].
  split; [exact Hf|exact Hc].
Qed.

(** Typing [cat /x], Backspace, [t]. *)
Definition typed_line : list Z := [99; 97; 116; 32; 47; 120; 8; 116]%Z.
Lemma typing_edits_line_witness : ∃ s', run_scancodes typed_line started = (Ok false, s') ∧
  hs_chars (input_buffer s') = [99; 97; 116; 32; 47; 116]%Z ∧
  VgaText.text (w_vga (sys s')) = Fmt.bytes_of ("root@riptide> cat /t" +:+ Fmt.str (replicate 60 x20)).
Proof.
  destruct started_ok as (_ & He & _ & _).
  assert (Hk : Forall (λ k, typed_key k.1) (decoded typed_line (keyboard started))).
  { apply (bool_decide_unpack _). vm_compute. exact I. }
  destruct (typing_edits_line started [] typed_line (eo_buffer _ _ He) Hk) as (s' & Hrun & Hb & He' & _).
  exists s'. split; [exact Hrun|]. split; [exact (bo_chars _ _ Hb)|].
  etransitivity; [exact (ls_text _ _ (eo_shown _ _ (He' He)))|]. vm_compute. reflexivity.
Defined.

(** [line] has been typed. *)
Definition with_line (line : list Z) (s : t) : t := set_cursor (Z.of_nat (length line)) (set_input (line, 65) s).
Lemma with_line_ok line s : Forall ascii_char line → length line ≤ 65 → Vga.wf (w_vga (sys s)) → buffer_ok (with_line line s) line.
Proof. intros. by split. Qed.
Lemma with_line_fs line s : w_fs (sys (with_line line s)) = w_fs (sys s).
Proof. done. Qed.
Lemma with_line_history line s : history (with_line line s) = history s.
Proof. done. Qed.

(** [touch /n] has been typed. *)
Definition touch_line : list Z := [116; 111; 117; 99; 104; 32; 47; 110]%Z.
Definition touch_typed : t := with_line touch_line started.
Lemma enter_runs_line_witness : ∃ s', handle_key (Unicode 10) touch_typed = (Ok false, s') ∧
  sys_ok (w_fs (sys s')) ∧ prompted touch_typed s' ∧ touched "/n" boot_close (w_fs (sys s')) ∧
  ∀ d, shown (sys touch_typed) d → shown (sys s') (enter_text touch_line false id d).
Proof.
  destruct started_ok as (_ & He & Hf & Hc).
  assert (Hb : buffer_ok touch_typed touch_line).
  { apply with_line_ok; [|vm_compute; lia|exact (bo_wf _ _ (eo_buffer _ _ He))].
    apply (bool_decide_unpack _). vm_compute. exact I. }
  assert (Hs : sys_ok (w_fs (sys touch_typed))).
  { unfold touch_typed. rewrite with_line_fs, Hf. exact boot_close_ok. }
  assert (Hc' : dq_capacity (history touch_typed) = HISTORY_LEN).
  { unfold touch_typed. rewrite with_line_history. exact Hc. }
  assert (Hok : is_ok (handle_key (Unicode 10) touch_typed).1 = true) by (vm_compute; reflexivity).
  assert (Hwrap : no_wrap (w_fs (sys (handle_key (Unicode 10) touch_typed).2)))
    by (vm_compute; repeat split; discriminate).
  destruct (handle_key (Unicode 10) touch_typed) as [[exit| |] s'] eqn:Hrun; [|discriminate Hok..].
  destruct (enter_runs_line _ _ _ _ Hb Hs Hc' Hrun Hwrap) as (Hs' & _ & Hex & (t & Hran & Hshow) & Hp).
  assert (Hx : exit = false) by (rewrite Hex; vm_compute; reflexivity). subst exit.
  exists s'. split; [reflexivity|]. split; [exact Hs'|]. split; [exact (proj1 (Hp eq_refl))|].
  unfold touch_typed in Hran at 1. rewrite with_line_fs, Hf in Hran.
  assert (Hargs : line_args touch_line = ["touch"; "/n"]) by (vm_compute; reflexivity). rewrite Hargs in Hran.
  destruct (touch_ran _ _ _ _ _ Hran) as [Ht Ht']. subst t. split; [exact Ht|exact Hshow].
Defined.

(** Two lines, with a tick of the timer before the first screen access of each key. *)
Definition session_keys : list Z := [108; 115; 10; 101; 120; 105; 116; 10]%Z.
Definition ticking_world : world := {| w_fs := boot_close; w_vga := Vga.blank_screen; w_irqs := [[]; []; [Interrupts.Tick]] |}.
Lemma session_safe_witness : ∃ s s', run_start (λ _, 0%Z) ticking_world = (Ok tt, s) ∧
  run_scancodes session_keys s = (Ok true, s') ∧ sys_ok (w_fs (sys s')).
Proof.
  assert (Hk : Forall (λ k, ascii_key k.1) (decoded session_keys kd_new)).
  { repeat (constructor; [simpl; lia|]). constructor. }
  assert (Hw : Vga.wf (w_vga ticking_world)) by exact (VgaText.fr_wf _ start_fresh).
  assert (Hwrap : no_wrap (w_fs (sys (run_scancodes session_keys (run_start (λ _, 0%Z) ticking_world).2).2)))
    by (vm_compute; repeat split; discriminate).
  assert (Hex : (run_scancodes session_keys (run_start (λ _, 0%Z) ticking_world).2).1 = Ok true) by (vm_compute; reflexivity).
  destruct (session_safe (λ _, 0%Z) ticking_world session_keys boot_close_ok Hw Hk) as (s & Hst & Hspec).
  rewrite Hst in Hwrap, Hex. cbn [fst snd] in Hwrap, Hex.
  destruct (run_scancodes session_keys s) as [r s'] eqn:Hrun. cbn [fst snd] in Hwrap, Hex. subst r.
  specialize (Hspec _ _ eq_refl Hwrap). exists s, s'. split; [exact Hst|]. split; [exact Hrun|exact (proj1 Hspec)].
Defined.

(** A tick of the timer puts its dot into the line that is being typed. *)
Lemma timer_dot_in_line : let s := (run_scancodes [97%Z] (run_start (λ _, 0%Z) ticking_world).2).2 in
  take 16 (VgaText.text (w_vga (sys s))) = Fmt.bytes_of "root@riptide> .a" ∧ hs_chars (input_buffer s) = [97%Z].
Proof. vm_compute. split; reflexivity. Qed.
End ShellRun.
