(* ===== verification/Panic.v ===== *)
(** * [panic.rs]: the report of a panic

    The handler prints a separator, where the panic came from and its message, in
    colors, turns the cursor off, disables interrupts and halts the processor.
    Interrupts stay enabled while it prints.  The theorem shows that reporting a panic does not panic, and
    what the screen shows. *)

From Stdlib Require Import Init.Byte.
From S2P Require Import Prelude Fmt FsTypes Vga VgaText Interrupts Shell ShellFs ShellScreen ShellText ShellEdit.

Module PanicHandler.
Import Shell ShellScreen ShellText ShellEdit.

(** [for _ in 0..n { print!("=") }] *)
Fixpoint print_separator (n : nat) : SM unit :=
  match n with 0 => mret tt | S n' => _ ← print "="; print_separator n' end.

Definition color (c : Vga.Color) : Z := Vga.ColorCode_from c.

(** [location] and [message] are the printed forms of the parts of [PanicInfo]. *)
Definition print_info (location : option string) (message : string) : SM unit :=
  _ ← on_vga (Vga.set_color_code (Vga.ColorCode_new Vga.White Vga.Black));
  _ ← with_color (color Vga.DarkGray) (
        _ ← println "";
        _ ← print_separator 60;
        _ ← println "";
        println "");
  _ ← with_color (color Vga.LightRed) (print "ERROR: ");
  _ ← print "kernel panicked ";
  _ ← with_color (color Vga.LightGray)
        match location with
        | Some loc => print ("(at " +:+ loc +:+ ")")
        | None => print "(at <unspecified>)"
        end;
  _ ← println ":";
  _ ← println "";
  with_color (color Vga.LightGray) (println message).
(** [x86_64::instructions::interrupts::disable()]: none comes any more. *)
Definition interrupts_disable : SM unit := modify (λ w, {| w_fs := w_fs w; w_vga := w_vga w; w_irqs := [] |}).
Definition panic_handler (location : option string) (message : string) : SM Interrupts.continuation :=
  _ ← print_info location message;
  _ ← on_vga Vga.disable_cursor;
  _ ← interrupts_disable;
  mret Interrupts.Hangs.

(** ** It does not panic *)

Lemma on_screen_println text : on_screen (println text).
Proof. apply on_screen_vga. intros v (v' & ? & [] & _)%(VgaText.println_fresh text). eauto. Qed.
Lemma on_screen_ret {A} (a : A) : on_screen (mret a).
Proof. intros w Hw. by exists a, w. Qed.
Lemma on_screen_with_color {A} c (f : SM A) : on_screen f → on_screen (with_color c f).
Proof.
  intros Hf. assert (Hswap : ∀ c, on_screen (on_vga (Vga.swap_color c))).
  { intros c'. apply on_screen_vga. intros v [Hg Hc]. eexists _, _. split; [reflexivity|by split]. }
  apply on_screen_bind; [done|]. intros s. apply on_screen_bind; [done|]. intros a.
  apply on_screen_bind; [done|]. intros _. apply on_screen_ret.
Qed.
Lemma on_screen_separator n : on_screen (print_separator n).
Proof. induction n; [apply on_screen_ret|]. apply on_screen_bind; [apply on_screen_print|done]. Qed.

Lemma on_screen_info location message : on_screen (print_info location message).
Proof.
  unfold print_info.
  repeat first [ apply on_screen_print | apply on_screen_println | apply on_screen_separator
    | apply on_screen_with_color | apply on_screen_bind; [|intros _] | case_match ];
    apply on_screen_vga; intros v [Hg Hc]; (eexists _, _; split; [reflexivity|by split]).
Qed.

(** ** What it writes *)

(** The report as text. *)
Definition report (location : option string) (message : string) : text := λ d,
  let d := recolor 15 d in
  let d := colored 8 (λ d, line "" (line "" (Nat.iter 60 (write "=") (line "" d)))) d in
  let d := colored 12 (write "ERROR: ") d in
  let d := write "kernel panicked " d in
  let d := colored 7 (write match location with Some loc => "(at " +:+ loc +:+ ")" | None => "(at <unspecified>)" end) d in
  let d := line "" (line ":" d) in
  colored 7 (line message) d.

Lemma writes_separator n : writes (print_separator n) (Nat.iter n (write "=")).
Proof.
  induction n as [|n IH]; [apply writes_ret|].
  eapply writes_ext; [apply (writes_bind _ _ _ (Nat.iter n (write "=")) (writes_print "=")); intros _; exact IH|].
  intros d. symmetry. apply Nat.iter_succ_r.
Qed.

(** The separator, a blank line before it and one after it. *)
Lemma writes_rule : writes (_ ← println ""; _ ← print_separator 60; _ ← println ""; println "")
  (λ d, line "" (line "" (Nat.iter 60 (write "=") (line "" d)))).
Proof.
  apply (writes_bind _ _ (line "") (λ d, line "" (line "" (Nat.iter 60 (write "=") d)))); [apply writes_println|].
  intros _. apply (writes_bind _ _ _ (λ a, line "" (line "" a)) (writes_separator 60)). intros _.
  apply (writes_bind _ _ (line "") (line "")); intros; apply writes_println.
Qed.

Lemma writes_info location message : writes (print_info location message) (report location message).
Proof.
  unfold print_info, report. cbv zeta.
  eapply writes_ext.
  - apply writes_bind; [apply writes_set_color|intros _].
    apply writes_bind; [apply writes_with_color, writes_rule|intros _].
    apply writes_bind; [apply writes_with_color, writes_print|intros _].
    apply writes_bind; [apply writes_print|intros _].
    apply writes_bind; [apply (writes_with_color _ _ (write match location with Some loc => "(at " +:+ loc +:+ ")"
      | None => "(at <unspecified>)" end)); destruct location; apply writes_print|intros _].
    apply writes_bind; [apply writes_println|intros _]. apply writes_bind; [apply writes_println|intros _].
    apply writes_with_color, writes_println.
  - done.
Qed.

(** C21: reporting a panic does not panic, whatever interrupts print meanwhile.  The
    screen shows the report as text: a line of 60 equal signs, where the panic came
    from and the message, in their colors, with what interrupts print before an
    access in front of it.  The last thing written to the ports turns the cursor
    off; then no interrupt comes any more and the processor halts. *)
Theorem panic_reports location message w : Vga.wf (w_vga w) →
  ∃ w', panic_handler location message w = (Ok Interrupts.Hangs, w') ∧ Vga.wf (w_vga w') ∧ w_fs w' = w_fs w ∧
    (∃ earlier, Vga.ports (w_vga w') = (Vga.VGA_DATA_PORT, 0x20%Z) :: (Vga.VGA_CMD_PORT, 0x0A%Z) :: earlier) ∧
    w_irqs w' = [] ∧
    ∀ d, shown w d → Vga.shows (w_vga w') (d_term (access id (report location message d))).
Proof.
  intros Hw. destruct (on_screen_info location message w Hw) as ([] & w1 & H1 & Hfs1 & Hw1 & Hq1).
  destruct (Interrupts.irqs_print_total (default [] (head (w_irqs w1))) _ Hw1) as (v & H2 & [Hg Hc] & _).
  eexists. split; [|split; [|split; [|split; [|split]]]].
  - unfold panic_handler. rewrite (mbind_run _ _ _ _ _ H1). unfold mbind at 1, M_bind at 1, on_vga.
    rewrite (mbind_run _ _ _ _ _ H2). reflexivity.
  - by split.
  - done.
  - by eexists.
  - done.
  - intros d Hd. destruct (writes_info location message w d Hd) as (x & w2 & H3 & [Hs3 Hi3] & _).
    rewrite H1 in H3. injection H3 as <- <-.
    destruct (Interrupts.irqs_print_shows (default [] (head (w_irqs w1))) _ _ Hs3) as (v' & H4 & Hs4).
    rewrite H2 in H4. injection H4 as <-. rewrite Hi3 in Hs4. destruct Hs4. by split.
Qed.

(** A panic of [mkdir], on the screen the kernel starts with. *)
Lemma panic_reports_witness : ∃ w', panic_handler (Some "kernel/src/shell/mod.rs:262:31") "AlreadyExists"
    {| w_fs := kernel_start; w_vga := Vga.blank_screen; w_irqs := [] |} = (Ok Interrupts.Hangs, w') ∧
  ∃ row, Vga.chars (w_vga w') !! 23 = Some row ∧
    take 13 (Vga.ascii_character <$> row) = Fmt.bytes_of "AlreadyExists".
Proof.
  destruct (panic_reports (Some "kernel/src/shell/mod.rs:262:31") "AlreadyExists"
    {| w_fs := kernel_start; w_vga := Vga.blank_screen; w_irqs := [] |} (Vga.shows_wf _ _ Vga.blank_shows))
    as (w' & Hrun & _ & _ & _ & _ & Hs).
  exists w'. split; [exact Hrun|]. specialize (Hs {| d_term := Vga.blank_term; d_irqs := [] |} ltac:(split; [exact Vga.blank_shows|reflexivity])). rewrite (Vga.sh_chars _ _ Hs).
  eexists. split; [vm_compute; reflexivity|]. vm_compute. reflexivity.
Defined.
End PanicHandler.
