(* ===== verification/Kernel.v ===== *)
(** * [main.rs] and [memory::init]: the kernel starts

    [kernel_main] prints a line, loads the descriptor tables, enables interrupts,
    maps the heap, registers the drivers, mounts the file systems and spawns the
    shell's task.  The state here is that of the components it starts, each with
    the definitions of its own file. *)

From Stdlib Require Import Init.Byte.
From S2P Require Import Prelude Util Fmt FsTypes Fs Registry RamFs DevFs DirCache Path Vfs.
From S2P Require Import VfsFrame VfsInv VfsFiles VfsReach Vga VgaText Memory Executor Keyboard Interrupts.
From S2P Require Import Shell ShellFs.

Module Kernel.

(** [OffsetPageTable::new(table, offset)]: the mapper of the level 4 table at an
    address. *)
Class PageTables `{Memory.Mapper} := {
  OffsetPageTable_new : Memory.VirtAddr → Memory.VirtAddr → Memory.mapper;
}.

Section kernel.
Context `{!Memory.MemoryMap, !Memory.PhysFrames, !Memory.Paging, !Memory.Mapper, !PageTables}.
Context `{!Interrupts.Tables, !Interrupts.Pics}.
Context `{!Executor.ArrayQueue Z, !Keyboard.AtomicWaker Executor.TaskWaker}.

(** What the boot loader and the processor hand to the kernel: the offset at which
    physical memory is mapped, the memory map, the frame of the page table in
    [CR3], and the address of the double-fault stack. *)
Record BootInfo := {
  physical_memory_offset : Z;
  boot_memory_map : list Memory.MemoryRegion;
  cr3_start : Z;
  double_fault_stack : Memory.VirtAddr;
}.

Record t := {
  cpu : Interrupts.t;
  interrupts_enabled : bool;
  memory : option Memory.state;
  fs : kernel;
  tasks : option Keyboard.t;
}.
Abbreviation BM := (M t Empty_set).
Definition set_cpu (c : Interrupts.t) (m : t) : t :=
  {| cpu := c; interrupts_enabled := interrupts_enabled m; memory := memory m; fs := fs m; tasks := tasks m |}.
Definition enable_interrupts (m : t) : t :=
  {| cpu := cpu m; interrupts_enabled := true; memory := memory m; fs := fs m; tasks := tasks m |}.
Definition set_memory (s : Memory.state) (m : t) : t :=
  {| cpu := cpu m; interrupts_enabled := interrupts_enabled m; memory := Some s; fs := fs m; tasks := tasks m |}.
Definition set_kernel (k : kernel) (m : t) : t :=
  {| cpu := cpu m; interrupts_enabled := interrupts_enabled m; memory := memory m; fs := k; tasks := tasks m |}.
Definition set_tasks (e : Keyboard.t) (m : t) : t :=
  {| cpu := cpu m; interrupts_enabled := interrupts_enabled m; memory := memory m; fs := fs m; tasks := Some e |}.

Definition on_cpu {A} (c : M Interrupts.t Empty_set A) : BM A := λ m,
  let '(r, x) := c (cpu m) in (r, set_cpu x m).
Definition on_kernel {A} (c : M kernel Empty_set A) : BM A := λ m,
  let '(r, k) := c (fs m) in (r, set_kernel k m).
(** Code on the memory [s], which is the kernel's from there on. *)
Definition on_memory {A} (s : Memory.state) (c : M Memory.state Empty_set A) : BM A := λ m,
  let '(r, s') := c s in (r, set_memory s' m).

(** [memory::init]: the level 4 table is at its physical address plus the offset. *)
Definition active_level_4_table (offset : Memory.VirtAddr) (cr3 : Z) : BM Memory.VirtAddr :=
  unwrap ExplicitPanic (Memory.VirtAddr_add offset cr3).
Definition memory_init (offset : Memory.VirtAddr) (cr3 : Z) : BM Memory.mapper :=
  level_4_table ← active_level_4_table offset cr3;
  mret (OffsetPageTable_new level_4_table offset).

(** [Executor::new] and [spawn] of the shell's task, whose panics are the kernel's. *)
Definition spawn_shell : BM unit := λ m,
  let '(r, e) := Keyboard.spawn_shell_task in (r, set_tasks (Keyboard.machine_at Keyboard.RunLoop e) m).

(** The interrupts of one point of the run.  They change the screen and the
    interrupt controllers only. *)
Definition interrupted (l : list Interrupts.InterruptIndex) : BM unit := on_cpu (Interrupts.early_interrupts l).

(** [irqs n] are the interrupts that come at the [n]-th point after they have been
    enabled: before the offset is checked, the heap mapped, the drivers registered,
    the task spawned and the executor run.  None of these steps uses the screen or
    the interrupt controllers, so that an interrupt inside a step has the effect it
    has before it. *)
Definition kernel_main (irqs : nat → list Interrupts.InterruptIndex) (boot_info : BootInfo) : BM unit :=
  _ ← on_cpu (Interrupts.on_screen (Vga.println ("RiptideOS (v" +:+ Shell.CARGO_PKG_VERSION +:+ ")")));
  _ ← on_cpu (Interrupts.gdt_init (double_fault_stack boot_info));
  _ ← on_cpu Interrupts.init_idt;
  _ ← on_cpu Interrupts.init_pics;
  _ ← modify enable_interrupts;
  _ ← interrupted (irqs 0);
  phys_mem_offset ← unwrap ExplicitPanic (Memory.VirtAddr_new (physical_memory_offset boot_info));
  mapper ← memory_init phys_mem_offset (cr3_start boot_info);
  let frame_allocator := Memory.init (boot_memory_map boot_info) in
  _ ← interrupted (irqs 1);
  _ ← on_memory {| Memory.st_mapper := mapper; Memory.st_frames := frame_allocator; Memory.st_heap := None |}
        (expect Memory.init_heap);
  _ ← interrupted (irqs 2);
  _ ← on_kernel (expect boot);
  _ ← interrupted (irqs 3);
  _ ← spawn_shell;
  interrupted (irqs 4).

(** The machine as the boot loader leaves it, with the screen [v]. *)
Definition reset (v : Vga.t) : t :=
  {| cpu := Interrupts.boot v; interrupts_enabled := false; memory := None; fs := kernel_start; tasks := None |}.
End kernel.

(** ** The kernel starts *)

Section properties.
Context {Mm : Memory.MemoryMap} {Pf : Memory.PhysFrames} {Pg : Memory.Paging} {PgL : Memory.PagingLaws}.
Context {Mp : Memory.Mapper} {Pt : PageTables} {Tb : Interrupts.Tables} {TbL : Interrupts.TablesLaws} {Pc : Interrupts.Pics}.
Context {Aq : Executor.ArrayQueue Z} {AqL : Executor.ArrayQueueLaws Z} {Aw : Keyboard.AtomicWaker Executor.TaskWaker}.

(** The prefix up to the memory, which does not depend on it. *)
Lemma tables_run STACK v v' : (0 ≤ Memory.as_u64 STACK)%Z → (Memory.as_u64 STACK + 20480 < 2 ^ 47)%Z →
  Vga.println ("RiptideOS (v" +:+ Shell.CARGO_PKG_VERSION +:+ ")") v = (Ok tt, v') →
  ∃ c, (∀ (k : unit → M t Empty_set unit),
      (_ ← on_cpu (Interrupts.on_screen (Vga.println ("RiptideOS (v" +:+ Shell.CARGO_PKG_VERSION +:+ ")")));
       _ ← on_cpu (Interrupts.gdt_init STACK);
       _ ← on_cpu Interrupts.init_idt;
       _ ← on_cpu Interrupts.init_pics;
       _ ← modify enable_interrupts; k tt) (reset v) =
      k tt {| cpu := c; interrupts_enabled := true; memory := None; fs := kernel_start; tasks := None |}) ∧
    Interrupts.tables_loaded STACK c ∧ Interrupts.screen c = v' ∧
    Interrupts.PICS c = Interrupts.pics_initialize (Interrupts.pics_new 32 40).
Proof.
  intros Hs He Hp.
  destruct (Interrupts.gdt_init_run STACK v' Hs He) as (g & cd & d & s & top & Hrun & Hcode & Htss & Hst & Hv).
  assert (H1 : on_cpu (Interrupts.on_screen (Vga.println ("RiptideOS (v" +:+ Shell.CARGO_PKG_VERSION +:+ ")"))) (reset v) =
    (Ok tt, reset v')).
  { unfold on_cpu, Interrupts.on_screen. change (Interrupts.screen (cpu (reset v))) with v. by rewrite Hp. }
  set (c1 := {| Interrupts.IDT := None |}) in Hrun.
  assert (H2 : on_cpu (Interrupts.gdt_init STACK) (reset v') = (Ok tt, set_cpu c1 (reset v'))).
  { unfold on_cpu. change (cpu (reset v')) with (Interrupts.boot v'). by rewrite Hrun. }
  set (i := Interrupts.handlers Interrupts.idt_new). set (c2 := Interrupts.load_idt i (Interrupts.set_idt i c1)).
  assert (H3 : on_cpu Interrupts.init_idt (set_cpu c1 (reset v')) = (Ok tt, set_cpu c2 (reset v'))) by done.
  exists (Interrupts.set_pics (Interrupts.pics_initialize (Interrupts.PICS c2)) c2). split; [|split; [split|split]].
  - intros k. rewrite (mbind_run _ _ _ _ _ H1), (mbind_run _ _ _ _ _ H2), (mbind_run _ _ _ _ _ H3).
    reflexivity.
  - eexists. split_and!; [done..|]. apply Interrupts.handlers_spec.
  - by exists g, cd, d, s, top.
  - done.
  - done.
Qed.

Lemma boot_close_clean : files boot_close = ∅ ∧ held boot_close = [].
Proof. split; vm_compute; reflexivity. Qed.

(** The interrupts [l] have been taken, and nothing else has changed the processor
    since its controllers were [p] and its screen showed [a]. *)
Record served (l : list Interrupts.InterruptIndex) (STACK : Memory.VirtAddr) (p : Interrupts.pics) (a : Vga.term)
    (m : t) : Prop := {
  sv_tables : Interrupts.tables_loaded STACK (cpu m);
  sv_enabled : interrupts_enabled m = true;
  sv_pics : Interrupts.PICS (cpu m) = Interrupts.acknowledged l p;
  sv_screen : Vga.shows (Interrupts.screen (cpu m)) (Interrupts.irqs_text (Interrupts.early_irq <$> l) a);
}.
Lemma served_interrupted l l' STACK p a m : served l STACK p a m → ∃ m', interrupted l' m = (Ok tt, m') ∧
  served (l ++ l') STACK p a m' ∧ memory m' = memory m ∧ fs m' = fs m ∧ tasks m' = tasks m.
Proof.
  intros [Ht He Hp Hv]. destruct (Interrupts.early_interrupts_run l' _ _ Hv) as (v & Hrun & Hs).
  unfold interrupted, on_cpu. rewrite Hrun. eexists. split; [reflexivity|]. split; [|by split_and!]. split; [by destruct Ht; split|exact He| |].
  - simpl. unfold Interrupts.acknowledged in *. by rewrite Hp, foldl_app.
  - simpl. unfold Interrupts.irqs_text in *. by rewrite fmap_app, foldl_app.
Qed.
Lemma served_memory l STACK p a m ms : served l STACK p a m → served l STACK p a (set_memory ms m).
Proof. by intros []. Qed.
Lemma served_kernel l STACK p a m k : served l STACK p a m → served l STACK p a (set_kernel k m).
Proof. by intros []. Qed.
Lemma served_tasks l STACK p a m e : served l STACK p a m → served l STACK p a (set_tasks e m).
Proof. by intros []. Qed.

(** The run up to the heap. *)
Lemma kernel_main_heap irqs boot_info v a offset table : let STACK := double_fault_stack boot_info in
  (0 ≤ Memory.as_u64 STACK)%Z → (Memory.as_u64 STACK + 20480 < 2 ^ 47)%Z → Vga.shows v a →
  Memory.VirtAddr_new (physical_memory_offset boot_info) = Some offset →
  Memory.VirtAddr_add offset (cr3_start boot_info) = Some table →
  ∃ m, kernel_main irqs boot_info (reset v) =
      (_ ← on_memory {| Memory.st_mapper := OffsetPageTable_new table offset;
          Memory.st_frames := Memory.init (boot_memory_map boot_info); Memory.st_heap := None |} (expect Memory.init_heap);
       _ ← interrupted (irqs 2); _ ← on_kernel (expect boot); _ ← interrupted (irqs 3); _ ← spawn_shell;
       interrupted (irqs 4)) m ∧
    served (irqs 0 ++ irqs 1) STACK (Interrupts.pics_initialize (Interrupts.pics_new 32 40))
      (VgaText.line "RiptideOS (v0.1.0)" a) m ∧ fs m = kernel_start ∧ tasks m = None.
Proof.
  intros STACK Hs He Hv Hoff Htab.
  destruct (VgaText.println_shows ("RiptideOS (v" +:+ Shell.CARGO_PKG_VERSION +:+ ")") v a Hv) as (v' & Hp & Hv').
  destruct (tables_run STACK v v' Hs He Hp) as (c & Hrun & Hload & Hscr & Hpics). unfold kernel_main.
  set (m0 := {| cpu := c |}) in Hrun. rewrite (Hrun (λ _, _)), Hoff.
  assert (H0 : served [] STACK (Interrupts.pics_initialize (Interrupts.pics_new 32 40)) (VgaText.line "RiptideOS (v0.1.0)" a) m0).
  { split; [done|done|exact Hpics|]. unfold m0; simpl. rewrite Hscr. exact Hv'. }
  destruct (served_interrupted _ (irqs 0) _ _ _ _ H0) as (m1 & Hi1 & H1 & _ & Hf1 & Ht1).
  destruct (served_interrupted _ (irqs 1) _ _ _ _ H1) as (m2 & Hi2 & H2 & _ & Hf2 & Ht2).
  exists m2. rewrite (mbind_run _ _ _ _ _ Hi1). split; [|split; [exact H2|by rewrite Hf2, Hf1, Ht2, Ht1]].
  assert (Hmem : memory_init offset (cr3_start boot_info) m1 = (Ok (OffsetPageTable_new table offset), m1)).
  { unfold memory_init, active_level_4_table. by rewrite Htab. }
  assert (Hun : unwrap (E:=Empty_set) ExplicitPanic (Some offset) m1 = (Ok offset, m1)) by done.
  rewrite (mbind_run _ _ _ _ _ Hun), (mbind_run _ _ _ _ _ Hmem). cbv zeta. by rewrite (mbind_run _ _ _ _ _ Hi2).
Qed.

End properties.

(** ** A concrete machine *)

Module KernelRun.
Import (hints) Memory.Machine Interrupts.Descriptors ListQueue KeyboardRun.
(** The page table is empty. *)
#[export] Instance tables : PageTables := { OffsetPageTable_new := λ _ _, ∅ : gmap Z (Z * Z) }.
Definition boot_info : BootInfo := {| physical_memory_offset := 0x10000000000; boot_memory_map := Memory.Machine.regions;
  cr3_start := 0x1000; double_fault_stack := Interrupts.Descriptors.static_stack |}.

Definition offset : @Memory.VirtAddr Memory.Machine.paging := 0x10000000000%Z.
Definition table : @Memory.VirtAddr Memory.Machine.paging := 0x10000001000%Z.
Definition heapless : Memory.state := {| Memory.st_mapper := OffsetPageTable_new table offset;
  Memory.st_frames := Memory.init (boot_memory_map boot_info); Memory.st_heap := None |}.

(** Two timer ticks and a key, at different points. *)
Definition some_irqs (n : nat) : list Interrupts.InterruptIndex :=
  match n with 0 => [Interrupts.Timer] | 2 => [Interrupts.Keyboard; Interrupts.Timer] | _ => [] end.
End KernelRun.
End Kernel.
