(* ===== verification/System.v ===== *)
(** * The running system: interrupts, executor and shell together

    [Keyboard] moves scancodes from the interrupt handler to the shell's task and
    leaves open what the shell does with them; here it does what [Shell] says.  The
    shell starts when its task is polled first and handles a scancode when the task
    has taken one; interrupts come between any two steps, and print while the shell
    runs as they like.  The theorem follows a keystroke from the interrupt to the
    line on the screen. *)

From Stdlib Require Import Init.Byte.
From S2P Require Import Prelude Util Fmt FsTypes Fs Registry RamFs DevFs DirCache Path Vfs.
From S2P Require Import VfsFrame VfsInv VfsDirs VfsFiles VfsReach Executor Keyboard.
From S2P Require Import Parser Vga VgaText Interrupts Shell ShellFs ShellScreen ShellEdit ShellCmds ShellProps.

Module System.
Import Shell ShellFs ShellScreen ShellEdit ShellProps.

Section system.
Context {Uc : Fmt.Unicode} {Hs : HeaplessString} {Dq : Deque hstring} {Kd : KeyDecoder}.
Context {Aq : Executor.ArrayQueue Z} {Aw : Keyboard.AtomicWaker Executor.TaskWaker}.
(** What the cursor's data port returns, and the world when the executor starts. *)
Context (data_read : list (Z * Z) → Z) (w0 : world).

(** The shell: not started, or with its locals. *)
Record t := { machine : Keyboard.t; shell : option Shell.t }.

(** The interrupts that will print while the shell runs until it waits again. *)
Definition set_irqs (irqs : list (list Interrupts.irq)) (w : world) : world :=
  {| w_fs := w_fs w; w_vga := w_vga w; w_irqs := irqs |}.
Definition with_irqs (irqs : list (list Interrupts.irq)) (s : Shell.t) : Shell.t :=
  set_sys (set_irqs irqs (sys s)) s.

(** The shell's answer to a scancode. *)
Definition answer (r : outcome Empty_set bool) : Keyboard.key_result :=
  match r with
  | Ok exit => if exit : bool then Keyboard.Exit else Keyboard.Continue
  | Err e => match e with end
  | Panic p => Keyboard.Crash p
  end.

Definition at_shell (m : Keyboard.t) : bool :=
  match Keyboard.at_pc m with
  | Keyboard.Polling _ _ Keyboard.SInit | Keyboard.Polling _ _ (Keyboard.SProcess _) => true
  | _ => false
  end.

Inductive main : t → t → Prop :=
  (** [ScancodeStream::new], the cursor and the first prompt. *)
  | main_start m m' i w irqs s : Keyboard.at_pc m = Keyboard.Polling i w Keyboard.SInit →
      run_start data_read (set_irqs irqs w0) = (Ok tt, s) → Keyboard.main_step Keyboard.Continue m = Some m' →
      main {| machine := m; shell := None |} {| machine := m'; shell := Some s |}
  (** A scancode is handled. *)
  | main_key m m' i w sc irqs s r s' : Keyboard.at_pc m = Keyboard.Polling i w (Keyboard.SProcess sc) →
      handle_scancode sc (with_irqs irqs s) = (r, s') → Keyboard.main_step (answer r) m = Some m' →
      main {| machine := m; shell := Some s |} {| machine := m'; shell := Some s' |}
  (** Any other step of the executor. *)
  | main_other m m' c o : at_shell m = false → Keyboard.main_step c m = Some m' →
      main {| machine := m; shell := o |} {| machine := m'; shell := o |}.

Inductive step (x : t) : t → Prop :=
  | step_main y : main x y → step x y
  | step_keyboard sc : Keyboard.interrupts (machine x) = true → Keyboard.running (machine x) = true →
      step x {| machine := Keyboard.keyboard_interrupt_handler sc (machine x); shell := shell x |}
  | step_timer : Keyboard.interrupts (machine x) = true → Keyboard.running (machine x) = true →
      step x {| machine := Keyboard.timer_interrupt_handler (machine x); shell := shell x |}.

Inductive reach : t → Prop :=
  | reach_start : reach {| machine := Keyboard.start; shell := None |}
  | reach_step x y : reach x → step x y → reach y.

(** The system is a refinement of the machine of [Keyboard]. *)
Lemma main_machine x y : main x y → ∃ c, Keyboard.main_step c (machine x) = Some (machine y).
Proof. destruct 1; by eexists. Qed.
Lemma step_machine x y : step x y → Keyboard.step (machine x) (machine y).
Proof. destruct 1 as [y [c Hy]%main_machine|sc|]; [by econstructor|by apply Keyboard.step_keyboard|by apply Keyboard.step_timer]. Qed.
Lemma reach_machine x : reach x → Keyboard.reach (machine x).
Proof. induction 1 as [|x y _ IH Hst]; [constructor|]. econstructor; [done|by apply step_machine]. Qed.

(** The main program's next step as a function, when these interrupts print. *)
Definition main_fn (irqs : list (list Interrupts.irq)) (x : t) : option t :=
  let m := machine x in
  match Keyboard.at_pc m, shell x with
  | Keyboard.Polling _ _ Keyboard.SInit, None =>
      match run_start data_read (set_irqs irqs w0) with
      | (Ok _, s) => m' ← Keyboard.main_step Keyboard.Continue m; Some {| machine := m'; shell := Some s |}
      | _ => None
      end
  | Keyboard.Polling _ _ (Keyboard.SProcess sc), Some s =>
      let '(r, s') := handle_scancode sc (with_irqs irqs s) in
      m' ← Keyboard.main_step (answer r) m; Some {| machine := m'; shell := Some s' |}
  | _, o => if at_shell m then None else m' ← Keyboard.main_step Keyboard.Continue m; Some {| machine := m'; shell := o |}
  end.
Lemma main_fn_main irqs x y : main_fn irqs x = Some y → main x y.
Proof.
  destruct x as [m o]. unfold main_fn. simpl.
  assert (Hother : (if at_shell m then None else m' ← Keyboard.main_step Keyboard.Continue m; Some {| machine := m'; shell := o |}) = Some y →
    main {| machine := m; shell := o |} y).
  { destruct (at_shell m) eqn:Ha; [done|]. destruct (Keyboard.main_step _ m) as [m'|] eqn:Hm; [|done]. intros [= <-]. by eapply main_other. }
  destruct (Keyboard.at_pc m) as [|i w st| | | |] eqn:Hpc; try done. destruct st; try done; destruct o as [s|]; try done.
  - destruct (run_start _ _) as [[[]|[]|] s] eqn:Hrun; try done. destruct (Keyboard.main_step _ m) as [m'|] eqn:Hm; [|done].
    intros [= <-]. by eapply main_start.
  - destruct (handle_scancode _ _) as [r s'] eqn:Hrun. destruct (Keyboard.main_step (answer r) m) as [m'|] eqn:Hm; [|done].
    intros [= <-]. by eapply main_key.
Qed.
(** The main program alone, for [n] steps or until it rests. *)
Fixpoint mains (n : nat) (x : t) : t :=
  match n with
  | 0 => x
  | S n' => match main_fn [] x with Some y => mains n' y | None => x end
  end.
Lemma sys_reach_mains n : ∀ x, reach x → reach (mains n x).
Proof.
  induction n as [|n IH]; intros x Hx; [done|]. simpl. destruct (main_fn [] x) as [y|] eqn:Hy; [|done].
  apply IH. econstructor; [done|]. by eapply step_main, main_fn_main.
Qed.
(** A key is pressed. *)
Definition press (sc : Z) (x : t) : t :=
  {| machine := Keyboard.keyboard_interrupt_handler sc (machine x); shell := shell x |}.
Lemma reach_press sc x : reach x → Keyboard.interrupts (machine x) = true → Keyboard.running (machine x) = true →
  reach (press sc x).
Proof. intros. econstructor; [done|by apply step_keyboard]. Qed.

(** ** What the steps outside the shell keep *)

Section invariant.
Context {HsL : HeaplessStringLaws} {DqL : DequeLaws hstring}.
Context {AqL : Executor.ArrayQueueLaws Z} {AwL : Keyboard.AtomicWakerLaws Executor.TaskWaker}.
Hypotheses (Hfs0 : sys_ok (w_fs w0)) (Hvga0 : Vga.wf (w_vga w0)).
Abbreviation shell_task m := (Executor.tasks (Keyboard.executor m) !! 0%Z).

Record keeps (m m' : Keyboard.t) : Prop := {
  kp_delivered : Keyboard.delivered m' = Keyboard.delivered m;
  kp_task : is_Some (shell_task m') → is_Some (shell_task m);
  kp_queue : is_Some (Keyboard.SCANCODE_QUEUE m') ↔ is_Some (Keyboard.SCANCODE_QUEUE m);
  kp_crash p : Keyboard.at_pc m' = Keyboard.Crashed p → p = UnwrapErr;
}.

Lemma main_keeps c m m' : Keyboard.inv m → Keyboard.running m = true → at_shell m = false →
  Keyboard.main_step c m = Some m' → keeps m m'.
Proof.
  intros Hi Hr Ha Hst.
  assert (Hnc : ∀ p, Keyboard.at_pc m' ≠ Keyboard.Crashed p).
  { intros p Hp. destruct (Keyboard.main_step_crash c m m' p Hi Hr Hst Hp) as (i & w & sc & Hpc).
    unfold at_shell in Ha. by rewrite Hpc in Ha. }
  assert (Hk : ∀ m1, Some m1 = Some m' → Keyboard.delivered m1 = Keyboard.delivered m →
    (is_Some (shell_task m1) → is_Some (shell_task m)) →
    (is_Some (Keyboard.SCANCODE_QUEUE m1) ↔ is_Some (Keyboard.SCANCODE_QUEUE m)) → keeps m m').
  { intros m1 [= ->] ???. split; [done..|]. intros p Hp. by destruct (Hnc p). }
  pose proof (Keyboard.iv_pc _ Hi) as P. unfold Keyboard.main_step, Keyboard.pc_ok, at_shell in *.
  destruct (Keyboard.at_pc m) as [|i w st| | | |] eqn:Hpc; try done; try (by apply (Hk _ Hst)).
  - unfold Keyboard.on_executor in Hst. rewrite Executor.next_ready_run in Hst by apply Hi.
    destruct (Executor.queue_pop _) as [[i q]|]; [|by apply (Hk _ Hst)].
    by destruct (_ !! i) as [[]|]; apply (Hk _ Hst).
  - destruct P as (-> & -> & Ht & Hq).
    destruct st; try done; unfold Keyboard.poll_step, Keyboard.pop_scancode in *; try (by apply (Hk _ Hst)).
    + destruct Hq as [q Hq]. rewrite Hq in Hst.
      destruct (Executor.queue_pop q) as [[sc q']|]; by apply (Hk _ Hst); rewrite ?Hq.
    + destruct Hq as [[q Hq] _]. rewrite Hq in Hst.
      destruct (Executor.queue_pop q) as [[sc q']|]; by apply (Hk _ Hst); rewrite ?Hq.
Qed.

Lemma resume_keeps m : Keyboard.running m = true → keeps m (Keyboard.resume m).
Proof. intros Hr. unfold Keyboard.resume, Keyboard.running in *. split; destruct (Keyboard.at_pc m) eqn:Hpc; simpl; rewrite ?Hpc; done. Qed.

Lemma keyboard_keeps sc m : Keyboard.inv m → Keyboard.running m = true →
  keeps m (Keyboard.keyboard_interrupt_handler sc m).
Proof.
  intros Hi Hr. unfold Keyboard.keyboard_interrupt_handler. destruct (resume_keeps m Hr) as [Hd Ht Hq _].
  assert (Hr' : Keyboard.running (Keyboard.resume m) = true).
  { unfold Keyboard.resume, Keyboard.running in *. by destruct (Keyboard.at_pc m) eqn:Hpc; simpl; rewrite ?Hpc. }
  apply Keyboard.inv_resume in Hi. destruct (Keyboard.resume m) as [e Q W n pc ws acc del] eqn:Hm.
  split; [| | |intros p Hp; by apply (Keyboard.add_scancode_crash sc) in Hp as [? _]].
  all: unfold Keyboard.add_scancode, Keyboard.wake, Keyboard.on_executor, Executor.wake_task; simpl in *.
  all: destruct Q as [q|]; [|done]; destruct (Executor.queue_push sc q); [|done]; simpl.
  all: destruct (Keyboard.waker_take W) as [[w|] a]; [rewrite Executor.push_task_run; simpl|];
    [destruct (Executor.queue_push _ _)|]; try done; rewrite <- Hq; by split; eauto.
Qed.

(** ** The invariant *)

(** The line that the handled scancodes make: a character extends it, Backspace
    shortens it, Enter starts a new one. *)
Definition line_of (scs : list Z) : list Z := foldl line_key [] (decoded scs kd_new).
Definition ascii_keys (scs : list Z) : Prop := Forall (λ k, ascii_key k.1) (decoded scs kd_new).

Lemma line_of_snoc scs sc :
  line_of (scs ++ [sc]) = foldl line_key (line_of scs) (decoded [sc] (decoder_after scs kd_new)).
Proof. unfold line_of. by rewrite decoded_app, foldl_app. Qed.
Lemma decoder_after_snoc scs sc k : decoder_after (scs ++ [sc]) k = (decode sc (decoder_after scs k)).2.
Proof. unfold decoder_after. by rewrite foldl_app. Qed.
Lemma ascii_keys_snoc scs sc : ascii_keys (scs ++ [sc]) →
  ascii_keys scs ∧ Forall (λ k, ascii_key k.1) (decoded [sc] (decoder_after scs kd_new)).
Proof. unfold ascii_keys. rewrite decoded_app. by intros [? ?]%Forall_app. Qed.

(** The file subsystem is whole, and the shell, unless it has exited, holds the line
    of the handled scancodes. *)
Record shell_ok (m : Keyboard.t) (s : Shell.t) : Prop := {
  so_fs : sys_ok (w_fs (sys s));
  so_held : held (w_fs (sys s)) = held (w_fs w0);
  so_line : is_Some (shell_task m) → buffer_ok s (line_of (Keyboard.delivered m)) ∧
    keyboard s = decoder_after (Keyboard.delivered m) kd_new ∧ dq_capacity (history s) = HISTORY_LEN;
}.
Definition sys_inv (x : t) : Prop :=
  let m := machine x in
  match shell x with
  | None => Keyboard.SCANCODE_QUEUE m = None ∧ Keyboard.delivered m = [] ∧
      ∀ p, Keyboard.at_pc m = Keyboard.Crashed p → p = UnwrapErr
  | Some s => is_Some (Keyboard.SCANCODE_QUEUE m) ∧
      (ascii_keys (Keyboard.delivered m) → no_wrap (w_fs (sys s)) →
       match Keyboard.at_pc m with Keyboard.Crashed p => shell_panic p | _ => shell_ok m s end)
  end.

Lemma keeps_inv m m' o : Keyboard.running m = true → keeps m m' →
  sys_inv {| machine := m; shell := o |} → sys_inv {| machine := m'; shell := o |}.
Proof.
  intros Hr [Hd Ht Hq Hc]. unfold sys_inv. simpl. destruct o as [s|].
  - intros [Hsc Hok]. split; [by apply Hq|]. rewrite Hd. intros Ha Hwrap. specialize (Hok Ha Hwrap).
    assert (Hsh : shell_ok m' s).
    { unfold Keyboard.running in Hr. assert (shell_ok m s) as [] by by destruct (Keyboard.at_pc m).
      split; [done..|]. rewrite Hd. eauto. }
    destruct (Keyboard.at_pc m') eqn:Hpc; try done. rewrite (Hc _ eq_refl). by right; left.
  - intros (Hsc & Hdel & _). split_and!; [|congruence|done]. apply eq_None_not_Some. rewrite Hq, Hsc. by intros [].
Qed.

Lemma start_inv m m' i w irqs s : Keyboard.inv m → Keyboard.at_pc m = Keyboard.Polling i w Keyboard.SInit →
  run_start data_read (set_irqs irqs w0) = (Ok tt, s) → Keyboard.main_step Keyboard.Continue m = Some m' →
  Keyboard.delivered m = [] → sys_inv {| machine := m'; shell := Some s |}.
Proof.
  intros Hi Hpc Hrun Hst Hdel. destruct (run_start_ok data_read (set_irqs irqs w0) Hvga0) as (s1 & Hrun1 & Hb & Hf & Hk & _ & Hcap & _).
  rewrite Hrun1 in Hrun. injection Hrun as ->. pose proof (Keyboard.iv_pc _ Hi) as P.
  unfold Keyboard.main_step, Keyboard.pc_ok in *. rewrite Hpc in *. destruct P as (_ & _ & Ht & Hq).
  simpl in *. unfold Keyboard.ScancodeStream_new in Hst. rewrite Hq in Hst. injection Hst as <-.
  unfold sys_inv. simpl. split; [done|]. intros _ _. split; rewrite ?Hf; [done..|]. simpl. rewrite Hdel. by intros _.
Qed.

Lemma key_inv m m' i w sc irqs s r s' : Keyboard.inv m → Keyboard.at_pc m = Keyboard.Polling i w (Keyboard.SProcess sc) →
  handle_scancode sc (with_irqs irqs s) = (r, s') → Keyboard.main_step (answer r) m = Some m' →
  sys_inv {| machine := m; shell := Some s |} → sys_inv {| machine := m'; shell := Some s' |}.
Proof.
  intros Hi Hpc Hrun Hst [Hq Hok]. pose proof (Keyboard.iv_pc _ Hi) as P.
  unfold Keyboard.main_step, Keyboard.pc_ok in *. simpl in *. rewrite Hpc in *. destruct P as (-> & -> & Ht & _).
  assert (Hd : Keyboard.delivered m' = Keyboard.delivered m ++ [sc]) by by destruct r as [[]|[]|]; injection Hst as <-.
  assert (Hq' : is_Some (Keyboard.SCANCODE_QUEUE m')) by by destruct r as [[]|[]|]; injection Hst as <-.
  split; simpl; [done|]. rewrite Hd. intros [Ha Hsc]%ascii_keys_snoc Hwrap.
  assert (Hwrap0 : no_wrap (w_fs (sys s))).
  { eapply counts_le_no_wrap; [|exact Hwrap]. by eapply (le_handle_scancode sc (with_irqs irqs s)). }
  destruct (Hok Ha Hwrap0) as [Hfs Hheld Hline]. destruct (Hline Ht) as (Hb & Hk & Hcap). rewrite <- Hk in Hsc.
  pose proof (scancode_step (with_irqs irqs s) _ sc r s' ltac:(destruct Hb; by split) Hfs Hcap Hsc Hrun Hwrap) as Hspec.
  destruct r as [exit|[]|p]; [|by injection Hst as <-]. destruct Hspec as (Hfs' & Hheld' & Hgo).
  destruct exit; injection Hst as <-; simpl.
  - split; [done|by rewrite Hheld'|]. simpl. rewrite lookup_delete_eq. by intros [].
  - split; [done|by rewrite Hheld'|]. intros _. simpl. destruct (Hgo eq_refl) as (Hb' & Hk' & Hcap').
    rewrite line_of_snoc, decoder_after_snoc, <- Hk. done.
Qed.

Lemma main_running c m m' : Keyboard.main_step c m = Some m' → Keyboard.running m = true.
Proof. unfold Keyboard.main_step, Keyboard.running. by destruct (Keyboard.at_pc m). Qed.
Lemma main_inv x y : Keyboard.inv (machine x) → main x y → sys_inv x → sys_inv y.
Proof.
  intros Hi. destruct 1 as [m m' i w irqs s Hpc Hrun Hst|m m' i w sc irqs s r s' Hpc Hrun Hst|m m' c o Ha Hst]; intros IH.
  - eapply start_inv; [done..|by destruct IH as (_ & ? & _)].
  - by eapply key_inv.
  - pose proof (main_running _ _ _ Hst) as Hr. by eapply keeps_inv, IH; [|eapply main_keeps].
Qed.
Lemma reach_sys_inv x : reach x → sys_inv x.
Proof.
  induction 1 as [|x y Hx%reach_machine%Keyboard.reach_inv IH Hst].
  { unfold sys_inv, Keyboard.start. simpl. by destruct Keyboard.spawn_shell_task_run as (e & -> & _). }
  destruct Hst as [y Hst|sc Hi Hr|Hi Hr].
  - destruct (main_machine _ _ Hst) as [c Hr%main_running]. by eapply main_inv; [apply Hx|..].
  - destruct x as [m o]. eapply keeps_inv; [done|apply keyboard_keeps; auto|done].
  - destruct x as [m o]. eapply keeps_inv; [done|by apply resume_keeps|done].
Qed.

(** ** Progress *)

Definition at_rest (m : Keyboard.t) : Prop :=
  match Keyboard.at_pc m with Keyboard.Halted | Keyboard.Crashed _ => True | _ => False end.
#[export] Instance at_rest_dec m : Decision (at_rest m).
Proof. unfold at_rest. destruct (Keyboard.at_pc m); apply _. Defined.

Lemma main_progress x : Keyboard.inv (machine x) → sys_inv x → ¬ at_rest (machine x) → ∃ y, main x y.
Proof.
  destruct x as [m o]. intros Hi Hx Hn. pose proof (Keyboard.iv_pc _ Hi) as P. unfold Keyboard.pc_ok, sys_inv in *. simpl in *.
  assert (Hgo : ∀ c, is_Some (Keyboard.main_step c m)).
  { intros c. unfold at_rest, Keyboard.main_step in *. by destruct (Keyboard.at_pc m). }
  destruct (at_shell m) eqn:Ha; [|destruct (Hgo Keyboard.Continue) as [m' Hm]; eexists; by eapply main_other].
  unfold at_shell in Ha. destruct (Keyboard.at_pc m) as [|i w st| | | |] eqn:Hpc; try done.
  destruct P as (_ & _ & _ & Hq). destruct st; try done; destruct o as [s|].
  - destruct Hx as [[q Hx] _]. congruence.
  - destruct (run_start_ok data_read (set_irqs [] w0) Hvga0) as (s & Hrun & _).
    destruct (Hgo Keyboard.Continue) as [m' Hm]. eexists. by eapply main_start.
  - destruct (handle_scancode scancode (with_irqs [] s)) as [r s'] eqn:Hrun. destruct (Hgo (answer r)) as [m' Hm].
    eexists. by eapply main_key.
  - destruct Hx as [Hx _], Hq as [q Hq]. congruence.
Qed.

Lemma main_accepted c m m' : Keyboard.main_step c m = Some m' → Keyboard.accepted m' = Keyboard.accepted m.
Proof.
  unfold Keyboard.main_step. destruct (Keyboard.at_pc m) as [|i w st| | | |]; intros [= <-]; try done.
  - unfold Keyboard.on_executor. by destruct (Executor.next_ready _) as [[|[]|] e].
  - destruct st; simpl; unfold Keyboard.ScancodeStream_new, Keyboard.pop_scancode; try done.
    + by destruct (Keyboard.SCANCODE_QUEUE m).
    + destruct (Keyboard.SCANCODE_QUEUE m); [|done]. by destruct (Executor.queue_pop _) as [[]|].
    + destruct (Keyboard.SCANCODE_QUEUE m); [|done]. by destruct (Executor.queue_pop _) as [[]|].
    + by destruct c.
Qed.

Lemma main_weight x y : reach x → main x y → Keyboard.weight (machine y) < Keyboard.weight (machine x).
Proof.
  intros Hx%reach_machine%Keyboard.reach_inv [c Hm]%main_machine.
  eapply Keyboard.main_step_weight, Hm. by eapply Hx, main_running.
Qed.
Lemma nsteps_weight n : ∀ x y, reach x → nsteps main n x y → n ≤ Keyboard.weight (machine x).
Proof.
  induction n as [|n IH]; intros x y Hx Hn; [lia|]. inversion Hn as [|? ? x1 ? Hm Hn']; subst.
  pose proof (main_weight _ _ Hx Hm). assert (Hx1 : reach x1) by (econstructor; [done|by apply step_main]).
  specialize (IH x1 y Hx1 Hn'). lia.
Qed.
Lemma rests n : ∀ x, Keyboard.weight (machine x) < n → reach x →
  ∃ y, rtc main x y ∧ reach y ∧ at_rest (machine y) ∧ Keyboard.accepted (machine y) = Keyboard.accepted (machine x).
Proof.
  induction n as [|n IH]; intros x Hn Hx; [lia|]. destruct (decide (at_rest (machine x))) as [Hr|Hr]; [by exists x|].
  assert (Hi : Keyboard.inv (machine x)).
  { apply (Keyboard.reach_inv _ (reach_machine _ Hx)). unfold at_rest, Keyboard.running in *. by destruct (Keyboard.at_pc _). }
  destruct (main_progress x Hi (reach_sys_inv x Hx) Hr) as [x1 Hm]. pose proof (main_weight _ _ Hx Hm).
  destruct (IH x1 ltac:(lia)) as (y & Hy & Hyr & Hyi & Hya); [econstructor; [done|by apply step_main]|].
  exists y. split_and!; [by econstructor|done..|]. destruct (main_machine _ _ Hm) as [c Hc%main_accepted]. congruence.
Qed.

(** ** The theorems *)

(** C4: a keystroke reaches the line.  In every state of the running system, with
    interrupts at any moment: the scancodes that entered the queue are those the
    shell handled, the one it is handling and those that wait; as long as the
    handled ones decode to ASCII and no counter wraps, the file subsystem satisfies
    its invariants, no reference to an entry is held, and until the shell exits its
    input buffer is the line the handled scancodes make.  When the processor is
    halted, that is the line of all the scancodes accepted so far.  The kernel has
    panicked only in a command or, with 100 queued wake-ups, in a wake-up. *)
Theorem keys_reach_line x s : reach x → shell x = Some s →
  ascii_keys (Keyboard.delivered (machine x)) → no_wrap (w_fs (sys s)) →
  match Keyboard.at_pc (machine x) with
  | Keyboard.Crashed p => shell_panic p
  | p =>
      Keyboard.accepted (machine x) =
        Keyboard.delivered (machine x) ++ Keyboard.in_flight (machine x) ++ Keyboard.waiting (machine x) ∧
      sys_ok (w_fs (sys s)) ∧ held (w_fs (sys s)) = held (w_fs w0) ∧
      (is_Some (shell_task (machine x)) →
        hs_chars (input_buffer s) = line_of (Keyboard.delivered (machine x)) ∧
        length (hs_chars (input_buffer s)) ≤ 65 ∧
        (p = Keyboard.Halted → hs_chars (input_buffer s) = line_of (Keyboard.accepted (machine x))))
  end.
Proof.
  intros Hx Hsh Ha Hwrap. pose proof (reach_sys_inv x Hx) as Hok. unfold sys_inv in Hok. rewrite Hsh in Hok.
  destruct Hok as [_ Hok]. specialize (Hok Ha Hwrap). destruct (decide (Keyboard.running (machine x) = true)) as [Hr|Hr].
  2:{ unfold Keyboard.running in Hr. by destruct (Keyboard.at_pc (machine x)). }
  pose proof (Keyboard.reach_inv _ (reach_machine _ Hx) Hr) as Hi. pose proof (Keyboard.iv_log _ Hi) as Hlog.
  assert (shell_ok (machine x) s) as [Hfs Hheld Hline].
  { unfold Keyboard.running in Hr. by destruct (Keyboard.at_pc (machine x)). }
  assert (Hend : is_Some (shell_task (machine x)) → hs_chars (input_buffer s) = line_of (Keyboard.delivered (machine x)) ∧
    length (hs_chars (input_buffer s)) ≤ 65 ∧ (Keyboard.at_pc (machine x) = Keyboard.Halted →
      hs_chars (input_buffer s) = line_of (Keyboard.accepted (machine x)))).
  { intros Ht. destruct (Hline Ht) as ([Hch _ _ Hfit _ _] & _ & _). rewrite Hch. split_and!; [done..|].
    intros Hpc. destruct (Keyboard.halted_idle _ Hi Hpc Ht) as [Hw _]. rewrite Hlog. unfold Keyboard.in_flight.
    by rewrite Hpc, Hw, app_nil_r. }
  unfold Keyboard.running in Hr. destruct (Keyboard.at_pc (machine x)); done.
Qed.

(** C5: without interrupts the system comes to rest.  From every reachable state,
    whatever interrupts print while the shell runs, a run of the main program is
    no longer than ten steps for each queued wake-up and waiting scancode and
    eight more; it is never stuck, and ends with the processor halted or with a
    panic. *)
Theorem system_comes_to_rest x : reach x →
  (∀ n y, nsteps main n x y → n ≤ 10 * length (Executor.contents (Executor.task_queue (Keyboard.executor (machine x)))) +
    10 * length (Keyboard.waiting (machine x)) + 8) ∧
  ∃ y, rtc main x y ∧ reach y ∧ at_rest (machine y) ∧ Keyboard.accepted (machine y) = Keyboard.accepted (machine x).
Proof.
  intros Hx. split; [|by eapply rests; [apply Nat.lt_succ_diag_r|]]. intros n y Hn%nsteps_weight; [|done]. etrans; [exact Hn|].
  unfold Keyboard.weight. apply Nat.add_le_mono_l. unfold Keyboard.pc_weight. repeat case_match; lia.
Qed.

End invariant.
End system.
End System.

(** ** Witnesses

    Two keys arrive while the processor is halted; then it rests with the line [ls]
    typed. *)
Module SystemRun.
Import Shell ShellFs ShellScreen ShellEdit ShellCmds ShellProps ShellRun System.
Import (hints) Executor.ListQueue.
Import (hints) KeyboardRun.

Definition start : t := {| machine := Keyboard.start; shell := None |}.
Definition idle : t := mains (λ _, 0%Z) start_world 10 start.
Definition pressed : t := press 115 (press 108 idle).
Definition typed : t := mains (λ _, 0%Z) start_world 20 pressed.

Lemma sys_reach_pressed : reach (λ _, 0%Z) start_world pressed.
Proof.
  apply reach_press; [apply reach_press; [apply sys_reach_mains, reach_start|..]|..]; vm_compute; reflexivity.
Qed.

Lemma keys_reach_line_witness : ∃ s, shell typed = Some s ∧ Keyboard.at_pc (machine typed) = Keyboard.Halted ∧
  sys_ok (w_fs (sys s)) ∧ hs_chars (input_buffer s) = [108; 115]%Z.
Proof.
  assert (Hx : reach (λ _, 0%Z) start_world typed) by exact (sys_reach_mains _ _ 20 pressed sys_reach_pressed).
  assert (Hpc : Keyboard.at_pc (machine typed) = Keyboard.Halted) by (vm_compute; reflexivity).
  assert (Hsome : match shell typed with Some _ => true | None => false end = true) by (vm_compute; reflexivity).
  assert (Ha : ascii_keys (Keyboard.delivered (machine typed))).
  { assert (Hd : Keyboard.delivered (machine typed) = [108; 115]%Z) by (vm_compute; reflexivity).
    rewrite Hd. repeat (constructor; [simpl; lia|]). constructor. }
  assert (Ht : is_Some (Executor.tasks (Keyboard.executor (machine typed)) !! 0%Z)).
  { apply (bool_decide_unpack _). vm_compute. exact I. }
  assert (Hwrap : match shell typed with Some s => no_wrap (w_fs (sys s)) | None => True end)
    by (vm_compute; repeat split; discriminate).
  destruct (shell typed) as [s|] eqn:Hs; [|discriminate Hsome]. exists s. split; [reflexivity|]. split; [exact Hpc|].
  pose proof (keys_reach_line (λ _, 0%Z) start_world boot_close_ok (VgaText.fr_wf _ start_fresh) typed s Hx Hs Ha Hwrap) as Hk.
  rewrite Hpc in Hk. destruct Hk as (_ & Hfs & _ & Hl). split; [exact Hfs|].
  destruct (Hl Ht) as (Hline & _). rewrite Hline. vm_compute. reflexivity.
Defined.

Lemma system_comes_to_rest_witness : ∃ y, rtc (main (λ _, 0%Z) start_world) pressed y ∧
  at_rest (machine y) ∧ Keyboard.accepted (machine y) = [108; 115]%Z.
Proof.
  destruct (system_comes_to_rest (λ _, 0%Z) start_world boot_close_ok (VgaText.fr_wf _ start_fresh) pressed sys_reach_pressed)
    as (_ & y & Hy & _ & Hr & Ha).
  exists y. split; [exact Hy|]. split; [exact Hr|]. rewrite Ha. vm_compute. reflexivity.
Defined.
End SystemRun.
